(** * Email agent: analysis, reconciliation and enrichment, verified

    A shallow embedding of the backend of the email agent
    (backend/app/services and backend/app/api/v1/endpoints) together with
    the properties its design document states about it.

    Conventions of the embedding.
    - A Python [str] is a [string] and the texts are ASCII texts:
      [str.lower] lowers the letters A to Z, and the keyword sets and the
      patterns of the analyzer are ASCII.
    - A Python [float] that the code only ever adds, compares and
      multiplies by 0.5 is a rational [Q]: every value the urgency score
      goes through is a multiple of 0.5 far below 2^53, where binary64
      arithmetic is exact.
    - A [datetime] is the number of microseconds since 0001-01-01T00:00:00,
      a [timedelta] a number of microseconds; an addition that leaves the
      range of [datetime] raises [OverflowError].
    - An exception is a value of [exn]; code that can raise returns a
      [result]; [try ... except Exception] is [try_except].
    - A table of the database is the list of its rows in insertion order,
      or a [gmap] from primary key to row where rows are updated in place. *)

From Stdlib Require Import ZArith QArith Qminmax Lqa Lia List Bool Ascii String.
From stdpp Require Import base option list gmap strings pretty.

Set Warnings "-register-all".

Local Open Scope string_scope.
Local Open Scope Z_scope.

(** ** Python primitives *)

Module Py.

(** Exceptions the modelled code can meet. [ArgumentError] is
    SQLAlchemy's, for a criterion that is no SQL expression; [DBAPIError]
    is what the session raises when the driver refuses a statement. *)
Inductive exn :=
  | AttributeError | KeyError | TypeError | ValueError | OverflowError
  | ProviderError | ArgumentError | DBAPIError.

Inductive result (A : Type) :=
  | Ok (a : A)
  | Raise (e : exn).
Arguments Ok {A} a.
Arguments Raise {A} e.

#[global] Instance result_ret : MRet result := fun A a => Ok a.
#[global] Instance result_bind : MBind result := fun A B k m =>
  match m with
  | Ok a => k a
  | Raise e => Raise e
  end.

Definition try_except {A} (body : result A) (handler : exn -> A) : A :=
  match body with
  | Ok a => a
  | Raise e => handler e
  end.

(** [bool(s)] for a string: the empty string is falsy. *)
Definition truthy (s : string) : bool :=
  match s with
  | EmptyString => false
  | String _ _ => true
  end.

(** [s.startswith(p)] *)
Fixpoint startswith (p s : string) : bool :=
  match p with
  | EmptyString => true
  | String a p' =>
      match s with
      | EmptyString => false
      | String b s' => Ascii.eqb a b && startswith p' s'
      end
  end.

(** [k in s] for two strings: [k] occurs in [s] as a substring. *)
Fixpoint contains (k s : string) : bool :=
  startswith k s ||
  match s with
  | EmptyString => false
  | String _ s' => contains k s'
  end.

Definition is_upper (c : ascii) : bool :=
  (65 <=? nat_of_ascii c)%nat && (nat_of_ascii c <=? 90)%nat.

Definition lower_char (c : ascii) : ascii :=
  if is_upper c then ascii_of_nat (nat_of_ascii c + 32) else c.

(** [s.lower()] *)
Fixpoint lower (s : string) : string :=
  match s with
  | EmptyString => EmptyString
  | String c s' => String (lower_char c) (lower s')
  end.

(** [s.count(c)] for a one-character needle. *)
Fixpoint count (c : ascii) (s : string) : Z :=
  match s with
  | EmptyString => 0
  | String d s' => (if Ascii.eqb c d then 1 else 0) + count c s'
  end.

(** [s.replace(c, r)] for a one-character needle: every occurrence. *)
Fixpoint replace (c : ascii) (r s : string) : string :=
  match s with
  | EmptyString => EmptyString
  | String d s' =>
      if Ascii.eqb c d then r +:+ replace c r s' else String d (replace c r s')
  end.

(** [sum(1 for x in xs if p(x))] *)
Definition count_if {A} (p : A -> bool) (xs : list A) : Z :=
  fold_left (fun acc x => if p x then acc + 1 else acc) xs 0.

(** [max(xs, key=key)] over a non-empty iterable: the first element whose
    key is maximal (a later element takes over only when strictly greater). *)
Definition max_by {A} (key : A -> Z) (x0 : A) (xs : list A) : A :=
  fold_left (fun best x => if key best <? key x then x else best) xs x0.

(** [max(xs)] over a non-empty iterable of integers. *)
Definition max_of (x0 : Z) (xs : list Z) : Z := max_by (fun x => x) x0 xs.

(** [min(a, b)] and [max(a, b)] on floats: the second argument is returned
    only when it is strictly smaller (greater). *)
Definition fmin (a b : Q) : Q := if Qle_bool a b then a else b.
Definition fmax (a b : Q) : Q := if Qle_bool b a then a else b.

(** *** datetime *)

Definition datetime := Z.
Definition timedelta := Z.

Definition us_per_second : Z := 1000000.
Definition us_per_minute : Z := 60 * us_per_second.
Definition us_per_hour : Z := 60 * us_per_minute.
Definition us_per_day : Z := 24 * us_per_hour.

Definition minutes (n : Z) : timedelta := n * us_per_minute.
Definition hours (n : Z) : timedelta := n * us_per_hour.
Definition days (n : Z) : timedelta := n * us_per_day.

(** [date.max.toordinal()] is 3652059: the days of years 1 to 9999. *)
Definition max_ordinal : Z := 3652059.

Definition in_range (t : Z) : bool :=
  (0 <=? t) && (t <? max_ordinal * us_per_day).

(** [t + d] and [t - d] for a datetime and a timedelta. *)
Definition dt_add (t : datetime) (d : timedelta) : result datetime :=
  if in_range (t + d) then Ok (t + d) else Raise OverflowError.
Definition dt_sub (t : datetime) (d : timedelta) : result datetime :=
  dt_add t (- d).

(** [t.date()] as a day index (ordinal minus one) and [date.weekday()],
    [(toordinal() + 6) % 7]: Monday is 0. *)
Definition date_of (t : datetime) : Z := t / us_per_day.
Definition weekday (d : Z) : Z := (d + 1 + 6) mod 7.

(** [datetime.combine(d, time(hour=h))] *)
Definition combine (d : Z) (h : Z) : datetime := d * us_per_day + hours h.

(** *** JSON values, as [json.loads] returns them

    [JNull] is also Python's [None]. A dict is the list of its items. *)
Inductive json :=
  | JNull
  | JBool (b : bool)
  | JNum (q : Q)
  | JStr (s : string)
  | JList (l : list json)
  | JDict (d : list (string * json)).

(** [bool(v)] *)
Definition py_truthy (v : json) : bool :=
  match v with
  | JNull => false
  | JBool b => b
  | JNum q => negb (Qeq_bool q 0)
  | JStr s => truthy s
  | JList l => match l with [] => false | _ => true end
  | JDict d => match d with [] => false | _ => true end
  end.

Fixpoint assoc {V} (k : string) (d : list (string * V)) : option V :=
  match d with
  | [] => None
  | (k', v) :: d' => if String.eqb k k' then Some v else assoc k d'
  end.

(** [d.get(k, default)] on a dict given by its items. *)
Definition dict_get {V} (d : list (string * V)) (k : string) (default : V) : V :=
  match assoc k d with
  | Some v => v
  | None => default
  end.

(** [v.get(k, default)]: only a dict has [get]. *)
Definition py_get (v : json) (k : string) (default : json) : result json :=
  match v with
  | JDict d => Ok (dict_get d k default)
  | _ => Raise AttributeError
  end.

(** [v[k]] for a string key. *)
Definition py_index (v : json) (k : string) : result json :=
  match v with
  | JDict d =>
      match assoc k d with
      | Some x => Ok x
      | None => Raise KeyError
      end
  | _ => Raise TypeError
  end.

Fixpoint chars (s : string) : list json :=
  match s with
  | EmptyString => []
  | String c s' => JStr (String c EmptyString) :: chars s'
  end.

(** [for x in v]: a list yields its elements, a dict its keys, a string
    its characters; nothing else is iterable. *)
Definition py_iter (v : json) : result (list json) :=
  match v with
  | JList l => Ok l
  | JDict d => Ok (map (fun kv => JStr (fst kv)) d)
  | JStr s => Ok (chars s)
  | _ => Raise TypeError
  end.

(** *** Library functions the code calls

    Functions of the Python library and of third-party packages whose
    code is outside the repository. A failing call raises. *)
Class Library := {
  (** [datetime.fromisoformat] *)
  fromisoformat : string -> result datetime;
  (** [json.loads] *)
  json_loads : string -> result json;
  (** [str(v)], as an f-string formats a value *)
  str_json : json -> string;
  (** [str(t)] for a datetime *)
  str_datetime : datetime -> string;
  (** [TextBlob(text).sentiment.polarity] compared with 0.1 and -0.1:
      the label [analyze_sentiment] returns under ["sentiment"] *)
  sentiment_label : string -> string
}.

(** [datetime.fromisoformat(v)]: a [TypeError] unless [v] is a string. *)
Definition fromisoformat_of `{Library} (v : json) : result datetime :=
  match v with
  | JStr s => fromisoformat s
  | _ => Raise TypeError
  end.

(** [s[:n]] *)
Fixpoint take_prefix (n : nat) (s : string) : string :=
  match n, s with
  | S n', String c s' => String c (take_prefix n' s')
  | _, _ => EmptyString
  end.

Definition is_space (c : ascii) : bool :=
  let n := nat_of_ascii c in
  ((9 <=? n)%nat && (n <=? 13)%nat) || ((28 <=? n)%nat && (n <=? 32)%nat).

Fixpoint lstrip (s : string) : string :=
  match s with
  | EmptyString => EmptyString
  | String c s' => if is_space c then lstrip s' else s
  end.

Fixpoint rstrip (s : string) : string :=
  match s with
  | EmptyString => EmptyString
  | String c s' =>
      match rstrip s' with
      | EmptyString => if is_space c then EmptyString else String c EmptyString
      | r => String c r
      end
  end.

(** [s.strip()] *)
Definition strip (s : string) : string := rstrip (lstrip s).

(** *** A fragment of [datetime.fromisoformat]

    [YYYY-MM-DD], optionally followed by one separator character and
    [HH], [HH:MM] or [HH:MM:SS], optionally followed by [+00:00]. The
    worked examples below run on it; the properties are proved for every
    [Library]. *)

Definition digit_value (c : ascii) : option Z :=
  let n := nat_of_ascii c in
  if (48 <=? n)%nat && (n <=? 57)%nat then Some (Z.of_nat n - 48) else None.

(** Reads exactly [n] decimal digits. *)
Fixpoint read_digits (n : nat) (acc : Z) (s : string) : option (Z * string) :=
  match n with
  | O => Some (acc, s)
  | S n' =>
      match s with
      | EmptyString => None
      | String c s' =>
          d ← digit_value c; read_digits n' (10 * acc + d) s'
      end
  end.

Definition read_char (c : ascii) (s : string) : option string :=
  match s with
  | String d s' => if Ascii.eqb c d then Some s' else None
  | EmptyString => None
  end.

Definition is_leap (y : Z) : bool :=
  ((y mod 4 =? 0) && negb (y mod 100 =? 0)) || (y mod 400 =? 0).

Definition days_in_month (y m : Z) : Z :=
  if m =? 2 then (if is_leap y then 29 else 28)
  else if (m =? 4) || (m =? 6) || (m =? 9) || (m =? 11) then 30 else 31.

Definition days_before_year (y : Z) : Z :=
  let y1 := y - 1 in y1 * 365 + y1 / 4 - y1 / 100 + y1 / 400.

Definition days_before_month (y m : Z) : Z :=
  fold_left (fun acc k => acc + days_in_month y (Z.of_nat k))
            (seq 1 (Z.to_nat (m - 1))) 0.

(** [date(y, m, d).toordinal() - 1] *)
Definition day_index (y m d : Z) : Z :=
  days_before_year y + days_before_month y m + d - 1.

Definition read_date (s : string) : option (Z * string) :=
  '(y, s) ← read_digits 4 0 s;
  s ← read_char "-" s;
  '(m, s) ← read_digits 2 0 s;
  s ← read_char "-" s;
  '(d, s) ← read_digits 2 0 s;
  if (1 <=? y) && (1 <=? m) && (m <=? 12) && (1 <=? d) && (d <=? days_in_month y m)
  then Some (day_index y m d, s) else None.

Definition read_field (bound : Z) (s : string) : option (Z * string) :=
  '(v, s) ← read_digits 2 0 s;
  if v <? bound then Some (v, s) else None.

(** The time of day in microseconds, with what follows it. *)
Definition read_time (s : string) : option (Z * string) :=
  '(h, s) ← read_field 24 s;
  match read_char ":" s with
  | None => Some (hours h, s)
  | Some s1 =>
      '(mi, s2) ← read_field 60 s1;
      match read_char ":" s2 with
      | None => Some (hours h + minutes mi, s2)
      | Some s3 =>
          '(se, s4) ← read_field 60 s3;
          Some (hours h + minutes mi + se * us_per_second, s4)
      end
  end.

Definition iso_fragment (s : string) : result datetime :=
  match read_date s with
  | None => Raise ValueError
  | Some (d, EmptyString) => Ok (d * us_per_day)
  | Some (d, String _ rest) =>
      match read_time rest with
      | Some (t, tail) =>
          if String.eqb tail "" || String.eqb tail "+00:00"
          then Ok (d * us_per_day + t) else Raise ValueError
      | None => Raise ValueError
      end
  end.

End Py.

Import Py.

(** ** Regular expressions, as [re.search] uses them

    The four time patterns of the urgency score use literals, alternation,
    [.], [\d], [*], [+] and [?]. A pattern is a term of [re]; matching is by
    derivatives. [re.search(p, s)] is truthy when some substring of [s]
    matches [p]. *)

Module Regex.

Inductive re :=
  | Void
  | Eps
  | Chr (c : ascii)
  | Dot
  | Digit
  | Cat (r1 r2 : re)
  | Alt (r1 r2 : re)
  | Star (r : re).

Definition newline : ascii := ascii_of_nat 10.

(** [.] without DOTALL: any character but a newline. *)
Definition is_dot (c : ascii) : bool := negb (Ascii.eqb c newline).

(** [\d] *)
Definition is_digit (c : ascii) : bool :=
  (48 <=? nat_of_ascii c)%nat && (nat_of_ascii c <=? 57)%nat.

Fixpoint lit (s : string) : re :=
  match s with
  | EmptyString => Eps
  | String c s' => Cat (Chr c) (lit s')
  end.

(** [(?:a|b|...)], [r+] and [r?] *)
Definition alts (rs : list re) : re := fold_right Alt Void rs.
Definition plus (r : re) : re := Cat r (Star r).
Definition opt (r : re) : re := Alt r Eps.

Fixpoint nullable (r : re) : bool :=
  match r with
  | Void => false
  | Eps => true
  | Chr _ => false
  | Dot => false
  | Digit => false
  | Cat r1 r2 => nullable r1 && nullable r2
  | Alt r1 r2 => nullable r1 || nullable r2
  | Star _ => true
  end.

Fixpoint deriv (c : ascii) (r : re) : re :=
  match r with
  | Void => Void
  | Eps => Void
  | Chr d => if Ascii.eqb c d then Eps else Void
  | Dot => if is_dot c then Eps else Void
  | Digit => if is_digit c then Eps else Void
  | Cat r1 r2 =>
      if nullable r1 then Alt (Cat (deriv c r1) r2) (deriv c r2)
      else Cat (deriv c r1) r2
  | Alt r1 r2 => Alt (deriv c r1) (deriv c r2)
  | Star r1 => Cat (deriv c r1) (Star r1)
  end.

(** Some prefix of [s] matches [r]: [re.match(r, s)]. *)
Fixpoint match_prefix (r : re) (s : string) : bool :=
  nullable r ||
  match s with
  | EmptyString => false
  | String c s' => match_prefix (deriv c r) s'
  end.

(** [bool(re.search(r, s))]: a match starts at some position of [s]. *)
Fixpoint search (r : re) (s : string) : bool :=
  match_prefix r s ||
  match s with
  | EmptyString => false
  | String _ s' => search r s'
  end.

(** The words of a pattern. *)
Inductive matches : re -> string -> Prop :=
  | MEps : matches Eps ""
  | MChr c : matches (Chr c) (String c "")
  | MDot c : is_dot c = true -> matches Dot (String c "")
  | MDigit c : is_digit c = true -> matches Digit (String c "")
  | MCat r1 r2 s1 s2 :
      matches r1 s1 -> matches r2 s2 -> matches (Cat r1 r2) (s1 +:+ s2)
  | MAltL r1 r2 s : matches r1 s -> matches (Alt r1 r2) s
  | MAltR r1 r2 s : matches r2 s -> matches (Alt r1 r2) s
  | MStarNil r : matches (Star r) ""
  | MStarApp r s1 s2 :
      matches r s1 -> matches (Star r) s2 -> matches (Star r) (s1 +:+ s2).

End Regex.

(** ** The heuristic analyzer (services/nlp_service.py) *)

Module NLP.

Import Regex.

(** [self.urgency_keywords], in the insertion order of the dict. *)
Definition high_keywords : list string :=
  ["urgent"; "asap"; "immediately"; "emergency"; "critical"; "deadline"; "today"].
Definition medium_keywords : list string :=
  ["soon"; "this week"; "important"; "please"; "need"; "required"].
Definition low_keywords : list string :=
  ["when you can"; "no rush"; "fyi"; "for your information"].

Definition urgency_keywords : list (string * list string) :=
  [("high", high_keywords); ("medium", medium_keywords); ("low", low_keywords)].

(** [time_patterns] of [calculate_urgency_score]:
    - [by (?:today|tomorrow|end of day|eod)]
    - [deadline.*(?:today|tomorrow|this week)]
    - [need.*(?:asap|immediately|urgently)]
    - [meeting.*(?:today|tomorrow|in \d+ hours?)] *)
Definition time_patterns : list re :=
  [ Cat (lit "by ")
      (alts [lit "today"; lit "tomorrow"; lit "end of day"; lit "eod"]);
    Cat (lit "deadline") (Cat (Star Dot)
      (alts [lit "today"; lit "tomorrow"; lit "this week"]));
    Cat (lit "need") (Cat (Star Dot)
      (alts [lit "asap"; lit "immediately"; lit "urgently"]));
    Cat (lit "meeting") (Cat (Star Dot)
      (alts [lit "today"; lit "tomorrow";
             Cat (lit "in ") (Cat (plus Digit)
               (Cat (lit " hour") (opt (Chr "s"))))])) ].

(** The body of the innermost loop: the branch on [level]. *)
Definition level_step (level : string) (score : Q) : Q :=
  if String.eqb level "high" then (score + 2)%Q
  else if String.eqb level "medium" then (score + 1)%Q
  else if String.eqb level "low" then (score - 1)%Q
  else score.

Definition keyword_loop (text_lower : string) (score : Q) : Q :=
  fold_left (fun score '(level, keywords) =>
    fold_left (fun score keyword =>
      if contains keyword text_lower then level_step level score else score)
      keywords score)
    urgency_keywords score.

Definition pattern_loop (text_lower : string) (score : Q) : Q :=
  fold_left (fun score pattern =>
    if search pattern text_lower then (score + 1.5)%Q else score)
    time_patterns score.

(** [NLPService.calculate_urgency_score] *)
Definition calculate_urgency_score (text : string) : Q :=
  let text_lower := lower text in
  let score := 5%Q in
  let score := keyword_loop text_lower score in
  let score := pattern_loop text_lower score in
  let question_count := count "?" text in
  let score := (score + fmin (inject_Z question_count * 0.5) 2)%Q in
  fmax 1 (fmin 10 score).

(** [NLPService.classify_priority] *)
Definition classify_priority (text : string) : string :=
  let urgency_score := calculate_urgency_score text in
  if Qle_bool 7 urgency_score then "high"
  else if Qle_bool 4 urgency_score then "medium"
  else "low".

Definition work_keywords : list string :=
  ["meeting"; "project"; "deadline"; "report"; "client"; "business"; "office"].
Definition personal_keywords : list string :=
  ["family"; "friend"; "personal"; "vacation"; "birthday"; "wedding"].
Definition promotional_keywords : list string :=
  ["sale"; "discount"; "offer"; "promotion"; "deal"; "buy"; "shop"].
Definition social_keywords : list string :=
  ["linkedin"; "facebook"; "twitter"; "social"; "network"; "connect"].

(** The [scores] dict of [classify_category], as its items in insertion
    order. *)
Definition scores (text : string) : list (string * Z) :=
  let text_lower := lower text in
  let work_score := count_if (fun keyword => contains keyword text_lower) work_keywords in
  let personal_score := count_if (fun keyword => contains keyword text_lower) personal_keywords in
  let promotional_score := count_if (fun keyword => contains keyword text_lower) promotional_keywords in
  let social_score := count_if (fun keyword => contains keyword text_lower) social_keywords in
  [("work", work_score); ("personal", personal_score);
   ("promotional", promotional_score); ("social", social_score)].

(** [max(d, key=d.get)] and [max(d.values())] for a dict given by its
    items; [None] is the [ValueError] of an empty dict. *)
Definition max_key (items : list (string * Z)) : option string :=
  match items with
  | [] => None
  | item :: rest => Some (fst (max_by snd item rest))
  end.
Definition max_value (items : list (string * Z)) : option Z :=
  match items with
  | [] => None
  | item :: rest => Some (max_of (snd item) (map snd rest))
  end.

(** [NLPService.classify_category]; [None] would be a raised exception. *)
Definition classify_category (text : string) : option string :=
  let scores := scores text in
  top ← max_value scores;
  if 0 <? top then max_key scores else Some "work".

(** The quantities the design document speaks of. *)

(** The number of elements of [xs] that satisfy [p]. *)
Definition how_many {A} (p : A -> bool) (xs : list A) : Z :=
  Z.of_nat (length (filter (fun x => p x = true) xs)).

(** The urgency score as the design document words it: a base of 5, plus 2
    for each high keyword present, 1 for each medium one, minus 1 for each
    low one, plus 1.5 for each time pattern that matches, plus
    min(0.5 * question marks, 2), clamped to [1, 10]. *)
Definition urgency_spec (text : string) : Q :=
  let present := fun keyword => contains keyword (lower text) in
  let matching := fun pattern => search pattern (lower text) in
  let raw :=
    (5 + 2 * inject_Z (how_many present high_keywords)
       + 1 * inject_Z (how_many present medium_keywords)
       - 1 * inject_Z (how_many present low_keywords)
       + 1.5 * inject_Z (how_many matching time_patterns)
       + Qmin (0.5 * inject_Z (count "?" text)) 2)%Q in
  Qmax 1 (Qmin 10 raw).

(** The four labels, in the order of their declaration. *)
Definition labels : list string := ["work"; "personal"; "promotional"; "social"].

(** The score of each keyword set: the keywords that occur in the text,
    whatever the case of its letters. *)
Definition keyword_scores (text : string) : list (string * Z) :=
  let present := fun keyword => contains keyword (lower text) in
  [("work", how_many present work_keywords);
   ("personal", how_many present personal_keywords);
   ("promotional", how_many present promotional_keywords);
   ("social", how_many present social_keywords)].

(** [label] is the first of the items of largest score. *)
Definition first_argmax (items : list (string * Z)) (label : string) : Prop :=
  exists (i : nat) (top : Z),
    items !! i = Some (label, top) /\
    forall (j : nat) (other : string) (s : Z),
      items !! j = Some (other, s) -> s <= top /\ ((j < i)%nat -> s < top).

End NLP.

(** ** The structured extractor (services/llm_service.py) *)

Module LLM.

(** The fields of [core.config.settings] the service reads. *)
Record Settings := {
  OPENAI_API_KEY : string;
  OPENAI_MODEL : string;
  ANTHROPIC_API_KEY : string;
  ANTHROPIC_MODEL : string
}.

(** The generative-text providers. A call either raises or yields the
    text of the reply: [response.choices[0].message.content] for
    [openai.ChatCompletion.acreate(model, messages=[system, user],
    max_tokens, temperature)], [response.content[0].text] for
    [anthropic_client.messages.create(model, max_tokens, messages=[user])]. *)
Class Provider := {
  openai_acreate : string -> string -> string -> Z -> Q -> result string;
  anthropic_create : string -> Z -> string -> result string
}.

Section Service.

Context `{Library} `{Provider}.
Variable settings : Settings.

Definition nl : string := String (ascii_of_nat 10) EmptyString.
Definition dq : string := String (ascii_of_nat 34) EmptyString.
Definition quoted (s : string) : string := dq +:+ s +:+ dq.

(** A line of a triple-quoted prompt, at the indentation of the source. *)
Definition line (s : string) : string := "        " +:+ s +:+ nl.
Definition deep (n : nat) (s : string) : string :=
  line (fold_right (fun _ acc => "    " +:+ acc) s (seq 0 n)).
Definition blank : string := nl.

Definition entities_empty : json :=
  JDict [("people", JList []); ("organizations", JList []);
         ("dates", JList []); ("locations", JList [])].

(** [LLMService._fallback_summary] *)
Definition _fallback_summary (email_content : string) : json :=
  JDict [
    ("summary", JStr ("Email summary unavailable. Content preview: "
                      +:+ take_prefix 100 email_content +:+ "..."));
    ("key_points", JList [JStr "LLM service unavailable"]);
    ("action_items", JList []);
    ("sentiment", JStr "neutral");
    ("urgency_score", JNum 5);
    ("category", JStr "work");
    ("priority", JStr "medium");
    ("entities", entities_empty) ].

(** [LLMService._fallback_reply] *)
Definition _fallback_reply (tone : string) : string :=
  let replies := [
    ("professional", "Thank you for your email. I will review this and get back to you soon.");
    ("friendly", "Hi! Thanks for reaching out. I'll take a look at this and respond shortly.");
    ("brief", "Thanks for the email. Will respond soon.") ] in
  dict_get replies tone (dict_get replies "professional" "").

(** The three fallback templates. *)
Definition templates : list string :=
  ["Thank you for your email. I will review this and get back to you soon.";
   "Hi! Thanks for reaching out. I'll take a look at this and respond shortly.";
   "Thanks for the email. Will respond soon."].

(** [LLMService._openai_completion] *)
Definition _openai_completion (prompt : string) : result json :=
  content ← openai_acreate (OPENAI_MODEL settings)
    "You are a helpful email analysis assistant. Always respond with valid JSON."
    prompt 1000 0.3;
  json_loads content.

(** [LLMService._anthropic_completion] *)
Definition _anthropic_completion (prompt : string) : result json :=
  content ← anthropic_create (ANTHROPIC_MODEL settings) 1000 prompt;
  json_loads content.

Definition summary_prompt (email_content : string) : string :=
  blank +:+
  line "Analyze the following email and provide a comprehensive summary:" +:+
  blank +:+
  line "Email Content:" +:+
  line email_content +:+
  blank +:+
  line "Please provide a JSON response with the following structure:" +:+
  line "{" +:+
  deep 1 (quoted "summary" +:+ ": " +:+ quoted "Brief 2-3 sentence summary of the email" +:+ ",") +:+
  deep 1 (quoted "key_points" +:+ ": [" +:+ quoted "List of 3-5 key points from the email" +:+ "],") +:+
  deep 1 (quoted "action_items" +:+ ": [" +:+ quoted "List of specific actions required" +:+ "],") +:+
  deep 1 (quoted "sentiment" +:+ ": " +:+ quoted "positive/neutral/negative" +:+ ",") +:+
  deep 1 (quoted "urgency_score" +:+ ": 1-10,") +:+
  deep 1 (quoted "category" +:+ ": " +:+ quoted "work/personal/promotional/social" +:+ ",") +:+
  deep 1 (quoted "priority" +:+ ": " +:+ quoted "high/medium/low" +:+ ",") +:+
  deep 1 (quoted "entities" +:+ ": {") +:+
  deep 2 (quoted "people" +:+ ": [" +:+ quoted "Names mentioned" +:+ "],") +:+
  deep 2 (quoted "organizations" +:+ ": [" +:+ quoted "Companies/organizations" +:+ "],") +:+
  deep 2 (quoted "dates" +:+ ": [" +:+ quoted "Important dates" +:+ "],") +:+
  deep 2 (quoted "locations" +:+ ": [" +:+ quoted "Places mentioned" +:+ "]") +:+
  deep 1 "}" +:+
  line "}" +:+
  "        ".

(** [LLMService.summarize_email] *)
Definition summarize_email (email_content model : string) : json :=
  let prompt := summary_prompt email_content in
  try_except
    (if String.eqb model "openai" && truthy (OPENAI_API_KEY settings)
     then _openai_completion prompt
     else if String.eqb model "anthropic" && truthy (ANTHROPIC_API_KEY settings)
     then _anthropic_completion prompt
     else Raise ValueError)
    (fun _ => _fallback_summary email_content).

Definition tone_instructions : list (string * string) :=
  [("professional", "Write a professional, formal response");
   ("friendly", "Write a warm, friendly response");
   ("brief", "Write a concise, brief response")].

Definition reply_prompt (email_content tone context : string) : string :=
  blank +:+
  line ("Generate a " +:+ tone +:+ " email reply to the following email:") +:+
  blank +:+
  line "Original Email:" +:+
  line email_content +:+
  blank +:+
  line "Additional Context:" +:+
  line context +:+
  blank +:+
  line "Instructions:" +:+
  line ("- " +:+ dict_get tone_instructions tone "Write a professional response") +:+
  line "- Be helpful and appropriate" +:+
  line "- Include proper greeting and closing" +:+
  line "- Keep it concise but complete" +:+
  line "- Do not include subject line" +:+
  line "" +:+
  line "Reply:" +:+
  "        ".

(** [LLMService.generate_reply]. The function returns where a branch of
    the [try] body returns; when neither key is configured the body ends
    without a [return] and the call yields [None]. *)
Definition generate_reply (email_content tone context : string) : option string :=
  let prompt := reply_prompt email_content tone context in
  try_except
    (if truthy (OPENAI_API_KEY settings) then
       content ← openai_acreate (OPENAI_MODEL settings)
         "You are a helpful email assistant." prompt 500 0.7;
       mret (Some (strip content))
     else if truthy (ANTHROPIC_API_KEY settings) then
       text ← anthropic_create (ANTHROPIC_MODEL settings) 500 prompt;
       mret (Some (strip text))
     else mret None)
    (fun _ => Some (_fallback_reply tone)).

Definition extraction_prompt (email_content : string) : string :=
  blank +:+
  line "Analyze the following email and extract any tasks, meetings, or events that should be added to a calendar or task list:" +:+
  blank +:+
  line "Email Content:" +:+
  line email_content +:+
  blank +:+
  line "Please provide a JSON response with the following structure:" +:+
  line "{" +:+
  deep 1 (quoted "tasks" +:+ ": [") +:+
  deep 2 "{" +:+
  deep 3 (quoted "title" +:+ ": " +:+ quoted "Task title" +:+ ",") +:+
  deep 3 (quoted "description" +:+ ": " +:+ quoted "Task description" +:+ ",") +:+
  deep 3 (quoted "due_date" +:+ ": " +:+ quoted "YYYY-MM-DD or null" +:+ ",") +:+
  deep 3 (quoted "priority" +:+ ": " +:+ quoted "high/medium/low" +:+ ",") +:+
  deep 3 (quoted "type" +:+ ": " +:+ quoted "task/followup/deadline") +:+
  deep 2 "}" +:+
  deep 1 "]," +:+
  deep 1 (quoted "events" +:+ ": [") +:+
  deep 2 "{" +:+
  deep 3 (quoted "title" +:+ ": " +:+ quoted "Event title" +:+ ",") +:+
  deep 3 (quoted "description" +:+ ": " +:+ quoted "Event description" +:+ ",") +:+
  deep 3 (quoted "start_time" +:+ ": " +:+ quoted "YYYY-MM-DD HH:MM or null" +:+ ",") +:+
  deep 3 (quoted "end_time" +:+ ": " +:+ quoted "YYYY-MM-DD HH:MM or null" +:+ ",") +:+
  deep 3 (quoted "location" +:+ ": " +:+ quoted "Location or null" +:+ ",") +:+
  deep 3 (quoted "attendees" +:+ ": [" +:+ quoted "email1@example.com" +:+ "],") +:+
  deep 3 (quoted "type" +:+ ": " +:+ quoted "meeting/call/event") +:+
  deep 2 "}" +:+
  deep 1 "]" +:+
  line "}" +:+
  line "" +:+
  line "Only extract items that are clearly actionable or scheduled. Return empty arrays if no tasks or events are found." +:+
  "        ".

Definition empty_extraction : json :=
  JDict [("tasks", JList []); ("events", JList [])].

(** [LLMService.extract_tasks_and_events]. Only the first provider is
    consulted; without its key the body ends without a [return] and the
    call yields [None], here [JNull]. *)
Definition extract_tasks_and_events (email_content : string) : json :=
  let prompt := extraction_prompt email_content in
  try_except
    (if truthy (OPENAI_API_KEY settings) then
       content ← openai_acreate (OPENAI_MODEL settings)
         "You are a helpful assistant that extracts tasks and events from emails."
         prompt 800 0.3;
       json_loads content
     else mret JNull)
    (fun _ => empty_extraction).

End Service.

End LLM.

(** ** The tables (models/email.py, models/summary.py, models/reminder.py)

    Columns that no modelled endpoint reads or writes ([created_at],
    [updated_at], [notification_sent], ...) are left out. A nullable
    column that some path leaves unset is an [option]. *)

Module Models.

Record User := {
  user_pk : Z;
  gmail_token : option string;
  gmail_refresh_token : option string;
  calendar_token : option string
}.

Record Email := {
  email_pk : Z;
  gmail_id : string;
  email_user_id : Z;
  sender : string;
  recipient : string;
  subject : string;
  body : string;
  html_body : string;
  timestamp : datetime;
  is_read : bool;
  has_attachment : bool;
  thread_id : string;
  priority : string;
  category : string;
  sentiment : string;
  urgency_score : Q;
  is_processed : bool;
  processed_at : option datetime
}.

(** [EmailSummary.email_id] is [Column(Integer, ForeignKey("emails.id"))]:
    a plain foreign key, with no uniqueness constraint on it. *)
Record EmailSummary := {
  summary_pk : Z;
  summary_email_id : Z;
  summary : json;
  key_points : json;
  action_items : json;
  entities : json;
  sentiment_score : json;
  summary_urgency_score : json;
  complexity_score : json;
  suggested_response : option string;
  response_tone : string;
  model_used : string;
  processing_time : timedelta;
  confidence_score : json
}.

(** A row of [reminders]; its primary key is the key it is stored under. *)
Record Reminder := {
  reminder_user_id : Z;
  reminder_email_id : option Z;
  title : json;
  description : json;
  due_date : datetime;
  reminder_time : datetime;
  type : json;
  reminder_priority : json;
  is_completed : bool;
  completed_at : option datetime;
  is_snoozed : bool;
  snooze_until : option datetime
}.

Record CalendarEvent := {
  event_user_id : Z;
  event_title : json;
  event_description : json;
  start_time : datetime;
  end_time : datetime;
  location : json;
  attendees : json;
  created_from_email : option Z
}.

(** [bool(token)] for a nullable text column. *)
Definition token_set (token : option string) : bool :=
  match token with
  | Some s => truthy s
  | None => false
  end.

(** [db.query(Email).filter(Email.id == email_id).first()] *)
Definition email_by_id (emails : list Email) (email_id : Z) : option Email :=
  find (fun e => email_pk e =? email_id) emails.

(** [db.query(Email).filter(Email.gmail_id == g).first()] *)
Definition email_by_gmail_id (emails : list Email) (g : string) : option Email :=
  find (fun e => String.eqb (gmail_id e) g) emails.

(** The key the database gives the next row of a table whose keys are
    [keys]: one above the largest. *)
Definition next_pk (keys : list Z) : Z := 1 + fold_left Z.max keys 0.

(** What an endpoint answers: a body, or an [HTTPException]. *)
Inductive response (A : Type) :=
  | Http200 (body : A)
  | HTTPException (status_code : Z) (detail : string).
Arguments Http200 {A} body.
Arguments HTTPException {A} status_code detail.

End Models.

(** ** Mailbox synchronisation (api/v1/endpoints/email.py) *)

Module Sync.

Import NLP Models.

(** A fetched message, with the keys [GmailService._parse_email] gives it. *)
Record GmailEmail := {
  g_gmail_id : string;
  g_thread_id : string;
  g_sender : string;
  g_recipient : string;
  g_subject : string;
  g_body : string;
  g_html_body : string;
  g_timestamp : string;
  g_has_attachment : bool;
  g_labels : list string
}.

Record EmailSyncRequest := {
  max_results : Z;
  query : string
}.

(** [GmailService.build_service] followed by [GmailService.fetch_emails]:
    the token data, the query and the bound go to the mailbox provider,
    which answers with the parsed messages or raises. *)
Class Mailbox := {
  fetch_emails : option string -> option string -> string -> Z ->
                 result (list GmailEmail)
}.

(** The entries of [NLPService.analyze_email] that [process_emails]
    reads; the others are computed and dropped. *)
Record Analysis := {
  a_sentiment : string;
  a_urgency_score : Q;
  a_priority : string;
  a_category : string
}.

Section Endpoints.

Context `{Library} `{LLM.Provider} `{Mailbox}.
Variable settings : LLM.Settings.

(** [NLPService.analyze_email] *)
Definition analyze_email (email_content subject : string) : result Analysis :=
  let full_text := subject +:+ " " +:+ email_content in
  match classify_category full_text with
  | Some category =>
      Ok {| a_sentiment := sentiment_label full_text;
            a_urgency_score := calculate_urgency_score full_text;
            a_priority := classify_priority full_text;
            a_category := category |}
  | None => Raise ValueError
  end.

(** The body of the loop of [process_emails], inside its [try]: the
    table after the item. *)
Definition process_email (user_id : Z) (now : datetime) (emails : list Email)
    (gmail_email : GmailEmail) : result (list Email) :=
  match email_by_gmail_id emails (g_gmail_id gmail_email) with
  | Some existing => Ok emails
  | None =>
      analysis ← analyze_email (g_body gmail_email) (g_subject gmail_email);
      timestamp ← fromisoformat (replace "Z" "+00:00" (g_timestamp gmail_email));
      let email := {|
        email_pk := next_pk (map email_pk emails);
        gmail_id := g_gmail_id gmail_email;
        email_user_id := user_id;
        sender := g_sender gmail_email;
        recipient := g_recipient gmail_email;
        subject := g_subject gmail_email;
        body := g_body gmail_email;
        html_body := g_html_body gmail_email;
        timestamp := timestamp;
        is_read := false;
        has_attachment := g_has_attachment gmail_email;
        thread_id := g_thread_id gmail_email;
        priority := a_priority analysis;
        category := a_category analysis;
        sentiment := a_sentiment analysis;
        urgency_score := a_urgency_score analysis;
        is_processed := true;
        processed_at := Some now |} in
      let emails := (emails ++ [email])%list in
      (* the summary is generated and dropped; a failure is only logged *)
      let summary_data := LLM.summarize_email settings
        ("Subject: " +:+ subject email +:+ LLM.nl +:+ LLM.nl +:+ body email)
        "openai" in
      Ok emails
  end.

(** One turn of the loop with its handler: an item whose processing
    raises is logged and skipped. *)
Definition reconcile (user_id : Z) (now : datetime) (emails : list Email)
    (gmail_email : GmailEmail) : list Email :=
  try_except (process_email user_id now emails gmail_email) (fun _ => emails).

(** [process_emails]; [utcnow i] is the clock as the item at position [i]
    reads it. *)
Fixpoint process_emails_from (utcnow : nat -> datetime) (i : nat)
    (gmail_emails : list GmailEmail) (user_id : Z) (emails : list Email)
    : list Email :=
  match gmail_emails with
  | [] => emails
  | gmail_email :: rest =>
      process_emails_from utcnow (S i) rest user_id
        (reconcile user_id (utcnow i) emails gmail_email)
  end.

Definition process_emails (utcnow : nat -> datetime)
    (gmail_emails : list GmailEmail) (user_id : Z) (emails : list Email)
    : list Email :=
  process_emails_from utcnow 0 gmail_emails user_id emails.

Record SyncReply := {
  message : string;
  count : Z
}.

(** A call handed to [background_tasks.add_task(process_emails, ...)]. *)
Record SyncTask := {
  task_emails : list GmailEmail;
  task_user_id : Z
}.

(** [sync_emails]: the answer and the background task it schedules. *)
Definition sync_emails (request : EmailSyncRequest) (users : list User)
    : response SyncReply * option SyncTask :=
  match head users with
  | None => (HTTPException 401 "Gmail not connected", None)
  | Some user =>
      if negb (token_set (gmail_token user))
      then (HTTPException 401 "Gmail not connected", None)
      else
        match fetch_emails (gmail_token user) (gmail_refresh_token user)
                           (query request) (max_results request) with
        | Ok gmail_emails =>
            let n := Z.of_nat (length gmail_emails) in
            (Http200 {| message := "Syncing " +:+ pretty n +:+ " emails";
                        count := n |},
             Some {| task_emails := gmail_emails; task_user_id := user_pk user |})
        | Raise _ => (HTTPException 500 "Failed to sync emails", None)
        end
  end.

End Endpoints.

(** The quantities the design document speaks of. *)

(** The records a reconciliation inserted. *)
Definition inserted (before after : list Email) : Z :=
  Z.of_nat (length after) - Z.of_nat (length before).

(** A local record with this external id exists. *)
Definition known (emails : list Email) (g : string) : bool :=
  existsb (fun e => String.eqb (gmail_id e) g) emails.

(** The field mapping of the item succeeds: its timestamp parses. *)
Definition maps_fields `{Library} (g : GmailEmail) : bool :=
  match fromisoformat (replace "Z" "+00:00" (g_timestamp g)) with
  | Ok _ => true
  | Raise _ => false
  end.

(** Nothing is left to do for the item: its id is known, or its mapping
    fails. *)
Definition settled `{Library} (emails : list Email) (g : GmailEmail) : Prop :=
  known emails (g_gmail_id g) = true \/ maps_fields g = false.

(** The batch items whose external id is not present locally. *)
Definition unknown_items (emails : list Email) (batch : list GmailEmail) : Z :=
  Z.of_nat (length (filter (fun g => known emails (g_gmail_id g) = false) batch)).

End Sync.

(** ** Summaries (api/v1/endpoints/summary.py) *)

Module Summaries.

Import Models.

Record GenerateSummaryRequest := {
  model : string;
  include_response : bool;
  request_tone : string
}.

(** The arguments of a scheduled [create_email_summary]. *)
Record SummaryTask := {
  task_email_id : Z;
  task_model : string;
  task_include_response : bool;
  task_tone : string
}.

(** The two tables the endpoints use and the background tasks that were
    scheduled and have not run yet. *)
Record State := {
  emails : list Email;
  summaries : list EmailSummary;
  background : list SummaryTask
}.

(** [db.query(EmailSummary).filter(EmailSummary.email_id == email_id).first()] *)
Definition summary_by_email (rows : list EmailSummary) (email_id : Z)
    : option EmailSummary :=
  find (fun s => summary_email_id s =? email_id) rows.

Section Endpoints.

Context `{Library} `{LLM.Provider}.
Variable settings : LLM.Settings.

(** [generate_email_summary]: the answer and the state it leaves. *)
Definition generate_email_summary (email_id : Z)
    (request : GenerateSummaryRequest) (st : State) : response json * State :=
  match email_by_id (emails st) email_id with
  | None => (HTTPException 404 "Email not found", st)
  | Some email =>
      match summary_by_email (summaries st) email_id with
      | Some existing_summary =>
          (Http200 (JDict [("message", JStr "Summary already exists");
                           ("summary_id", JNum (inject_Z (summary_pk existing_summary)))]),
           st)
      | None =>
          let task := {| task_email_id := email_id;
                         task_model := model request;
                         task_include_response := include_response request;
                         task_tone := request_tone request |} in
          (Http200 (JDict [("message", JStr "Summary generation started");
                           ("email_id", JNum (inject_Z email_id))]),
           {| emails := emails st;
              summaries := summaries st;
              background := (background st ++ [task])%list |})
      end
  end.

(** [create_email_summary]: the summaries table after the task; the two
    clock readings are those around the summarising call. A failure
    anywhere rolls the session back. *)
Definition create_email_summary (start_time finish_time : datetime)
    (task : SummaryTask) (all_emails : list Email) (rows : list EmailSummary)
    : list EmailSummary :=
  try_except
    (match email_by_id all_emails (task_email_id task) with
     | None => Ok rows
     | Some email =>
         let email_content :=
           "Subject: " +:+ subject email +:+ LLM.nl +:+ LLM.nl +:+
           "From: " +:+ sender email +:+ LLM.nl +:+
           "To: " +:+ recipient email +:+ LLM.nl +:+ LLM.nl +:+ body email in
         let summary_data :=
           LLM.summarize_email settings email_content (task_model task) in
         let processing_time := finish_time - start_time in
         let suggested_response :=
           if task_include_response task
           then LLM.generate_reply settings email_content (task_tone task) ""
           else None in
         v_summary ← py_get summary_data "summary" (JStr "");
         v_key_points ← py_get summary_data "key_points" (JList []);
         v_action_items ← py_get summary_data "action_items" (JList []);
         v_entities ← py_get summary_data "entities" (JDict []);
         v_sentiment ← py_get summary_data "sentiment_score" (JNum 0);
         v_urgency ← py_get summary_data "urgency_score" (JNum 5);
         v_complexity ← py_get summary_data "complexity_score" (JNum 5);
         v_confidence ← py_get summary_data "confidence_score" (JNum 0.8);
         Ok (rows ++ [{|
           summary_pk := next_pk (map summary_pk rows);
           summary_email_id := task_email_id task;
           summary := v_summary;
           key_points := v_key_points;
           action_items := v_action_items;
           entities := v_entities;
           sentiment_score := v_sentiment;
           summary_urgency_score := v_urgency;
           complexity_score := v_complexity;
           suggested_response := suggested_response;
           response_tone := task_tone task;
           model_used := task_model task;
           processing_time := processing_time;
           confidence_score := v_confidence |}])%list
     end)
    (fun _ => rows).

(** What can happen to the state: a trigger request is served, or one of
    the scheduled tasks runs to its end. *)
Inductive action :=
  | Trigger (email_id : Z) (request : GenerateSummaryRequest)
  | Finish (i : nat) (start_time finish_time : datetime).

Definition step (st : State) (a : action) : State :=
  match a with
  | Trigger email_id request => snd (generate_email_summary email_id request st)
  | Finish i start_time finish_time =>
      match background st !! i with
      | None => st
      | Some task =>
          {| emails := emails st;
             summaries := create_email_summary start_time finish_time task
                            (emails st) (summaries st);
             background := delete i (background st) |}
      end
  end.

Definition run (st : State) (actions : list action) : State :=
  fold_left step actions st.

End Endpoints.

(** The summaries a message owns. *)
Definition summaries_of (rows : list EmailSummary) (email_id : Z)
    : list EmailSummary :=
  filter (fun s => summary_email_id s = email_id) rows.

(** A creation for the message is scheduled and has not run. *)
Definition creation_pending (st : State) (email_id : Z) : bool :=
  existsb (fun t => task_email_id t =? email_id) (background st).

(** How many creations for the message are scheduled and have not run. *)
Definition pending_creations (st : State) (email_id : Z) : nat :=
  length (filter (fun t => task_email_id t = email_id) (background st)).

(** Every message has at most one summary, counting those on their way. *)
Definition at_most_one (st : State) : Prop :=
  forall email_id,
    (length (summaries_of (summaries st) email_id)
     + pending_creations st email_id <= 1)%nat.

Section Serial.

Context `{Library} `{LLM.Provider}.
Variable settings : LLM.Settings.

(** No trigger for a message is served while a creation for that message
    is still pending. *)
Fixpoint serial (st : State) (actions : list action) : bool :=
  match actions with
  | [] => true
  | a :: rest =>
      match a with
      | Trigger email_id _ => negb (creation_pending st email_id)
      | Finish _ _ _ => true
      end && serial (step settings st a) rest
  end.

End Serial.

End Summaries.

(** ** Reminders (api/v1/endpoints/reminders.py) *)

Module Reminders.

Import Models.

Record CreateReminderRequest := {
  c_title : string;
  c_description : string;
  c_due_date : datetime;
  c_type : string;
  c_priority : string;
  c_email_id : option Z
}.

Record UpdateReminderRequest := {
  u_title : option string;
  u_description : option string;
  u_due_date : option datetime;
  u_priority : option string;
  u_is_completed : option bool
}.

(** The tables the endpoints use; a reminder is stored under its primary
    key. *)
Record DB := {
  emails : list Email;
  reminders : gmap Z Reminder;
  calendar_events : list CalendarEvent
}.

(** An object handed to [db.add], waiting for the commit. *)
Inductive NewRow :=
  | NewReminder (r : Reminder)
  | NewEvent (e : CalendarEvent).

Definition with_reminders (db : DB) (rs : gmap Z Reminder) : DB :=
  {| emails := emails db; reminders := rs;
     calendar_events := calendar_events db |}.

(** The key of the next row of [reminders]. *)
Definition next_reminder_pk (rs : gmap Z Reminder) : Z :=
  next_pk (map fst (map_to_list rs)).

(** [db.add(reminder); db.commit()] *)
Definition insert_reminder (r : Reminder) (db : DB) : DB :=
  with_reminders db (<[next_reminder_pk (reminders db) := r]> (reminders db)).

Definition insert_row (db : DB) (row : NewRow) : DB :=
  match row with
  | NewReminder r => insert_reminder r db
  | NewEvent e =>
      {| emails := emails db; reminders := reminders db;
         calendar_events := (calendar_events db ++ [e])%list |}
  end.

(** A value the driver binds to a [String] or [Text] column: a text, a
    number, a boolean or [None]. A list or a dict is refused. *)
Definition binds (v : json) : bool :=
  match v with
  | JList _ | JDict _ => false
  | _ => true
  end.

(** The columns of a new row can be bound. [attendees] is a [JSON]
    column and takes any value. *)
Definition row_binds (row : NewRow) : bool :=
  match row with
  | NewReminder r =>
      binds (title r) && binds (description r) && binds (type r)
      && binds (reminder_priority r)
  | NewEvent e =>
      binds (event_title e) && binds (event_description e) && binds (location e)
  end.

(** The tables after the insertion of the rows, in the order in which
    they were added. *)
Definition write (rows : list NewRow) (db : DB) : DB :=
  fold_left insert_row rows db.

(** [db.commit()] with the rows added so far. The session flushes them
    in one transaction: when the driver refuses a row the commit raises
    and no row is written. *)
Definition commit (rows : list NewRow) (db : DB) : result DB :=
  if forallb row_binds rows then Ok (write rows db) else Raise DBAPIError.

(** [create_reminder] *)
Definition create_reminder (request : CreateReminderRequest) (db : DB)
    : response (Z * Reminder) * DB :=
  match dt_sub (c_due_date request) (hours 1) with
  | Raise _ => (HTTPException 500 "Internal Server Error", db)
  | Ok reminder_time =>
      let reminder := {|
        reminder_user_id := 1;
        reminder_email_id := c_email_id request;
        title := JStr (c_title request);
        description := JStr (c_description request);
        due_date := c_due_date request;
        reminder_time := reminder_time;
        type := JStr (c_type request);
        reminder_priority := JStr (c_priority request);
        is_completed := false;
        completed_at := None;
        is_snoozed := false;
        snooze_until := None |} in
      (Http200 (next_reminder_pk (reminders db), reminder),
       insert_reminder reminder db)
  end.

Definition set_title (v : json) (r : Reminder) : Reminder :=
  {| reminder_user_id := reminder_user_id r; reminder_email_id := reminder_email_id r;
     title := v; description := description r; due_date := due_date r;
     reminder_time := reminder_time r; type := type r;
     reminder_priority := reminder_priority r; is_completed := is_completed r;
     completed_at := completed_at r; is_snoozed := is_snoozed r;
     snooze_until := snooze_until r |}.

Definition set_description (v : json) (r : Reminder) : Reminder :=
  {| reminder_user_id := reminder_user_id r; reminder_email_id := reminder_email_id r;
     title := title r; description := v; due_date := due_date r;
     reminder_time := reminder_time r; type := type r;
     reminder_priority := reminder_priority r; is_completed := is_completed r;
     completed_at := completed_at r; is_snoozed := is_snoozed r;
     snooze_until := snooze_until r |}.

Definition set_due_date (t : datetime) (r : Reminder) : Reminder :=
  {| reminder_user_id := reminder_user_id r; reminder_email_id := reminder_email_id r;
     title := title r; description := description r; due_date := t;
     reminder_time := reminder_time r; type := type r;
     reminder_priority := reminder_priority r; is_completed := is_completed r;
     completed_at := completed_at r; is_snoozed := is_snoozed r;
     snooze_until := snooze_until r |}.

Definition set_priority (v : json) (r : Reminder) : Reminder :=
  {| reminder_user_id := reminder_user_id r; reminder_email_id := reminder_email_id r;
     title := title r; description := description r; due_date := due_date r;
     reminder_time := reminder_time r; type := type r;
     reminder_priority := v; is_completed := is_completed r;
     completed_at := completed_at r; is_snoozed := is_snoozed r;
     snooze_until := snooze_until r |}.

Definition set_completed (b : bool) (at_ : option datetime) (r : Reminder) : Reminder :=
  {| reminder_user_id := reminder_user_id r; reminder_email_id := reminder_email_id r;
     title := title r; description := description r; due_date := due_date r;
     reminder_time := reminder_time r; type := type r;
     reminder_priority := reminder_priority r; is_completed := b;
     completed_at := at_; is_snoozed := is_snoozed r;
     snooze_until := snooze_until r |}.

Definition set_snoozed (until : datetime) (r : Reminder) : Reminder :=
  {| reminder_user_id := reminder_user_id r; reminder_email_id := reminder_email_id r;
     title := title r; description := description r; due_date := due_date r;
     reminder_time := reminder_time r; type := type r;
     reminder_priority := reminder_priority r; is_completed := is_completed r;
     completed_at := completed_at r; is_snoozed := true;
     snooze_until := Some until |}.

(** [if field is not None: reminder.attr = field] *)
Definition when_set {A} (field : option A) (set : A -> Reminder -> Reminder)
    (r : Reminder) : Reminder :=
  match field with
  | Some v => set v r
  | None => r
  end.

(** The assignments of [update_reminder], in their order. *)
Definition apply_update (now : datetime) (request : UpdateReminderRequest)
    (r : Reminder) : Reminder :=
  let r := when_set (u_title request) (fun s => set_title (JStr s)) r in
  let r := when_set (u_description request) (fun s => set_description (JStr s)) r in
  let r := when_set (u_due_date request) set_due_date r in
  let r := when_set (u_priority request) (fun s => set_priority (JStr s)) r in
  when_set (u_is_completed request)
    (fun b r => set_completed b (if b then Some now else completed_at r) r) r.

(** [update_reminder] *)
Definition update_reminder (now : datetime) (reminder_id : Z)
    (request : UpdateReminderRequest) (db : DB) : response Reminder * DB :=
  match reminders db !! reminder_id with
  | None => (HTTPException 404 "Reminder not found", db)
  | Some reminder =>
      let reminder := apply_update now request reminder in
      (Http200 reminder,
       with_reminders db (<[reminder_id := reminder]> (reminders db)))
  end.

(** [delete_reminder] *)
Definition delete_reminder (reminder_id : Z) (db : DB) : response string * DB :=
  match reminders db !! reminder_id with
  | None => (HTTPException 404 "Reminder not found", db)
  | Some reminder =>
      (Http200 "Reminder deleted successfully",
       with_reminders db (delete reminder_id (reminders db)))
  end.

(** [complete_reminder] *)
Definition complete_reminder (now : datetime) (reminder_id : Z) (db : DB)
    : response string * DB :=
  match reminders db !! reminder_id with
  | None => (HTTPException 404 "Reminder not found", db)
  | Some reminder =>
      (Http200 "Reminder marked as completed",
       with_reminders db
         (<[reminder_id := set_completed true (Some now) reminder]> (reminders db)))
  end.

Section Endpoints.

Context `{Library} `{LLM.Provider}.
Variable settings : LLM.Settings.

(** [snooze_reminder] *)
Definition snooze_reminder (reminder_id : Z) (snooze_until : datetime) (db : DB)
    : response string * DB :=
  match reminders db !! reminder_id with
  | None => (HTTPException 404 "Reminder not found", db)
  | Some reminder =>
      (Http200 ("Reminder snoozed until " +:+ str_datetime snooze_until),
       with_reminders db
         (<[reminder_id := set_snoozed snooze_until reminder]> (reminders db)))
  end.

(** The filter of [get_overdue_reminders]. *)
Definition overdue (now : datetime) (r : Reminder) : bool :=
  (due_date r <? now) && Bool.eqb (is_completed r) false
  && Bool.eqb (is_snoozed r) false.

(** The filter of [get_upcoming_reminders]: [between] takes both ends. *)
Definition upcoming (now future : datetime) (r : Reminder) : bool :=
  ((now <=? due_date r) && (due_date r <=? future))
  && Bool.eqb (is_completed r) false && Bool.eqb (is_snoozed r) false.

(** [query.filter(...).all()] on the reminders. *)
Definition select (p : Reminder -> bool) (rs : gmap Z Reminder)
    : list (Z * Reminder) :=
  map_to_list (filter (fun kr => p (snd kr) = true) rs).

(** [order_by(Reminder.due_date)] *)
Fixpoint insert_by_due (x : Z * Reminder) (l : list (Z * Reminder))
    : list (Z * Reminder) :=
  match l with
  | [] => [x]
  | y :: l' =>
      if due_date (snd x) <? due_date (snd y) then x :: y :: l'
      else y :: insert_by_due x l'
  end.
Definition order_by_due_date (l : list (Z * Reminder)) : list (Z * Reminder) :=
  fold_right insert_by_due [] l.

Record ReminderList := {
  count : Z;
  listed : list (Z * Reminder)
}.

(** [get_overdue_reminders] *)
Definition get_overdue_reminders (now : datetime) (db : DB) : ReminderList :=
  let overdue := select (overdue now) (reminders db) in
  {| count := Z.of_nat (length overdue); listed := overdue |}.

(** [get_upcoming_reminders] *)
Definition get_upcoming_reminders (now : datetime) (hours_ : Z) (db : DB)
    : result ReminderList :=
  future ← dt_add now (hours hours_);
  let upcoming := order_by_due_date (select (upcoming now future) (reminders db)) in
  mret {| count := Z.of_nat (length upcoming); listed := upcoming |}.

(** *** Extraction into reminders and events *)

(** The first loop body of [process_email_for_reminders], inside its
    [try]: the reminder of one returned task. *)
Definition reminder_of_task (email : Email) (email_id : Z) (now : datetime)
    (task_data : json) : result Reminder :=
  supplied ← py_get task_data "due_date" JNull;
  due_date ← (if py_truthy supplied
              then v ← py_index task_data "due_date"; fromisoformat_of v
              else dt_add now (days 7));
  v_title ← py_index task_data "title";
  v_description ← py_get task_data "description" (JStr "");
  v_type ← py_get task_data "type" (JStr "task");
  v_priority ← py_get task_data "priority" (JStr "medium");
  reminder_time ← dt_sub due_date (hours 2);
  mret {|
    reminder_user_id := email_user_id email;
    reminder_email_id := Some email_id;
    title := v_title;
    description := v_description;
    due_date := due_date;
    reminder_time := reminder_time;
    type := v_type;
    reminder_priority := v_priority;
    is_completed := false;
    completed_at := None;
    is_snoozed := false;
    snooze_until := None |}.

(** The second loop body up to [db.add(calendar_event)]: [None] is the
    [continue] of an event without a start time. *)
Definition event_of (email : Email) (email_id : Z) (event_data : json)
    : result (option CalendarEvent) :=
  supplied ← py_get event_data "start_time" JNull;
  if negb (py_truthy supplied) then mret None
  else
    v_start ← py_index event_data "start_time";
    start_time ← fromisoformat_of v_start;
    default_end ← dt_add start_time (hours 1);
    supplied_end ← py_get event_data "end_time" JNull;
    end_time ← (if py_truthy supplied_end
                then v ← py_index event_data "end_time"; fromisoformat_of v
                else mret default_end);
    v_title ← py_index event_data "title";
    v_description ← py_get event_data "description" (JStr "");
    v_location ← py_get event_data "location" JNull;
    v_attendees ← py_get event_data "attendees" (JList []);
    mret (Some {|
      event_user_id := email_user_id email;
      event_title := v_title;
      event_description := v_description;
      start_time := start_time;
      end_time := end_time;
      location := v_location;
      attendees := v_attendees;
      created_from_email := Some email_id |}).

(** The rest of the second loop body: the reminder that goes with an
    event. *)
Definition reminder_of_event (email : Email) (email_id : Z)
    (event_data : json) (start_time : datetime) : result Reminder :=
  v_title ← py_index event_data "title";
  reminder_time ← dt_sub start_time (minutes 15);
  mret {|
    reminder_user_id := email_user_id email;
    reminder_email_id := Some email_id;
    title := JStr ("Meeting: " +:+ str_json v_title);
    description := JStr ("Upcoming meeting at " +:+ str_datetime start_time);
    due_date := start_time;
    reminder_time := reminder_time;
    type := JStr "meeting";
    reminder_priority := JStr "medium";
    is_completed := false;
    completed_at := None;
    is_snoozed := false;
    snooze_until := None |}.

(** The rows one task adds to the session: a failure is logged and the
    loop goes on. *)
Definition task_rows (email : Email) (email_id : Z) (now : datetime)
    (task_data : json) : list NewRow :=
  try_except
    (reminder ← reminder_of_task email email_id now task_data;
     mret [NewReminder reminder])
    (fun _ => []).

(** The rows one event adds to the session. The event is added before
    its reminder is built, so a failure of the latter leaves the event. *)
Definition event_rows (email : Email) (email_id : Z) (event_data : json)
    : list NewRow :=
  match event_of email email_id event_data with
  | Raise _ => []
  | Ok None => []
  | Ok (Some calendar_event) =>
      NewEvent calendar_event ::
      try_except
        (reminder ← reminder_of_event email email_id event_data
                      (start_time calendar_event);
         mret [NewReminder reminder])
        (fun _ => [])
  end.

(** The first loop; [utcnow i] is the clock as the task at position [i]
    reads it. *)
Fixpoint tasks_from (utcnow : nat -> datetime) (i : nat) (email : Email)
    (email_id : Z) (tasks : list json) : list NewRow :=
  match tasks with
  | [] => []
  | task_data :: rest =>
      (task_rows email email_id (utcnow i) task_data
       ++ tasks_from utcnow (S i) email email_id rest)%list
  end.

(** The session at the commit, given what was extracted. A failure
    outside the two loop bodies reaches the outer handler. *)
Definition rows_of_extraction (utcnow : nat -> datetime) (email : Email)
    (email_id : Z) (extracted : json) : result (list NewRow) :=
  v_tasks ← py_get extracted "tasks" (JList []);
  tasks ← py_iter v_tasks;
  let added := tasks_from utcnow 0 email email_id tasks in
  v_events ← py_get extracted "events" (JList []);
  events ← py_iter v_events;
  mret (added ++ flat_map (event_rows email email_id) events)%list.

(** [process_email_for_reminders]: the outer handler rolls back what
    the session holds, so the tables are as they were. *)
Definition process_email_for_reminders (utcnow : nat -> datetime)
    (email_id : Z) (db : DB) : DB :=
  match email_by_id (emails db) email_id with
  | None => db
  | Some email =>
      let email_content :=
        "Subject: " +:+ subject email +:+ LLM.nl +:+ LLM.nl +:+ body email in
      let extracted := LLM.extract_tasks_and_events settings email_content in
      try_except
        (rows ← rows_of_extraction utcnow email email_id extracted;
         commit rows db)
        (fun _ => db)
  end.

(** The rows [process_email_for_reminders] commits: none when the email
    is gone, none when the outer handler rolls the session back, be it
    for an exception of the loops or of the commit. *)
Definition committed_rows (utcnow : nat -> datetime) (email_id : Z) (db : DB)
    : list NewRow :=
  match email_by_id (emails db) email_id with
  | None => []
  | Some email =>
      let email_content :=
        "Subject: " +:+ subject email +:+ LLM.nl +:+ LLM.nl +:+ body email in
      let extracted := LLM.extract_tasks_and_events settings email_content in
      try_except
        (rows ← rows_of_extraction utcnow email email_id extracted;
         if forallb row_binds rows then Ok rows else Raise DBAPIError)
        (fun _ => [])
  end.

(** The operations that change the reminders. *)
Inductive action :=
  | Create (request : CreateReminderRequest)
  | Update (now : datetime) (reminder_id : Z) (request : UpdateReminderRequest)
  | Delete (reminder_id : Z)
  | Complete (now : datetime) (reminder_id : Z)
  | Snooze (reminder_id : Z) (snooze_until : datetime)
  | Extract (utcnow : nat -> datetime) (email_id : Z).

Definition step (db : DB) (a : action) : DB :=
  match a with
  | Create request => snd (create_reminder request db)
  | Update now reminder_id request => snd (update_reminder now reminder_id request db)
  | Delete reminder_id => snd (delete_reminder reminder_id db)
  | Complete now reminder_id => snd (complete_reminder now reminder_id db)
  | Snooze reminder_id snooze_until => snd (snooze_reminder reminder_id snooze_until db)
  | Extract utcnow email_id => process_email_for_reminders utcnow email_id db
  end.

Definition run (db : DB) (actions : list action) : DB :=
  fold_left step actions db.

End Endpoints.

(** What the design document says of the rows. *)

Section Wording.

Context `{Library}.





(** The end of an event as the second loop body computes it. *)
Definition end_of (d : list (string * json)) (default_end : datetime)
    : result datetime :=
  if py_truthy (dict_get d "end_time" JNull)
  then fromisoformat_of (dict_get d "end_time" JNull)
  else Ok default_end.






End Wording.


(** The operation deletes this reminder. *)
Definition deletes (reminder_id : Z) (a : action) : Prop :=
  match a with
  | Delete k => k = reminder_id
  | _ => False
  end.

(** The reminder is stored and its flag is set. *)
Definition snoozed (reminder_id : Z) (db : DB) : Prop :=
  exists r, reminders db !! reminder_id = Some r /\ is_snoozed r = true.

End Reminders.

(** ** Free time (api/v1/endpoints/calendar.py, the local scan) *)

Module Calendar.

Import Models.

(** A free slot, by its start and its end; the endpoint prints both with
    [isoformat]. *)
Definition slot : Type := datetime * datetime.

(** The test of the inner loop: the slot meets the event. *)
Definition overlaps (slot_start slot_end : datetime) (event : CalendarEvent) : bool :=
  (slot_start <? end_time event) && (slot_end >? start_time event).

(** [conflict] after the loop over [busy_events]. *)
Definition conflict (busy_events : list CalendarEvent)
    (slot_start slot_end : datetime) : bool :=
  existsb (overlaps slot_start slot_end) busy_events.

(** The [while] loop over the slots of one day. [None] is a loop that
    has used up [fuel]; [Raise] an addition that left the range. *)
Fixpoint scan_day (fuel : nat) (busy_events : list CalendarEvent)
    (duration : timedelta) (day_end slot_start : datetime)
    (free_slots : list slot) : option (result (list slot)) :=
  match fuel with
  | O => None
  | S fuel' =>
      match dt_add slot_start duration with
      | Raise e => Some (Raise e)
      | Ok slot_end =>
          if slot_end <=? day_end then
            let free_slots :=
              if conflict busy_events slot_start slot_end then free_slots
              else (free_slots ++ [(slot_start, slot_end)])%list in
            match dt_add slot_start (hours 1) with
            | Raise e => Some (Raise e)
            | Ok next => scan_day fuel' busy_events duration day_end next free_slots
            end
          else Some (Ok free_slots)
      end
  end.

(** Enough turns for the loop of one day: the slots that fit between
    09:00 and 17:00, and the last test. *)
Definition day_fuel (duration : timedelta) : nat :=
  S (Z.to_nat ((hours 8 - duration) / us_per_hour + 1)).

(** The [for day in range(days_ahead)] loop. *)
Fixpoint scan_days (n : nat) (busy_events : list CalendarEvent)
    (duration : timedelta) (current_date : Z) (free_slots : list slot)
    : option (result (list slot)) :=
  match n with
  | O => Some (Ok free_slots)
  | S n' =>
      let today :=
        if weekday current_date <? 5 then
          let day_start := combine current_date 9 in
          let day_end := combine current_date 17 in
          scan_day (day_fuel duration) busy_events duration day_end day_start
                   free_slots
        else Some (Ok free_slots) in
      match today with
      | None => None
      | Some (Raise e) => Some (Raise e)
      | Some (Ok free_slots) =>
          scan_days n' busy_events duration (current_date + 1) free_slots
      end
  end.

(** The rows of a query with the three criteria: the events of the user
    that start no earlier than now and end within the window. *)
Definition stored_busy (u : User) (now end_time_ : datetime)
    (events : list CalendarEvent) : list CalendarEvent :=
  filter (fun event =>
            (start_time event >=? now) && (end_time event <=? end_time_)
            && (event_user_id event =? user_pk u) = true) events.

(** The query for [busy_events]. Its third criterion is
    [CalendarEvent.user_id == user.id if user else 1], a conditional
    expression: without a user it is the integer 1, which [filter]
    refuses with [ArgumentError]. *)
Definition busy_query (user : option User) (now end_time_ : datetime)
    (events : list CalendarEvent) : result (list CalendarEvent) :=
  match user with
  | Some u => Ok (stored_busy u now end_time_ events)
  | None => Raise ArgumentError
  end.

(** The block of [find_free_time] under [if not user or not
    user.calendar_token]: the value under ["free_slots"]. [None] is a
    scan that does not end, [Raise] an exception that leaves the block. *)
Definition local_free_time (now : datetime) (duration_minutes days_ahead : Z)
    (user : option User) (events : list CalendarEvent)
    : option (result (list slot)) :=
  match dt_add now (days days_ahead) with
  | Raise e => Some (Raise e)
  | Ok end_time_ =>
      match busy_query user now end_time_ events with
      | Raise e => Some (Raise e)
      | Ok busy_events =>
          match scan_days (Z.to_nat days_ahead) busy_events
                  (minutes duration_minutes) (date_of now) [] with
          | None => None
          | Some (Raise e) => Some (Raise e)
          | Some (Ok free_slots) => Some (Ok (firstn 10 free_slots))
          end
      end
  end.

(** [CalendarService.build_service] followed by
    [CalendarService.find_free_time]: the scan against the free/busy
    answer of the calendar provider, for a user with a token. *)
Class RemoteCalendar := {
  remote_free_time : User -> datetime -> Z -> Z -> result (list slot)
}.

(** [find_free_time]. An exception that leaves the local block is not
    handled; one that leaves the remote call is turned into a 500. *)
Definition find_free_time `{RemoteCalendar} (now : datetime)
    (duration_minutes days_ahead : Z) (user : option User)
    (events : list CalendarEvent) : option (response (list slot)) :=
  match user with
  | Some u =>
      if token_set (calendar_token u) then
        match remote_free_time u now duration_minutes days_ahead with
        | Ok free_slots => Some (Http200 free_slots)
        | Raise _ => Some (HTTPException 500 "Failed to find free time")
        end
      else
        match local_free_time now duration_minutes days_ahead user events with
        | None => None
        | Some (Ok free_slots) => Some (Http200 free_slots)
        | Some (Raise _) => Some (HTTPException 500 "Internal Server Error")
        end
  | None =>
      match local_free_time now duration_minutes days_ahead user events with
      | None => None
      | Some (Ok free_slots) => Some (Http200 free_slots)
      | Some (Raise _) => Some (HTTPException 500 "Internal Server Error")
      end
  end.

(** The scan as the design document words it. *)

(** How many one-hour steps from 09:00 start a slot that ends by 17:00. *)
Definition slots_per_day (duration : timedelta) : nat :=
  Z.to_nat ((hours 8 - duration) / us_per_hour + 1).

(** The slot that starts [k] hours after 09:00 of day [d]. *)
Definition slot_at (duration : timedelta) (d : Z) (k : nat) : slot :=
  (combine d 9 + hours (Z.of_nat k),
   combine d 9 + hours (Z.of_nat k) + duration).

(** The slots of one day: 09:00, 10:00, ... *)
Definition day_candidates (duration : timedelta) (d : Z) : list slot :=
  map (slot_at duration d) (seq 0 (slots_per_day duration)).

(** The slots of the weekdays of the window. *)
Definition candidates (duration : timedelta) (first_day : Z) (n : nat) : list slot :=
  flat_map (fun i =>
              let d := first_day + Z.of_nat i in
              if weekday d <? 5 then day_candidates duration d else [])
           (seq 0 n).

(** Open-interval overlap: [slotStart < busyEnd && slotEnd > busyStart]. *)
Definition overlap (s : slot) (event : CalendarEvent) : Prop :=
  fst s < end_time event /\ snd s > start_time event.

Definition free (busy_events : list CalendarEvent) (s : slot) : Prop :=
  forall event, In event busy_events -> ~ overlap s event.

Definition freeb (busy_events : list CalendarEvent) (s : slot) : bool :=
  negb (conflict busy_events (fst s) (snd s)).

(** A busy interval with nothing else to it. *)
Definition busy (user_id : Z) (from to : datetime) : CalendarEvent :=
  {| event_user_id := user_id; event_title := JStr "busy";
     event_description := JStr ""; start_time := from; end_time := to;
     location := JNull; attendees := JList []; created_from_email := None |}.

(** [d] at [h]:[m]. *)
Definition at_time (d h m : Z) : datetime := combine d h + minutes m.

(** The slot of day [d] from [h]:00 to [h+1]:00. *)
Definition hour_slot (d h : Z) : slot := (at_time d h 0, at_time d (h + 1) 0).

(** The request is served by the local scan: there is no user, or the
    user has no calendar token. *)
Definition local_branch (user : option User) : bool :=
  match user with
  | None => true
  | Some u => negb (token_set (calendar_token u))
  end.

(** The events of [user_id] are those of the user. *)
Definition owns (user : User) (user_id : Z) : Prop :=
  user_pk user = user_id.

End Calendar.

(** ** Collaborators for the worked examples

    The properties below hold for every library, provider and mailbox.
    The worked examples run on these. *)

Module Examples.

Import Models.

(** The ISO fragment for dates; [json.loads] on a text that is no JSON. *)
Definition library : Library := {|
  fromisoformat := iso_fragment;
  json_loads := fun _ => Raise ValueError;
  str_json := fun v => match v with JStr s => s | _ => "None" end;
  str_datetime := fun t => pretty t;
  sentiment_label := fun _ => "neutral"
|}.

(** A provider that answers in prose, and one that is down. *)
Definition prose : LLM.Provider := {|
  LLM.openai_acreate := fun _ _ _ _ _ => Ok "  Happy to help with this.  ";
  LLM.anthropic_create := fun _ _ _ => Ok "Happy to help with this."
|}.

Definition down : LLM.Provider := {|
  LLM.openai_acreate := fun _ _ _ _ _ => Raise ProviderError;
  LLM.anthropic_create := fun _ _ _ => Raise ProviderError
|}.

(** The defaults of core/config.py, without and with a key. *)
Definition no_keys : LLM.Settings := {|
  LLM.OPENAI_API_KEY := "";
  LLM.OPENAI_MODEL := "gpt-4-turbo-preview";
  LLM.ANTHROPIC_API_KEY := "";
  LLM.ANTHROPIC_MODEL := "claude-3-sonnet-20240229"
|}.

Definition openai_key : LLM.Settings := {|
  LLM.OPENAI_API_KEY := "sk-test";
  LLM.OPENAI_MODEL := "gpt-4-turbo-preview";
  LLM.ANTHROPIC_API_KEY := "";
  LLM.ANTHROPIC_MODEL := "claude-3-sonnet-20240229"
|}.

(** A fetched message with the given id and [Date] header. *)
Definition message (id date : string) : Sync.GmailEmail := {|
  Sync.g_gmail_id := id;
  Sync.g_thread_id := "t-" +:+ id;
  Sync.g_sender := "alice@example.com";
  Sync.g_recipient := "bob@example.com";
  Sync.g_subject := "Project report";
  Sync.g_body := "Please send the report by tomorrow.";
  Sync.g_html_body := "";
  Sync.g_timestamp := date;
  Sync.g_has_attachment := false;
  Sync.g_labels := ["INBOX"]
|}.

Definition mailbox (batch : list Sync.GmailEmail) : Sync.Mailbox := {|
  Sync.fetch_emails := fun _ _ _ _ => Ok batch
|}.

Definition user : User := {|
  user_pk := 1;
  gmail_token := Some "ya29.token";
  gmail_refresh_token := None;
  calendar_token := None
|}.

(** A stored message. *)
Definition stored (pk : Z) (id : string) : Email := {|
  email_pk := pk;
  gmail_id := id;
  email_user_id := 1;
  sender := "alice@example.com";
  recipient := "bob@example.com";
  subject := "Project report";
  body := "Please send the report by tomorrow.";
  html_body := "";
  timestamp := 63840909600000000;
  is_read := false;
  has_attachment := false;
  thread_id := "t-" +:+ id;
  priority := "medium";
  category := "work";
  sentiment := "neutral";
  urgency_score := 6;
  is_processed := true;
  processed_at := Some 63840909600000000
|}.

(** A remote calendar that cannot be reached. *)
Definition unreachable : Calendar.RemoteCalendar := {|
  Calendar.remote_free_time := fun _ _ _ _ => Raise ProviderError
|}.

(** Monday 2024-01-15, as a day index, and a clock that stands at 08:00
    of that day. *)
Definition monday : Z := 738899.
Definition clock : nat -> datetime := fun _ => Calendar.at_time monday 8 0.

Definition request : Summaries.GenerateSummaryRequest := {|
  Summaries.model := "openai";
  Summaries.include_response := true;
  Summaries.request_tone := "professional"
|}.

(** A reminder that is due at noon of that Monday. *)
Definition reminder : Reminder := {|
  reminder_user_id := 1;
  reminder_email_id := None;
  title := JStr "Send the report";
  description := JStr "";
  due_date := Calendar.at_time monday 12 0;
  reminder_time := Calendar.at_time monday 11 0;
  type := JStr "task";
  reminder_priority := JStr "medium";
  is_completed := false;
  completed_at := None;
  is_snoozed := false;
  snooze_until := None
|}.

End Examples.

From Stdlib Require Import Sorted.

(** ** Queries (the filters and the paging the endpoints share) *)

Module Query.

(** [Reminder.priority == priority] on a text column: the stored value is
    that text. *)
Definition column_is (v : json) (s : string) : bool :=
  match v with
  | JStr t => String.eqb t s
  | _ => false
  end.

(** [if priority:] for an optional text: a filter is applied for a text
    that is given and not empty. *)
Definition given (field : option string) : option string :=
  match field with
  | Some s => if truthy s then Some s else None
  | None => None
  end.

(** [query.offset(skip).limit(limit).all()]. A negative bound is left to
    the database, which refuses it or reads it as no bound: [None]. *)
Definition page {A} (skip limit : Z) (rows : list A) : option (list A) :=
  if (skip <? 0) || (limit <? 0) then None
  else Some (take (Z.to_nat limit) (drop (Z.to_nat skip) rows)).

End Query.

(** ** Reminders: listing and lookup (api/v1/endpoints/reminders.py) *)

Module ReminderQueries.

Import Models Reminders Query.

(** The three filters of [get_reminders], in their order. *)
Definition narrowed (is_completed_ : option bool) (priority_ type_ : option string)
    (query : list (Z * Reminder)) : list (Z * Reminder) :=
  let query :=
    match is_completed_ with
    | Some b => List.filter (fun kr => Bool.eqb (is_completed (snd kr)) b) query
    | None => query
    end in
  let query :=
    match given priority_ with
    | Some p => List.filter (fun kr => column_is (reminder_priority (snd kr)) p) query
    | None => query
    end in
  match given type_ with
  | Some t => List.filter (fun kr => column_is (type (snd kr)) t) query
  | None => query
  end.

(** [get_reminders] *)
Definition get_reminders (skip limit : Z) (is_completed_ : option bool)
    (priority_ type_ : option string) (db : DB) : option (list (Z * Reminder)) :=
  let query := map_to_list (reminders db) in
  let query := narrowed is_completed_ priority_ type_ query in
  page skip limit (order_by_due_date query).

(** [get_reminder] *)
Definition get_reminder (reminder_id : Z) (db : DB) : response Reminder :=
  match reminders db !! reminder_id with
  | None => HTTPException 404 "Reminder not found"
  | Some reminder => Http200 reminder
  end.

(** [extract_reminders_from_email]: the answer and the email whose
    extraction is handed to the background tasks. *)
Definition extract_reminders_from_email (email_id : Z) (db : DB)
    : response string * option Z :=
  match email_by_id (emails db) email_id with
  | None => (HTTPException 404 "Email not found", None)
  | Some email =>
      (Http200 "Processing email for reminders and events", Some email_id)
  end.

(** The quantities the properties speak of. *)

(** The order of the due dates. *)
Definition by_due (a b : Z * Reminder) : Prop :=
  due_date (snd a) <= due_date (snd b).

(** The reminder is neither completed nor snoozed. *)
Definition open (r : Reminder) : Prop :=
  is_completed r = false /\ is_snoozed r = false.

(** The row a request asks for. *)
Definition asked_for (is_completed_ : option bool) (priority_ type_ : option string)
    (r : Reminder) : Prop :=
  (forall b, is_completed_ = Some b -> is_completed r = b) /\
  (forall p, priority_ = Some p -> p <> "" -> reminder_priority r = JStr p) /\
  (forall t, type_ = Some t -> t <> "" -> type r = JStr t).

(** The reminders and the events among the rows of a session. *)
Definition reminders_in (rows : list NewRow) : list Reminder :=
  flat_map (fun row => match row with NewReminder r => [r] | NewEvent _ => [] end) rows.
Definition events_in (rows : list NewRow) : list CalendarEvent :=
  flat_map (fun row => match row with NewEvent e => [e] | NewReminder _ => [] end) rows.

(** The row was built for this email and has the state of a new row. *)
Definition built_for (email : Email) (email_id : Z) (row : NewRow) : Prop :=
  match row with
  | NewReminder r =>
      reminder_user_id r = email_user_id email /\
      reminder_email_id r = Some email_id /\
      is_completed r = false /\ completed_at r = None /\
      is_snoozed r = false /\ snooze_until r = None
  | NewEvent e =>
      event_user_id e = email_user_id email /\
      created_from_email e = Some email_id
  end.

(** A request that changes nothing. *)
Definition no_change : UpdateReminderRequest :=
  {| u_title := None; u_description := None; u_due_date := None;
     u_priority := None; u_is_completed := None |}.

(** The request that reopens a reminder. *)
Definition reopen : UpdateReminderRequest :=
  {| u_title := None; u_description := None; u_due_date := None;
     u_priority := None; u_is_completed := Some false |}.

End ReminderQueries.

(** ** The stored messages (api/v1/endpoints/email.py) *)

Module Inbox.

Import Models Query.

(** The three filters of [get_emails], in their order. *)
Definition filtered (category_ priority_ : option string) (is_read_ : option bool)
    (query : list Email) : list Email :=
  let query :=
    match given category_ with
    | Some c => List.filter (fun e => String.eqb (category e) c) query
    | None => query
    end in
  let query :=
    match given priority_ with
    | Some p => List.filter (fun e => String.eqb (priority e) p) query
    | None => query
    end in
  match is_read_ with
  | Some b => List.filter (fun e => Bool.eqb (is_read e) b) query
  | None => query
  end.

(** [get_emails]. No order is asked of the database: the rows come in
    the order of the table. *)
Definition get_emails (skip limit : Z) (category_ priority_ : option string)
    (is_read_ : option bool) (emails : list Email) : option (list Email) :=
  let query := emails in
  let query := filtered category_ priority_ is_read_ query in
  page skip limit query.

(** [get_email] *)
Definition get_email (email_id : Z) (emails : list Email) : response Email :=
  match email_by_id emails email_id with
  | None => HTTPException 404 "Email not found"
  | Some email => Http200 email
  end.

(** [email.is_read = True] *)
Definition set_is_read (e : Email) : Email :=
  {| email_pk := email_pk e; gmail_id := gmail_id e;
     email_user_id := email_user_id e; sender := sender e;
     recipient := recipient e; subject := subject e; body := body e;
     html_body := html_body e; timestamp := timestamp e; is_read := true;
     has_attachment := has_attachment e; thread_id := thread_id e;
     priority := priority e; category := category e;
     sentiment := sentiment e; urgency_score := urgency_score e;
     is_processed := is_processed e; processed_at := processed_at e |}.

(** [mark_email_read]: the commit updates the row that has the key. *)
Definition mark_email_read (email_id : Z) (emails : list Email)
    : response string * list Email :=
  match email_by_id emails email_id with
  | None => (HTTPException 404 "Email not found", emails)
  | Some email =>
      (Http200 "Email marked as read",
       map (fun e => if email_pk e =? email_id then set_is_read e else e) emails)
  end.

(** The quantities the properties speak of. *)

(** The row a request asks for. *)
Definition wanted (category_ priority_ : option string) (is_read_ : option bool)
    (e : Email) : Prop :=
  (forall c, category_ = Some c -> c <> "" -> category e = c) /\
  (forall p, priority_ = Some p -> p <> "" -> priority e = p) /\
  (forall b, is_read_ = Some b -> is_read e = b).

(** The rows of a page of [total] rows. *)
Definition page_size (skip limit total : Z) : Z :=
  Z.min limit (Z.max 0 (total - skip)).

(** The unread messages. *)
Definition unread (emails : list Email) : list Email :=
  List.filter (fun e => negb (is_read e)) emails.

End Inbox.

(** ** The calendar provider (services/calendar_service.py) *)

Module CalendarService.

Import Models.

(** An event resource of the calendar provider, with the keys the
    service reads; a key that can be absent is an [option]. An attendee
    and the organizer are given by their email, which can be absent too. *)
Record EventTime := {
  dateTime : option string;
  date : option string
}.

Record GoogleEvent := {
  ge_id : string;
  ge_summary : option string;
  ge_description : option string;
  ge_location : option string;
  ge_start : EventTime;
  ge_end : EventTime;
  ge_attendees : option (list (option string));
  ge_organizer : option (option string);
  ge_status : option string;
  ge_htmlLink : option string;
  ge_created : option string;
  ge_updated : option string
}.

(** The dict [_parse_event] returns; [None] is Python's [None]. *)
Record ParsedEvent := {
  p_google_event_id : string;
  p_title : string;
  p_description : string;
  p_location : string;
  p_start_time : option string;
  p_end_time : option string;
  p_attendees : list string;
  p_organizer : string;
  p_status : string;
  p_html_link : string;
  p_created : string;
  p_updated : string
}.

(** The [event_data] the endpoints hand to [create_event]: every key is
    present, with the value of the request, which can be [None]. *)
Record EventData := {
  ed_title : string;
  ed_description : string;
  ed_start_time : string;
  ed_end_time : string;
  ed_location : option string;
  ed_attendees : option (list string);
  ed_timezone : option string
}.

(** The [update_data] of [update_event]: a key is present when the
    request gives the field. *)
Record UpdateData := {
  ud_title : option string;
  ud_description : option string;
  ud_start_time : option string;
  ud_end_time : option string;
  ud_location : option string
}.

(** The body of an insertion; [location] and [attendees] are keys that
    are added only when the value is truthy. *)
Record EventBody := {
  b_summary : string;
  b_description : string;
  b_start_dateTime : string;
  b_start_timeZone : option string;
  b_end_dateTime : string;
  b_end_timeZone : option string;
  b_location : option string;
  b_attendees : option (list string)
}.

(** The calendar provider. [build_service] takes the token data of the
    user; the other calls are those of the service it builds, on the
    primary calendar. A failing call raises; [HttpError] is
    [ProviderError]. *)
Class GoogleCalendar := {
  service : Type;
  build_service : User -> result service;
  (** [events().list(timeMin, maxResults, singleEvents=True,
      orderBy='startTime')], the items of the answer *)
  events_list : service -> string -> Z -> result (list GoogleEvent);
  events_insert : service -> EventBody -> result GoogleEvent;
  events_get : service -> string -> result GoogleEvent;
  events_update : service -> string -> GoogleEvent -> result GoogleEvent;
  events_delete : service -> string -> result unit;
  (** [freebusy().query(body)] for [timeMin] and [timeMax], the value
      under [calendars], [primary], [busy]: the start and the end of each
      busy interval *)
  freebusy_query : service -> string -> string -> result (list (string * string))
}.

(** [datetime.isoformat] *)
Class Format := {
  isoformat : datetime -> string
}.

(** [datetime.fromisoformat] with the time zone: the datetime and whether
    it is aware, which it is when the text carries an offset. *)
Class Zoned := {
  fromisoformat_zoned : string -> result (datetime * bool)
}.

(** A write sent to the provider. *)
Inductive Call :=
  | Insert (body : EventBody)
  | Update (event_id : string) (body : GoogleEvent)
  | Delete (event_id : string).

(** [d.get(k, default)] for a key that can be absent. *)
Definition get {A} (field : option A) (default : A) : A :=
  match field with
  | Some v => v
  | None => default
  end.

(** [CalendarService._parse_event] *)
Definition _parse_event (event : GoogleEvent) : ParsedEvent :=
  let start :=
    match dateTime (ge_start event) with
    | Some s => Some s
    | None => date (ge_start event)
    end in
  let end_ :=
    match dateTime (ge_end event) with
    | Some s => Some s
    | None => date (ge_end event)
    end in
  {| p_google_event_id := ge_id event;
     p_title := get (ge_summary event) "No Title";
     p_description := get (ge_description event) "";
     p_location := get (ge_location event) "";
     p_start_time := start;
     p_end_time := end_;
     p_attendees := map (fun attendee => get attendee "") (get (ge_attendees event) []);
     p_organizer := get (get (ge_organizer event) None) "";
     p_status := get (ge_status event) "confirmed";
     p_html_link := get (ge_htmlLink event) "";
     p_created := get (ge_created event) "";
     p_updated := get (ge_updated event) "" |}.

(** [except HttpError: return default]; any other exception goes on. *)
Definition except_http {A} (body : result A) (default : A) : result A :=
  match body with
  | Ok a => Ok a
  | Raise ProviderError => Ok default
  | Raise e => Raise e
  end.

Section Service.

Context `{GoogleCalendar} `{Format}.

(** [CalendarService.get_upcoming_events] *)
Definition get_upcoming_events (svc : service) (max_results : Z) (utcnow : datetime)
    : result (list ParsedEvent) :=
  except_http
    (let now := isoformat utcnow +:+ "Z" in
     events ← events_list svc now max_results;
     mret (map _parse_event events))
    [].

(** [if event_data.get(k):] for a text and for a list. *)
Definition truthy_text (v : option string) : option string :=
  match v with
  | Some s => if truthy s then Some s else None
  | None => None
  end.
Definition truthy_list {A} (v : option (list A)) : option (list A) :=
  match v with
  | Some (x :: l) => Some (x :: l)
  | _ => None
  end.

(** [CalendarService.create_event]: the result and the write it sent. *)
Definition create_event (svc : service) (event_data : EventData)
    : result (option ParsedEvent) * list Call :=
  let event := {|
    b_summary := ed_title event_data;
    b_description := ed_description event_data;
    b_start_dateTime := ed_start_time event_data;
    b_start_timeZone := ed_timezone event_data;
    b_end_dateTime := ed_end_time event_data;
    b_end_timeZone := ed_timezone event_data;
    b_location := truthy_text (ed_location event_data);
    b_attendees := truthy_list (ed_attendees event_data) |} in
  (except_http
     (created_event ← events_insert svc event;
      mret (Some (_parse_event created_event)))
     None,
   [Insert event]).

Definition with_start (t : EventTime) (s : string) : EventTime :=
  {| dateTime := Some s; date := date t |}.

(** The assignments of [update_event] to the event it fetched. *)
Definition apply_data (event_data : UpdateData) (e : GoogleEvent) : GoogleEvent :=
  {| ge_id := ge_id e;
     ge_summary := match ud_title event_data with
                   | Some s => Some s | None => ge_summary e end;
     ge_description := match ud_description event_data with
                       | Some s => Some s | None => ge_description e end;
     ge_location := match ud_location event_data with
                    | Some s => Some s | None => ge_location e end;
     ge_start := match ud_start_time event_data with
                 | Some s => with_start (ge_start e) s | None => ge_start e end;
     ge_end := match ud_end_time event_data with
               | Some s => with_start (ge_end e) s | None => ge_end e end;
     ge_attendees := ge_attendees e;
     ge_organizer := ge_organizer e;
     ge_status := ge_status e;
     ge_htmlLink := ge_htmlLink e;
     ge_created := ge_created e;
     ge_updated := ge_updated e |}.

(** [CalendarService.update_event] *)
Definition update_event (svc : service) (event_id : string)
    (event_data : UpdateData) : result (option ParsedEvent) * list Call :=
  match events_get svc event_id with
  | Ok existing_event =>
      let existing_event := apply_data event_data existing_event in
      (except_http
         (updated_event ← events_update svc event_id existing_event;
          mret (Some (_parse_event updated_event)))
         None,
       [Update event_id existing_event])
  | Raise e => (except_http (Raise e) None, [])
  end.

(** [CalendarService.delete_event] *)
Definition delete_event (svc : service) (event_id : string)
    : result bool * list Call :=
  (except_http (_ ← events_delete svc event_id; mret true) false,
   [Delete event_id]).

(** [a < b] and [a > b] for a naive [a] and a parsed [b]: comparing a
    naive datetime with an aware one raises [TypeError]. *)
Definition naive_lt (a : datetime) (b : datetime * bool) : result bool :=
  if snd b then Raise TypeError else Ok (a <? fst b).
Definition naive_gt (a : datetime) (b : datetime * bool) : result bool :=
  if snd b then Raise TypeError else Ok (a >? fst b).

(** [t.replace(minute=0, second=0, microsecond=0)] and
    [t.replace(hour=h)] *)
Definition on_the_hour (t : datetime) : datetime := t - t mod us_per_hour.
Definition replace_hour (t : datetime) (h : Z) : datetime :=
  combine (date_of t) h + t mod us_per_hour.

Section FreeTime.

Context `{Zoned}.

(** [slot_start < busy_end and slot_end > busy_start] *)
Definition overlapping (slot_start slot_end : datetime)
    (busy_start busy_end : datetime * bool) : result bool :=
  match naive_lt slot_start busy_end with
  | Ok true => naive_gt slot_end busy_start
  | Ok false => Ok false
  | Raise e => Raise e
  end.

(** The [for busy in busy_times] loop: [is_free] after it. *)
Fixpoint is_free (busy_times : list (string * string))
    (slot_start slot_end : datetime) : result bool :=
  match busy_times with
  | [] => Ok true
  | busy :: rest =>
      busy_start ← fromisoformat_zoned (replace "Z" "+00:00" (fst busy));
      busy_end ← fromisoformat_zoned (replace "Z" "+00:00" (snd busy));
      meets ← overlapping slot_start slot_end busy_start busy_end;
      if (meets : bool) then Ok false else is_free rest slot_start slot_end
  end.

(** The [while] loop over the slots of one day. [None] is a loop that
    has used up [fuel]; [Raise] an exception that leaves it. *)
Fixpoint scan_day (fuel : nat) (busy_times : list (string * string))
    (duration : timedelta) (day_end slot_start : datetime)
    (free_slots : list Calendar.slot) : option (result (list Calendar.slot)) :=
  match fuel with
  | O => None
  | S fuel' =>
      match dt_add slot_start duration with
      | Raise e => Some (Raise e)
      | Ok slot_end =>
          if slot_end <=? day_end then
            match is_free busy_times slot_start slot_end with
            | Raise e => Some (Raise e)
            | Ok free =>
                let free_slots :=
                  if free then (free_slots ++ [(slot_start, slot_end)])%list
                  else free_slots in
                match dt_add slot_start (hours 1) with
                | Raise e => Some (Raise e)
                | Ok next =>
                    scan_day fuel' busy_times duration day_end next free_slots
                end
            end
          else Some (Ok free_slots)
      end
  end.

(** The [for day in range(days_ahead)] loop: every day, from 09:00 to
    17:00. *)
Fixpoint scan_days (n : nat) (busy_times : list (string * string))
    (duration : timedelta) (current_time : datetime)
    (free_slots : list Calendar.slot) : option (result (list Calendar.slot)) :=
  match n with
  | O => Some (Ok free_slots)
  | S n' =>
      let day_start := replace_hour current_time 9 in
      let day_end := replace_hour current_time 17 in
      match scan_day (Calendar.day_fuel duration) busy_times duration day_end
                     day_start free_slots with
      | None => None
      | Some (Raise e) => Some (Raise e)
      | Some (Ok free_slots) =>
          match dt_add current_time (days 1) with
          | Raise e => Some (Raise e)
          | Ok current_time =>
              scan_days n' busy_times duration current_time free_slots
          end
      end
  end.

(** [CalendarService.find_free_time]; a slot is given by its start and
    its end, which the service prints with [isoformat]. The last step of
    the [try] is [free_slots[:10]]. *)
Definition find_free_time (svc : service) (duration_minutes days_ahead : Z)
    (utcnow : datetime) : option (result (list Calendar.slot)) :=
  let now := utcnow in
  let time_min := isoformat now +:+ "Z" in
  match dt_add now (days days_ahead) with
  | Raise e => Some (except_http (Raise e) [])
  | Ok later =>
      let time_max := isoformat later +:+ "Z" in
      match freebusy_query svc time_min time_max with
      | Raise e => Some (except_http (Raise e) [])
      | Ok busy_times =>
          let current_time := on_the_hour now in
          match scan_days (Z.to_nat days_ahead) busy_times
                  (minutes duration_minutes) current_time [] with
          | None => None
          | Some scanned =>
              Some (except_http
                      (free_slots ← scanned; mret (take 10 free_slots)) [])
          end
      end
  end.

(** The remote branch of the endpoint [find_free_time]: the service is
    built for the user and asked. A scan that does not end has no
    answer; the scan always ends. *)
Definition remote : Calendar.RemoteCalendar := {|
  Calendar.remote_free_time := fun user now duration_minutes days_ahead =>
    svc ← build_service user;
    match find_free_time svc duration_minutes days_ahead now with
    | Some answer => answer
    | None => Raise OverflowError
    end
|}.

End FreeTime.

End Service.

(** The slots of every day of the window, weekends included. *)
Definition every_day (duration : timedelta) (first_day : Z) (n : nat)
    : list Calendar.slot :=
  flat_map (fun i => Calendar.day_candidates duration (first_day + Z.of_nat i))
           (seq 0 n).

End CalendarService.

(** ** Calendar events (api/v1/endpoints/calendar.py) *)

Module Events.

Import Models.

(** A row of [calendar_events]: the columns of [CalendarEvent] above and
    those the calendar endpoints add to them. The external id is unique
    among the rows that have one. The primary key of a row is the key it
    is stored under. *)
Record EventRow := {
  google_event_id : option string;
  organizer : option string;
  status : option string;
  details : CalendarEvent
}.

Record Store := {
  users : list User;
  events : gmap Z EventRow
}.

Record CreateEventRequest := {
  c_title : string;
  c_description : string;
  c_start_time : datetime;
  c_end_time : datetime;
  c_location : option string;
  c_attendees : option (list string);
  c_timezone : option string
}.

Record UpdateEventRequest := {
  u_title : option string;
  u_description : option string;
  u_start_time : option datetime;
  u_end_time : option datetime;
  u_location : option string;
  u_attendees : option (list string)
}.

Definition with_events (st : Store) (rows : gmap Z EventRow) : Store :=
  {| users := users st; events := rows |}.

(** [db.query(User).filter(User.id == user_id).first()] *)
Definition user_by_id (all_users : list User) (user_id : Z) : option User :=
  find (fun u => user_pk u =? user_id) all_users.

(** The key of the next row of [calendar_events]. *)
Definition next_event_pk (rows : gmap Z EventRow) : Z :=
  next_pk (map fst (map_to_list rows)).

(** A nullable text column, and a list of texts in a JSON column. *)
Definition text_or_null (v : option string) : json :=
  match v with
  | Some s => JStr s
  | None => JNull
  end.
Definition texts (l : list string) : json := JList (map JStr l).

(** [bool(event.google_event_id)] *)
Definition linked (row : EventRow) : option string :=
  match google_event_id row with
  | Some s => if truthy s then Some s else None
  | None => None
  end.

(** [db.query(CalendarEvent).filter(CalendarEvent.google_event_id ==
    id).first()] finds a row. *)
Definition known_event (rows : gmap Z EventRow) (id : string) : bool :=
  existsb (fun kr => match google_event_id (snd kr) with
                     | Some s => String.eqb s id
                     | None => false
                     end) (map_to_list rows).

Definition set_google_event_id (id : string) (row : EventRow) : EventRow :=
  {| google_event_id := Some id; organizer := organizer row;
     status := status row; details := details row |}.

(** [order_by(CalendarEvent.start_time)] *)
Fixpoint insert_by_start (x : Z * EventRow) (l : list (Z * EventRow))
    : list (Z * EventRow) :=
  match l with
  | [] => [x]
  | y :: l' =>
      if start_time (details (snd x)) <? start_time (details (snd y))
      then x :: y :: l'
      else y :: insert_by_start x l'
  end.
Definition order_by_start_time (l : list (Z * EventRow)) : list (Z * EventRow) :=
  fold_right insert_by_start [] l.

(** [query.limit(limit).all()]; a negative limit is left to the
    database: [None]. *)
Definition limit_to {A} (limit : Z) (rows : list A) : option (list A) :=
  if limit <? 0 then None else Some (take (Z.to_nat limit) rows).

(** [get_events] *)
Definition get_events (start_date end_date : option datetime) (limit : Z)
    (st : Store) : option (list (Z * EventRow)) :=
  let query := map_to_list (events st) in
  let query :=
    match start_date with
    | Some d => List.filter (fun kr => start_time (details (snd kr)) >=? d) query
    | None => query
    end in
  let query :=
    match end_date with
    | Some d => List.filter (fun kr => end_time (details (snd kr)) <=? d) query
    | None => query
    end in
  limit_to limit (order_by_start_time query).

(** [get_event] *)
Definition get_event (event_id : Z) (st : Store) : response EventRow :=
  match events st !! event_id with
  | None => HTTPException 404 "Event not found"
  | Some event => Http200 event
  end.

Section Endpoints.

Context `{Library} `{CalendarService.GoogleCalendar} `{CalendarService.Format}.

(** The [try] of [create_event], up to the call of the service: the
    event of the provider, if one was created, and the writes sent. *)
Definition remote_create (request : CreateEventRequest) (st : Store)
    : result (option CalendarService.ParsedEvent) * list CalendarService.Call :=
  match user_by_id (users st) 1 with
  | Some user =>
      if token_set (calendar_token user) then
        match CalendarService.build_service user with
        | Ok svc =>
            CalendarService.create_event svc {|
              CalendarService.ed_title := c_title request;
              CalendarService.ed_description := c_description request;
              CalendarService.ed_start_time :=
                CalendarService.isoformat (c_start_time request);
              CalendarService.ed_end_time :=
                CalendarService.isoformat (c_end_time request);
              CalendarService.ed_location := c_location request;
              CalendarService.ed_attendees := c_attendees request;
              CalendarService.ed_timezone := c_timezone request |}
        | Raise e => (Raise e, [])
        end
      else (Ok None, [])
  | None => (Ok None, [])
  end.

(** [create_event]: the answer, the table and the writes sent to the
    provider. The local row is committed first; the external id is
    attached when the provider created an event. [None]: the provider
    answered with an id that another row has, the second commit breaks
    the uniqueness of the column and what the endpoint then answers is
    left to the session. *)
Definition create_event (request : CreateEventRequest) (st : Store)
    : option (response (Z * EventRow) * Store * list CalendarService.Call) :=
  let event := {|
    google_event_id := None;
    organizer := None;
    status := Some "confirmed";
    details := {|
      event_user_id := 1;
      event_title := JStr (c_title request);
      event_description := JStr (c_description request);
      start_time := c_start_time request;
      end_time := c_end_time request;
      location := text_or_null (c_location request);
      attendees := texts (match c_attendees request with
                          | Some (x :: l) => x :: l
                          | _ => []
                          end);
      created_from_email := None |} |} in
  let pk := next_event_pk (events st) in
  let st1 := with_events st (<[pk := event]> (events st)) in
  let '(google_event, calls) := remote_create request st1 in
  match google_event with
  | Ok (Some google_event) =>
      let id := CalendarService.p_google_event_id google_event in
      if known_event (events st1) id then None
      else
        let event := set_google_event_id id event in
        Some (Http200 (pk, event),
              with_events st1 (<[pk := event]> (events st1)), calls)
  | Ok None => Some (Http200 (pk, event), st1, calls)
  | Raise _ => Some (Http200 (pk, event), st1, calls)
  end.

(** The assignments of [update_event] to the local row. *)
Definition apply_request (request : UpdateEventRequest) (row : EventRow) : EventRow :=
  let d := details row in
  {| google_event_id := google_event_id row;
     organizer := organizer row;
     status := status row;
     details := {|
       event_user_id := event_user_id d;
       event_title := match u_title request with
                      | Some s => JStr s | None => event_title d end;
       event_description := match u_description request with
                            | Some s => JStr s | None => event_description d end;
       start_time := match u_start_time request with
                     | Some t => t | None => start_time d end;
       end_time := match u_end_time request with
                   | Some t => t | None => end_time d end;
       location := match u_location request with
                   | Some s => JStr s | None => location d end;
       attendees := match u_attendees request with
                    | Some l => texts l | None => attendees d end;
       created_from_email := created_from_email d |} |}.

(** The [update_data] the endpoint builds. *)
Definition update_data (request : UpdateEventRequest) : CalendarService.UpdateData :=
  {| CalendarService.ud_title := u_title request;
     CalendarService.ud_description := u_description request;
     CalendarService.ud_start_time :=
       option_map CalendarService.isoformat (u_start_time request);
     CalendarService.ud_end_time :=
       option_map CalendarService.isoformat (u_end_time request);
     CalendarService.ud_location := u_location request |}.

(** The [try] of [update_event] and of [delete_event]: the service is
    built for the user of the row when the row has an external id and
    that user has a token, and [call] is made on it. The writes sent. *)
Definition on_remote {A} (row : EventRow) (st : Store)
    (call : CalendarService.service -> string ->
            result A * list CalendarService.Call)
    : list CalendarService.Call :=
  match linked row with
  | Some id =>
      match user_by_id (users st) (event_user_id (details row)) with
      | Some user =>
          if token_set (calendar_token user) then
            match CalendarService.build_service user with
            | Ok svc => snd (call svc id)
            | Raise _ => []
            end
          else []
      | None => []
      end
  | None => []
  end.

(** [update_event] *)
Definition update_event (event_id : Z) (request : UpdateEventRequest) (st : Store)
    : response EventRow * Store * list CalendarService.Call :=
  match events st !! event_id with
  | None => (HTTPException 404 "Event not found", st, [])
  | Some event =>
      let event := apply_request request event in
      let st1 := with_events st (<[event_id := event]> (events st)) in
      let calls :=
        on_remote event st1 (fun svc id =>
          CalendarService.update_event svc id (update_data request)) in
      (Http200 event, st1, calls)
  end.

(** [delete_event] *)
Definition delete_event (event_id : Z) (st : Store)
    : response string * Store * list CalendarService.Call :=
  match events st !! event_id with
  | None => (HTTPException 404 "Event not found", st, [])
  | Some event =>
      let calls :=
        on_remote event st (fun svc id => CalendarService.delete_event svc id) in
      (Http200 "Event deleted successfully",
       with_events st (delete event_id (events st)), calls)
  end.

(** [datetime.fromisoformat(v.replace('Z', '+00:00'))] for a value that
    can be [None], which has no [replace]. *)
Definition parse_time (v : option string) : result datetime :=
  match v with
  | Some s => fromisoformat (replace "Z" "+00:00" s)
  | None => Raise AttributeError
  end.

(** The row [sync_calendar_events] builds for a fetched event. *)
Definition synced_row (user : User) (google_event : CalendarService.ParsedEvent)
    : result EventRow :=
  start ← parse_time (CalendarService.p_start_time google_event);
  finish ← parse_time (CalendarService.p_end_time google_event);
  mret {|
    google_event_id := Some (CalendarService.p_google_event_id google_event);
    organizer := Some (CalendarService.p_organizer google_event);
    status := Some (CalendarService.p_status google_event);
    details := {|
      event_user_id := user_pk user;
      event_title := JStr (CalendarService.p_title google_event);
      event_description := JStr (CalendarService.p_description google_event);
      start_time := start;
      end_time := finish;
      location := JStr (CalendarService.p_location google_event);
      attendees := texts (CalendarService.p_attendees google_event);
      created_from_email := None |} |}.

(** The loop of [sync_calendar_events]: the rows added to the session.
    The session does not flush before a query, so the lookup sees the
    rows of the table and not those added by earlier turns. *)
Fixpoint sync_loop (user : User) (rows : gmap Z EventRow)
    (google_events : list CalendarService.ParsedEvent) (added : list EventRow)
    : result (list EventRow) :=
  match google_events with
  | [] => Ok added
  | google_event :: rest =>
      if known_event rows (CalendarService.p_google_event_id google_event)
      then sync_loop user rows rest added
      else
        event ← synced_row user google_event;
        sync_loop user rows rest (added ++ [event])%list
  end.

Definition insert_event (rows : gmap Z EventRow) (row : EventRow) : gmap Z EventRow :=
  <[next_event_pk rows := row]> rows.

(** The added rows break the uniqueness of the external id: two of them
    have the same one. *)
Fixpoint clash (added : list EventRow) : bool :=
  match added with
  | [] => false
  | row :: rest =>
      existsb (fun other =>
                 match google_event_id row, google_event_id other with
                 | Some a, Some b => String.eqb a b
                 | _, _ => false
                 end) rest
      || clash rest
  end.

(** [db.commit()] at the end of the loop: [None] is the failure of the
    insertion of two rows with one external id. *)
Definition commit (added : list EventRow) (rows : gmap Z EventRow)
    : option (gmap Z EventRow) :=
  if clash added then None else Some (fold_left insert_event added rows).

(** [sync_calendar_events] *)
Definition sync_calendar_events (utcnow : datetime) (st : Store)
    : response string * Store :=
  match user_by_id (users st) 1 with
  | None => (HTTPException 401 "Google Calendar not connected", st)
  | Some user =>
      if negb (token_set (calendar_token user))
      then (HTTPException 401 "Google Calendar not connected", st)
      else
        let failed := (HTTPException 500 "Failed to sync calendar events", st) in
        match
          svc ← CalendarService.build_service user;
          google_events ← CalendarService.get_upcoming_events svc 50 utcnow;
          sync_loop user (events st) google_events []
        with
        | Raise _ => failed
        | Ok added =>
            match commit added (events st) with
            | None => failed
            | Some rows =>
                let synced_count := Z.of_nat (length added) in
                (Http200 ("Synced " +:+ pretty synced_count
                          +:+ " events from Google Calendar"),
                 with_events st rows)
            end
        end
  end.

(** The cases in which the synchronisation for [user] cannot succeed:
    the service is not built, the listing raises, the row of a fetched
    event that is not stored cannot be built, or two fetched events that
    are not stored have one id. *)
Definition sync_fails (user : User) (utcnow : datetime)
    (rows : gmap Z EventRow) : Prop :=
  match CalendarService.build_service user with
  | Raise _ => True
  | Ok svc =>
      match CalendarService.get_upcoming_events svc 50 utcnow with
      | Raise _ => True
      | Ok fetched =>
          let unknown :=
            List.filter
              (fun g => negb (known_event rows
                                (CalendarService.p_google_event_id g)))
              fetched in
          (exists g e, In g unknown /\ synced_row user g = Raise e) \/
          ~ List.NoDup (map CalendarService.p_google_event_id unknown)
      end
  end.

End Endpoints.

(** The quantities the properties speak of. *)

(** [user] is user 1 and has a calendar token. *)
Definition connected (st : Store) (user : User) : Prop :=
  user_by_id (users st) 1 = Some user /\
  token_set (calendar_token user) = true.

(** The order of the start times. *)
Definition by_start (a b : Z * EventRow) : Prop :=
  start_time (details (snd a)) <= start_time (details (snd b)).

(** Some row has this external id. *)
Definition has_id (rows : gmap Z EventRow) (id : string) : Prop :=
  exists k row, rows !! k = Some row /\ google_event_id row = Some id.

(** No two rows have the same external id. *)
Definition ids_unique (rows : gmap Z EventRow) : Prop :=
  forall k1 k2 r1 r2 id,
    rows !! k1 = Some r1 -> rows !! k2 = Some r2 ->
    google_event_id r1 = Some id -> google_event_id r2 = Some id -> k1 = k2.

End Events.

(** ** Keywords and action items (services/nlp_service.py) *)

Module Phrases.

Definition is_lower (c : ascii) : bool :=
  (97 <=? nat_of_ascii c)%nat && (nat_of_ascii c <=? 122)%nat.

Definition is_letter (c : ascii) : bool := is_upper c || is_lower c.

Definition is_decimal (c : ascii) : bool :=
  (48 <=? nat_of_ascii c)%nat && (nat_of_ascii c <=? 57)%nat.

(** [\w] on an ASCII text. *)
Definition is_word_char (c : ascii) : bool :=
  is_letter c || is_decimal c || Ascii.eqb c "_".

Fixpoint all_chars (p : ascii -> bool) (s : string) : bool :=
  match s with
  | EmptyString => true
  | String c s' => p c && all_chars p s'
  end.

Definition len (s : string) : Z := Z.of_nat (String.length s).

(** The maximal runs of word characters of [s], after the run [run] that
    is being read. *)
Fixpoint word_runs (s : string) (run : string) : list string :=
  match s with
  | EmptyString => if truthy run then [run] else []
  | String c s' =>
      if is_word_char c then word_runs s' (run +:+ String c EmptyString)
      else ((if truthy run then [run] else []) ++ word_runs s' EmptyString)%list
  end.

(** [re.findall(r'\b[a-zA-Z]{3,}\b', s)]: between two word boundaries
    there is one run of word characters, so the matches are the maximal
    runs of word characters that are made of three letters or more. *)
Definition findall_words (s : string) : list string :=
  List.filter (fun w => all_chars is_letter w && (3 <=? len w))
              (word_runs s EmptyString).

Definition stop_words : list string :=
  ["the"; "and"; "for"; "are"; "but"; "not"; "you"; "all"; "can"; "had";
   "her"; "was"; "one"; "our"; "out"; "day"; "get"; "has"; "him"; "his";
   "how"; "man"; "new"; "now"; "old"; "see"; "two"; "way"; "who"; "boy";
   "did"; "its"; "let"; "put"; "say"; "she"; "too"; "use"].

(** [word in stop_words] *)
Definition is_in (words : list string) (word : string) : bool :=
  existsb (String.eqb word) words.

(** [word_freq[word] = word_freq.get(word, 0) + 1] on a dict given by its
    items: a new key goes to the end. *)
Fixpoint bump (word : string) (word_freq : list (string * Z)) : list (string * Z) :=
  match word_freq with
  | [] => [(word, 0 + 1)]
  | (k, n) :: rest =>
      if String.eqb k word then (k, n + 1) :: rest
      else (k, n) :: bump word rest
  end.

(** [sorted(items, key=lambda x: x[1], reverse=True)]: the sort is
    stable, items of equal count keep their order. *)
Fixpoint insert_desc (x : string * Z) (l : list (string * Z)) : list (string * Z) :=
  match l with
  | [] => [x]
  | y :: l' => if snd y <? snd x then x :: y :: l' else y :: insert_desc x l'
  end.
Definition sorted_desc (items : list (string * Z)) : list (string * Z) :=
  fold_left (fun acc x => insert_desc x acc) items [].

(** [l[:n]]: a negative [n] counts from the end. *)
Definition slice_to {A} (n : Z) (l : list A) : list A :=
  if n <? 0 then take (Z.to_nat (Z.of_nat (length l) + n)) l
  else take (Z.to_nat n) l.

(** The words [extract_keywords] counts. *)
Definition counted_words (text : string) : list string :=
  let words := findall_words (lower text) in
  List.filter (fun word => negb (is_in stop_words word) && (3 <? len word)) words.

(** [NLPService.extract_keywords]; nothing in its [try] raises. *)
Definition extract_keywords (text : string) (max_keywords : Z) : list string :=
  let keywords := counted_words text in
  let word_freq := fold_left (fun word_freq word => bump word word_freq) keywords [] in
  let sorted_keywords := sorted_desc word_freq in
  map fst (slice_to max_keywords sorted_keywords).

(** *** Action items *)

Definition is_terminator (c : ascii) : bool :=
  Ascii.eqb c "." || Ascii.eqb c "!" || Ascii.eqb c "?".

(** The keyword [k], in lower case, starts [s], whatever the case of the
    letters of [s]: what is left of [s]. *)
Fixpoint skip_keyword (k s : string) : option string :=
  match k with
  | EmptyString => Some s
  | String a k' =>
      match s with
      | EmptyString => None
      | String b s' =>
          if Ascii.eqb a (lower_char b) then skip_keyword k' s' else None
      end
  end.

(** The longest prefix of [s] without [.], [!] and [?]. *)
Fixpoint clause (s : string) : string :=
  match s with
  | EmptyString => EmptyString
  | String c s' => if is_terminator c then EmptyString else String c (clause s')
  end.

(** The number of whitespace characters [s] starts with. *)
Fixpoint leading_spaces (s : string) : nat :=
  match s with
  | EmptyString => O
  | String c s' => if is_space c then S (leading_spaces s') else O
  end.

Fixpoint drop_chars (n : nat) (s : string) : string :=
  match n, s with
  | S n', String _ s' => drop_chars n' s'
  | _, _ => s
  end.

(** [\s+([^.!?]+)] (or [\s*] for [min_spaces = 0]) at the start of [s]:
    the group and the number of characters matched. Both parts are
    greedy: the whitespace takes all the whitespace the clause starts
    with, and gives one character back when nothing else is left for the
    group. *)
Definition capture (min_spaces : nat) (s : string) : option (string * nat) :=
  let t := clause s in
  let w := leading_spaces t in
  let w := if (w =? String.length t)%nat then (w - 1)%nat else w in
  if (String.length t <? min_spaces + 1)%nat || (w <? min_spaces)%nat then None
  else Some (drop_chars w t, String.length t).

(** An action pattern: the alternatives of its keyword, whether a colon
    follows, and the whitespace it asks for (one or more, or none). *)
Record pattern := {
  alternatives : list string;
  colon : bool;
  min_spaces : nat
}.

(** A match of the pattern at the start of [s]: the group and the length
    of the match. The alternatives are tried in their order. *)
Fixpoint match_here (alts : list string) (colon_ : bool) (min_spaces_ : nat)
    (s : string) : option (string * nat) :=
  match alts with
  | [] => None
  | k :: rest =>
      let after :=
        match skip_keyword k s with
        | Some s' =>
            if colon_ then
              match s' with
              | String c s'' => if Ascii.eqb c ":" then Some (s'', 1%nat) else None
              | EmptyString => None
              end
            else Some (s', O)
        | None => None
        end in
      match after with
      | Some (s', extra) =>
          match capture min_spaces_ s' with
          | Some (group, n) => Some (group, (String.length k + extra + n)%nat)
          | None => match_here rest colon_ min_spaces_ s
          end
      | None => match_here rest colon_ min_spaces_ s
      end
  end.

(** [re.finditer(pattern, s, re.IGNORECASE)], the first group of each
    match: the matches are looked for from left to right, the next one
    after the end of the last; [skip] characters of [s] belong to the
    last match. *)
Fixpoint finditer (p : pattern) (s : string) (skip : nat) : list string :=
  match s with
  | EmptyString => []
  | String c s' =>
      match skip with
      | S k => finditer p s' k
      | O =>
          match match_here (alternatives p) (colon p) (min_spaces p) s with
          | Some (group, n) => group :: finditer p s' (n - 1)
          | None => finditer p s' O
          end
      end
  end.

(** [action_patterns]:
    - [(?:please|could you|can you|would you)\s+([^.!?]+)]
    - [(?:need to|have to|must|should)\s+([^.!?]+)]
    - [(?:action required|action needed|todo|to do):\s*([^.!?]+)]
    - [(?:deadline|due)\s+([^.!?]+)]
    - [(?:schedule|arrange|set up)\s+([^.!?]+)] *)
Definition action_patterns : list pattern :=
  [ {| alternatives := ["please"; "could you"; "can you"; "would you"];
       colon := false; min_spaces := 1 |};
    {| alternatives := ["need to"; "have to"; "must"; "should"];
       colon := false; min_spaces := 1 |};
    {| alternatives := ["action required"; "action needed"; "todo"; "to do"];
       colon := true; min_spaces := 0 |};
    {| alternatives := ["deadline"; "due"];
       colon := false; min_spaces := 1 |};
    {| alternatives := ["schedule"; "arrange"; "set up"];
       colon := false; min_spaces := 1 |} ].

(** The items one pattern adds. *)
Definition pattern_items (text : string) (p : pattern) : list string :=
  List.filter (fun action_text => 10 <? len action_text)
              (map strip (finditer p text 0)).

(** [NLPService.extract_action_items] *)
Definition extract_action_items (text : string) : list string :=
  let action_items := flat_map (pattern_items text) action_patterns in
  take 5 action_items.

(** The quantities the properties speak of. *)

(** [k] occurs in [s]. *)
Definition occurs_in (k s : string) : Prop :=
  exists pre post, s = pre +:+ k +:+ post.

(** How many of the words are [word]. *)
Definition times (word : string) (words : list string) : Z :=
  Z.of_nat (length (List.filter (String.eqb word) words)).

(** How many of the counted words of the text are [word]. *)
Definition occurrences (text word : string) : Z :=
  times word (counted_words text).

(** The order of the items of the dict: larger counts first. *)
Definition by_count (a b : string * Z) : Prop := snd b <= snd a.

(** The order of the keywords: more occurrences first. *)
Definition more_frequent (text : string) (a b : string) : Prop :=
  occurrences text b <= occurrences text a.

End Phrases.
(** ** Fetched messages (services/gmail_service.py) *)

Module GmailService.

Import Models.

(** A header of a message, [{'name': ..., 'value': ...}]. *)
Record Header := {
  h_name : string;
  h_value : string
}.

(** A payload, or a part of one: the keys that the service reads.
    [data] is the key of that name under ['body']. *)
Inductive Payload := {
  mimeType : string;
  headers : option (list Header);
  data : option string;
  parts : option (list Payload)
}.

(** A message as [users().messages().get(format='full')] answers it. *)
Record Message := {
  m_id : string;
  m_threadId : string;
  m_payload : Payload;
  m_labelIds : option (list string)
}.

(** [{"text": ..., "html": ...}] *)
Record Body := {
  text : string;
  html : string
}.

(** [base64.urlsafe_b64decode(data).decode('utf-8')] *)
Class Codec := {
  urlsafe_b64decode_utf8 : string -> result string
}.

(** The Gmail client: [messages().list(...).execute()] with the ids
    under ['messages'] when the key is there, and
    [messages().get(...).execute()]. *)
Class GmailApi := {
  service : Type;
  messages_list : service -> string -> Z -> result (option (list string));
  messages_get : service -> string -> result Message
}.

(** [d.get(key, '')] on the dictionary of the headers, in which a later
    header of a name replaces an earlier one. *)
Definition headers_dict (hs : list Header) : gmap string string :=
  fold_left (fun d h => <[h_name h := h_value h]> d) hs ∅.

Definition get (d : gmap string string) (key : string) : string :=
  default "" (d !! key).

Section Service.

Context `{Codec}.

(** The two branches on the type of a part, which the service has twice:
    for every part, and for a payload without parts. *)
Definition read_part (part : Payload) (body : Body) : result Body :=
  if String.eqb (mimeType part) "text/plain" then
    let data := default "" (data part) in
    if truthy data then
      decoded ← urlsafe_b64decode_utf8 data;
      mret {| text := decoded; html := html body |}
    else Ok body
  else if String.eqb (mimeType part) "text/html" then
    let data := default "" (data part) in
    if truthy data then
      decoded ← urlsafe_b64decode_utf8 data;
      mret {| text := text body; html := decoded |}
    else Ok body
  else Ok body.

(** [for part in payload['parts']] *)
Fixpoint read_parts (parts : list Payload) (body : Body) : result Body :=
  match parts with
  | [] => Ok body
  | part :: rest =>
      match read_part part body with
      | Ok body => read_parts rest body
      | Raise e => Raise e
      end
  end.

(** [GmailService._extract_body] *)
Definition _extract_body (payload : Payload) : result Body :=
  let body := {| text := ""; html := "" |} in
  match parts payload with
  | Some parts => read_parts parts body
  | None => read_part payload body
  end.

(** [GmailService._parse_email] *)
Definition _parse_email (message : Message) : result Sync.GmailEmail :=
  let headers := headers_dict (default [] (headers (m_payload message))) in
  match _extract_body (m_payload message) with
  | Raise e => Raise e
  | Ok body =>
      Ok {| Sync.g_gmail_id := m_id message;
            Sync.g_thread_id := m_threadId message;
            Sync.g_sender := get headers "From";
            Sync.g_recipient := get headers "To";
            Sync.g_subject := get headers "Subject";
            Sync.g_body := text body;
            Sync.g_html_body := html body;
            Sync.g_timestamp := get headers "Date";
            Sync.g_has_attachment :=
              (1 <? length (default [] (parts (m_payload message))))%nat;
            Sync.g_labels := default [] (m_labelIds message) |}
  end.

Context `{GmailApi}.

(** The loop of [fetch_emails] over the listed messages. *)
Fixpoint fetch_each (svc : service) (messages : list string)
    (emails : list Sync.GmailEmail) : result (list Sync.GmailEmail) :=
  match messages with
  | [] => Ok emails
  | id :: rest =>
      match messages_get svc id with
      | Raise e => Raise e
      | Ok msg =>
          match _parse_email msg with
          | Raise e => Raise e
          | Ok email_data => fetch_each svc rest (emails ++ [email_data])
          end
      end
  end.

(** [GmailService.fetch_emails]; the handler of [HttpError] raises it
    again. *)
Definition fetch_emails (svc : service) (query : string) (max_results : Z)
    : result (list Sync.GmailEmail) :=
  match messages_list svc query max_results with
  | Raise e => Raise e
  | Ok results => fetch_each svc (default [] results) []
  end.

End Service.

(** The properties are worded with these. *)

(** The part that is read for a type: one of that type with data. *)
Definition carries (mime : string) (part : Payload) : bool :=
  String.eqb (mimeType part) mime && truthy (default "" (data part)).

(** The data of the last part that is read for a type. *)
Definition last_data (mime : string) (parts : list Payload) : option string :=
  match List.filter (carries mime) (rev parts) with
  | part :: _ => data part
  | [] => None
  end.

(** The parts that the service looks at. *)
Definition top_level (payload : Payload) : list Payload :=
  match parts payload with
  | Some parts => parts
  | None => [payload]
  end.

(** The value of the last header of a name, spelled as it is. *)
Definition last_header (name : string) (hs : list Header) : string :=
  match List.filter (fun h => String.eqb (h_name h) name) (rev hs) with
  | h :: _ => h_value h
  | [] => ""
  end.

Section Words.

Context `{Codec} `{GmailApi}.

(** What the service reads of a part and cannot decode. *)
Definition unreadable (part : Payload) : Prop :=
  (carries "text/plain" part = true \/ carries "text/html" part = true)
  /\ exists e, urlsafe_b64decode_utf8 (default "" (data part)) = Raise e.

(** The text of a type after the parts, from the one before them. *)
Definition read_as (mime : string) (ps : list Payload) (before after : string)
    : Prop :=
  match last_data mime ps with
  | Some d => urlsafe_b64decode_utf8 d = Ok after
  | None => after = before
  end.

(** A listed message that is downloaded and parsed. *)
Definition fetched (svc : service) (id : string) (email : Sync.GmailEmail)
    : Prop :=
  exists msg, messages_get svc id = Ok msg /\ _parse_email msg = Ok email.

End Words.

End GmailService.

(** ** A calendar provider for the worked examples *)

Module Samples.

Import Models CalendarService.

Definition event_time (s : string) : EventTime :=
  {| dateTime := Some s; date := None |}.

(** An event of the provider with the given id and times and nothing
    else. *)
Definition google_event (id start finish : string) : GoogleEvent := {|
  ge_id := id;
  ge_summary := None;
  ge_description := None;
  ge_location := None;
  ge_start := event_time start;
  ge_end := event_time finish;
  ge_attendees := None;
  ge_organizer := None;
  ge_status := None;
  ge_htmlLink := None;
  ge_created := None;
  ge_updated := None
|}.

(** A provider that lists the given events, creates events under the id
    ["created"], and accepts every other call. *)
Definition provider (listed : list GoogleEvent) : GoogleCalendar := {|
  service := unit;
  build_service := fun _ => Ok tt;
  events_list := fun _ _ _ => Ok listed;
  events_insert := fun _ body =>
    Ok (google_event "created" (b_start_dateTime body) (b_end_dateTime body));
  events_get := fun _ id =>
    Ok (google_event id "2024-01-15T10:00:00Z" "2024-01-15T11:00:00Z");
  events_update := fun _ _ body => Ok body;
  events_delete := fun _ _ => Ok tt;
  freebusy_query := fun _ _ _ => Ok []
|}.

(** A provider every call of which fails with [HttpError]. *)
Definition failing : GoogleCalendar := {|
  service := unit;
  build_service := fun _ => Ok tt;
  events_list := fun _ _ _ => Raise ProviderError;
  events_insert := fun _ _ => Raise ProviderError;
  events_get := fun _ _ => Raise ProviderError;
  events_update := fun _ _ _ => Raise ProviderError;
  events_delete := fun _ _ => Raise ProviderError;
  freebusy_query := fun _ _ _ => Raise ProviderError
|}.

(** A provider whose calendar has one busy interval, from 10:00 to 11:00
    of the Monday of the examples. *)
Definition busy_provider : GoogleCalendar := {|
  service := unit;
  build_service := fun _ => Ok tt;
  events_list := fun _ _ _ => Ok [];
  events_insert := fun _ _ => Raise ProviderError;
  events_get := fun _ _ => Raise ProviderError;
  events_update := fun _ _ _ => Raise ProviderError;
  events_delete := fun _ _ => Raise ProviderError;
  freebusy_query := fun _ _ _ =>
    Ok [("2024-01-15T10:00:00Z", "2024-01-15T11:00:00Z")]
|}.

(** A text with an offset gives an aware datetime. *)
Definition zoned : Zoned := {|
  fromisoformat_zoned := fun s =>
    t ← iso_fragment s; mret (t, contains "+" s)
|}.

Definition format : Format := {| isoformat := fun t => pretty t |}.

(** User 1, with a calendar token. *)
Definition connected : User := {|
  user_pk := 1;
  gmail_token := None;
  gmail_refresh_token := None;
  calendar_token := Some "ya29.calendar"
|}.

(** A local row from 10:00 to 11:00 of the Monday of the examples. *)
Definition row (id : option string) : Events.EventRow := {|
  Events.google_event_id := id;
  Events.organizer := None;
  Events.status := Some "confirmed";
  Events.details :=
    Calendar.busy 1 (Calendar.at_time Examples.monday 10 0)
                    (Calendar.at_time Examples.monday 11 0)
|}.

(** A reply of the extractor: one task without a due date and one event
    that starts at 10:00 of the Tuesday, without an end. The library
    reads this reply and no other text. *)
Definition quote : string := String (Ascii.ascii_of_nat 34) EmptyString.
Definition quoted (s : string) : string := quote +:+ s +:+ quote.






(** A decoder that knows two texts. *)
Definition codec : GmailService.Codec := {|
  GmailService.urlsafe_b64decode_utf8 := fun s =>
    if String.eqb s "SGVsbG8=" then Ok "Hello"
    else if String.eqb s "PHA-SGVsbG88L3A-" then Ok "<p>Hello</p>"
    else Raise ValueError
|}.

Definition part (mime : string) (data : option string)
    : GmailService.Payload := {|
  GmailService.mimeType := mime;
  GmailService.headers := None;
  GmailService.data := data;
  GmailService.parts := None
|}.

(** A message of type multipart/alternative: the text twice, plain and
    as HTML. Its sender is under the name [from]. *)
Definition two_alternatives : GmailService.Message := {|
  GmailService.m_id := "m1";
  GmailService.m_threadId := "t1";
  GmailService.m_payload := {|
    GmailService.mimeType := "multipart/alternative";
    GmailService.headers :=
      Some [ {| GmailService.h_name := "from";
                GmailService.h_value := "alice@example.com" |};
             {| GmailService.h_name := "Subject";
                GmailService.h_value := "Hello" |} ];
    GmailService.data := None;
    GmailService.parts :=
      Some [ part "text/plain" (Some "SGVsbG8=");
             part "text/html" (Some "PHA-SGVsbG88L3A-") ]
  |};
  GmailService.m_labelIds := None
|}.

Definition two_alternatives_parsed : Sync.GmailEmail := {|
  Sync.g_gmail_id := "m1";
  Sync.g_thread_id := "t1";
  Sync.g_sender := "";
  Sync.g_recipient := "";
  Sync.g_subject := "Hello";
  Sync.g_body := "Hello";
  Sync.g_html_body := "<p>Hello</p>";
  Sync.g_timestamp := "";
  Sync.g_has_attachment := true;
  Sync.g_labels := []
|}.

End Samples.

(** * Properties *)

(** ** Dates and strings *)

Module PyFacts.


Lemma dt_add_ok (t d : Z) : in_range (t + d) = true -> dt_add t d = Ok (t + d).
Proof. unfold dt_add. intros ->. reflexivity. Qed.

Lemma dt_add_inv (t d r : Z) :
  dt_add t d = Ok r -> r = t + d /\ in_range (t + d) = true.
Proof.
  unfold dt_add. destruct (in_range (t + d)); [|discriminate].
  intros [= <-]. split; reflexivity.
Qed.


Lemma dt_sub_inv (t d r : Z) :
  dt_sub t d = Ok r -> r = t - d /\ in_range (t - d) = true.
Proof.
  unfold dt_sub. intros Hr. apply dt_add_inv in Hr.
  replace (t - d) with (t + - d) by lia. exact Hr.
Qed.

Lemma in_range_day (d x : Z) :
  0 <= d -> d + 1 <= max_ordinal -> 0 <= x < us_per_day ->
  in_range (d * us_per_day + x) = true.
Proof.
  intros Hd Hm Hx. unfold in_range. apply andb_true_iff.
  assert (0 < us_per_day) as Hpos by reflexivity.
  split; [apply Z.leb_le | apply Z.ltb_lt]; nia.
Qed.

Lemma date_of_bounds (now : datetime) :
  date_of now * us_per_day <= now < (date_of now + 1) * us_per_day.
Proof.
  unfold date_of. assert (0 < us_per_day) as Hpos by reflexivity.
  pose proof (Z.mul_div_le now us_per_day Hpos).
  pose proof (Z.mul_succ_div_gt now us_per_day Hpos). lia.
Qed.

Lemma in_range_inv (t : Z) :
  in_range t = true -> 0 <= t < max_ordinal * us_per_day.
Proof.
  unfold in_range. intros Hr. apply andb_true_iff in Hr.
  destruct Hr as [H1 H2]. apply Z.leb_le in H1. apply Z.ltb_lt in H2. lia.
Qed.

End PyFacts.

(** ** Substrings and patterns *)

Module StringFacts.

Import Regex.

Lemma app_cons (c : ascii) (a b : string) :
  String c a +:+ b = String c (a +:+ b).
Proof. reflexivity. Qed.

Lemma app_empty_l (s : string) : "" +:+ s = s.
Proof. reflexivity. Qed.

Lemma app_empty_r (s : string) : s +:+ "" = s.
Proof.
  induction s as [|c s IH]; [reflexivity|]. rewrite app_cons, IH. reflexivity.
Qed.

Lemma app_assoc (a b c : string) : (a +:+ b) +:+ c = a +:+ (b +:+ c).
Proof.
  induction a as [|x a IH]; [reflexivity|]. rewrite !app_cons, IH. reflexivity.
Qed.

Lemma app_empty (a b : string) : a +:+ b = "" -> a = "" /\ b = "".
Proof.
  destruct a; [rewrite app_empty_l; tauto | rewrite app_cons; discriminate].
Qed.

(** [startswith p s] holds when [s] is [p] followed by something. *)
Lemma startswith_spec (p s : string) :
  startswith p s = true <-> exists rest, s = p +:+ rest.
Proof.
  revert s. induction p as [|a p IH]; intros s; cbn.
  - split; [intros _; exists s; reflexivity | reflexivity].
  - destruct s as [|b s].
    + split; [discriminate | intros (rest & Hr); discriminate].
    + rewrite andb_true_iff, Ascii.eqb_eq, IH. split.
      * intros (-> & rest & ->). exists rest. reflexivity.
      * intros (rest & [= -> ->]). split; [reflexivity | exists rest; reflexivity].
Qed.

(** [contains k s] is the substring test [k in s]. *)
Lemma contains_spec (k s : string) :
  contains k s = true <-> exists pre post, s = pre +:+ k +:+ post.
Proof.
  induction s as [|c s IH]; cbn [contains]; rewrite orb_true_iff, startswith_spec.
  - split.
    + intros [(rest & Hr)|Hf]; [exists "", rest; exact Hr | discriminate].
    + intros (pre & post & Hs). left. symmetry in Hs.
      apply app_empty in Hs. destruct Hs as [-> Hs]. exists post. symmetry; exact Hs.
  - rewrite IH. split.
    + intros [(rest & Hr)|(pre & post & ->)].
      * exists "", rest. exact Hr.
      * exists (String c pre), post. reflexivity.
    + intros (pre & post & Hs). destruct pre as [|x pre].
      * left. exists post. exact Hs.
      * right. rewrite app_cons in Hs. injection Hs as -> ->. exists pre, post. reflexivity.
Qed.

Lemma lower_char_idempotent (c : ascii) : lower_char (lower_char c) = lower_char c.
Proof.
  unfold lower_char. destruct (is_upper c) eqn:E; [|rewrite E; reflexivity].
  assert (is_upper (ascii_of_nat (nat_of_ascii c + 32)) = false) as ->; [|reflexivity].
  unfold is_upper in *. apply andb_true_iff in E. destruct E as [H1 H2].
  apply Nat.leb_le in H1, H2.
  rewrite nat_ascii_embedding by lia.
  apply andb_false_iff. right. apply Nat.leb_gt. lia.
Qed.

(** Lowering twice is lowering once: the analyzer sees a text and its
    lowered form alike. *)
Lemma lower_idempotent (s : string) : lower (lower s) = lower s.
Proof.
  induction s as [|c s IH]; cbn; [reflexivity|].
  rewrite lower_char_idempotent, IH. reflexivity.
Qed.

(** The empty word. *)
Lemma nullable_spec (r : re) : nullable r = true <-> matches r "".
Proof.
  split.
  - induction r; cbn; intros Hn; try discriminate.
    + constructor.
    + apply andb_true_iff in Hn. destruct Hn as [H1 H2].
      change "" with ("" +:+ ""). constructor; auto.
    + apply orb_true_iff in Hn. destruct Hn as [H1|H2];
        [apply MAltL | apply MAltR]; auto.
    + constructor.
  - intros Hm. remember "" as s eqn:Es.
    induction Hm; cbn; try discriminate; try reflexivity.
    + apply app_empty in Es. destruct Es as [-> ->].
      rewrite IHHm1, IHHm2 by reflexivity. reflexivity.
    + rewrite IHHm by exact Es. reflexivity.
    + rewrite IHHm by exact Es. apply orb_true_r.
Qed.

(** The derivative by [c] matches what is left of a word that starts
    with [c]. *)
Lemma deriv_sound (c : ascii) (r : re) :
  forall s, matches (deriv c r) s -> matches r (String c s).
Proof.
  induction r; cbn [deriv]; intros s Hm.
  - inversion Hm.
  - inversion Hm.
  - destruct (Ascii.eqb_spec c c0) as [->|Hne]; inversion Hm; subst. constructor.
  - destruct (is_dot c) eqn:E; inversion Hm; subst. constructor; exact E.
  - destruct (is_digit c) eqn:E; inversion Hm; subst. constructor; exact E.
  - destruct (nullable r1) eqn:En.
    + inversion Hm as [| | | | | ? ? ? Hl | ? ? ? Hr | |]; subst.
      * inversion Hl as [| | | | ? ? s1 s2 H1 H2 | | | |]; subst.
        change (String c (s1 +:+ s2)) with (String c s1 +:+ s2).
        constructor; auto.
      * change (String c s) with ("" +:+ String c s).
        constructor; [apply nullable_spec, En | auto].
    + inversion Hm as [| | | | ? ? s1 s2 H1 H2 | | | |]; subst.
      change (String c (s1 +:+ s2)) with (String c s1 +:+ s2).
      constructor; auto.
  - inversion Hm; subst; [apply MAltL | apply MAltR]; auto.
  - inversion Hm as [| | | | ? ? s1 s2 H1 H2 | | | |]; subst.
    change (String c (s1 +:+ s2)) with (String c s1 +:+ s2).
    constructor; auto.
Qed.

Lemma deriv_complete (r : re) (w : string) :
  matches r w ->
  forall c s, w = String c s -> matches (deriv c r) s.
Proof.
  induction 1 as [ | d | d Hd | d Hd | r1 r2 s1 s2 H1 IH1 H2 IH2
                   | r1 r2 s0 H1 IH1 | r1 r2 s0 H2 IH2 | r0
                   | r0 s1 s2 H1 IH1 H2 IH2 ];
    intros c s Ew; cbn [deriv].
  - discriminate.
  - injection Ew as -> <-. rewrite Ascii.eqb_refl. constructor.
  - injection Ew as -> <-. rewrite Hd. constructor.
  - injection Ew as -> <-. rewrite Hd. constructor.
  - destruct s1 as [|x s1].
    + rewrite app_empty_l in Ew. apply nullable_spec in H1. rewrite H1.
      apply MAltR. apply IH2, Ew.
    + rewrite app_cons in Ew. injection Ew as -> <-.
      assert (matches (Cat (deriv c r1) r2) (s1 +:+ s2)) as Hc
        by (constructor; [apply IH1; reflexivity | exact H2]).
      destruct (nullable r1); [apply MAltL|]; exact Hc.
  - apply MAltL. apply IH1, Ew.
  - apply MAltR. apply IH2, Ew.
  - discriminate.
  - destruct s1 as [|x s1].
    + rewrite app_empty_l in Ew. apply (IH2 c s Ew).
    + rewrite app_cons in Ew. injection Ew as -> <-.
      constructor; [apply IH1; reflexivity | exact H2].
Qed.

(** [match_prefix r s] holds when a prefix of [s] is a word of [r]. *)
Lemma match_prefix_spec (r : re) (s : string) :
  match_prefix r s = true <-> exists m rest, s = m +:+ rest /\ matches r m.
Proof.
  revert r. induction s as [|c s IH]; intros r; cbn [match_prefix];
    rewrite orb_true_iff, nullable_spec.
  - split.
    + intros [Hn|Hf]; [exists "", ""; auto | discriminate].
    + intros (m & rest & Hs & Hm). left. symmetry in Hs.
      apply app_empty in Hs. destruct Hs as [-> _]. exact Hm.
  - rewrite IH. split.
    + intros [Hn|(m & rest & -> & Hm)].
      * exists "", (String c s). auto.
      * exists (String c m), rest. split; [reflexivity | apply deriv_sound, Hm].
    + intros (m & rest & Hs & Hm). destruct m as [|x m].
      * left. exact Hm.
      * right. rewrite app_cons in Hs. injection Hs as -> ->.
        exists m, rest. split; [reflexivity|].
        apply (deriv_complete _ _ Hm). reflexivity.
Qed.

(** [search r s] holds when a substring of [s] is a word of [r]. *)
Lemma search_spec (r : re) (s : string) :
  search r s = true <->
  exists pre m post, s = pre +:+ m +:+ post /\ matches r m.
Proof.
  induction s as [|c s IH]; cbn [search];
    rewrite orb_true_iff, match_prefix_spec.
  - split.
    + intros [(m & rest & Hs & Hm)|Hf]; [exists "", m, rest; auto | discriminate].
    + intros (pre & m & post & Hs & Hm). left. symmetry in Hs.
      apply app_empty in Hs. destruct Hs as [-> Hs].
      exists m, post. auto.
  - rewrite IH. split.
    + intros [(m & rest & Hs & Hm)|(pre & m & post & -> & Hm)].
      * exists "", m, rest. auto.
      * exists (String c pre), m, post. auto.
    + intros (pre & m & post & Hs & Hm). destruct pre as [|x pre].
      * left. exists m, post. auto.
      * right. rewrite app_cons in Hs. injection Hs as -> ->. exists pre, m, post. auto.
Qed.

(** A literal matches itself and nothing else. *)
Lemma lit_spec (k s : string) : matches (lit k) s <-> s = k.
Proof.
  revert s. induction k as [|c k IH]; intros s; cbn [lit]; split.
  - inversion 1; reflexivity.
  - intros ->; constructor.
  - inversion 1 as [| | | | ? ? s1 s2 H1 H2 | | | |]; subst.
    inversion H1; subst. apply IH in H2. subst. reflexivity.
  - intros ->. change (String c k) with (String c "" +:+ k).
    constructor; [constructor | apply IH; reflexivity].
Qed.

(** Searching for a literal is the substring test. *)
Lemma search_lit (k s : string) : search (lit k) s = contains k s.
Proof.
  apply eq_true_iff_eq. rewrite search_spec, contains_spec. split.
  - intros (pre & m & post & -> & Hm). apply lit_spec in Hm. subst. eauto.
  - intros (pre & post & ->). exists pre, k, post. split; [reflexivity|].
    apply lit_spec. reflexivity.
Qed.

End StringFacts.

(** ** The analyzer *)

Module NLPFacts.

Import Regex NLP.

Lemma how_many_cons {A} (p : A -> bool) x xs :
  how_many p (x :: xs) = (if p x then 1 else 0) + how_many p xs.
Proof.
  unfold how_many. rewrite filter_cons.
  destruct (decide (p x = true)) as [E|E].
  - rewrite E. cbn [length]. lia.
  - apply not_true_is_false in E. rewrite E. lia.
Qed.

Lemma how_many_nil {A} (p : A -> bool) : how_many p [] = 0.
Proof. reflexivity. Qed.

(** A loop that adds a fixed weight at each hit adds weight times hits. *)
Lemma weighted_loop {A} (p : A -> bool) (step : Q -> Q) (w : Q) :
  (forall s, step s == s + w)%Q ->
  forall xs s,
    (fold_left (fun score x => if p x then step score else score) xs s
     == s + w * inject_Z (how_many p xs))%Q.
Proof.
  intros Hstep xs. induction xs as [|x xs IH]; intros s.
  - cbn [fold_left]. rewrite how_many_nil. unfold inject_Z. ring.
  - cbn [fold_left]. rewrite IH, how_many_cons, inject_Z_plus.
    destruct (p x).
    + rewrite Hstep. change (inject_Z 1) with 1%Q. ring.
    + change (inject_Z 0) with 0%Q. ring.
Qed.

Lemma keyword_loop_eq (t : string) (s : Q) :
  (keyword_loop t s ==
   s + 2 * inject_Z (how_many (fun k => contains k t) high_keywords)
     + 1 * inject_Z (how_many (fun k => contains k t) medium_keywords)
     - 1 * inject_Z (how_many (fun k => contains k t) low_keywords))%Q.
Proof.
  unfold keyword_loop, urgency_keywords. cbn [fold_left].
  rewrite (weighted_loop (fun k => contains k t) (level_step "low") (-1)%Q)
    by (intros; unfold level_step; cbn; ring).
  rewrite (weighted_loop (fun k => contains k t) (level_step "medium") 1%Q)
    by (intros; unfold level_step; cbn; ring).
  rewrite (weighted_loop (fun k => contains k t) (level_step "high") 2%Q)
    by (intros; unfold level_step; cbn; ring).
  ring.
Qed.

Lemma pattern_loop_eq (t : string) (s : Q) :
  (pattern_loop t s ==
   s + 1.5 * inject_Z (how_many (fun p => search p t) time_patterns))%Q.
Proof.
  unfold pattern_loop.
  apply (weighted_loop (fun p => search p t) (fun score => (score + 1.5)%Q)).
  intros; ring.
Qed.

Lemma fmin_Qmin (a b : Q) : (fmin a b == Qmin a b)%Q.
Proof.
  unfold fmin. destruct (Qle_bool a b) eqn:E.
  - apply Qle_bool_iff in E. symmetry. apply Q.min_l; assumption.
  - assert (~ (a <= b)%Q) as H by (rewrite <- Qle_bool_iff, E; discriminate).
    symmetry. apply Q.min_r. apply Qlt_le_weak, Qnot_le_lt, H.
Qed.

Lemma fmax_Qmax (a b : Q) : (fmax a b == Qmax a b)%Q.
Proof.
  unfold fmax. destruct (Qle_bool b a) eqn:E.
  - apply Qle_bool_iff in E. symmetry. apply Q.max_l; assumption.
  - assert (~ (b <= a)%Q) as H by (rewrite <- Qle_bool_iff, E; discriminate).
    symmetry. apply Q.max_r. apply Qlt_le_weak, Qnot_le_lt, H.
Qed.

Lemma clamp_range (x : Q) : (1 <= Qmax 1 (Qmin 10 x) <= 10)%Q.
Proof.
  split.
  - apply Q.le_max_l.
  - apply Q.max_lub; [lra | apply Q.le_min_l].
Qed.

(** C1. For every text, the urgency score of the analyzer is the value the
    design document describes (base 5, +2 / +1 / -1 per high / medium / low
    keyword present, +1.5 per matching time pattern, plus
    min(0.5 * question marks, 2), clamped), and it lies in [1, 10]. *)
Theorem urgency_score_spec (text : string) :
  (calculate_urgency_score text == urgency_spec text)%Q /\
  (1 <= calculate_urgency_score text <= 10)%Q.
Proof.
  assert (calculate_urgency_score text == urgency_spec text)%Q as Heq.
  { unfold calculate_urgency_score, urgency_spec.
    rewrite fmax_Qmax, fmin_Qmin, fmin_Qmin.
    rewrite pattern_loop_eq, keyword_loop_eq.
    apply Q.max_compat; [reflexivity|].
    apply Q.min_compat; [reflexivity|].
    apply Qplus_comp; [ring|].
    apply Q.min_compat; [ring | reflexivity]. }
  split; [exact Heq|].
  rewrite Heq. apply clamp_range.
Qed.

Lemma how_many_nonneg {A} (p : A -> bool) xs : 0 <= how_many p xs.
Proof. unfold how_many. lia. Qed.

Lemma count_if_how_many_from {A} (p : A -> bool) xs (a : Z) :
  fold_left (fun acc x => if p x then acc + 1 else acc) xs a = a + how_many p xs.
Proof.
  revert a. induction xs as [|x xs IH]; intros a.
  - rewrite how_many_nil. cbn. lia.
  - cbn [fold_left]. rewrite IH, how_many_cons. destruct (p x); lia.
Qed.

Lemma count_if_how_many {A} (p : A -> bool) xs : count_if p xs = how_many p xs.
Proof. unfold count_if. rewrite count_if_how_many_from. lia. Qed.

Lemma scores_keyword_scores (text : string) : scores text = keyword_scores text.
Proof.
  unfold scores, keyword_scores. rewrite !count_if_how_many. reflexivity.
Qed.

(** The loop of [max] keeps the first of the largest keys seen so far. *)
Lemma max_by_invariant {A} (key : A -> Z) (xs pre : list A) (best : A) :
  (exists i : nat, pre !! i = Some best /\
     forall (j : nat) y, pre !! j = Some y ->
       key y <= key best /\ ((j < i)%nat -> key y < key best)) ->
  exists i : nat, (pre ++ xs)%list !! i = Some (max_by key best xs) /\
     forall (j : nat) y, (pre ++ xs)%list !! j = Some y ->
       key y <= key (max_by key best xs) /\
       ((j < i)%nat -> key y < key (max_by key best xs)).
Proof.
  revert pre best. induction xs as [|x xs IH]; intros pre best (i & Hi & Hall).
  - rewrite app_nil_r. exists i. split; [exact Hi | exact Hall].
  - replace (pre ++ x :: xs)%list with ((pre ++ [x]) ++ xs)%list
      by (rewrite <- app_assoc; reflexivity).
    unfold max_by. cbn [fold_left]. fold (max_by key (if key best <? key x then x else best) xs).
    apply IH.
    destruct (key best <? key x) eqn:E.
    + apply Z.ltb_lt in E. exists (length pre). split.
      * rewrite lookup_app_r by lia. rewrite Nat.sub_diag. reflexivity.
      * intros j y Hj. destruct (decide (j < length pre)%nat) as [Hlt|Hge].
        -- rewrite lookup_app_l in Hj by exact Hlt.
           destruct (Hall j y Hj) as [Hle _]. split; lia.
        -- rewrite lookup_app_r in Hj by lia.
           destruct (j - length pre)%nat eqn:D; cbn in Hj; [|discriminate].
           injection Hj as <-. split; lia.
    + apply Z.ltb_ge in E. exists i. split.
      * rewrite lookup_app_l; [exact Hi | eapply lookup_lt_Some; exact Hi].
      * intros j y Hj. destruct (decide (j < length pre)%nat) as [Hlt|Hge].
        -- rewrite lookup_app_l in Hj by exact Hlt. apply Hall, Hj.
        -- rewrite lookup_app_r in Hj by lia.
           destruct (j - length pre)%nat eqn:D; cbn in Hj; [|discriminate].
           injection Hj as <-. split; [lia|].
           intros Hji. apply lookup_lt_Some in Hi. lia.
Qed.

Lemma max_by_first {A} (key : A -> Z) (x0 : A) (xs : list A) :
  exists i : nat, (x0 :: xs) !! i = Some (max_by key x0 xs) /\
     forall (j : nat) y, (x0 :: xs) !! j = Some y ->
       key y <= key (max_by key x0 xs) /\
       ((j < i)%nat -> key y < key (max_by key x0 xs)).
Proof.
  apply (max_by_invariant key xs [x0] x0).
  exists 0%nat. split; [reflexivity|].
  intros [|j] y Hj; cbn in Hj; [|discriminate].
  injection Hj as <-. split; lia.
Qed.

Lemma max_of_max_by {A} (key : A -> Z) (xs : list A) (x0 : A) :
  max_of (key x0) (map key xs) = key (max_by key x0 xs).
Proof.
  unfold max_of, max_by. revert x0.
  induction xs as [|x xs IH]; intros x0; [reflexivity|].
  cbn [map fold_left]. destruct (key x0 <? key x); apply IH.
Qed.

Lemma first_argmax_label (text label : string) :
  first_argmax (keyword_scores text) label -> In label labels.
Proof.
  intros (i & top & Hi & _). unfold keyword_scores in Hi. unfold labels.
  destruct i as [|[|[|[|i]]]]; cbn in Hi; try discriminate;
    injection Hi as <- _; cbn; tauto.
Qed.

(** The label returned is the first of the labels of largest score. *)
Lemma classify_category_argmax (t : string) :
  exists label : string,
    classify_category t = Some label /\
    first_argmax (keyword_scores t) label /\
    ((forall other s, In (other, s) (keyword_scores t) -> s = 0) ->
     label = "work").
Proof.
  unfold classify_category. rewrite scores_keyword_scores.
  set (present := fun keyword => contains keyword (lower t)).
  set (item := ("work", how_many present work_keywords)).
  set (rest := [("personal", how_many present personal_keywords);
                ("promotional", how_many present promotional_keywords);
                ("social", how_many present social_keywords)]).
  change (keyword_scores t) with (item :: rest).
  cbn [max_value max_key mbind option_bind].
  rewrite (max_of_max_by snd rest item).
  destruct (max_by_first snd item rest) as (i & Hi & Hall).
  destruct (0 <? snd (max_by snd item rest)) eqn:E.
  - exists (fst (max_by snd item rest)). split; [reflexivity|]. split.
    + exists i, (snd (max_by snd item rest)). split.
      * rewrite Hi. destruct (max_by snd item rest); reflexivity.
      * intros j other s Hj. apply (Hall j (other, s) Hj).
    + intros Hzero. apply Z.ltb_lt in E.
      apply list_elem_of_lookup_2, list_elem_of_In in Hi.
      destruct (max_by snd item rest) as [l top]. cbn in E.
      specialize (Hzero l top Hi). lia.
  - exists "work". split; [reflexivity|]. split; [|reflexivity].
    apply Z.ltb_ge in E.
    exists 0%nat, (how_many present work_keywords). split; [reflexivity|].
    intros j other s Hj.
    destruct (Hall j (other, s) Hj) as [Hle _].
    change (s <= snd (max_by snd item rest)) in Hle.
    destruct (Hall 0%nat item eq_refl) as [Hle0 _].
    change (how_many present work_keywords <= snd (max_by snd item rest)) in Hle0.
    assert (0 <= s) as Hs.
    { destruct j as [|[|[|[|j]]]]; cbn in Hj; try discriminate;
        injection Hj as _ <-; apply how_many_nonneg. }
    pose proof (how_many_nonneg present work_keywords).
    split; [lia|]. intros Hlt. lia.
Qed.

(** The classification never raises. *)
Lemma classify_category_total (t : string) :
  exists label : string, classify_category t = Some label.
Proof. destruct (classify_category_argmax t) as (label & Hc & _). eauto. Qed.

(** C7. For every text, the classification does not raise and returns one
    of the four labels; the scores are the numbers of keywords of each set
    that occur in the lowered text; the label returned is the first, in
    the order work, personal, promotional, social, of the labels of
    largest score; it is work when the four scores are zero; and texts
    that differ only by the case of their letters get the same label. *)
Theorem classify_category_spec (text : string) :
  exists label : string,
    classify_category text = Some label /\
    In label labels /\
    scores text = keyword_scores text /\
    first_argmax (keyword_scores text) label /\
    ((forall other s, In (other, s) (keyword_scores text) -> s = 0) ->
     label = "work") /\
    (forall text', lower text' = lower text ->
                   classify_category text' = Some label).
Proof.
  destruct (classify_category_argmax text) as (label & Hc & Harg & Hzero).
  exists label. repeat split.
  - exact Hc.
  - eapply first_argmax_label, Harg.
  - apply scores_keyword_scores.
  - exact Harg.
  - exact Hzero.
  - intros text' Hlow. rewrite <- Hc.
    unfold classify_category, scores. rewrite Hlow. reflexivity.
Qed.

(** A worked example: two personal and two promotional keywords, in
    capitals; the label declared first wins. *)
Lemma classify_category_example :
  classify_category "FAMILY sale, Discount for a Friend" = Some "personal".
Proof.
  destruct (classify_category_spec "FAMILY sale, Discount for a Friend")
    as (label & Hc & _).
  rewrite Hc. vm_compute in Hc. symmetry. exact Hc.
Defined.

(** Worked scores: one high keyword gives 7 and the priority high; one
    low keyword gives 4 and medium; two give 3 and low; many hits are
    clamped to 10. *)
Example urgency_examples :
  (calculate_urgency_score "This is urgent" == 7)%Q /\
  (calculate_urgency_score "FYI" == 4)%Q /\
  (calculate_urgency_score "fyi, no rush" == 3)%Q /\
  (calculate_urgency_score "Meeting in 2 hours?" == 7)%Q /\
  (calculate_urgency_score "URGENT: the deadline is today, need this asap??" == 10)%Q.
Proof. repeat split; vm_compute; reflexivity. Qed.

Example priority_examples :
  classify_priority "This is urgent" = "high" /\
  classify_priority "FYI" = "medium" /\
  classify_priority "fyi, no rush" = "low".
Proof. repeat split; vm_compute; reflexivity. Qed.

End NLPFacts.

(** ** The extractor and its fallbacks *)

Module LLMFacts.

Import Models LLM.

Section Facts.

Context `{Library} `{Provider}.
Variable settings : Settings.

Lemma truthy_empty (s : string) : s = "" -> truthy s = false.
Proof. intros ->. reflexivity. Qed.

Lemma fallback_reply_cases (tone : string) :
  In (_fallback_reply tone) templates /\
  (tone <> "professional" -> tone <> "friendly" -> tone <> "brief" ->
   _fallback_reply tone = _fallback_reply "professional").
Proof.
  unfold _fallback_reply, dict_get. cbn [assoc].
  destruct (String.eqb_spec tone "professional") as [->|N1]; [cbn; tauto|].
  destruct (String.eqb_spec tone "friendly") as [->|N2]; [cbn; tauto|].
  destruct (String.eqb_spec tone "brief") as [->|N3]; [cbn; tauto|].
  cbn; tauto.
Qed.

(** What does hold of the reply generation: when the provider that the
    configuration selects raises, the reply is the template of the tone,
    and an unknown tone gets the professional one. *)
Lemma generate_reply_fallback (email_content tone context : string) :
  (truthy (OPENAI_API_KEY settings) = true /\
   (exists e, openai_acreate (OPENAI_MODEL settings)
                "You are a helpful email assistant."
                (reply_prompt email_content tone context) 500 0.7 = Raise e)) \/
  (truthy (OPENAI_API_KEY settings) = false /\
   truthy (ANTHROPIC_API_KEY settings) = true /\
   (exists e, anthropic_create (ANTHROPIC_MODEL settings) 500
                (reply_prompt email_content tone context) = Raise e)) ->
  generate_reply settings email_content tone context
  = Some (_fallback_reply tone).
Proof.
  unfold generate_reply.
  intros [(Hk & e & He) | (Hk1 & Hk2 & e & He)].
  - rewrite Hk, He. reflexivity.
  - rewrite Hk1, Hk2, He. reflexivity.
Qed.

(** C5, at the failing configuration. With no provider configured the
    reply generation returns [None] for every content, tone and context:
    the body of its [try] ends without a [return], so the fallback
    template is not reached and the result is not a string. *)
Theorem generate_reply_without_provider (email_content tone context : string) :
  OPENAI_API_KEY settings = "" ->
  ANTHROPIC_API_KEY settings = "" ->
  generate_reply settings email_content tone context = None.
Proof.
  intros H1 H2. unfold generate_reply.
  rewrite (truthy_empty _ H1), (truthy_empty _ H2). reflexivity.
Qed.

Lemma rows_of_none utcnow email email_id :
  Reminders.rows_of_extraction utcnow email email_id JNull = Raise AttributeError.
Proof. reflexivity. Qed.

Lemma rows_of_empty utcnow email email_id :
  Reminders.rows_of_extraction utcnow email email_id empty_extraction = Ok [].
Proof. reflexivity. Qed.

(** What does hold of the extraction: with the key configured, a call
    that raises or a reply that is no JSON gives two empty lists, and the
    persist step then commits nothing. *)
Lemma extraction_degrades (email_content : string) :
  truthy (OPENAI_API_KEY settings) = true ->
  (exists e, openai_acreate (OPENAI_MODEL settings)
     "You are a helpful assistant that extracts tasks and events from emails."
     (extraction_prompt email_content) 800 0.3 = Raise e) \/
  (exists content e, openai_acreate (OPENAI_MODEL settings)
     "You are a helpful assistant that extracts tasks and events from emails."
     (extraction_prompt email_content) 800 0.3 = Ok content /\
     json_loads content = Raise e) ->
  extract_tasks_and_events settings email_content = empty_extraction.
Proof.
  intros Hk Hcall. unfold extract_tasks_and_events. rewrite Hk.
  destruct Hcall as [(e & He) | (content & e & Hc & He)].
  - rewrite He. reflexivity.
  - rewrite Hc. cbn. rewrite He. reflexivity.
Qed.

(** The persist step writes the rows it commits. *)
Lemma process_writes utcnow email_id (db : Reminders.DB) :
  Reminders.process_email_for_reminders settings utcnow email_id db
  = Reminders.write (Reminders.committed_rows settings utcnow email_id db) db.
Proof.
  unfold Reminders.process_email_for_reminders, Reminders.committed_rows,
    Reminders.commit.
  destruct (email_by_id (Reminders.emails db) email_id) as [email|];
    [|reflexivity].
  cbn zeta.
  destruct (Reminders.rows_of_extraction _ _ _ _) as [rows|];
    cbn [mbind result_bind try_except]; [|reflexivity].
  destruct (forallb Reminders.row_binds rows); reflexivity.
Qed.

Lemma committed_rows_degraded utcnow email_id (db : Reminders.DB) :
  (forall email_content,
      extract_tasks_and_events settings email_content = empty_extraction \/
      extract_tasks_and_events settings email_content = JNull) ->
  Reminders.committed_rows settings utcnow email_id db = [].
Proof.
  intros Hx. unfold Reminders.committed_rows.
  destruct (email_by_id (Reminders.emails db) email_id) as [email|]; [|reflexivity].
  destruct (Hx ("Subject: " +:+ subject email +:+ nl +:+ nl +:+ body email))
    as [-> | ->]; reflexivity.
Qed.

(** C4, at the failing configuration. With no key configured the
    extraction returns [None], not two empty lists, for every content; the
    persist step then fails on [None], rolls back, and commits no
    reminder and no event. *)
Theorem extraction_without_key (email_content : string) :
  OPENAI_API_KEY settings = "" ->
  extract_tasks_and_events settings email_content = JNull /\
  extract_tasks_and_events settings email_content <> empty_extraction /\
  forall utcnow email_id (db : Reminders.DB),
    Reminders.committed_rows settings utcnow email_id db = [] /\
    Reminders.process_email_for_reminders settings utcnow email_id db = db.
Proof.
  intros Hk.
  assert (forall c, extract_tasks_and_events settings c = JNull) as Hnone.
  { intros c. unfold extract_tasks_and_events.
    rewrite (truthy_empty _ Hk). reflexivity. }
  split; [apply Hnone|]. split; [rewrite Hnone; discriminate|].
  intros utcnow email_id db.
  assert (Reminders.committed_rows settings utcnow email_id db = []) as Hrows
    by (apply committed_rows_degraded; intros c; right; apply Hnone).
  split; [exact Hrows|].
  rewrite process_writes, Hrows. reflexivity.
Qed.

End Facts.

(** With a key and a provider that is down, the reply is the template
    of the tone, the professional one for a tone that is not known, and
    the extraction is two empty lists. *)
Example fallback_examples :
  @generate_reply Examples.down Examples.openai_key
    "Subject: Project report" "friendly" ""
  = Some "Hi! Thanks for reaching out. I'll take a look at this and respond shortly." /\
  @generate_reply Examples.down Examples.openai_key
    "Subject: Project report" "casual" ""
  = Some "Thank you for your email. I will review this and get back to you soon." /\
  @extract_tasks_and_events Examples.library Examples.down Examples.openai_key
    "Subject: Project report" = empty_extraction /\
  @extract_tasks_and_events Examples.library Examples.prose Examples.openai_key
    "Subject: Project report" = empty_extraction.
Proof. repeat split; vm_compute; reflexivity. Qed.

(** The failing configuration of C5, run: the defaults of the settings
    and any provider. *)
Lemma generate_reply_without_provider_run :
  @generate_reply Examples.prose Examples.no_keys
    "Subject: Project report" "friendly" "" = None.
Proof.
  apply (@generate_reply_without_provider Examples.prose Examples.no_keys);
    reflexivity.
Defined.

(** The failing configuration of C4, run. *)
Lemma extraction_without_key_run :
  @extract_tasks_and_events Examples.library Examples.prose Examples.no_keys
    "Subject: Project report" = JNull.
Proof.
  apply (@extraction_without_key Examples.library Examples.prose Examples.no_keys);
    reflexivity.
Defined.

End LLMFacts.

(** ** Reconciliation *)

Module SyncFacts.

Import Models NLP Sync.

Section Facts.

Context `{Library} `{LLM.Provider} `{Mailbox}.
Variable settings : LLM.Settings.

Lemma lookup_known (emails : list Email) (g : string) :
  email_by_gmail_id emails g = None <-> known emails g = false.
Proof.
  unfold email_by_gmail_id, known.
  induction emails as [|e es IH]; cbn; [tauto|].
  destruct (String.eqb (gmail_id e) g); cbn; [split; discriminate | exact IH].
Qed.

Lemma known_app (es l : list Email) (g : string) :
  known (es ++ l) g = known es g || known l g.
Proof. unfold known. apply existsb_app. Qed.

Lemma known_last (es : list Email) (row : Email) :
  known (es ++ [row]) (gmail_id row) = true.
Proof.
  rewrite known_app. unfold known at 2. cbn.
  rewrite String.eqb_refl. apply orb_true_iff. right. reflexivity.
Qed.

Lemma analyze_email_ok (email_content subject : string) :
  exists a, analyze_email email_content subject = Ok a.
Proof.
  unfold analyze_email.
  destruct (NLPFacts.classify_category_total (subject +:+ " " +:+ email_content))
    as (label & ->).
  eauto.
Qed.

(** The three ways a turn can go. *)
Lemma reconcile_cases (user_id : Z) (now : datetime) (emails : list Email)
    (g : GmailEmail) :
  (known emails (g_gmail_id g) = true /\ reconcile settings user_id now emails g = emails) \/
  (known emails (g_gmail_id g) = false /\ maps_fields g = false /\
   reconcile settings user_id now emails g = emails) \/
  (known emails (g_gmail_id g) = false /\ maps_fields g = true /\
   exists row, reconcile settings user_id now emails g = (emails ++ [row])%list /\
               gmail_id row = g_gmail_id g).
Proof.
  unfold reconcile, process_email, maps_fields.
  destruct (email_by_gmail_id emails (g_gmail_id g)) as [existing|] eqn:E.
  - left. split; [|reflexivity].
    destruct (known emails (g_gmail_id g)) eqn:K; [reflexivity|].
    apply lookup_known in K. congruence.
  - right. apply lookup_known in E.
    destruct (analyze_email_ok (g_body g) (g_subject g)) as (a & ->).
    cbn [mbind result_bind].
    destruct (fromisoformat (replace "Z" "+00:00" (g_timestamp g))) as [t|e].
    + right. repeat split; try assumption. eexists. split; reflexivity.
    + left. repeat split; assumption.
Qed.

Lemma reconcile_settled user_id now emails g :
  settled emails g -> reconcile settings user_id now emails g = emails.
Proof.
  intros Hs.
  destruct (reconcile_cases user_id now emails g)
    as [(_ & ->) | [(_ & _ & ->) | (K & M & _)]]; try reflexivity.
  destruct Hs; congruence.
Qed.

Lemma settled_app emails l g : settled emails g -> settled (emails ++ l) g.
Proof.
  intros [K|M]; [left | right; exact M].
  rewrite known_app, K. reflexivity.
Qed.

Lemma reconcile_settles user_id now emails g :
  settled (reconcile settings user_id now emails g) g.
Proof.
  destruct (reconcile_cases user_id now emails g)
    as [(K & ->) | [(_ & M & ->) | (_ & _ & row & -> & Hid)]].
  - left; exact K.
  - right; exact M.
  - left. rewrite <- Hid. apply known_last.
Qed.

(** The loop only appends, and only rows whose id was not known. *)
Lemma process_appends utcnow (batch : list GmailEmail) :
  forall (i : nat) user_id (emails : list Email),
  exists news : list Email,
    process_emails_from settings utcnow i batch user_id emails = (emails ++ news)%list /\
    Forall (fun row => known emails (gmail_id row) = false) news /\
    Forall (fun row => exists g, In g batch /\ gmail_id row = g_gmail_id g) news /\
    NoDup (map gmail_id news).
Proof.
  induction batch as [|g rest IH]; intros i user_id emails.
  - exists []. cbn. rewrite app_nil_r. repeat split; constructor.
  - cbn [process_emails_from].
    destruct (reconcile_cases user_id (utcnow i) emails g)
      as [(_ & ->) | [(_ & _ & ->) | (K & _ & row & -> & Hid)]].
    + destruct (IH (S i) user_id emails) as (news & -> & Hn & Hb & Hd).
      exists news. repeat split; try assumption.
      eapply Forall_impl; [exact Hb|]. intros r (g' & Hin & Hg); cbn in *. eauto.
    + destruct (IH (S i) user_id emails) as (news & -> & Hn & Hb & Hd).
      exists news. repeat split; try assumption.
      eapply Forall_impl; [exact Hb|]. intros r (g' & Hin & Hg); cbn in *. eauto.
    + destruct (IH (S i) user_id (emails ++ [row])%list) as (news & -> & Hn & Hb & Hd).
      exists (row :: news). rewrite <- app_assoc.
      split; [|split; [|split]].
      * reflexivity.
      * constructor; [rewrite Hid; exact K|].
        eapply Forall_impl; [exact Hn|]. intros r Hr; cbn in *.
        rewrite known_app in Hr. apply orb_false_iff in Hr. tauto.
      * constructor; [exists g; cbn; tauto|].
        eapply Forall_impl; [exact Hb|]. intros r (g' & Hin & Hg); cbn in *. eauto.
      * cbn [map]. apply NoDup_cons. split; [|exact Hd].
        intros Hin. apply list_elem_of_In, in_map_iff in Hin.
        destruct Hin as (r & Hr & Hin).
        rewrite Forall_forall in Hn. apply list_elem_of_In, Hn in Hin.
        rewrite Hr, known_last in Hin. discriminate.
Qed.

Lemma process_settled_noop utcnow (batch : list GmailEmail) :
  forall (i : nat) user_id (emails : list Email),
    Forall (settled emails) batch ->
    process_emails_from settings utcnow i batch user_id emails = emails.
Proof.
  induction batch as [|g rest IH]; intros i user_id emails Hall; [reflexivity|].
  cbn [process_emails_from].
  apply Forall_cons in Hall. destruct Hall as [Hg Hrest].
  rewrite (reconcile_settled user_id (utcnow i) emails g Hg).
  apply IH, Hrest.
Qed.

Lemma process_settles utcnow (batch : list GmailEmail) :
  forall (i : nat) user_id (emails : list Email),
    Forall (settled (process_emails_from settings utcnow i batch user_id emails)) batch.
Proof.
  induction batch as [|g rest IH]; intros i user_id emails; [constructor|].
  cbn [process_emails_from]. constructor; [|apply IH].
  destruct (process_appends utcnow rest (S i) user_id
              (reconcile settings user_id (utcnow i) emails g)) as (news & -> & _).
  apply settled_app, reconcile_settles.
Qed.

Lemma unknown_items_cons emails g rest :
  unknown_items emails (g :: rest)
  = (if known emails (g_gmail_id g) then 0 else 1) + unknown_items emails rest.
Proof.
  unfold unknown_items. rewrite filter_cons.
  destruct (decide (known emails (g_gmail_id g) = false)) as [E|E].
  - rewrite E. cbn [length]. lia.
  - apply not_false_is_true in E. rewrite E. lia.
Qed.

Lemma unknown_items_bounds emails batch :
  0 <= unknown_items emails batch <= Z.of_nat (length batch).
Proof.
  induction batch as [|g rest IH].
  - unfold unknown_items. cbn. lia.
  - rewrite unknown_items_cons. cbn [length].
    destruct (known emails (g_gmail_id g)); lia.
Qed.

Lemma unknown_items_app emails l batch :
  unknown_items (emails ++ l) batch <= unknown_items emails batch.
Proof.
  induction batch as [|g rest IH]; [unfold unknown_items; cbn; lia|].
  rewrite !unknown_items_cons, known_app.
  destruct (known emails (g_gmail_id g)), (known l (g_gmail_id g)); cbn; lia.
Qed.

Lemma inserted_bound utcnow (batch : list GmailEmail) :
  forall (i : nat) user_id (emails : list Email),
    0 <= inserted emails (process_emails_from settings utcnow i batch user_id emails)
      <= unknown_items emails batch.
Proof.
  unfold inserted.
  induction batch as [|g rest IH]; intros i user_id emails.
  - cbn. unfold unknown_items. cbn. lia.
  - cbn [process_emails_from]. rewrite unknown_items_cons.
    destruct (reconcile_cases user_id (utcnow i) emails g)
      as [(K & ->) | [(K & _ & ->) | (K & _ & row & -> & Hid)]]; rewrite K.
    + specialize (IH (S i) user_id emails). lia.
    + specialize (IH (S i) user_id emails). lia.
    + specialize (IH (S i) user_id (emails ++ [row])%list).
      pose proof (unknown_items_app emails [row] rest).
      rewrite length_app in IH. cbn [length] in IH. lia.
Qed.

(** C2, as the code has it. Reconciliation is insert-only and idempotent:
    a turn of the loop inserts the item exactly when no local record has
    its external id and its field mapping succeeds (an item whose
    processing raises is skipped); the table after a batch is the table
    before it followed by new rows, none of which carries an id that was
    present and no two of which share an id, so no record is overwritten
    and an overlapping batch inserts nothing for the ids already present;
    and running the same batch again leaves the table as it is. *)
Theorem reconciliation_insert_only utcnow (batch : list GmailEmail)
    (user_id : Z) (emails : list Email) :
  (forall now es g,
      reconcile settings user_id now es g <> es <->
      known es (g_gmail_id g) = false /\ maps_fields g = true) /\
  (forall now es g,
      reconcile settings user_id now es g = es \/
      exists row, reconcile settings user_id now es g = (es ++ [row])%list /\
                  gmail_id row = g_gmail_id g) /\
  (exists news : list Email,
      process_emails settings utcnow batch user_id emails = (emails ++ news)%list /\
      Forall (fun row => known emails (gmail_id row) = false) news /\
      NoDup (map gmail_id news)) /\
  (forall utcnow' user_id',
      let after := process_emails settings utcnow batch user_id emails in
      process_emails settings utcnow' batch user_id' after = after /\
      inserted after (process_emails settings utcnow' batch user_id' after) = 0).
Proof.
  split; [|split; [|split]].
  - intros now es g. split.
    + intros Hne.
      destruct (reconcile_cases user_id now es g)
        as [(_ & E) | [(_ & _ & E) | (K & M & _)]]; try contradiction.
      split; assumption.
    + intros (K & M) E.
      destruct (reconcile_cases user_id now es g)
        as [(K' & _) | [(_ & M' & _) | (_ & _ & row & E' & _)]]; try congruence.
      rewrite E' in E. apply (f_equal (@length Email)) in E.
      rewrite length_app in E. cbn in E. lia.
  - intros now es g.
    destruct (reconcile_cases user_id now es g)
      as [(_ & E) | [(_ & _ & E) | (_ & _ & row & E & Hid)]]; eauto.
  - destruct (process_appends utcnow batch 0 user_id emails)
      as (news & E & Hn & _ & Hd).
    exists news. auto.
  - intros utcnow' user_id' after.
    assert (process_emails settings utcnow' batch user_id' after = after) as E
      by apply process_settled_noop, process_settles.
    split; [exact E|]. rewrite E. unfold inserted. lia.
Qed.

(** C6, as the code has it. When the user is connected and the fetch
    succeeds, the operation answers with the number of items fetched and
    schedules the reconciliation of the batch; the number of records that
    reconciliation then inserts lies between zero and the number of batch
    items whose id was not present, which is at most the count that was
    answered. *)
Theorem sync_reports_fetched (request : EmailSyncRequest) (users : list User)
    (user : User) (batch : list GmailEmail) :
  head users = Some user ->
  token_set (gmail_token user) = true ->
  fetch_emails (gmail_token user) (gmail_refresh_token user)
               (query request) (max_results request) = Ok batch ->
  sync_emails request users
  = (Http200 {| message := "Syncing " +:+ pretty (Z.of_nat (length batch)) +:+ " emails";
                count := Z.of_nat (length batch) |},
     Some {| task_emails := batch; task_user_id := user_pk user |}) /\
  forall utcnow (emails : list Email),
    0 <= inserted emails (process_emails settings utcnow batch (user_pk user) emails)
      <= unknown_items emails batch /\
    unknown_items emails batch <= Z.of_nat (length batch).
Proof.
  intros Hu Ht Hf. split.
  - unfold sync_emails. rewrite Hu, Ht, Hf. reflexivity.
  - intros utcnow emails. split.
    + apply inserted_bound.
    + apply unknown_items_bounds.
Qed.

End Facts.

(** C2, refuted as stated: a fetched message without a [Date] header has
    the empty string for its timestamp; no local record has its id, and it
    is not inserted. *)
Lemma reconciliation_skips_unmapped :
  let batch := [Examples.message "A" ""] in
  known [] "A" = false /\
  @process_emails Examples.library Examples.prose Examples.no_keys
    Examples.clock batch 1 [] = [].
Proof. split; vm_compute; reflexivity. Qed.

(** C6, refuted as stated: one message is fetched, its id is present
    locally; the operation answers 1 and nothing is inserted. *)
Lemma sync_count_is_fetched :
  let batch := [Examples.message "A" "2024-01-15T10:00:00Z"] in
  let emails := [Examples.stored 1 "A"] in
  fst (@sync_emails (Examples.mailbox batch)
         {| max_results := 50; query := "" |} [Examples.user])
  = Http200 {| message := "Syncing 1 emails"; count := 1 |} /\
  unknown_items emails batch = 0 /\
  inserted emails
    (@process_emails Examples.library Examples.prose Examples.no_keys
       Examples.clock batch 1 emails) = 0.
Proof. repeat split; vm_compute; reflexivity. Qed.

(** C6 on an example: one new message is fetched and
    inserted. *)
Lemma sync_reports_fetched_example :
  let batch := [Examples.message "B" "2024-01-15T10:00:00Z"] in
  fst (@sync_emails (Examples.mailbox batch)
         {| max_results := 50; query := "" |} [Examples.user])
  = Http200 {| message := "Syncing 1 emails"; count := 1 |} /\
  inserted [Examples.stored 1 "A"]
    (@process_emails Examples.library Examples.prose Examples.no_keys
       Examples.clock batch 1 [Examples.stored 1 "A"]) = 1.
Proof.
  intros batch.
  destruct (@sync_reports_fetched Examples.library Examples.prose
              (Examples.mailbox batch) Examples.no_keys
              {| max_results := 50; query := "" |} [Examples.user]
              Examples.user batch eq_refl eq_refl eq_refl) as [Hs _].
  split.
  - rewrite Hs. reflexivity.
  - vm_compute. reflexivity.
Defined.

End SyncFacts.

(** ** Summaries *)

Module SummaryFacts.

Import Models Summaries.

Section Facts.

Context `{Library} `{LLM.Provider}.
Variable settings : LLM.Settings.

Lemma summary_by_email_none (rows : list EmailSummary) (email_id : Z) :
  summary_by_email rows email_id = None -> summaries_of rows email_id = [].
Proof.
  unfold summary_by_email, summaries_of.
  induction rows as [|s rows IH]; [reflexivity|]. cbn [find].
  destruct (summary_email_id s =? email_id) eqn:E; [discriminate|].
  intros Hn. apply Z.eqb_neq in E.
  rewrite filter_cons, decide_False by exact E. apply IH, Hn.
Qed.

Lemma creation_pending_none (st : State) (email_id : Z) :
  creation_pending st email_id = false -> pending_creations st email_id = 0%nat.
Proof.
  unfold creation_pending, pending_creations.
  induction (background st) as [|t l IH]; [reflexivity|]. cbn [existsb].
  intros Hn. apply orb_false_iff in Hn. destruct Hn as [E Hn].
  apply Z.eqb_neq in E.
  rewrite filter_cons, decide_False by exact E. apply IH, Hn.
Qed.

Lemma count_delete {A} (P : A -> Prop) `{forall x, Decision (P x)}
    (l : list A) (i : nat) (t : A) :
  l !! i = Some t ->
  (length (filter P (delete i l)) + (if decide (P t) then 1 else 0)
   = length (filter P l))%nat.
Proof.
  revert i. induction l as [|x l IH]; intros i Hi; [discriminate|].
  destruct i as [|i].
  - cbn in Hi. injection Hi as ->. cbn [delete list_delete].
    rewrite filter_cons. destruct (decide (P t)); cbn [length]; lia.
  - cbn in Hi. cbn [delete list_delete]. rewrite !filter_cons.
    specialize (IH i Hi).
    destruct (decide (P x)); cbn [length]; [cbn [Nat.add]; f_equal|]; exact IH.
Qed.

(** A creation appends at most one row, and that row belongs to the
    message of the task. *)
Lemma create_cases start_time finish_time (task : SummaryTask)
    (all_emails : list Email) (rows : list EmailSummary) :
  create_email_summary settings start_time finish_time task all_emails rows = rows \/
  exists row,
    create_email_summary settings start_time finish_time task all_emails rows
    = (rows ++ [row])%list /\
    summary_email_id row = task_email_id task.
Proof.
  unfold create_email_summary.
  destruct (email_by_id all_emails (task_email_id task)) as [email|];
    [|left; reflexivity].
  repeat match goal with
  | |- context [py_get ?v ?k ?d] =>
      destruct (py_get v k d); cbn [mbind result_bind try_except];
      [|left; reflexivity]
  end.
  right. eexists. split; reflexivity.
Qed.

(** A trigger on a message that has a summary answers that the summary
    exists and changes nothing. *)
Lemma trigger_existing (email_id : Z) (request : GenerateSummaryRequest)
    (st : State) (email : Email) (existing : EmailSummary) :
  email_by_id (emails st) email_id = Some email ->
  summary_by_email (summaries st) email_id = Some existing ->
  generate_email_summary email_id request st
  = (Http200 (JDict [("message", JStr "Summary already exists");
                     ("summary_id", JNum (inject_Z (summary_pk existing)))]),
     st).
Proof.
  intros He Hs. unfold generate_email_summary. rewrite He, Hs. reflexivity.
Qed.

Lemma step_at_most_one (st : State) (a : action) :
  at_most_one st ->
  serial settings st [a] = true ->
  at_most_one (step settings st a).
Proof.
  intros Hinv Hser. cbn [serial] in Hser.
  rewrite andb_true_r in Hser.
  destruct a as [email_id request | i start_time finish_time]; cbn [step].
  - apply negb_true_iff in Hser.
    unfold generate_email_summary.
    destruct (email_by_id (emails st) email_id) as [email|]; [|exact Hinv].
    destruct (summary_by_email (summaries st) email_id) as [existing|] eqn:Es;
      [exact Hinv|].
    cbn [snd]. intros e. unfold pending_creations. cbn [summaries background].
    rewrite filter_app, length_app, filter_cons, filter_nil. cbn [task_email_id].
    destruct (decide (email_id = e)) as [<-|Hne]; cbn [length].
    + rewrite (summary_by_email_none _ _ Es).
      pose proof (creation_pending_none st email_id Hser) as Hp.
      unfold pending_creations in Hp. rewrite Hp. cbn. lia.
    + specialize (Hinv e). unfold pending_creations in Hinv. lia.
  - destruct (background st !! i) as [task|] eqn:Ei; [|exact Hinv].
    intros e. unfold pending_creations. cbn [summaries background].
    specialize (Hinv e). unfold pending_creations in Hinv.
    pose proof (count_delete (fun t => task_email_id t = e) _ _ _ Ei) as Hd.
    destruct (create_cases start_time finish_time task (emails st) (summaries st))
      as [-> | (row & -> & Hrow)].
    + destruct (decide (task_email_id task = e)); lia.
    + unfold summaries_of in *. rewrite filter_app, length_app, filter_cons, filter_nil.
      rewrite Hrow.
      destruct (decide (task_email_id task = e)); cbn [length]; lia.
Qed.

Lemma run_at_most_one (actions : list action) :
  forall st : State,
    at_most_one st ->
    serial settings st actions = true ->
    at_most_one (run settings st actions).
Proof.
  induction actions as [|a rest IH]; intros st Hinv Hser; [exact Hinv|].
  cbn [run fold_left]. cbn [serial] in Hser.
  apply andb_true_iff in Hser. destruct Hser as [Ha Hrest].
  apply IH; [|exact Hrest].
  apply step_at_most_one; [exact Hinv|].
  cbn [serial]. rewrite Ha. reflexivity.
Qed.

(** C3, as the code has it. A trigger on a message that already has a
    summary answers "already exists" with the id of that summary and
    neither creates nor schedules anything. The table has no uniqueness
    constraint on the message reference: a message keeps at most one
    summary in every run where no trigger for it is served while a
    creation for it is still pending. *)
Theorem summary_idempotent_when_serial (st : State) :
  (forall email_id request email existing,
      email_by_id (emails st) email_id = Some email ->
      summary_by_email (summaries st) email_id = Some existing ->
      generate_email_summary email_id request st
      = (Http200 (JDict [("message", JStr "Summary already exists");
                         ("summary_id", JNum (inject_Z (summary_pk existing)))]),
         st)) /\
  (forall actions,
      at_most_one st ->
      serial settings st actions = true ->
      forall email_id,
        (length (summaries_of (summaries (run settings st actions)) email_id)
         <= 1)%nat).
Proof.
  split.
  - intros. apply trigger_existing with (email := email); assumption.
  - intros actions Hinv Hser email_id.
    pose proof (run_at_most_one actions st Hinv Hser email_id). lia.
Qed.

End Facts.

(** C3, refuted as stated: two triggers for one message are served before
    the creation scheduled by the first has run; both creations then run
    and the message has two summaries. *)
Lemma two_summaries_for_one_message :
  let st := {| emails := [Examples.stored 1 "A"]; summaries := [];
               background := [] |} in
  let actions := [Trigger 1 Examples.request; Trigger 1 Examples.request;
                  Finish 0 0 1; Finish 0 2 3] in
  length (summaries_of
            (summaries (@run Examples.library Examples.down Examples.no_keys
                          st actions)) 1) = 2%nat.
Proof. vm_compute. reflexivity. Qed.

(** C3 on an example: the second trigger comes after the
    creation has run. *)
Lemma summary_idempotent_example :
  let st := {| emails := [Examples.stored 1 "A"]; summaries := [];
               background := [] |} in
  let actions := [Trigger 1 Examples.request; Finish 0 0 1;
                  Trigger 1 Examples.request] in
  (length (summaries_of
             (summaries (@run Examples.library Examples.down Examples.no_keys
                           st actions)) 1) <= 1)%nat.
Proof.
  intros st actions.
  apply (proj2 (@summary_idempotent_when_serial Examples.library Examples.down
                  Examples.no_keys st) actions).
  - intros e. vm_compute. lia.
  - vm_compute. reflexivity.
Defined.

End SummaryFacts.

(** ** Extraction into reminders and events *)

Module ExtractionFacts.

Import Models Reminders PyFacts.

Section Facts.

Context `{Library}.

Lemma truthy_has_key (d : list (string * json)) (k : string) :
  py_truthy (dict_get d k JNull) = true ->
  assoc k d = Some (dict_get d k JNull).
Proof.
  unfold dict_get. destruct (assoc k d); [reflexivity | discriminate].
Qed.




Lemma event_of_dict (email : Email) (email_id : Z) (d : list (string * json)) :
  event_of email email_id (JDict d) =
  if negb (py_truthy (dict_get d "start_time" JNull)) then Ok None
  else
    start_time ← fromisoformat_of (dict_get d "start_time" JNull);
    default_end ← dt_add start_time (hours 1);
    end_time ← end_of d default_end;
    v_title ← py_index (JDict d) "title";
    mret (Some {|
      event_user_id := email_user_id email;
      event_title := v_title;
      event_description := dict_get d "description" (JStr "");
      start_time := start_time;
      end_time := end_time;
      location := dict_get d "location" JNull;
      attendees := dict_get d "attendees" (JList []);
      created_from_email := Some email_id |}).
Proof.
  unfold event_of, end_of. cbn [py_get mbind result_bind].
  destruct (py_truthy (dict_get d "start_time" JNull)) eqn:E; [|reflexivity].
  cbn [negb py_index]. rewrite (truthy_has_key _ _ E).
  cbn [mbind result_bind].
  destruct (fromisoformat_of (dict_get d "start_time" JNull)) as [st|];
    [|reflexivity].
  cbn [mbind result_bind].
  destruct (dt_add st (hours 1)) as [de|]; [|reflexivity].
  cbn [mbind result_bind].
  destruct (py_truthy (dict_get d "end_time" JNull)) eqn:E2; [|reflexivity].
  rewrite (truthy_has_key _ _ E2). reflexivity.
Qed.



(** An event without a start time adds nothing. *)
Lemma event_rows_unscheduled (email : Email) (email_id : Z)
    (d : list (string * json)) :
  py_truthy (dict_get d "start_time" JNull) = false ->
  event_rows email email_id (JDict d) = [].
Proof.
  intros E. unfold event_rows. rewrite event_of_dict, E. reflexivity.
Qed.


End Facts.


End ExtractionFacts.

(** ** Snoozed reminders *)

Module SnoozeFacts.

Import Models Reminders.

Section Facts.

Context `{Library} `{LLM.Provider}.
Variable settings : LLM.Settings.

Lemma fold_max_ge (keys : list Z) (a : Z) :
  a <= fold_left Z.max keys a /\
  forall k, In k keys -> k <= fold_left Z.max keys a.
Proof.
  revert a. induction keys as [|x keys IH]; intros a.
  - cbn. split; [lia | contradiction].
  - cbn [fold_left]. destruct (IH (Z.max a x)) as [Ha Hk].
    split; [lia|]. intros k [<-|Hin]; [lia | auto].
Qed.

(** The key of the next row is the key of no row. *)
Lemma next_reminder_pk_fresh (rs : gmap Z Reminder) :
  rs !! next_reminder_pk rs = None.
Proof.
  destruct (rs !! next_reminder_pk rs) as [r|] eqn:E; [|reflexivity].
  exfalso.
  assert (In (next_reminder_pk rs) (map fst (map_to_list rs))) as Hin.
  { apply in_map_iff. exists (next_reminder_pk rs, r). split; [reflexivity|].
    apply list_elem_of_In, elem_of_map_to_list, E. }
  apply (fold_max_ge _ 0) in Hin.
  unfold next_reminder_pk at 1 in Hin. unfold next_pk in Hin. lia.
Qed.

Lemma insert_reminder_keeps reminder_id r db :
  snoozed reminder_id db -> snoozed reminder_id (insert_reminder r db).
Proof.
  intros (r0 & Hr & Hs). exists r0. split; [|exact Hs].
  unfold insert_reminder, with_reminders. cbn [reminders].
  rewrite lookup_insert_ne; [exact Hr|].
  intros E. rewrite <- E, next_reminder_pk_fresh in Hr. discriminate.
Qed.

Lemma commit_keeps reminder_id (rows : list NewRow) :
  forall db, snoozed reminder_id db -> snoozed reminder_id (write rows db).
Proof.
  unfold write. induction rows as [|row rows IH]; intros db Hs; [exact Hs|].
  cbn [fold_left]. apply IH.
  destruct row as [r|e]; [apply insert_reminder_keeps, Hs | exact Hs].
Qed.

Lemma when_set_keeps {A} (field : option A) (set : A -> Reminder -> Reminder)
    (r : Reminder) :
  (forall v r, is_snoozed (set v r) = is_snoozed r) ->
  is_snoozed (when_set field set r) = is_snoozed r.
Proof. intros Hset. destruct field; [apply Hset | reflexivity]. Qed.

(** No assignment of [update_reminder] touches the flag. *)
Lemma apply_update_keeps now request r :
  is_snoozed (apply_update now request r) = is_snoozed r.
Proof.
  unfold apply_update.
  repeat (rewrite when_set_keeps; [|intros; reflexivity]). reflexivity.
Qed.

Lemma update_at_keeps reminder_id k (f : Reminder -> Reminder) (db : DB) r :
  (forall r, is_snoozed r = true -> is_snoozed (f r) = true) ->
  reminders db !! k = Some r ->
  snoozed reminder_id db ->
  snoozed reminder_id (with_reminders db (<[k := f r]> (reminders db))).
Proof.
  intros Hf Hk (r0 & Hr & Hs). unfold snoozed, with_reminders. cbn [reminders].
  destruct (decide (k = reminder_id)) as [->|Hne].
  - rewrite lookup_insert_eq. exists (f r). split; [reflexivity|].
    apply Hf. congruence.
  - rewrite lookup_insert_ne by exact Hne. eauto.
Qed.

(** Every operation but the deletion of the reminder leaves it stored
    with its flag set. *)
Lemma step_keeps reminder_id (a : action) (db : DB) :
  ~ deletes reminder_id a ->
  snoozed reminder_id db ->
  snoozed reminder_id (step settings db a).
Proof.
  intros Hnd Hs.
  destruct a as [request | now k request | k | now k | k until | utcnow email_id];
    cbn [step].
  - unfold create_reminder.
    destruct (dt_sub (c_due_date request) (hours 1)); cbn [snd];
      [apply insert_reminder_keeps, Hs | exact Hs].
  - unfold update_reminder.
    destruct (reminders db !! k) as [r|] eqn:Ek; cbn [snd]; [|exact Hs].
    apply (update_at_keeps reminder_id k (apply_update now request) db r);
      try assumption.
    intros r' Hr'. rewrite apply_update_keeps. exact Hr'.
  - unfold delete_reminder.
    destruct (reminders db !! k) as [r|] eqn:Ek; cbn [snd]; [|exact Hs].
    destruct Hs as (r0 & Hr & Hs). exists r0. split; [|exact Hs].
    unfold with_reminders. cbn [reminders].
    rewrite lookup_delete_ne; [exact Hr|]. exact Hnd.
  - unfold complete_reminder.
    destruct (reminders db !! k) as [r|] eqn:Ek; cbn [snd]; [|exact Hs].
    apply (update_at_keeps reminder_id k (set_completed true (Some now)) db r);
      try assumption.
    intros r' Hr'. exact Hr'.
  - unfold snooze_reminder.
    destruct (reminders db !! k) as [r|] eqn:Ek; cbn [snd]; [|exact Hs].
    apply (update_at_keeps reminder_id k (set_snoozed until) db r);
      try assumption.
    reflexivity.
  - rewrite LLMFacts.process_writes. apply commit_keeps, Hs.
Qed.

Lemma run_keeps reminder_id (actions : list action) :
  forall db,
    Forall (fun a => ~ deletes reminder_id a) actions ->
    snoozed reminder_id db ->
    snoozed reminder_id (run settings db actions).
Proof.
  induction actions as [|a rest IH]; intros db Hnd Hs; [exact Hs|].
  cbn [run fold_left]. apply Forall_cons in Hnd. destruct Hnd as [Ha Hrest].
  apply IH; [exact Hrest|]. apply step_keeps; assumption.
Qed.

Lemma select_spec (p : Reminder -> bool) (rs : gmap Z Reminder) k r :
  In (k, r) (select p rs) <-> rs !! k = Some r /\ p r = true.
Proof.
  unfold select. rewrite <- list_elem_of_In, elem_of_map_to_list.
  rewrite map_lookup_filter_Some. reflexivity.
Qed.

Lemma insert_by_due_in x y l : In y (insert_by_due x l) -> y = x \/ In y l.
Proof.
  induction l as [|z l IH]; cbn [insert_by_due].
  - intros [<-|[]]. left; reflexivity.
  - destruct (due_date (snd x) <? due_date (snd z)).
    + intros [<-|Hin]; [left; reflexivity | right; exact Hin].
    + intros [<-|Hin]; [right; left; reflexivity|].
      destruct (IH Hin) as [->|Hl]; [left; reflexivity | right; right; exact Hl].
Qed.

Lemma order_by_due_date_in y l : In y (order_by_due_date l) -> In y l.
Proof.
  unfold order_by_due_date. induction l as [|x l IH]; cbn [fold_right].
  - intros [].
  - intros Hin. destruct (insert_by_due_in _ _ _ Hin) as [->|Hl];
      [left; reflexivity | right; apply IH, Hl].
Qed.

Lemma overdue_not_snoozed now r : overdue now r = true -> is_snoozed r = false.
Proof.
  unfold overdue. intros Ho. apply andb_true_iff in Ho. destruct Ho as [_ Ho].
  destruct (is_snoozed r); [discriminate | reflexivity].
Qed.

Lemma upcoming_not_snoozed now future r :
  upcoming now future r = true -> is_snoozed r = false.
Proof.
  unfold upcoming. intros Ho. apply andb_true_iff in Ho. destruct Ho as [_ Ho].
  destruct (is_snoozed r); [discriminate | reflexivity].
Qed.

(** C10. Once a reminder has been snoozed, every run of operations that
    does not delete it leaves it stored with the flag set, and neither
    the overdue query nor the upcoming query returns it, whatever the
    time of the query and whatever the time it was snoozed until. *)
Theorem snoozed_stays_excluded (db : DB) (reminder_id : Z)
    (snooze_until_ : datetime) (actions : list action) :
  is_Some (reminders db !! reminder_id) ->
  Forall (fun a => ~ deletes reminder_id a) actions ->
  let db1 := snd (snooze_reminder reminder_id snooze_until_ db) in
  let db2 := run settings db1 actions in
  (exists r, reminders db1 !! reminder_id = Some r /\
             is_snoozed r = true /\ snooze_until r = Some snooze_until_) /\
  (exists r, reminders db2 !! reminder_id = Some r /\ is_snoozed r = true) /\
  (forall now r,
      ~ In (reminder_id, r) (listed (get_overdue_reminders now db2))) /\
  (forall now hours_ answer r,
      get_upcoming_reminders now hours_ db2 = Ok answer ->
      ~ In (reminder_id, r) (listed answer)).
Proof.
  intros [r0 Hr0] Hnd db1 db2.
  assert (exists r, reminders db1 !! reminder_id = Some r /\
                    is_snoozed r = true /\ snooze_until r = Some snooze_until_)
    as H1.
  { unfold db1, snooze_reminder. rewrite Hr0. cbn [snd with_reminders reminders].
    rewrite lookup_insert_eq. eexists. split; [reflexivity|]. split; reflexivity. }
  assert (snoozed reminder_id db2) as H2.
  { apply run_keeps; [exact Hnd|].
    destruct H1 as (r & Hr & Hs & _). exists r. auto. }
  split; [exact H1|]. split; [exact H2|].
  destruct H2 as (r2 & Hr2 & Hs2). split.
  - intros now r Hin. cbn [get_overdue_reminders listed] in Hin.
    apply select_spec in Hin. destruct Hin as [Hr Ho].
    apply overdue_not_snoozed in Ho. congruence.
  - intros now hours_ answer r Hq Hin. unfold get_upcoming_reminders in Hq.
    destruct (dt_add now (hours hours_)) as [future|]; [|discriminate].
    cbn in Hq. injection Hq as <-. cbn [listed] in Hin.
    apply order_by_due_date_in, select_spec in Hin. destruct Hin as [Hr Ho].
    apply upcoming_not_snoozed in Ho. congruence.
Qed.

End Facts.

(** C10 on an example: a reminder due at noon is snoozed until 13:00;
    another reminder is created, the first is completed and reopened; at
    14:00, past the time it was snoozed until, the overdue query does not
    return it. *)
Lemma snoozed_stays_excluded_example :
  let db := {| emails := []; reminders := {[ 1 := Examples.reminder ]};
               calendar_events := [] |} in
  let actions :=
    [Create {| c_title := "Call"; c_description := "";
               c_due_date := Calendar.at_time Examples.monday 9 0;
               c_type := "call"; c_priority := "high"; c_email_id := None |};
     Update (Calendar.at_time Examples.monday 13 30) 1
       {| u_title := None; u_description := None; u_due_date := None;
          u_priority := Some "high"; u_is_completed := Some false |}] in
  let db2 := @run Examples.library Examples.prose Examples.no_keys
               (snd (@snooze_reminder Examples.library 1
                       (Calendar.at_time Examples.monday 13 0) db)) actions in
  Forall (fun kr => fst kr <> 1)
         (listed (get_overdue_reminders
                    (Calendar.at_time Examples.monday 14 0) db2)).
Proof.
  intros db actions db2.
  destruct (@snoozed_stays_excluded Examples.library Examples.prose
              Examples.no_keys db 1 (Calendar.at_time Examples.monday 13 0)
              actions) as (_ & _ & Ho & _).
  - exists Examples.reminder. reflexivity.
  - repeat constructor; cbn; tauto.
  - apply Forall_forall. intros [k r] Hin Hk. cbn in Hk. subst k.
    apply list_elem_of_In in Hin. exact (Ho _ _ Hin).
Defined.

End SnoozeFacts.

(** ** Extraction into the tables *)

Module PersistFacts.

Import Models Reminders PyFacts ExtractionFacts.

Section Facts.
Context `{Library} `{LLM.Provider}.
Variable settings : LLM.Settings.







End Facts.


End PersistFacts.

(** ** The free-time scan *)

Module CalendarFacts.

Import Models Calendar PyFacts.

Lemma us_per_hour_pos : 0 < us_per_hour.
Proof. reflexivity. Qed.

(** The test of the [while] loop, read as a bound on the number of hours
    past 09:00. *)
Lemma slot_fits (duration : timedelta) (d : Z) (k : nat) :
  combine d 9 + hours (Z.of_nat k) + duration <= combine d 17
  <-> Z.of_nat k <= (hours 8 - duration) / us_per_hour.
Proof.
  pose proof us_per_hour_pos as Hpos.
  unfold combine, hours. split; intros Hle.
  - apply Z.div_le_lower_bound; [exact Hpos | lia].
  - pose proof (Z.mul_div_le (8 * us_per_hour - duration) us_per_hour Hpos).
    nia.
Qed.

(** The loop from the slot [k]: when it ends without raising, it has
    appended the free ones among the slots that were left. *)
Lemma scan_day_from (busy_events : list CalendarEvent) (duration : timedelta)
    (d : Z) (fuel : nat) :
  forall (k : nat) (acc res : list slot),
    scan_day fuel busy_events duration (combine d 17)
             (combine d 9 + hours (Z.of_nat k)) acc = Some (Ok res) ->
    res = (acc ++ List.filter (freeb busy_events)
                    (map (slot_at duration d)
                         (seq k (slots_per_day duration - k))))%list.
Proof.
  induction fuel as [|fuel IH]; intros k acc res Hscan; [discriminate|].
  cbn [scan_day] in Hscan.
  destruct (dt_add (combine d 9 + hours (Z.of_nat k)) duration) as [slot_end|]
    eqn:Eend; [|discriminate].
  apply PyFacts.dt_add_inv in Eend. destruct Eend as [-> _].
  destruct (combine d 9 + hours (Z.of_nat k) + duration <=? combine d 17) eqn:Efit.
  - apply Z.leb_le, slot_fits in Efit.
    destruct (dt_add (combine d 9 + hours (Z.of_nat k)) (hours 1)) as [next|]
      eqn:Enext; [|discriminate].
    apply PyFacts.dt_add_inv in Enext. destruct Enext as [-> _].
    replace (combine d 9 + hours (Z.of_nat k) + hours 1)
      with (combine d 9 + hours (Z.of_nat (S k))) in Hscan
      by (unfold hours; lia).
    apply IH in Hscan.
    assert (slots_per_day duration - k = S (slots_per_day duration - S k))%nat
      as -> by (unfold slots_per_day; lia).
    cbn [seq map List.filter].
    change (freeb busy_events (slot_at duration d k))
      with (negb (conflict busy_events (combine d 9 + hours (Z.of_nat k))
                    (combine d 9 + hours (Z.of_nat k) + duration))).
    rewrite Hscan.
    destruct (conflict busy_events (combine d 9 + hours (Z.of_nat k))
                (combine d 9 + hours (Z.of_nat k) + duration));
      cbn [negb]; [reflexivity | rewrite <- app_assoc; reflexivity].
  - injection Hscan as <-. apply Z.leb_gt in Efit.
    assert (slots_per_day duration - k = 0)%nat as ->.
    { unfold slots_per_day.
      destruct (decide (Z.of_nat k <= (hours 8 - duration) / us_per_hour))
        as [Hle|Hgt]; [apply (proj2 (slot_fits duration d k)) in Hle; lia | lia]. }
    cbn. rewrite app_nil_r. reflexivity.
Qed.

(** The loop of one day does not use up its fuel. *)
Lemma scan_day_fuel (busy_events : list CalendarEvent) (duration : timedelta)
    (d : Z) (fuel : nat) :
  forall (k : nat) (acc : list slot),
    (slots_per_day duration - k < fuel)%nat ->
    scan_day fuel busy_events duration (combine d 17)
             (combine d 9 + hours (Z.of_nat k)) acc <> None.
Proof.
  induction fuel as [|fuel IH]; intros k acc Hfuel; [lia|].
  cbn [scan_day].
  destruct (dt_add (combine d 9 + hours (Z.of_nat k)) duration) as [slot_end|]
    eqn:Eend; [|discriminate].
  apply PyFacts.dt_add_inv in Eend. destruct Eend as [-> _].
  destruct (combine d 9 + hours (Z.of_nat k) + duration <=? combine d 17) eqn:Efit;
    [|discriminate].
  apply Z.leb_le, slot_fits in Efit.
  destruct (dt_add (combine d 9 + hours (Z.of_nat k)) (hours 1)) as [next|]
    eqn:Enext; [|discriminate].
  apply PyFacts.dt_add_inv in Enext. destruct Enext as [-> _].
  replace (combine d 9 + hours (Z.of_nat k) + hours 1)
    with (combine d 9 + hours (Z.of_nat (S k))) by (unfold hours; lia).
  apply IH. unfold slots_per_day in *. lia.
Qed.

Lemma candidates_succ duration first n :
  candidates duration first (S n)
  = ((if weekday first <? 5 then day_candidates duration first else [])
     ++ candidates duration (first + 1) n)%list.
Proof.
  unfold candidates. cbn [seq flat_map].
  replace (first + Z.of_nat 0) with first by lia. f_equal.
  rewrite <- seq_shift, flat_map_concat_map, map_map, <- flat_map_concat_map.
  apply flat_map_ext. intros i.
  replace (first + Z.of_nat (S i)) with (first + 1 + Z.of_nat i) by lia.
  reflexivity.
Qed.

Lemma scan_days_spec (busy_events : list CalendarEvent) (duration : timedelta)
    (n : nat) :
  forall (first : Z) (acc res : list slot),
    scan_days n busy_events duration first acc = Some (Ok res) ->
    res = (acc ++ List.filter (freeb busy_events)
                    (candidates duration first n))%list.
Proof.
  induction n as [|n IH]; intros first acc res Hscan.
  - injection Hscan as <-. cbn. rewrite app_nil_r. reflexivity.
  - cbn [scan_days] in Hscan. rewrite candidates_succ, List.filter_app.
    destruct (weekday first <? 5).
    + destruct (scan_day (day_fuel duration) busy_events duration
                  (combine first 17) (combine first 9) acc)
        as [[today|]|] eqn:Eday; try discriminate.
      replace (combine first 9) with (combine first 9 + hours (Z.of_nat 0))
        in Eday by (unfold hours; lia).
      apply scan_day_from in Eday. rewrite Nat.sub_0_r in Eday.
      apply IH in Hscan. rewrite Hscan, Eday, <- app_assoc. reflexivity.
    + apply IH in Hscan. rewrite Hscan. reflexivity.
Qed.

Lemma scan_days_total (busy_events : list CalendarEvent) (duration : timedelta)
    (n : nat) :
  forall (first : Z) (acc : list slot),
    scan_days n busy_events duration first acc <> None.
Proof.
  induction n as [|n IH]; intros first acc; [discriminate|].
  cbn [scan_days].
  destruct (weekday first <? 5); [|apply IH].
  destruct (scan_day (day_fuel duration) busy_events duration
              (combine first 17) (combine first 9) acc)
    as [[today|]|] eqn:Eday; [apply IH | discriminate |].
  exfalso. revert Eday.
  replace (combine first 9) with (combine first 9 + hours (Z.of_nat 0))
    by (unfold hours; lia).
  apply scan_day_fuel. unfold day_fuel, slots_per_day. lia.
Qed.

(** The test of the code and the open-interval overlap agree. *)
Lemma freeb_free (busy_events : list CalendarEvent) (s : slot) :
  freeb busy_events s = true <-> free busy_events s.
Proof.
  unfold freeb, free, conflict, overlap. rewrite negb_true_iff.
  rewrite <- not_true_iff_false, existsb_exists. split.
  - intros Hno event Hin [Hlt Hgt]. apply Hno. exists event. split; [exact Hin|].
    unfold overlaps. rewrite Z.gtb_ltb.
    apply andb_true_iff. split; apply Z.ltb_lt; lia.
  - intros Hfree (event & Hin & Ho). apply (Hfree event Hin).
    unfold overlaps in Ho. rewrite Z.gtb_ltb in Ho.
    apply andb_true_iff in Ho. destruct Ho as [H1 H2].
    apply Z.ltb_lt in H1, H2. lia.
Qed.

(** A candidate is a slot of a weekday of the window that starts a whole
    number of hours after 09:00 and ends by 17:00. *)
Lemma candidates_shape (duration : timedelta) (first : Z) (n : nat) (s : slot) :
  In s (candidates duration first n) ->
  exists (d : Z) (k : nat),
    first <= d < first + Z.of_nat n /\ weekday d < 5 /\
    fst s = combine d 9 + hours (Z.of_nat k) /\
    snd s = fst s + duration /\
    snd s <= combine d 17 /\
    combine d 9 <= fst s /\
    (0 <= duration -> fst s <= snd s).
Proof.
  unfold candidates. rewrite in_flat_map. intros (i & Hi & Hs).
  apply in_seq in Hi.
  destruct (weekday (first + Z.of_nat i) <? 5) eqn:Ew; [|contradiction].
  apply Z.ltb_lt in Ew. unfold day_candidates in Hs.
  apply in_map_iff in Hs. destruct Hs as (k & <- & Hk). apply in_seq in Hk.
  exists (first + Z.of_nat i), k. cbn [slot_at fst snd].
  assert (Z.of_nat k <= (hours 8 - duration) / us_per_hour) as Hfit
    by (unfold slots_per_day in Hk; lia).
  apply (proj2 (slot_fits duration (first + Z.of_nat i) k)) in Hfit.
  repeat split; try lia.
  unfold hours. pose proof us_per_hour_pos. nia.
Qed.

Section Scan.

Variables (now : datetime) (duration_minutes days_ahead : Z).
Variables (events : list CalendarEvent).

Lemma local_free_time_total (user : option User) :
  exists answer,
    local_free_time now duration_minutes days_ahead user events = Some answer.
Proof.
  unfold local_free_time.
  destruct (dt_add now (days days_ahead)) as [end_time_|]; [|eauto].
  destruct (busy_query user now end_time_ events) as [busy_events|]; [|eauto].
  destruct (scan_days (Z.to_nat days_ahead) busy_events
              (minutes duration_minutes) (date_of now) [])
    as [[free_slots|]|] eqn:E; eauto.
  exfalso. revert E. apply scan_days_total.
Qed.

Lemma local_free_time_result (user : User) (slots : list slot) :
  local_free_time now duration_minutes days_ahead (Some user) events
  = Some (Ok slots) ->
  slots = firstn 10
            (List.filter
               (freeb (stored_busy user now (now + days days_ahead) events))
               (candidates (minutes duration_minutes) (date_of now)
                           (Z.to_nat days_ahead))).
Proof.
  unfold local_free_time, busy_query.
  destruct (dt_add now (days days_ahead)) as [end_time_|] eqn:Ee; [|discriminate].
  apply PyFacts.dt_add_inv in Ee. destruct Ee as [-> _].
  destruct (scan_days (Z.to_nat days_ahead)
              (stored_busy user now (now + days days_ahead) events)
              (minutes duration_minutes) (date_of now) [])
    as [[free_slots|]|] eqn:E; try discriminate.
  intros [= <-]. apply scan_days_spec in E. rewrite E. reflexivity.
Qed.

(** Without a user the query raises, whatever the window is. *)
Lemma local_free_time_without_user :
  exists e, local_free_time now duration_minutes days_ahead None events
            = Some (Raise e).
Proof.
  unfold local_free_time, busy_query.
  destruct (dt_add now (days days_ahead)) as [end_time_|e]; eauto.
Qed.

End Scan.

(** Within a day that is in range, and for a duration between nothing
    and eight hours, the loop of the day never raises. *)
Lemma scan_day_no_raise (busy_events : list CalendarEvent) (duration : timedelta)
    (d : Z) (fuel : nat) :
  0 <= d -> d + 1 <= max_ordinal -> 0 <= duration <= hours 8 ->
  forall (k : nat) (acc : list slot) e,
    Z.of_nat k <= (hours 8 - duration) / us_per_hour + 1 ->
    scan_day fuel busy_events duration (combine d 17)
             (combine d 9 + hours (Z.of_nat k)) acc <> Some (Raise e).
Proof.
  intros Hd Hm Hdur.
  pose proof us_per_hour_pos as Hpos.
  pose proof (Z.mul_div_le (hours 8 - duration) us_per_hour Hpos) as Hfloor.
  induction fuel as [|fuel IH]; intros k acc e Hk; [discriminate|].
  cbn [scan_day].
  rewrite PyFacts.dt_add_ok.
  2:{ unfold combine. rewrite <- !Z.add_assoc. apply in_range_day; try assumption.
      unfold hours in *. change us_per_day with (24 * us_per_hour). nia. }
  destruct (combine d 9 + hours (Z.of_nat k) + duration <=? combine d 17) eqn:Efit;
    [|discriminate].
  apply Z.leb_le, slot_fits in Efit.
  rewrite PyFacts.dt_add_ok.
  2:{ unfold combine. rewrite <- !Z.add_assoc. apply in_range_day; try assumption.
      unfold hours in *. change us_per_day with (24 * us_per_hour). nia. }
  replace (combine d 9 + hours (Z.of_nat k) + hours 1)
    with (combine d 9 + hours (Z.of_nat (S k))) by (unfold hours; lia).
  apply IH. lia.
Qed.

Lemma scan_days_no_raise (busy_events : list CalendarEvent) (duration : timedelta)
    (n : nat) :
  0 <= duration <= hours 8 ->
  forall (first : Z) (acc : list slot) e,
    0 <= first -> first + Z.of_nat n <= max_ordinal ->
    scan_days n busy_events duration first acc <> Some (Raise e).
Proof.
  intros Hdur. induction n as [|n IH]; intros first acc e Hf Hm; [discriminate|].
  cbn [scan_days].
  destruct (weekday first <? 5); [|apply IH; lia].
  destruct (scan_day (day_fuel duration) busy_events duration
              (combine first 17) (combine first 9) acc)
    as [[today|e']|] eqn:Eday; [apply IH; lia | | discriminate].
  exfalso. revert Eday.
  replace (combine first 9) with (combine first 9 + hours (Z.of_nat 0))
    by (unfold hours; lia).
  apply scan_day_no_raise; try assumption; try lia.
  pose proof us_per_hour_pos as Hpos.
  assert (0 <= (hours 8 - duration) / us_per_hour)
    by (apply Z.div_pos; lia).
  lia.
Qed.

(** For a valid time, a window that stays in range and a duration
    between nothing and eight hours, the scan answers with slots. *)
Lemma local_free_time_ok (now : datetime) (duration_minutes days_ahead : Z)
    (user : User) (events : list CalendarEvent) :
  in_range now = true ->
  in_range (now + days days_ahead) = true ->
  0 <= duration_minutes <= 480 ->
  exists slots,
    local_free_time now duration_minutes days_ahead (Some user) events
    = Some (Ok slots).
Proof.
  intros Hnow Hend Hdur.
  destruct (local_free_time_total now duration_minutes days_ahead events
              (Some user))
    as [[slots|e] Ha]; [eauto|].
  exfalso. revert Ha. unfold local_free_time, busy_query.
  rewrite (PyFacts.dt_add_ok _ _ Hend).
  destruct (scan_days (Z.to_nat days_ahead)
              (stored_busy user now (now + days days_ahead) events)
              (minutes duration_minutes) (date_of now) [])
    as [[free_slots|e']|] eqn:E; try discriminate.
  exfalso. revert E.
  apply in_range_inv in Hnow, Hend.
  pose proof (date_of_bounds now) as Hd.
  assert (0 < us_per_day) as Hpos by reflexivity.
  apply scan_days_no_raise.
  - unfold minutes, hours. change us_per_hour with (60 * us_per_minute).
    assert (0 < us_per_minute) by reflexivity. nia.
  - unfold date_of. apply Z.div_pos; lia.
  - destruct (Z.le_gt_cases days_ahead 0) as [Hle|Hgt].
    + rewrite Z2Nat.nonpos by exact Hle. unfold days in *. nia.
    + rewrite Z2Nat.id by lia. unfold days in *. nia.
Qed.

(** The overlap test on two slots of one day, given by their minutes. *)
Lemma conflict_one (d uid : Z) (a b x y : Z) :
  conflict [busy uid (at_time d 0 x) (at_time d 0 y)] (at_time d 0 a) (at_time d 0 b)
  = (a <? y) && (x <? b).
Proof.
  unfold conflict, existsb, overlaps, busy, at_time, combine, hours, minutes.
  cbn [start_time end_time]. rewrite orb_false_r, Z.gtb_ltb.
  assert (0 < us_per_minute) as Hpos by reflexivity.
  f_equal.
  - destruct (Z.ltb_spec a y), (Z.ltb_spec (d * us_per_day + 0 * us_per_hour + a * us_per_minute)
      (d * us_per_day + 0 * us_per_hour + y * us_per_minute)); try reflexivity; nia.
  - destruct (Z.ltb_spec x b), (Z.ltb_spec (d * us_per_day + 0 * us_per_hour + x * us_per_minute)
      (d * us_per_day + 0 * us_per_hour + b * us_per_minute)); try reflexivity; nia.
Qed.

Lemma at_time_minutes (d h m : Z) : at_time d h m = at_time d 0 (60 * h + m).
Proof.
  unfold at_time, combine, hours, minutes.
  change us_per_hour with (60 * us_per_minute). lia.
Qed.

Lemma slot_at_hour (d : Z) (k : nat) :
  slot_at (minutes 60) d k = hour_slot d (9 + Z.of_nat k).
Proof.
  unfold slot_at, hour_slot, at_time, combine, hours, minutes.
  change us_per_hour with (60 * us_per_minute). f_equal; lia.
Qed.

(** The scan of one weekday with a busy hour from 10:00 to 11:00. *)
Lemma free_hours_around_ten (d uid : Z) :
  weekday d < 5 ->
  List.filter (freeb [busy uid (at_time d 10 0) (at_time d 11 0)])
              (candidates (minutes 60) d 1)
  = [hour_slot d 9; hour_slot d 11; hour_slot d 12; hour_slot d 13;
     hour_slot d 14; hour_slot d 15; hour_slot d 16].
Proof.
  intros Hw. unfold candidates. cbn [seq flat_map].
  replace (d + Z.of_nat 0) with d by lia.
  apply Z.ltb_lt in Hw. rewrite Hw, app_nil_r.
  unfold day_candidates.
  change (slots_per_day (minutes 60)) with 8%nat. cbn [seq map].
  rewrite !slot_at_hour. cbn [Z.of_nat Pos.of_succ_nat Pos.succ Z.add Pos.add].
  unfold List.filter, freeb, hour_slot. cbn [fst snd].
  rewrite !(at_time_minutes d _ 0), !conflict_one.
  reflexivity.
Qed.

(** What the query keeps: the events of the user that start no earlier
    than now and end within the window. *)
Lemma stored_busy_spec (user : User) (now end_time_ : datetime)
    (events : list CalendarEvent) (event : CalendarEvent) :
  In event (stored_busy user now end_time_ events)
  <-> In event events /\ event_user_id event = user_pk user /\
      now <= start_time event /\ end_time event <= end_time_.
Proof.
  unfold stored_busy. rewrite <- !list_elem_of_In, list_elem_of_filter.
  rewrite !andb_true_iff, Z.geb_leb, !Z.leb_le, Z.eqb_eq. tauto.
Qed.

Lemma busy_query_keeps (user : User) (now : datetime) (uid : Z) :
  let d := date_of now in
  now <= at_time d 10 0 -> owns user uid ->
  stored_busy user now (now + days 1)
    [busy uid (at_time d 10 0) (at_time d 11 0)]
  = [busy uid (at_time d 10 0) (at_time d 11 0)].
Proof.
  intros d Hnow Hu. unfold stored_busy. rewrite filter_cons, filter_nil.
  rewrite decide_True; [reflexivity|].
  cbn [start_time end_time event_user_id busy].
  pose proof (date_of_bounds now) as Hd. fold d in Hd.
  apply andb_true_iff. split; [apply andb_true_iff; split|].
  - rewrite Z.geb_leb. apply Z.leb_le, Hnow.
  - apply Z.leb_le. unfold at_time, combine, hours, minutes, days in *.
    change us_per_day with (24 * us_per_hour) in *.
    pose proof us_per_hour_pos. lia.
  - unfold owns in Hu. apply Z.eqb_eq. lia.
Qed.

(** An event that has begun is not in the query. *)
Lemma busy_query_drops (user : User) (now : datetime) (uid : Z) (from to : datetime) :
  from < now ->
  stored_busy user now (now + days 1) [busy uid from to] = [].
Proof.
  intros Hlt. unfold stored_busy. rewrite filter_cons, filter_nil.
  rewrite decide_False; [reflexivity|].
  cbn [start_time end_time event_user_id busy].
  rewrite Z.geb_leb. destruct (Z.leb_spec now from); [lia|].
  cbn. discriminate.
Qed.

Lemma hour_slot_start (d h : Z) (m : Z) :
  9 <= h <= 16 -> h <> 10 -> 0 <= m < 60 ->
  fst (hour_slot d h) <> at_time d 10 m.
Proof.
  intros Hh Hne Hm. unfold hour_slot, at_time, combine, hours, minutes.
  cbn [fst]. change us_per_hour with (60 * us_per_minute).
  assert (0 < us_per_minute) by reflexivity. nia.
Qed.

Lemma in_firstn {A} (x : A) (n : nat) (l : list A) :
  In x (firstn n l) -> In x l.
Proof.
  revert l. induction n as [|n IH]; intros [|y l]; cbn; try tauto.
  intros [->|Hin]; [left; reflexivity | right; apply IH, Hin].
Qed.

Section Endpoint.

Context `{RemoteCalendar}.

(** Without a calendar token the endpoint answers what the local block
    computes. *)
Lemma find_free_time_local (now : datetime) (duration_minutes days_ahead : Z)
    (user : option User) (events : list CalendarEvent) :
  local_branch user = true ->
  find_free_time now duration_minutes days_ahead user events
  = match local_free_time now duration_minutes days_ahead user events with
    | None => None
    | Some (Ok free_slots) => Some (Http200 free_slots)
    | Some (Raise _) => Some (HTTPException 500 "Internal Server Error")
    end.
Proof.
  unfold find_free_time, local_branch. destruct user as [u|]; [|reflexivity].
  destruct (token_set (calendar_token u)); [discriminate | reflexivity].
Qed.

Lemma local_branch_without_token (user : User) :
  token_set (calendar_token user) = false -> local_branch (Some user) = true.
Proof. unfold local_branch. intros ->. reflexivity. Qed.

(** Without a user the request fails: the query of the local block
    raises, and nothing handles it. *)
Lemma find_free_time_without_user (now : datetime)
    (duration_minutes days_ahead : Z) (events : list CalendarEvent) :
  find_free_time now duration_minutes days_ahead None events
  = Some (HTTPException 500 "Internal Server Error").
Proof.
  rewrite find_free_time_local by reflexivity.
  destruct (local_free_time_without_user now duration_minutes days_ahead events)
    as [e ->].
  reflexivity.
Qed.

(** C9, as the code has it. For a user without a calendar token the scan
    always terminates; it answers with slots for a valid time, a window in
    range and a duration between nothing and eight hours. When it answers
    with slots, these are the first ten of the free slots of the window,
    in order. The window is made of the slots of the weekdays of the
    look-ahead days that start a whole number of hours after 09:00, at
    09:00 or later, and end by 17:00; for a duration that is not negative
    a slot ends no earlier than it starts. The busy intervals are the
    stored events of the user that start no earlier than the time of the
    request and end within the look-ahead days, and a slot of the window
    is rejected exactly when it overlaps one of them, that is when it
    starts before the interval ends and ends after the interval starts.
    In particular, on a weekday, asked no later than 10:00, over one day
    that stays in range, with one event of the user from 10:00 to 11:00
    and a duration of 60 minutes, the answer holds the slots of 09:00 and
    of 11:00 to 16:00, and no slot that starts at 10:00 or at 10:30. *)
Theorem free_time_scan (now : datetime) (duration_minutes days_ahead : Z)
    (user : User) (events : list CalendarEvent) :
  token_set (calendar_token user) = false ->
  let duration := minutes duration_minutes in
  let window := candidates duration (date_of now) (Z.to_nat days_ahead) in
  let busy_events := stored_busy user now (now + days days_ahead) events in
  (exists answer,
      find_free_time now duration_minutes days_ahead (Some user) events
      = Some answer) /\
  (in_range now = true -> in_range (now + days days_ahead) = true ->
   0 <= duration_minutes <= 480 ->
   exists slots,
     find_free_time now duration_minutes days_ahead (Some user) events
     = Some (Http200 slots)) /\
  (forall slots,
      find_free_time now duration_minutes days_ahead (Some user) events
      = Some (Http200 slots) ->
      slots = firstn 10 (List.filter (freeb busy_events) window) /\
      (length slots <= 10)%nat /\
      forall s, In s slots -> In s window /\ free busy_events s) /\
  (forall s, In s window ->
      (In s (List.filter (freeb busy_events) window) <-> free busy_events s)) /\
  (forall event,
      In event busy_events <->
      In event events /\ event_user_id event = user_pk user /\
      now <= start_time event /\ end_time event <= now + days days_ahead) /\
  (forall s, In s window ->
      exists (d : Z) (k : nat),
        date_of now <= d < date_of now + Z.of_nat (Z.to_nat days_ahead) /\
        weekday d < 5 /\
        fst s = combine d 9 + hours (Z.of_nat k) /\
        snd s = fst s + duration /\
        snd s <= combine d 17 /\
        combine d 9 <= fst s /\
        (0 <= duration -> fst s <= snd s)) /\
  (forall uid,
      let d := date_of now in
      weekday d < 5 ->
      in_range now = true -> in_range (now + days 1) = true ->
      now <= at_time d 10 0 -> owns user uid ->
      exists slots,
        find_free_time now 60 1 (Some user)
          [busy uid (at_time d 10 0) (at_time d 11 0)]
        = Some (Http200 slots) /\
        slots = [hour_slot d 9; hour_slot d 11; hour_slot d 12; hour_slot d 13;
                 hour_slot d 14; hour_slot d 15; hour_slot d 16] /\
        In (hour_slot d 9) slots /\ In (hour_slot d 11) slots /\
        forall s, In s slots ->
                  fst s <> at_time d 10 0 /\ fst s <> at_time d 10 30).
Proof.
  intros Htoken duration window busy_events.
  pose proof (local_branch_without_token user Htoken) as Hlocal.
  split; [|split; [|split; [|split; [|split; [|split]]]]].
  - rewrite find_free_time_local by exact Hlocal.
    destruct (local_free_time_total now duration_minutes days_ahead events
                (Some user))
      as [[slots|e] ->]; eauto.
  - intros Hnow Hend Hdur. rewrite find_free_time_local by exact Hlocal.
    destruct (local_free_time_ok now duration_minutes days_ahead user events
                Hnow Hend Hdur) as [slots ->]. eauto.
  - intros slots Hs. rewrite find_free_time_local in Hs by exact Hlocal.
    destruct (local_free_time now duration_minutes days_ahead (Some user) events)
      as [[free_slots|e]|] eqn:El; try discriminate.
    injection Hs as ->. apply local_free_time_result in El.
    fold duration window busy_events in El. split; [exact El|]. split.
    + rewrite El, length_firstn. lia.
    + intros s Hin. rewrite El in Hin. apply in_firstn, filter_In in Hin.
      destruct Hin as [Hw Hf]. split; [exact Hw | apply freeb_free, Hf].
  - intros s Hw. rewrite filter_In, freeb_free. tauto.
  - intros event. apply stored_busy_spec.
  - intros s Hw. apply candidates_shape, Hw.
  - intros uid d Hday Hnow Hend Hten Hu. subst d.
    rewrite find_free_time_local by exact Hlocal.
    destruct (local_free_time_ok now 60 1 user
                [busy uid (at_time (date_of now) 10 0) (at_time (date_of now) 11 0)]
                Hnow Hend)
      as [slots Hs]; [lia|].
    rewrite Hs.
    pose proof (local_free_time_result _ _ _ _ _ _ Hs) as Hr.
    rewrite (busy_query_keeps user now uid Hten Hu) in Hr.
    change (Z.to_nat 1) with 1%nat in Hr.
    rewrite (free_hours_around_ten (date_of now) uid Hday) in Hr.
    cbn [firstn] in Hr.
    exists slots. split; [reflexivity|]. split; [exact Hr|]. rewrite Hr.
    split; [cbn; tauto|]. split; [cbn; tauto|].
    intros s Hin. cbn [In] in Hin.
    split;
      (destruct Hin as [<-|[<-|[<-|[<-|[<-|[<-|[<-|[]]]]]]]];
       apply hour_slot_start; lia).
Qed.

End Endpoint.

(** C9, refuted as stated: Monday 2024-01-15, a user without a calendar
    token who has one event from 10:00 to 11:00, asked at 10:15 for slots
    of 60 minutes over one day. The event has begun, so the query leaves
    it out, and the slot of 10:00 is offered. *)
Lemma busy_slot_is_offered :
  let d := Examples.monday in
  @find_free_time Examples.unreachable (at_time d 10 15) 60 1
    (Some Examples.user) [busy 1 (at_time d 10 0) (at_time d 11 0)]
  = Some (Http200 [hour_slot d 9; hour_slot d 10; hour_slot d 11;
                   hour_slot d 12; hour_slot d 13; hour_slot d 14;
                   hour_slot d 15; hour_slot d 16]).
Proof. vm_compute. reflexivity. Qed.

(** C9 on an example: Monday 2024-01-15 at 08:00, a user without a
    calendar token, one busy hour of that user from 10:00. *)
Lemma free_time_scan_example :
  let d := Examples.monday in
  @find_free_time Examples.unreachable (at_time d 8 0) 60 1 (Some Examples.user)
    [busy 1 (at_time d 10 0) (at_time d 11 0)]
  = Some (Http200 [hour_slot d 9; hour_slot d 11; hour_slot d 12; hour_slot d 13;
                   hour_slot d 14; hour_slot d 15; hour_slot d 16]).
Proof.
  intros d.
  destruct (@free_time_scan Examples.unreachable (at_time d 8 0) 60 1
              Examples.user [] eq_refl) as (_ & _ & _ & _ & _ & _ & Hex).
  destruct (Hex 1) as (slots & Hs & Hl & _).
  - vm_compute. reflexivity.
  - vm_compute. reflexivity.
  - vm_compute. reflexivity.
  - vm_compute. discriminate.
  - reflexivity.
  - change (date_of (at_time d 8 0)) with d in Hs, Hl. rewrite Hs, Hl. reflexivity.
Defined.

End CalendarFacts.

(** ** The analyzer: case and keywords *)

Module AnalyzerFacts.

Import Regex NLP NLPFacts StringFacts.

Lemma eqb_question_lower (c : ascii) :
  Ascii.eqb "?" (lower_char c) = Ascii.eqb "?" c.
Proof. destruct c as [[] [] [] [] [] [] [] []]; reflexivity. Qed.

Lemma count_question_lower (t : string) : count "?" (lower t) = count "?" t.
Proof.
  induction t as [|c t IH]; [reflexivity|].
  cbn [lower count]. rewrite eqb_question_lower, IH. reflexivity.
Qed.

(** The score before the clamp, from the keywords present. *)
Lemma urgency_score_formula (text : string) :
  (calculate_urgency_score text == urgency_spec text)%Q.
Proof.
  unfold calculate_urgency_score, urgency_spec.
  rewrite fmax_Qmax, fmin_Qmin, fmin_Qmin.
  rewrite pattern_loop_eq, keyword_loop_eq.
  apply Q.max_compat; [reflexivity|].
  apply Q.min_compat; [reflexivity|].
  apply Qplus_comp; [ring|].
  apply Q.min_compat; [ring | reflexivity].
Qed.

Lemma count_nonneg (c : ascii) (s : string) : 0 <= count c s.
Proof.
  induction s as [|d s IH]; cbn [count]; [lia|].
  destruct (Ascii.eqb c d); lia.
Qed.

Lemma question_bonus_nonneg (text : string) :
  (0 <= Qmin (0.5 * inject_Z (count "?" text)) 2)%Q.
Proof.
  apply Q.min_glb; [|lra].
  pose proof (count_nonneg "?" text) as Hc.
  rewrite Zle_Qle in Hc. change (inject_Z 0) with 0%Q in Hc. lra.
Qed.

Lemma clamp_below (x : Q) (b : Q) :
  (1 < b)%Q -> (b <= 10)%Q -> (b <= Qmax 1 (Qmin 10 x))%Q <-> (b <= x)%Q.
Proof.
  intros H1 H10. split; intros Hb.
  - apply Q.max_le in Hb. destruct Hb as [Hb|Hb]; [lra|].
    pose proof (Q.le_min_r 10 x). lra.
  - apply Qle_trans with (Qmin 10 x); [|apply Q.le_max_r].
    apply Q.min_glb; assumption.
Qed.

(** X1. Two texts that differ only in the case of their letters get the
    same urgency score and the same priority: the keywords and the
    patterns are looked for in the lowered text, and lowering a text
    leaves its question marks as they are. *)
Theorem urgency_ignores_case (t1 t2 : string) :
  lower t1 = lower t2 ->
  calculate_urgency_score t1 = calculate_urgency_score t2 /\
  classify_priority t1 = classify_priority t2.
Proof.
  intros Hl.
  assert (calculate_urgency_score t1 = calculate_urgency_score t2) as Hs.
  { unfold calculate_urgency_score. rewrite Hl.
    rewrite <- (count_question_lower t1), <- (count_question_lower t2), Hl.
    reflexivity. }
  split; [exact Hs|].
  unfold classify_priority. rewrite Hs. reflexivity.
Qed.

Lemma urgency_ignores_case_example :
  lower "URGENT: Meeting Today?" = lower "urgent: meeting today?" /\
  calculate_urgency_score "URGENT: Meeting Today?"
  = calculate_urgency_score "urgent: meeting today?" /\
  classify_priority "URGENT: Meeting Today?"
  = classify_priority "urgent: meeting today?".
Proof.
  split; [reflexivity|].
  apply (urgency_ignores_case "URGENT: Meeting Today?" "urgent: meeting today?").
  reflexivity.
Defined.

(** X2. What the keywords alone decide about the priority. With H, M and
    L the numbers of high, medium and low keywords present: the priority
    is one of the three labels; it is "low" only if L >= 2H + M + 2, so at
    least two low keywords are needed; and it is "high" as soon as
    2H + M >= L + 2, whatever the patterns and the question marks. *)
Theorem priority_from_keywords (text : string) :
  let present := fun keyword => contains keyword (lower text) in
  let H := how_many present high_keywords in
  let M := how_many present medium_keywords in
  let L := how_many present low_keywords in
  In (classify_priority text) ["high"; "medium"; "low"] /\
  (classify_priority text = "low" -> 2 * H + M + 2 <= L) /\
  (L + 2 <= 2 * H + M -> classify_priority text = "high").
Proof.
  intros present H M L.
  pose proof (urgency_score_formula text) as Heq.
  pose proof (question_bonus_nonneg text) as Hq.
  pose proof (how_many_nonneg (fun p => search p (lower text)) time_patterns) as Hp.
  rewrite Zle_Qle in Hp. change (inject_Z 0) with 0%Q in Hp.
  unfold urgency_spec in Heq. fold present in Heq. fold H M L in Heq.
  set (raw := (5 + 2 * inject_Z H + 1 * inject_Z M - 1 * inject_Z L
               + 1.5 * inject_Z (how_many (fun p => search p (lower text)) time_patterns)
               + Qmin (0.5 * inject_Z (count "?" text)) 2)%Q) in Heq.
  assert (forall b, (1 < b)%Q -> (b <= 10)%Q ->
            Qle_bool b (calculate_urgency_score text) = true <-> (b <= raw)%Q) as Hb.
  { intros b H1 H10. rewrite Qle_bool_iff, Heq. apply clamp_below; assumption. }
  unfold classify_priority.
  destruct (Qle_bool 7 (calculate_urgency_score text)) eqn:E7;
    [|destruct (Qle_bool 4 (calculate_urgency_score text)) eqn:E4].
  - split; [cbn; tauto|]. split; [discriminate | reflexivity].
  - split; [cbn; tauto|]. split; [discriminate|].
    intros Hk. exfalso.
    assert (~ (7 <= raw)%Q) as Hn by (rewrite <- Hb, E7 by lra; discriminate).
    apply Hn. rewrite Zle_Qle in Hk.
    rewrite !inject_Z_plus, !inject_Z_mult in Hk.
    change (inject_Z 2) with 2%Q in Hk. subst raw. lra.
  - split; [cbn; tauto|]. split.
    + intros _.
      assert (~ (4 <= raw)%Q) as Hn by (rewrite <- Hb, E4 by lra; discriminate).
      destruct (Z_le_gt_dec (2 * H + M + 2) L) as [|Hgt]; [assumption|].
      exfalso. apply Hn.
      assert (L <= 2 * H + M + 1) as Hk by lia.
      rewrite Zle_Qle in Hk.
      rewrite !inject_Z_plus, !inject_Z_mult in Hk.
      change (inject_Z 2) with 2%Q in Hk. change (inject_Z 1) with 1%Q in Hk.
      subst raw. lra.
    + intros Hk. exfalso.
      assert (~ (7 <= raw)%Q) as Hn by (rewrite <- Hb, E7 by lra; discriminate).
      apply Hn. rewrite Zle_Qle in Hk.
      rewrite !inject_Z_plus, !inject_Z_mult in Hk.
      change (inject_Z 2) with 2%Q in Hk. subst raw. lra.
Qed.

End AnalyzerFacts.

(** ** Reconciliation: the rows and the keys *)

Module ReconcileFacts.

Import Models NLP Sync SyncFacts.

Section Facts.

Context `{Library} `{LLM.Provider} `{Mailbox}.
Variable settings : LLM.Settings.

Lemma next_pk_fresh (keys : list Z) : ~ In (next_pk keys) keys.
Proof.
  intros Hin. pose proof (SnoozeFacts.fold_max_ge keys 0) as [_ Hge].
  specialize (Hge _ Hin). unfold next_pk in Hge. lia.
Qed.

Lemma app_one_neq {A} (l : list A) (x : A) : l <> (l ++ [x])%list.
Proof.
  intros E. apply (f_equal length) in E. rewrite length_app in E.
  cbn in E. lia.
Qed.

Lemma priority_label (text : string) :
  In (classify_priority text) ["high"; "medium"; "low"].
Proof.
  unfold classify_priority.
  destruct (Qle_bool 7 _); [cbn; tauto|].
  destruct (Qle_bool 4 _); cbn; tauto.
Qed.

Lemma urgency_in_range (text : string) :
  (1 <= calculate_urgency_score text <= 10)%Q.
Proof.
  rewrite AnalyzerFacts.urgency_score_formula. apply NLPFacts.clamp_range.
Qed.

(** What a turn that inserts puts in the row. *)
Lemma reconcile_row (user_id : Z) (now : datetime) (emails : list Email)
    (g : GmailEmail) (row : Email) :
  reconcile settings user_id now emails g = (emails ++ [row])%list ->
  exists label t,
    classify_category (g_subject g +:+ " " +:+ g_body g) = Some label /\
    fromisoformat (replace "Z" "+00:00" (g_timestamp g)) = Ok t /\
    row = {|
      email_pk := next_pk (map email_pk emails);
      gmail_id := g_gmail_id g;
      email_user_id := user_id;
      sender := g_sender g;
      recipient := g_recipient g;
      subject := g_subject g;
      body := g_body g;
      html_body := g_html_body g;
      timestamp := t;
      is_read := false;
      has_attachment := g_has_attachment g;
      thread_id := g_thread_id g;
      priority := classify_priority (g_subject g +:+ " " +:+ g_body g);
      category := label;
      sentiment := sentiment_label (g_subject g +:+ " " +:+ g_body g);
      urgency_score := calculate_urgency_score (g_subject g +:+ " " +:+ g_body g);
      is_processed := true;
      processed_at := Some now |}.
Proof.
  unfold reconcile, process_email, analyze_email.
  destruct (email_by_gmail_id emails (g_gmail_id g)) as [existing|].
  { cbn. intros E. exfalso. exact (app_one_neq _ _ E). }
  destruct (NLPFacts.classify_category_total (g_subject g +:+ " " +:+ g_body g))
    as (label & Hl).
  rewrite Hl. cbn [mbind result_bind].
  destruct (fromisoformat (replace "Z" "+00:00" (g_timestamp g))) as [t|e] eqn:Et.
  - cbn. intros E. apply app_inv_head in E. injection E as <-.
    exists label, t. split; [reflexivity|]. split; reflexivity.
  - cbn. intros E. exfalso. exact (app_one_neq _ _ E).
Qed.

(** X3. The row a turn of the reconciliation inserts: it carries the
    external id, the thread, the sender, the recipient, the subject and
    the bodies of the fetched message and the user it was fetched for; its
    timestamp is the parsed date of the message; it is unread, marked as
    processed at the time of the turn; its urgency lies in [1, 10], its
    priority is the one the urgency thresholds give for subject and body,
    its category is one of the four labels; and its key is new. *)
Theorem inserted_row_invariants (user_id : Z) (now : datetime)
    (emails : list Email) (g : GmailEmail) (row : Email) :
  reconcile settings user_id now emails g = (emails ++ [row])%list ->
  (gmail_id row = g_gmail_id g /\ thread_id row = g_thread_id g /\
   email_user_id row = user_id /\
   sender row = g_sender g /\ recipient row = g_recipient g /\
   subject row = g_subject g /\ body row = g_body g /\
   html_body row = g_html_body g /\
   has_attachment row = g_has_attachment g) /\
  fromisoformat (replace "Z" "+00:00" (g_timestamp g)) = Ok (timestamp row) /\
  (is_read row = false /\ is_processed row = true /\
   processed_at row = Some now) /\
  ((1 <= urgency_score row <= 10)%Q /\
   urgency_score row = calculate_urgency_score (subject row +:+ " " +:+ body row) /\
   priority row = classify_priority (subject row +:+ " " +:+ body row) /\
   In (priority row) ["high"; "medium"; "low"] /\
   In (category row) labels) /\
  ~ In (email_pk row) (map email_pk emails).
Proof.
  intros E. destruct (reconcile_row _ _ _ _ _ E) as (label & t & Hl & Ht & ->).
  cbn [gmail_id thread_id email_user_id sender recipient subject body html_body
       has_attachment timestamp is_read is_processed processed_at urgency_score
       priority category email_pk].
  split; [repeat split|]. split; [exact Ht|]. split; [repeat split|].
  split; [|apply next_pk_fresh].
  split; [apply urgency_in_range|]. split; [reflexivity|].
  split; [reflexivity|]. split; [apply priority_label|].
  destruct (NLPFacts.classify_category_argmax (g_subject g +:+ " " +:+ g_body g))
    as (label' & Hl' & Harg & _).
  rewrite Hl in Hl'. injection Hl' as ->.
  eapply NLPFacts.first_argmax_label, Harg.
Qed.

Lemma reconcile_keys (user_id : Z) (now : datetime) (emails : list Email)
    (g : GmailEmail) :
  NoDup (map email_pk emails) ->
  NoDup (map email_pk (reconcile settings user_id now emails g)).
Proof.
  intros Hd.
  destruct (reconcile_cases settings user_id now emails g)
    as [(_ & ->) | [(_ & _ & ->) | (_ & _ & row & E & _)]]; try exact Hd.
  rewrite E. destruct (reconcile_row _ _ _ _ _ E) as (label & t & _ & _ & ->).
  rewrite map_app. cbn [map email_pk].
  apply NoDup_app. split; [exact Hd|]. split.
  - intros k Hk Hk'. apply list_elem_of_In in Hk.
    apply list_elem_of_In in Hk'. destruct Hk' as [<-|[]].
    exact (next_pk_fresh _ Hk).
  - apply NoDup_singleton.
Qed.

Lemma process_keys utcnow (batch : list GmailEmail) :
  forall (i : nat) user_id (emails : list Email),
    NoDup (map email_pk emails) ->
    NoDup (map email_pk (process_emails_from settings utcnow i batch user_id emails)).
Proof.
  induction batch as [|g rest IH]; intros i user_id emails Hd; [exact Hd|].
  cbn [process_emails_from]. apply IH, reconcile_keys, Hd.
Qed.

Lemma known_in (emails : list Email) (id : string) :
  known emails id = true <-> In id (map gmail_id emails).
Proof.
  unfold known. rewrite existsb_exists, in_map_iff.
  split; intros (e & Ha & Hb).
  - exists e. apply String.eqb_eq in Hb. tauto.
  - exists e. split; [tauto|]. apply String.eqb_eq. tauto.
Qed.

(** X4. Reconciliation keeps the keys of the table unique: if no two rows
    share an external id and no two share a primary key before a batch,
    the same holds after it, whatever the batch holds (the same id twice,
    ids already stored, items that fail). *)
Theorem reconciliation_keeps_keys_unique utcnow (batch : list GmailEmail)
    (user_id : Z) (emails : list Email) :
  NoDup (map gmail_id emails) ->
  NoDup (map email_pk emails) ->
  NoDup (map gmail_id (process_emails settings utcnow batch user_id emails)) /\
  NoDup (map email_pk (process_emails settings utcnow batch user_id emails)).
Proof.
  intros Hg Hk. split; [|apply process_keys, Hk].
  unfold process_emails.
  destruct (process_appends settings utcnow batch 0%nat user_id emails)
    as (news & -> & Hn & _ & Hd).
  rewrite map_app. apply NoDup_app. split; [exact Hg|]. split; [|exact Hd].
  intros id Hin Hin'. apply list_elem_of_In in Hin, Hin'.
  apply in_map_iff in Hin'. destruct Hin' as (row & <- & Hrow).
  rewrite Forall_forall in Hn. apply list_elem_of_In, Hn in Hrow.
  apply known_in in Hin. congruence.
Qed.

Lemma known_after_turn (user_id : Z) (now : datetime) (emails : list Email)
    (g : GmailEmail) (id : string) :
  known (reconcile settings user_id now emails g) id = true <->
  known emails id = true \/ (g_gmail_id g = id /\ maps_fields g = true).
Proof.
  destruct (reconcile_cases settings user_id now emails g)
    as [(K & ->) | [(K & M & ->) | (K & M & row & -> & Hid)]].
  - split; [tauto|]. intros [Hk|(<- & _)]; assumption.
  - split; [tauto|]. intros [Hk|(_ & M')]; [assumption | congruence].
  - rewrite known_app, orb_true_iff. unfold known at 2. cbn [existsb].
    rewrite orb_false_r, String.eqb_eq, Hid. tauto.
Qed.

Lemma known_after_from utcnow (batch : list GmailEmail) :
  forall (i : nat) user_id (emails : list Email) (id : string),
    known (process_emails_from settings utcnow i batch user_id emails) id = true <->
    known emails id = true \/
    exists g, In g batch /\ g_gmail_id g = id /\ maps_fields g = true.
Proof.
  induction batch as [|g rest IH]; intros i user_id emails id.
  - cbn. split; [tauto|]. intros [Hk|(g & [] & _)]. exact Hk.
  - cbn [process_emails_from]. rewrite IH, known_after_turn. split.
    + intros [[Hk|(Hg & Hm)]|(g' & Hin & Hg & Hm)].
      * left; exact Hk.
      * right. exists g. cbn. tauto.
      * right. exists g'. cbn. tauto.
    + intros [Hk|(g' & [<-|Hin] & Hg & Hm)].
      * left; left; exact Hk.
      * left; right. tauto.
      * right. exists g'. tauto.
Qed.

(** X5. Which external ids are stored after a batch: those stored before
    it, and those of the batch items whose field mapping succeeds. So the
    order of the items, the clock and the user do not change which ids end
    up stored: two batches with the same items give the same stored ids. *)
Theorem stored_ids_after_batch utcnow (batch : list GmailEmail)
    (user_id : Z) (emails : list Email) :
  (forall id,
     known (process_emails settings utcnow batch user_id emails) id = true <->
     known emails id = true \/
     exists g, In g batch /\ g_gmail_id g = id /\ maps_fields g = true) /\
  (forall utcnow' batch' user_id',
     (forall g, In g batch <-> In g batch') ->
     forall id,
       known (process_emails settings utcnow batch user_id emails) id
       = known (process_emails settings utcnow' batch' user_id' emails) id).
Proof.
  split; [intros id; apply known_after_from|].
  intros utcnow' batch' user_id' Hsame id.
  apply eq_true_iff_eq. unfold process_emails. rewrite !known_after_from.
  split; (intros [Hk|(g & Hin & Hg)]; [left; exact Hk|]);
    right; exists g; (split; [apply Hsame, Hin | exact Hg]).
Qed.

End Facts.

(** A new message is reconciled with a table that holds another one. *)
Lemma inserted_row_invariants_example :
  exists row,
    @reconcile Examples.library Examples.prose Examples.no_keys
      1 (Examples.clock 0) [Examples.stored 1 "A"]
      (Examples.message "B" "2024-01-15T10:00:00Z")
    = ([Examples.stored 1 "A"] ++ [row])%list /\
    gmail_id row = "B" /\ is_processed row = true /\
    ~ In (email_pk row) [1].
Proof.
  eexists. split; [vm_compute; reflexivity|].
  destruct (@inserted_row_invariants Examples.library Examples.prose
              Examples.no_keys 1 (Examples.clock 0) [Examples.stored 1 "A"]
              (Examples.message "B" "2024-01-15T10:00:00Z") _
              ltac:(vm_compute; reflexivity))
    as ((Hid & _) & _ & (_ & Hp & _) & _ & Hk).
  split; [exact Hid|]. split; [exact Hp | exact Hk].
Defined.

Lemma reconciliation_keeps_keys_unique_example :
  let batch := [Examples.message "B" "2024-01-15T10:00:00Z";
                Examples.message "B" "2024-01-16T10:00:00Z";
                Examples.message "A" "2024-01-15T10:00:00Z"] in
  let after := @process_emails Examples.library Examples.prose Examples.no_keys
                 Examples.clock batch 1 [Examples.stored 1 "A"] in
  NoDup (map gmail_id after) /\ NoDup (map email_pk after).
Proof.
  intros batch after.
  apply (@reconciliation_keeps_keys_unique Examples.library Examples.prose
           Examples.no_keys Examples.clock batch 1 [Examples.stored 1 "A"]).
  - apply NoDup_singleton.
  - apply NoDup_singleton.
Defined.

End ReconcileFacts.

(** ** Reminders: the queries and the life of a reminder *)

Module ReminderFacts.

Import Models Reminders Query ReminderQueries SnoozeFacts PyFacts.

Lemma insert_by_due_perm x l : Permutation (insert_by_due x l) (x :: l).
Proof.
  induction l as [|y l IH]; cbn [insert_by_due]; [reflexivity|].
  destruct (due_date (snd x) <? due_date (snd y)); [reflexivity|].
  rewrite IH. apply perm_swap.
Qed.

Lemma order_by_due_date_perm l : Permutation (order_by_due_date l) l.
Proof.
  unfold order_by_due_date. induction l as [|x l IH]; cbn [fold_right]; [reflexivity|].
  rewrite insert_by_due_perm, IH. reflexivity.
Qed.

Lemma insert_by_due_sorted x l :
  StronglySorted by_due l -> StronglySorted by_due (insert_by_due x l).
Proof.
  induction l as [|y l IH]; cbn [insert_by_due]; intros Hs.
  - repeat constructor.
  - apply StronglySorted_inv in Hs. destruct Hs as [Hl Hy].
    destruct (due_date (snd x) <? due_date (snd y)) eqn:E.
    + apply Z.ltb_lt in E. constructor; [constructor; assumption|].
      constructor; [unfold by_due; lia|].
      eapply List.Forall_impl; [|exact Hy]. cbv beta. unfold by_due. intros; lia.
    + apply Z.ltb_ge in E. constructor; [apply IH, Hl|].
      apply List.Forall_forall. intros z Hz.
      apply (Permutation_in _ (insert_by_due_perm x l)) in Hz.
      destruct Hz as [<-|Hz]; [exact E|].
      rewrite List.Forall_forall in Hy. apply Hy, Hz.
Qed.

Lemma order_by_due_date_sorted l : StronglySorted by_due (order_by_due_date l).
Proof.
  unfold order_by_due_date. induction l as [|x l IH]; cbn [fold_right].
  - constructor.
  - apply insert_by_due_sorted, IH.
Qed.

Lemma order_by_due_date_iff y l : In y (order_by_due_date l) <-> In y l.
Proof.
  split; apply Permutation_in; [|symmetry]; apply order_by_due_date_perm.
Qed.

Lemma select_keys (p : Reminder -> bool) (rs : gmap Z Reminder) :
  NoDup (map fst (select p rs)).
Proof.
  unfold select. change (map fst ?l) with (l.*1).
  apply NoDup_fst_map_to_list.
Qed.

Lemma overdue_spec now r :
  overdue now r = true <-> open r /\ due_date r < now.
Proof.
  unfold overdue, open. rewrite !andb_true_iff, Z.ltb_lt.
  destruct (is_completed r), (is_snoozed r); cbn; intuition discriminate.
Qed.

Lemma upcoming_spec now future r :
  upcoming now future r = true <-> open r /\ now <= due_date r <= future.
Proof.
  unfold upcoming, open. rewrite !andb_true_iff, !Z.leb_le.
  destruct (is_completed r), (is_snoozed r); cbn; intuition discriminate.
Qed.

Lemma column_is_spec (v : json) (s : string) : column_is v s = true <-> v = JStr s.
Proof.
  destruct v; cbn; try (split; [discriminate | congruence]).
  rewrite String.eqb_eq. split; [congruence | intros [= ->]; reflexivity].
Qed.

Lemma given_spec (field : option string) (s : string) :
  given field = Some s <-> field = Some s /\ s <> "".
Proof.
  unfold given. destruct field as [s'|]; [|split; [discriminate | intros [[=] _]]].
  destruct s' as [|c s']; cbn.
  - split; [discriminate|]. intros [[= <-] Hne]. congruence.
  - split; [intros [= <-]; split; [reflexivity | discriminate] | intros [E _]; exact E].
Qed.

Lemma given_none (field : option string) :
  given field = None <-> forall s, field = Some s -> s = "".
Proof.
  unfold given. destruct field as [[|c s']|]; cbn.
  - split; [intros _ s [= <-]; reflexivity | reflexivity].
  - split; [discriminate|]. intros Hs. specialize (Hs _ eq_refl). discriminate.
  - split; [intros _ s; discriminate | reflexivity].
Qed.

Lemma filter_given (field : option string) (col : Reminder -> json)
    (query : list (Z * Reminder)) kr :
  In kr (match given field with
         | Some s => List.filter (fun kr => column_is (col (snd kr)) s) query
         | None => query
         end) <->
  In kr query /\ (forall s, field = Some s -> s <> "" -> col (snd kr) = JStr s).
Proof.
  destruct (given field) as [s|] eqn:E.
  - apply given_spec in E. destruct E as [-> Hne].
    rewrite filter_In, column_is_spec. split.
    + intros [Hin Hc]. split; [exact Hin|]. intros s' [= <-] _. exact Hc.
    + intros [Hin Hc]. split; auto.
  - rewrite given_none in E. split; [|tauto].
    intros Hin. split; [exact Hin|]. intros s Hs Hne. exfalso. apply Hne, E, Hs.
Qed.

(** The rows the three filters keep are the rows that were asked for. *)
Lemma narrowed_in c p t (query : list (Z * Reminder)) kr :
  In kr (narrowed c p t query) <-> In kr query /\ asked_for c p t (snd kr).
Proof.
  unfold narrowed, asked_for. cbv zeta.
  rewrite (filter_given t type), (filter_given p reminder_priority).
  destruct c as [b|].
  - rewrite filter_In, eqb_true_iff. split.
    + intros (((Hin & Hc) & Hp) & Ht). split; [exact Hin|].
      split; [intros b' [= <-]; exact Hc | tauto].
    + intros (Hin & Hc & Hp & Ht). auto.
  - split.
    + intros ((Hin & Hp) & Ht). split; [exact Hin|].
      split; [discriminate | tauto].
    + intros (Hin & Hc & Hp & Ht). auto.
Qed.

Lemma in_drop {A} (x : A) (m : nat) (l : list A) : In x (drop m l) -> In x l.
Proof.
  revert l. induction m as [|m IH]; intros l; [tauto|].
  destruct l as [|y l]; cbn; [tauto|]. intros Hin. right. apply IH, Hin.
Qed.

Lemma in_firstn_skipn {A} (x : A) (n m : nat) (l : list A) :
  In x (take n (drop m l)) -> In x l.
Proof. intros Hin. eapply in_drop, CalendarFacts.in_firstn, Hin. Qed.

Lemma upcoming_listed (now hours_ : Z) (db : DB) (answer : ReminderList) k r :
  get_upcoming_reminders now hours_ db = Ok answer ->
  In (k, r) (listed answer) ->
  reminders db !! k = Some r /\ open r.
Proof.
  unfold get_upcoming_reminders.
  destruct (dt_add now (hours hours_)) as [future|]; [|discriminate].
  cbn. intros [= <-] Hin. cbn [listed] in Hin.
  apply (proj1 (order_by_due_date_iff _ _)) in Hin.
  apply select_spec in Hin. rewrite upcoming_spec in Hin. tauto.
Qed.

Lemma get_reminders_in skip limit c p t (db : DB) rows k r :
  get_reminders skip limit c p t db = Some rows ->
  In (k, r) rows ->
  reminders db !! k = Some r /\ asked_for c p t r.
Proof.
  unfold get_reminders, page.
  destruct ((skip <? 0) || (limit <? 0)); [discriminate|]. intros [= <-] Hin.
  apply in_firstn_skipn in Hin. apply (proj1 (order_by_due_date_iff _ _)) in Hin.
  apply (proj1 (narrowed_in _ _ _ _ _)) in Hin. destruct Hin as [Hin Ha].
  apply list_elem_of_In, elem_of_map_to_list in Hin. tauto.
Qed.

(** X6. The answer of the upcoming query. It fails only when now plus
    the given hours leaves the range of dates; otherwise it lists exactly
    the stored reminders that are neither completed nor snoozed and are
    due between now and now plus the hours, both ends included, each once,
    in the order of their due dates, and the count is their number. *)
Theorem upcoming_answer (now hours_ : Z) (db : DB) :
  match get_upcoming_reminders now hours_ db with
  | Ok answer =>
      in_range (now + hours hours_) = true /\
      (forall k r,
          In (k, r) (listed answer) <->
          reminders db !! k = Some r /\ open r /\
          now <= due_date r <= now + hours hours_) /\
      StronglySorted by_due (listed answer) /\
      NoDup (map fst (listed answer)) /\
      count answer = Z.of_nat (length (listed answer))
  | Raise e => e = OverflowError /\ in_range (now + hours hours_) = false
  end.
Proof.
  unfold get_upcoming_reminders, dt_add.
  destruct (in_range (now + hours hours_)) eqn:Er; cbn; [|split; reflexivity].
  split; [reflexivity|]. split; [|split; [|split]].
  - intros k r. rewrite order_by_due_date_iff, select_spec, upcoming_spec. tauto.
  - apply order_by_due_date_sorted.
  - rewrite (Permutation_map fst (order_by_due_date_perm _)). apply select_keys.
  - reflexivity.
Qed.

(** X7. The overdue and the upcoming answers at the same time share no
    reminder, list only stored reminders that are neither completed nor
    snoozed, and between them list every such reminder that is due at or
    before the end of the upcoming window. *)
Theorem overdue_and_upcoming_partition (now hours_ : Z) (db : DB)
    (answer : ReminderList) :
  get_upcoming_reminders now hours_ db = Ok answer ->
  let late := listed (get_overdue_reminders now db) in
  (forall kr, In kr late -> ~ In kr (listed answer)) /\
  (forall k r, In (k, r) late \/ In (k, r) (listed answer) ->
               reminders db !! k = Some r /\ open r) /\
  (forall k r, reminders db !! k = Some r -> open r ->
               due_date r <= now + hours hours_ ->
               In (k, r) late \/ In (k, r) (listed answer)).
Proof.
  intros Hq late. unfold get_upcoming_reminders in Hq.
  destruct (dt_add now (hours hours_)) as [future|] eqn:Ef; [|discriminate].
  apply dt_add_inv in Ef. destruct Ef as [-> _].
  cbn in Hq. injection Hq as <-. subst late. cbn [get_overdue_reminders listed].
  split; [|split].
  - intros [k r] Hl Hu.
    apply select_spec in Hl. apply order_by_due_date_iff, select_spec in Hu.
    destruct Hl as [_ Hl], Hu as [_ Hu].
    apply overdue_spec in Hl. apply upcoming_spec in Hu. lia.
  - intros k r [Hl|Hu].
    + apply select_spec in Hl. rewrite overdue_spec in Hl. tauto.
    + apply order_by_due_date_iff, select_spec in Hu.
      rewrite upcoming_spec in Hu. tauto.
  - intros k r Hr Ho Hd.
    destruct (Z_lt_ge_dec (due_date r) now) as [Hlt|Hge].
    + left. apply select_spec. rewrite overdue_spec. tauto.
    + right. apply order_by_due_date_iff, select_spec.
      rewrite upcoming_spec. split; [exact Hr|]. split; [exact Ho | lia].
Qed.

Lemma sorted_drop {A} (R : A -> A -> Prop) (m : nat) (l : list A) :
  StronglySorted R l -> StronglySorted R (drop m l).
Proof.
  revert l. induction m as [|m IH]; intros l Hs; [exact Hs|].
  destruct l as [|x l]; [constructor|]. cbn.
  apply StronglySorted_inv in Hs. apply IH, Hs.
Qed.

Lemma sorted_take {A} (R : A -> A -> Prop) (n : nat) (l : list A) :
  StronglySorted R l -> StronglySorted R (take n l).
Proof.
  revert l. induction n as [|n IH]; intros l Hs; [constructor|].
  destruct l as [|x l]; [constructor|]. cbn.
  apply StronglySorted_inv in Hs. destruct Hs as [Hs Hx].
  constructor; [apply IH, Hs|]. apply Forall_take, Hx.
Qed.

Lemma list_filter_sublist {A} (f : A -> bool) (l : list A) :
  List.filter f l `sublist_of` l.
Proof.
  induction l as [|x l IH]; cbn; [constructor|].
  destruct (f x); constructor; exact IH.
Qed.

Lemma narrowed_sublist c p t (query : list (Z * Reminder)) :
  narrowed c p t query `sublist_of` query.
Proof.
  unfold narrowed. cbv zeta.
  destruct (given t), (given p), c;
    repeat (etransitivity; [apply list_filter_sublist|]); reflexivity.
Qed.

Lemma narrowed_length c p t (query : list (Z * Reminder)) :
  (length (narrowed c p t query) <= length query)%nat.
Proof.
  unfold narrowed. cbv zeta.
  destruct (given t), (given p), c;
    repeat (etransitivity; [apply filter_length_le|]); reflexivity.
Qed.

(** X8. The answer of the listing. For bounds that are not negative the
    listing returns stored reminders only, each at most once, every one
    of them with the completion flag, the priority and the type that were
    asked for (an empty text asks for nothing), in the order of their due
    dates, and at most [limit] of them; with no rows skipped and a limit
    that is not below the number of stored reminders, it returns every
    stored reminder that was asked for. *)
Theorem get_reminders_answer (skip limit : Z) (c : option bool)
    (p t : option string) (db : DB) :
  match get_reminders skip limit c p t db with
  | Some rows =>
      (0 <= skip /\ 0 <= limit) /\
      (forall k r, In (k, r) rows ->
                   reminders db !! k = Some r /\ asked_for c p t r) /\
      StronglySorted by_due rows /\
      NoDup (map fst rows) /\
      Z.of_nat (length rows) <= limit /\
      (skip = 0 -> Z.of_nat (size (reminders db)) <= limit ->
       forall k r, reminders db !! k = Some r -> asked_for c p t r ->
                   In (k, r) rows)
  | None => skip < 0 \/ limit < 0
  end.
Proof.
  unfold get_reminders, page.
  destruct ((skip <? 0) || (limit <? 0)) eqn:E.
  - apply orb_true_iff in E. rewrite !Z.ltb_lt in E. exact E.
  - apply orb_false_iff in E. rewrite !Z.ltb_ge in E. destruct E as [Hs Hl].
    set (query := narrowed c p t (map_to_list (reminders db))).
    assert (forall k r, In (k, r) query <->
              reminders db !! k = Some r /\ asked_for c p t r) as Hq.
    { intros k r. unfold query. rewrite narrowed_in.
      rewrite <- list_elem_of_In, elem_of_map_to_list. reflexivity. }
    split; [split; assumption|]. split; [|split; [|split; [|split]]].
    + intros k r Hin. apply Hq, order_by_due_date_iff.
      eapply in_firstn_skipn, Hin.
    + apply sorted_take, sorted_drop, order_by_due_date_sorted.
    + apply (sublist_NoDup _ (map fst (order_by_due_date query))).
      * rewrite (Permutation_map fst (order_by_due_date_perm _)).
        apply (sublist_NoDup _ (map fst (map_to_list (reminders db))));
          [apply (NoDup_fst_map_to_list (reminders db))|].
        apply fmap_sublist, narrowed_sublist.
      * apply fmap_sublist.
        etransitivity; [apply sublist_take | apply sublist_drop].
    + rewrite length_take. lia.
    + intros -> Hsize k r Hr Ha. change (Z.to_nat 0) with 0%nat.
      rewrite drop_0, take_ge.
      * apply order_by_due_date_iff, Hq. tauto.
      * rewrite (Permutation_length (order_by_due_date_perm _)).
        pose proof (narrowed_length c p t (map_to_list (reminders db))) as Hn.
        rewrite length_map_to_list in Hn. fold query in Hn. lia.
Qed.

Lemma with_reminders_same (db : DB) : with_reminders db (reminders db) = db.
Proof. destruct db; reflexivity. Qed.

Lemma with_reminders_twice (db : DB) rs rs' :
  with_reminders (with_reminders db rs) rs' = with_reminders db rs'.
Proof. reflexivity. Qed.

(** X9. Creating a reminder and deleting it again. A creation answers
    with a key that was not in use and stores the reminder under it,
    leaving every other reminder as it was; the reminder has the title,
    the due date and the email of the request, belongs to user 1, rings
    one hour before it is due and is neither completed nor snoozed; and
    deleting that key gives back the database as it was. The creation
    fails, with status 500 and no change, exactly when one hour before the
    due date is not a date: it succeeds only when it is one. *)
Theorem create_then_delete (request : CreateReminderRequest) (db : DB) :
  match create_reminder request db with
  | (Http200 (k, r), db1) =>
      in_range (c_due_date request - hours 1) = true /\
      reminders db !! k = None /\
      reminders db1 !! k = Some r /\
      (forall k', k' <> k -> reminders db1 !! k' = reminders db !! k') /\
      (title r = JStr (c_title request) /\
       due_date r = c_due_date request /\
       reminder_time r = c_due_date request - hours 1 /\
       reminder_user_id r = 1 /\
       reminder_email_id r = c_email_id request /\
       open r) /\
      delete_reminder k db1 = (Http200 "Reminder deleted successfully", db)
  | (HTTPException status_code _, db1) =>
      status_code = 500 /\ db1 = db /\
      in_range (c_due_date request - hours 1) = false
  end.
Proof.
  unfold create_reminder.
  destruct (dt_sub (c_due_date request) (hours 1)) as [t|e] eqn:E.
  - apply dt_sub_inv in E. destruct E as [-> Hr].
    pose proof (next_reminder_pk_fresh (reminders db)) as Hf.
    split; [exact Hr|].
    split; [exact Hf|]. unfold insert_reminder, with_reminders. cbn [reminders].
    split; [apply lookup_insert_eq|].
    split; [intros k' Hk; apply lookup_insert_ne; congruence|].
    split; [cbn; unfold open; cbn; tauto|].
    unfold delete_reminder. cbn [reminders]. rewrite lookup_insert_eq.
    unfold with_reminders. cbn [emails reminders calendar_events].
    rewrite delete_insert_id by exact Hf. destruct db; reflexivity.
  - split; [reflexivity|]. split; [reflexivity|].
    unfold dt_sub, dt_add in E.
    destruct (in_range (c_due_date request + - hours 1)) eqn:Er; [discriminate|].
    rewrite <- Er. reflexivity.
Qed.

Lemma delete_reminder_found (k : Z) (r : Reminder) (db : DB) :
  reminders db !! k = Some r ->
  delete_reminder k db
  = (Http200 "Reminder deleted successfully",
     with_reminders db (delete k (reminders db))).
Proof. intros Hr. unfold delete_reminder. rewrite Hr. reflexivity. Qed.

(** X10. What an update changes. An update of a stored reminder answers
    with the reminder as it is stored afterwards and leaves every other
    reminder as it was. The title, the description, the due date, the
    priority and the completion flag take the values the request gives
    and keep their own where it gives none. The notification time is not
    moved when the due date is; the completion time is set when the
    request completes the reminder and is kept when it reopens it; the
    user, the email, the type and the snooze state are never changed. A
    request that gives nothing leaves the database as it was. *)
Theorem update_reminder_scope (now : datetime) (k : Z)
    (request : UpdateReminderRequest) (db : DB) (r : Reminder) :
  reminders db !! k = Some r ->
  exists r1,
    update_reminder now k request db
    = (Http200 r1, with_reminders db (<[k := r1]> (reminders db))) /\
    (title r1 = match u_title request with Some s => JStr s | None => title r end /\
     description r1 = match u_description request with
                      | Some s => JStr s | None => description r end /\
     due_date r1 = match u_due_date request with
                   | Some t => t | None => due_date r end /\
     reminder_priority r1 = match u_priority request with
                            | Some s => JStr s | None => reminder_priority r end /\
     is_completed r1 = match u_is_completed request with
                       | Some b => b | None => is_completed r end) /\
    (reminder_time r1 = reminder_time r /\
     completed_at r1 = match u_is_completed request with
                       | Some true => Some now | _ => completed_at r end /\
     reminder_user_id r1 = reminder_user_id r /\
     reminder_email_id r1 = reminder_email_id r /\
     type r1 = type r /\
     is_snoozed r1 = is_snoozed r /\ snooze_until r1 = snooze_until r) /\
    (request = no_change ->
     r1 = r /\ snd (update_reminder now k request db) = db).
Proof.
  intros Hr. exists (apply_update now request r).
  unfold update_reminder. rewrite Hr.
  split; [reflexivity|]. split; [|split].
  - destruct request as [[?|] [?|] [?|] [?|] [[|]|]]; cbn; repeat split.
  - destruct request as [[?|] [?|] [?|] [?|] [[|]|]]; cbn; repeat split.
  - intros ->. split; [reflexivity|]. cbn [snd].
    change (apply_update now no_change r) with r.
    rewrite insert_id by exact Hr. apply with_reminders_same.
Qed.

Lemma update_reminder_scope_example :
  let db := {| emails := []; reminders := {[ 1 := Examples.reminder ]};
               calendar_events := [] |} in
  let request :=
    {| u_title := None; u_description := None;
       u_due_date := Some (Calendar.at_time Examples.monday 17 0);
       u_priority := None; u_is_completed := None |} in
  exists r1,
    fst (update_reminder (Calendar.at_time Examples.monday 9 0) 1 request db)
    = Http200 r1 /\
    due_date r1 = Calendar.at_time Examples.monday 17 0 /\
    reminder_time r1 = Calendar.at_time Examples.monday 11 0.
Proof.
  intros db request.
  destruct (update_reminder_scope (Calendar.at_time Examples.monday 9 0) 1
              request db Examples.reminder eq_refl)
    as (r1 & Hu & (_ & _ & Hd & _) & (Ht & _) & _).
  exists r1. rewrite Hu. split; [reflexivity|]. split; [exact Hd | exact Ht].
Defined.

Lemma complete_reminder_found (now : datetime) (k : Z) (r : Reminder) (db : DB) :
  reminders db !! k = Some r ->
  complete_reminder now k db
  = (Http200 "Reminder marked as completed",
     with_reminders db (<[k := set_completed true (Some now) r]> (reminders db))).
Proof. intros Hr. unfold complete_reminder. rewrite Hr. reflexivity. Qed.

(** X11. Completing and reopening. A completed reminder is listed by
    neither the overdue nor the upcoming query, at any time. An update
    that sets the completion flag back reopens it: it is stored as it
    was before the completion except that the completion time stays, and
    the overdue query lists it again once it is past due, unless it is
    snoozed. *)
Theorem completed_until_reopened (now now' : datetime) (k : Z) (r : Reminder)
    (db : DB) :
  reminders db !! k = Some r ->
  let db1 := snd (complete_reminder now k db) in
  let db2 := snd (update_reminder now' k reopen db1) in
  (forall t r', ~ In (k, r') (listed (get_overdue_reminders t db1))) /\
  (forall t hours_ answer r',
      get_upcoming_reminders t hours_ db1 = Ok answer ->
      ~ In (k, r') (listed answer)) /\
  (exists r2,
      reminders db2 !! k = Some r2 /\
      r2 = set_completed false (Some now) r /\
      is_completed r2 = false /\
      completed_at r2 = Some now /\
      forall t, is_snoozed r = false -> due_date r < t ->
                In (k, r2) (listed (get_overdue_reminders t db2))).
Proof.
  intros Hr. cbv zeta. rewrite (complete_reminder_found now k r db Hr).
  cbn [snd].
  set (db1 := with_reminders db (<[k := set_completed true (Some now) r]> (reminders db))).
  assert (reminders db1 !! k = Some (set_completed true (Some now) r)) as H1
    by apply lookup_insert_eq.
  split; [|split].
  - intros t r' Hin. cbn [get_overdue_reminders listed] in Hin.
    apply select_spec in Hin. destruct Hin as [Hk Ho].
    rewrite H1 in Hk. injection Hk as <-.
    apply overdue_spec in Ho. destruct Ho as [[Ho _] _]. discriminate.
  - intros t hours_ answer r' Hq Hin.
    destruct (upcoming_listed _ _ _ _ _ _ Hq Hin) as (Hk & Ho & _).
    rewrite H1 in Hk. injection Hk as <-. discriminate.
  - unfold update_reminder. rewrite H1. cbn [snd].
    exists (set_completed false (Some now) r).
    split; [apply lookup_insert_eq|]. split; [reflexivity|].
    split; [reflexivity|]. split; [reflexivity|].
    intros t Hs Hd. cbn [get_overdue_reminders listed].
    apply select_spec. split; [apply lookup_insert_eq|].
    apply overdue_spec. unfold open. cbn. auto.
Qed.

Lemma completed_until_reopened_example :
  let db := {| emails := []; reminders := {[ 1 := Examples.reminder ]};
               calendar_events := [] |} in
  let db1 := snd (complete_reminder (Calendar.at_time Examples.monday 13 0) 1 db) in
  let db2 := snd (update_reminder (Calendar.at_time Examples.monday 14 0) 1
                    reopen db1) in
  Forall (fun kr => fst kr <> 1)
    (listed (get_overdue_reminders (Calendar.at_time Examples.monday 15 0) db1)) /\
  exists r2, reminders db2 !! 1 = Some r2 /\
             is_completed r2 = false /\
             completed_at r2 = Some (Calendar.at_time Examples.monday 13 0).
Proof.
  intros db db1 db2.
  destruct (completed_until_reopened (Calendar.at_time Examples.monday 13 0)
              (Calendar.at_time Examples.monday 14 0) 1 Examples.reminder db
              eq_refl) as (Ho & _ & r2 & Hk & _ & Hc & Ha & _).
  split.
  - apply Forall_forall. intros [k' r'] Hin Hk'. cbn in Hk'. subst k'.
    apply list_elem_of_In in Hin. exact (Ho _ _ Hin).
  - exists r2. split; [exact Hk|]. split; [exact Hc | exact Ha].
Defined.

Section Facts.

Context `{Library} `{LLM.Provider}.
Variable settings : LLM.Settings.

Ltac bind_ok H :=
  match type of H with
  | mbind _ ?m = Ok _ =>
      let E := fresh "E" in
      destruct m eqn:E; cbn [mbind result_bind] in H; [|discriminate H]
  end.

Lemma reminder_of_task_built (email : Email) (email_id : Z) (now : datetime)
    (task_data : json) (r : Reminder) :
  reminder_of_task email email_id now task_data = Ok r ->
  built_for email email_id (NewReminder r).
Proof.
  unfold reminder_of_task. intros E. repeat bind_ok E.
  injection E as <-. cbn. tauto.
Qed.

Lemma event_of_built (email : Email) (email_id : Z) (event_data : json)
    (e : CalendarEvent) :
  event_of email email_id event_data = Ok (Some e) ->
  built_for email email_id (NewEvent e).
Proof.
  unfold event_of. intros E. bind_ok E.
  destruct (negb (py_truthy a)); [discriminate|].
  repeat bind_ok E. injection E as <-. cbn. tauto.
Qed.

Lemma reminder_of_event_built (email : Email) (email_id : Z) (event_data : json)
    (start : datetime) (r : Reminder) :
  reminder_of_event email email_id event_data start = Ok r ->
  built_for email email_id (NewReminder r).
Proof.
  unfold reminder_of_event. intros E. repeat bind_ok E.
  injection E as <-. cbn. tauto.
Qed.

Lemma task_rows_built (email : Email) (email_id : Z) (now : datetime)
    (task_data : json) :
  Forall (built_for email email_id) (task_rows email email_id now task_data).
Proof.
  unfold task_rows.
  destruct (reminder_of_task email email_id now task_data) as [r|] eqn:E; cbn.
  - constructor; [|constructor]. eapply reminder_of_task_built, E.
  - constructor.
Qed.

Lemma event_rows_built (email : Email) (email_id : Z) (event_data : json) :
  Forall (built_for email email_id) (event_rows email email_id event_data).
Proof.
  unfold event_rows.
  destruct (event_of email email_id event_data) as [[e|]|] eqn:E;
    try constructor.
  - eapply event_of_built, E.
  - destruct (reminder_of_event email email_id event_data (start_time e))
      as [r|] eqn:Er; cbn; constructor; [|constructor].
    eapply reminder_of_event_built, Er.
Qed.

Lemma tasks_from_built utcnow (email : Email) (email_id : Z) (tasks : list json) :
  forall i : nat,
    Forall (built_for email email_id) (tasks_from utcnow i email email_id tasks).
Proof.
  induction tasks as [|t rest IH]; intros i; cbn [tasks_from]; [constructor|].
  apply Forall_app. split; [apply task_rows_built | apply IH].
Qed.

Lemma rows_of_extraction_built utcnow (email : Email) (email_id : Z)
    (extracted : json) (rows : list NewRow) :
  rows_of_extraction utcnow email email_id extracted = Ok rows ->
  Forall (built_for email email_id) rows.
Proof.
  unfold rows_of_extraction. intros E. repeat bind_ok E. injection E as <-.
  apply Forall_app. split; [apply tasks_from_built|].
  apply Forall_flat_map, Forall_forall. intros ev _. apply event_rows_built.
Qed.

(** What a commit that succeeds does to the tables. *)
Lemma commit_effect (rows : list NewRow) :
  forall db,
    emails (write rows db) = emails db /\
    calendar_events (write rows db) = (calendar_events db ++ events_in rows)%list /\
    (forall k r, reminders db !! k = Some r ->
                 reminders (write rows db) !! k = Some r) /\
    (forall k r, reminders (write rows db) !! k = Some r ->
                 reminders db !! k = Some r \/ In r (reminders_in rows)).
Proof.
  unfold write. induction rows as [|row rows IH]; intros db; cbn [fold_left].
  - cbn. rewrite app_nil_r. repeat split; auto.
  - destruct (IH (insert_row db row)) as (He & Hc & Hk & Hn).
    rewrite He, Hc. destruct row as [r0|e0]; cbn [insert_row] in *.
    + unfold insert_reminder, with_reminders in *.
      cbn [emails calendar_events reminders] in *.
      split; [reflexivity|]. split; [reflexivity|]. split.
      * intros k r Hr. apply Hk. rewrite lookup_insert_ne; [exact Hr|].
        intros E. rewrite <- E, next_reminder_pk_fresh in Hr. discriminate.
      * intros k r Hr. apply Hn in Hr. destruct Hr as [Hr|Hr].
        -- destruct (decide (next_reminder_pk (reminders db) = k)) as [E|Hne].
           ++ subst k. rewrite lookup_insert_eq in Hr. injection Hr as <-.
              right. cbn. left. reflexivity.
           ++ rewrite lookup_insert_ne in Hr by exact Hne. left. exact Hr.
        -- right. cbn. right. exact Hr.
    + cbn [emails calendar_events reminders] in *.
      split; [reflexivity|]. split; [rewrite <- app_assoc; reflexivity|].
      split; [exact Hk|]. intros k r Hr. apply Hn in Hr. exact Hr.
Qed.

Lemma in_reminders_in (r : Reminder) (rows : list NewRow) :
  In r (reminders_in rows) <-> In (NewReminder r) rows.
Proof.
  unfold reminders_in. rewrite in_flat_map. split.
  - intros ([r'|e'] & Hin & Hr); cbn in Hr; [|contradiction].
    destruct Hr as [->|[]]. exact Hin.
  - intros Hin. exists (NewReminder r). split; [exact Hin | left; reflexivity].
Qed.

Lemma in_events_in (e : CalendarEvent) (rows : list NewRow) :
  In e (events_in rows) <-> In (NewEvent e) rows.
Proof.
  unfold events_in. rewrite in_flat_map. split.
  - intros ([r'|e'] & Hin & Hr); cbn in Hr; [contradiction|].
    destruct Hr as [->|[]]. exact Hin.
  - intros Hin. exists (NewEvent e). split; [exact Hin | left; reflexivity].
Qed.

Lemma committed_rows_built utcnow (email_id : Z) (db : DB) (row : NewRow) :
  In row (committed_rows settings utcnow email_id db) ->
  exists email, email_by_id (emails db) email_id = Some email /\
                built_for email email_id row.
Proof.
  unfold committed_rows.
  destruct (email_by_id (emails db) email_id) as [email|]; [|intros []].
  destruct (rows_of_extraction utcnow email email_id _) as [rows|] eqn:E;
    cbn [mbind result_bind try_except]; [|intros []].
  destruct (forallb row_binds rows); cbn [try_except]; [|intros []].
  intros Hin. exists email. split; [reflexivity|].
  apply rows_of_extraction_built in E. rewrite Forall_forall in E.
  apply E, list_elem_of_In, Hin.
Qed.

(** X12. The extraction only adds. Processing an email for reminders
    leaves the emails, every stored reminder and every stored event as
    they were; the events it adds come after the stored ones and name the
    email as their origin; every reminder it adds belongs to the user of
    the email, names the email and is neither completed nor snoozed; and
    when the email is not stored nothing changes at all. *)
Theorem extraction_only_adds (utcnow : nat -> datetime) (email_id : Z) (db : DB) :
  let db1 := process_email_for_reminders settings utcnow email_id db in
  emails db1 = emails db /\
  (forall k r, reminders db !! k = Some r -> reminders db1 !! k = Some r) /\
  (exists news,
      calendar_events db1 = (calendar_events db ++ news)%list /\
      Forall (fun e => created_from_email e = Some email_id) news) /\
  (forall k r,
      reminders db1 !! k = Some r -> reminders db !! k = None ->
      exists email,
        email_by_id (emails db) email_id = Some email /\
        reminder_user_id r = email_user_id email /\
        reminder_email_id r = Some email_id /\ open r) /\
  (email_by_id (emails db) email_id = None -> db1 = db).
Proof.
  cbv zeta. rewrite LLMFacts.process_writes.
  destruct (commit_effect (committed_rows settings utcnow email_id db) db)
    as (He & Hc & Hk & Hn).
  split; [exact He|]. split; [exact Hk|]. split; [|split].
  - exists (events_in (committed_rows settings utcnow email_id db)).
    split; [exact Hc|]. apply Forall_forall. intros e Hin.
    apply list_elem_of_In, in_events_in, committed_rows_built in Hin.
    destruct Hin as (email & _ & _ & Hin). exact Hin.
  - intros k r Hr Hnone. apply Hn in Hr. destruct Hr as [Hr|Hr]; [congruence|].
    apply in_reminders_in, committed_rows_built in Hr.
    destruct Hr as (email & Hemail & Hu & Hid & Hcomp & _ & Hs & _).
    exists email. unfold open. auto.
  - intros Hnone. unfold committed_rows. rewrite Hnone. reflexivity.
Qed.

(** X13. A deleted reminder is gone. Deleting a stored reminder answers
    200, removes that key and nothing else; afterwards the lookup, a
    second deletion, an update, a completion and a snooze of that key all
    answer 404 and change nothing, and no query lists it. *)
Theorem deleted_reminder_is_gone (k : Z) (r : Reminder) (db : DB) :
  reminders db !! k = Some r ->
  let db1 := snd (delete_reminder k db) in
  fst (delete_reminder k db) = Http200 "Reminder deleted successfully" /\
  (reminders db1 !! k = None /\
   (forall k', k' <> k -> reminders db1 !! k' = reminders db !! k') /\
   emails db1 = emails db /\ calendar_events db1 = calendar_events db) /\
  (get_reminder k db1 = HTTPException 404 "Reminder not found" /\
   delete_reminder k db1 = (HTTPException 404 "Reminder not found", db1) /\
   (forall now request,
       update_reminder now k request db1
       = (HTTPException 404 "Reminder not found", db1)) /\
   (forall now,
       complete_reminder now k db1
       = (HTTPException 404 "Reminder not found", db1)) /\
   (forall until,
       snooze_reminder k until db1
       = (HTTPException 404 "Reminder not found", db1))) /\
  (forall now r', ~ In (k, r') (listed (get_overdue_reminders now db1))) /\
  (forall now hours_ answer r',
      get_upcoming_reminders now hours_ db1 = Ok answer ->
      ~ In (k, r') (listed answer)) /\
  (forall skip limit c p t rows r',
      get_reminders skip limit c p t db1 = Some rows -> ~ In (k, r') rows).
Proof.
  intros Hr. cbv zeta. rewrite (delete_reminder_found k r db Hr). cbn [fst snd].
  set (db1 := with_reminders db (delete k (reminders db))).
  assert (reminders db1 !! k = None) as Hk by apply lookup_delete_eq.
  split; [reflexivity|]. split; [|split; [|split; [|split]]].
  - split; [exact Hk|]. split; [|split; reflexivity].
    intros k' Hne. apply lookup_delete_ne. congruence.
  - unfold get_reminder, delete_reminder, update_reminder, complete_reminder,
      snooze_reminder.
    rewrite Hk. repeat split.
  - intros now r' Hin. cbn [get_overdue_reminders listed] in Hin.
    apply select_spec in Hin. destruct Hin as [Hin _]. congruence.
  - intros now hours_ answer r' Hq Hin.
    destruct (upcoming_listed _ _ _ _ _ _ Hq Hin) as [Hin' _]. congruence.
  - intros skip limit c p t rows r' Hq Hin.
    destruct (get_reminders_in _ _ _ _ _ _ _ _ _ Hq Hin) as [Hin' _]. congruence.
Qed.

End Facts.

(** A reminder due at noon, asked about at 08:00 with a window of a day. *)
Lemma overdue_and_upcoming_partition_example :
  let db := {| emails := []; reminders := {[ 1 := Examples.reminder ]};
               calendar_events := [] |} in
  let now := Calendar.at_time Examples.monday 8 0 in
  exists answer,
    get_upcoming_reminders now 24 db = Ok answer /\
    (In (1, Examples.reminder) (listed (get_overdue_reminders now db)) \/
     In (1, Examples.reminder) (listed answer)).
Proof.
  intros db now. eexists. split; [vm_compute; reflexivity|].
  destruct (overdue_and_upcoming_partition now 24 db _
              ltac:(vm_compute; reflexivity)) as (_ & _ & Hc).
  apply Hc; [reflexivity | split; reflexivity |].
  vm_compute. intros E. discriminate E.
Defined.

Lemma deleted_reminder_is_gone_example :
  let db := {| emails := []; reminders := {[ 1 := Examples.reminder ]};
               calendar_events := [] |} in
  let db1 := snd (delete_reminder 1 db) in
  get_reminder 1 db1 = HTTPException 404 "Reminder not found" /\
  delete_reminder 1 db1 = (HTTPException 404 "Reminder not found", db1).
Proof.
  intros db db1.
  destruct (@deleted_reminder_is_gone Examples.library 1 Examples.reminder db
              eq_refl) as (_ & _ & (Hg & Hd & _) & _).
  split; [exact Hg | exact Hd].
Defined.

End ReminderFacts.

(** ** The stored messages: listing and reading *)

Module InboxFacts.

Import Models Query Inbox.

Lemma given_some (field : option string) (s : string) :
  given field = Some s <-> field = Some s /\ s <> "".
Proof. apply ReminderFacts.given_spec. Qed.

Lemma filter_given_text (field : option string) (col : Email -> string)
    (query : list Email) (e : Email) :
  In e (match given field with
        | Some s => List.filter (fun e => String.eqb (col e) s) query
        | None => query
        end) <->
  In e query /\ (forall s, field = Some s -> s <> "" -> col e = s).
Proof.
  destruct (given field) as [s|] eqn:E.
  - apply given_some in E. destruct E as [-> Hne].
    rewrite filter_In, String.eqb_eq. split.
    + intros [Hin Hc]. split; [exact Hin|]. intros s' [= <-] _. exact Hc.
    + intros [Hin Hc]. split; auto.
  - rewrite ReminderFacts.given_none in E. split; [|tauto].
    intros Hin. split; [exact Hin|]. intros s Hs Hne. exfalso. apply Hne, E, Hs.
Qed.

Lemma page_length {A} (skip limit : Z) (rows page_ : list A) :
  page skip limit rows = Some page_ ->
  Z.of_nat (length page_) = page_size skip limit (Z.of_nat (length rows)).
Proof.
  unfold page, page_size. destruct ((skip <? 0) || (limit <? 0)) eqn:E; [discriminate|].
  apply orb_false_iff in E. rewrite !Z.ltb_ge in E. intros [= <-].
  rewrite length_take, length_drop. lia.
Qed.

Lemma page_whole {A} (rows : list A) :
  page 0 (Z.of_nat (length rows)) rows = Some rows.
Proof.
  unfold page.
  replace ((0 <? 0) || (Z.of_nat (length rows) <? 0)) with false
    by (symmetry; apply orb_false_iff; rewrite !Z.ltb_ge; lia).
  rewrite Nat2Z.id. change (Z.to_nat 0) with 0%nat.
  rewrite drop_0, firstn_all. reflexivity.
Qed.

Lemma page_none {A} (skip limit : Z) (rows : list A) :
  page skip limit rows = None <-> skip < 0 \/ limit < 0.
Proof.
  unfold page. destruct ((skip <? 0) || (limit <? 0)) eqn:E.
  - apply orb_true_iff in E. rewrite !Z.ltb_lt in E. tauto.
  - apply orb_false_iff in E. rewrite !Z.ltb_ge in E.
    split; [discriminate | lia].
Qed.

Lemma filtered_in c p r (emails : list Email) (e : Email) :
  In e (filtered c p r emails) <-> In e emails /\ wanted c p r e.
Proof.
  unfold filtered, wanted. cbv zeta.
  set (q1 := match given c with
             | Some c' => List.filter (fun e => String.eqb (category e) c') emails
             | None => emails end).
  set (q2 := match given p with
             | Some p' => List.filter (fun e => String.eqb (priority e) p') q1
             | None => q1 end).
  assert (In e (match r with
                | Some b => List.filter (fun e => Bool.eqb (is_read e) b) q2
                | None => q2 end)
          <-> In e q2 /\ forall b, r = Some b -> is_read e = b) as ->.
  { destruct r as [b|].
    - rewrite filter_In, eqb_true_iff. split.
      + intros [Hin Hb]. split; [exact Hin|]. intros b' [= <-]. exact Hb.
      + intros [Hin Hb]. auto.
    - split; [intros Hin; split; [exact Hin | discriminate] | tauto]. }
  unfold q2. rewrite (filter_given_text p priority).
  unfold q1. rewrite (filter_given_text c category). tauto.
Qed.

Lemma filtered_length c p r (emails : list Email) :
  (length (filtered c p r emails) <= length emails)%nat.
Proof.
  unfold filtered. cbv zeta. destruct r, (given p), (given c);
    repeat (etransitivity; [apply filter_length_le|]); reflexivity.
Qed.

Lemma page_in {A} (skip limit : Z) (rows page_ : list A) (x : A) :
  page skip limit rows = Some page_ -> In x page_ -> In x rows.
Proof.
  unfold page. destruct ((skip <? 0) || (limit <? 0)); [discriminate|].
  intros [= <-] Hin. eapply ReminderFacts.in_firstn_skipn, Hin.
Qed.

Lemma get_emails_in skip limit c p r (emails rows : list Email) (e : Email) :
  get_emails skip limit c p r emails = Some rows ->
  In e rows -> In e emails /\ wanted c p r e.
Proof.
  unfold get_emails. cbv zeta. intros Hq Hin.
  apply filtered_in. eapply page_in; eassumption.
Qed.

(** X14. The answer of the message listing. For bounds that are not
    negative the listing returns stored messages that have the category,
    the priority and the read flag that were asked for (an empty text asks
    for nothing); the number of rows of a page is the smaller of the limit
    and of what is left of the matching rows after the skipped ones; and
    with nothing skipped and the limit at the size of the table it returns
    every message that was asked for. *)
Theorem get_emails_answer (skip limit : Z) (c p : option string)
    (r : option bool) (emails : list Email) :
  exists matching : list Email,
    get_emails 0 (Z.of_nat (length emails)) c p r emails = Some matching /\
    (forall e, In e matching <-> In e emails /\ wanted c p r e) /\
    match get_emails skip limit c p r emails with
    | Some rows =>
        (0 <= skip /\ 0 <= limit) /\
        (forall e, In e rows -> In e matching) /\
        Z.of_nat (length rows)
        = page_size skip limit (Z.of_nat (length matching))
    | None => skip < 0 \/ limit < 0
    end.
Proof.
  unfold get_emails. cbv zeta.
  exists (filtered c p r emails). split; [|split; [apply filtered_in|]].
  - unfold page.
    replace ((0 <? 0) || (Z.of_nat (length emails) <? 0)) with false
      by (symmetry; apply orb_false_iff; rewrite !Z.ltb_ge; lia).
    rewrite Nat2Z.id. change (Z.to_nat 0) with 0%nat.
    rewrite drop_0, take_ge by apply filtered_length. reflexivity.
  - destruct (page skip limit (filtered c p r emails)) as [rows|] eqn:E.
    + split; [|split].
      * destruct (Z_lt_ge_dec skip 0) as [Hs|Hs];
          [assert (page skip limit (filtered c p r emails) = None)
             by (apply page_none; lia); congruence|].
        destruct (Z_lt_ge_dec limit 0) as [Hl|Hl];
          [assert (page skip limit (filtered c p r emails) = None)
             by (apply page_none; lia); congruence|].
        lia.
      * intros e Hin. eapply page_in; eassumption.
      * apply page_length, E.
    + apply page_none in E. exact E.
Qed.

Lemma email_by_id_found (emails : list Email) (email_id : Z) (e : Email) :
  email_by_id emails email_id = Some e -> In e emails /\ email_pk e = email_id.
Proof.
  unfold email_by_id. intros Hf. apply find_some in Hf.
  rewrite Z.eqb_eq in Hf. exact Hf.
Qed.

Lemma email_by_id_map (f : Email -> Email) (emails : list Email) (email_id : Z) :
  (forall e, email_pk (f e) = email_pk e) ->
  email_by_id (map f emails) email_id = option_map f (email_by_id emails email_id).
Proof.
  intros Hf. unfold email_by_id. induction emails as [|e es IH]; [reflexivity|].
  cbn [map find]. rewrite Hf. destruct (email_pk e =? email_id); [reflexivity | exact IH].
Qed.

(** X15. Marking a message as read. For a key that is stored the
    operation answers 200 and sets the read flag of the row with that key,
    and changes nothing else: the table keeps its rows in their order,
    every other row and every other column stay as they were; looking the
    message up afterwards gives it with the flag set; the listing of
    unread messages no longer has it; and marking it again changes
    nothing more. For a key that is not stored it answers 404 and changes
    nothing. *)
Theorem mark_email_read_scope (email_id : Z) (emails : list Email) :
  match email_by_id emails email_id with
  | None =>
      mark_email_read email_id emails
      = (HTTPException 404 "Email not found", emails)
  | Some email =>
      let after := snd (mark_email_read email_id emails) in
      fst (mark_email_read email_id emails) = Http200 "Email marked as read" /\
      after = map (fun e => if email_pk e =? email_id then set_is_read e else e)
                  emails /\
      map email_pk after = map email_pk emails /\
      (forall e, In e emails -> email_pk e <> email_id -> In e after) /\
      get_email email_id after = Http200 (set_is_read email) /\
      (forall skip limit c p rows e,
          get_emails skip limit c p (Some false) after = Some rows ->
          In e rows -> email_pk e <> email_id) /\
      mark_email_read email_id after = (Http200 "Email marked as read", after)
  end.
Proof.
  unfold mark_email_read.
  destruct (email_by_id emails email_id) as [email|] eqn:E; [|reflexivity].
  cbn [fst snd]. cbv zeta.
  set (f := fun e => if email_pk e =? email_id then set_is_read e else e).
  assert (forall e, email_pk (f e) = email_pk e) as Hpk.
  { intros e. unfold f. destruct (email_pk e =? email_id); reflexivity. }
  assert (forall e, f (f e) = f e) as Hff.
  { intros e. unfold f. destruct (email_pk e =? email_id) eqn:Ek; [|rewrite Ek; reflexivity].
    cbn [email_pk set_is_read]. rewrite Ek. reflexivity. }
  split; [reflexivity|]. split; [reflexivity|]. split; [|split; [|split; [|split]]].
  - rewrite map_map. apply map_ext. exact Hpk.
  - intros e Hin Hne. apply in_map_iff. exists e. split; [|exact Hin].
    unfold f. apply Z.eqb_neq in Hne. rewrite Hne. reflexivity.
  - unfold get_email. rewrite (email_by_id_map f) by exact Hpk. rewrite E.
    cbn [option_map]. apply email_by_id_found in E. destruct E as [_ <-].
    unfold f. rewrite Z.eqb_refl. reflexivity.
  - intros skip limit c p rows e Hq Hin Hk.
    destruct (get_emails_in _ _ _ _ _ _ _ _ Hq Hin) as (Hin' & _ & _ & Hr).
    clear Hin. rename Hin' into Hin.
    specialize (Hr false eq_refl).
    apply in_map_iff in Hin. destruct Hin as (e0 & <- & _).
    rewrite Hpk in Hk. unfold f in Hr. apply Z.eqb_eq in Hk. rewrite Hk in Hr.
    discriminate.
  - rewrite (email_by_id_map f) by exact Hpk. rewrite E. cbn [option_map].
    f_equal. rewrite map_map. apply map_ext. exact Hff.
Qed.

End InboxFacts.

(** ** Calendar events: synchronisation and the local-first writes *)

Module EventFacts.

Import Models CalendarService Events.

Lemma next_event_pk_fresh (rows : gmap Z EventRow) :
  rows !! next_event_pk rows = None.
Proof.
  destruct (rows !! next_event_pk rows) as [r|] eqn:E; [|reflexivity].
  exfalso.
  assert (In (next_event_pk rows) (map fst (map_to_list rows))) as Hin.
  { apply in_map_iff. exists (next_event_pk rows, r). split; [reflexivity|].
    apply list_elem_of_In, elem_of_map_to_list, E. }
  apply (SnoozeFacts.fold_max_ge _ 0) in Hin.
  unfold next_event_pk at 1 in Hin. unfold next_pk in Hin. lia.
Qed.

Lemma known_event_spec (rows : gmap Z EventRow) (id : string) :
  known_event rows id = true <-> has_id rows id.
Proof.
  unfold known_event, has_id. rewrite existsb_exists. split.
  - intros ([k row] & Hin & Hid). cbn in Hid.
    apply list_elem_of_In, elem_of_map_to_list in Hin.
    destruct (google_event_id row) as [s|] eqn:E; [|discriminate].
    apply String.eqb_eq in Hid. subst s. eauto.
  - intros (k & row & Hk & Hid). exists (k, row). split.
    + apply list_elem_of_In, elem_of_map_to_list, Hk.
    + cbn. rewrite Hid. apply String.eqb_refl.
Qed.

Lemma known_event_false (rows : gmap Z EventRow) (id : string) :
  known_event rows id = false <-> ~ has_id rows id.
Proof.
  rewrite <- known_event_spec. destruct (known_event rows id); split;
    congruence.
Qed.

(** The fetched events whose external id no row has. *)
Lemma clash_spec (added : list EventRow) :
  clash added = false ->
  forall i j r1 r2 id,
    added !! i = Some r1 -> added !! j = Some r2 ->
    google_event_id r1 = Some id -> google_event_id r2 = Some id -> i = j.
Proof.
  induction added as [|row rest IH]; intros Hc i j r1 r2 id Hi Hj H1 H2.
  - rewrite lookup_nil in Hi. discriminate.
  - cbn [clash] in Hc. apply orb_false_iff in Hc. destruct Hc as [Hrow Hrest].
    assert (forall other, In other rest -> google_event_id row = Some id ->
                          google_event_id other = Some id -> False) as Hno.
    { intros other Hin Ha Hb.
      assert (existsb (fun other =>
                match google_event_id row, google_event_id other with
                | Some a, Some b => String.eqb a b
                | _, _ => false
                end) rest = true) as Hex.
      { apply existsb_exists. exists other. split; [exact Hin|].
        rewrite Ha, Hb. apply String.eqb_refl. }
      congruence. }
    destruct i as [|i], j as [|j]; cbn in Hi, Hj.
    + reflexivity.
    + injection Hi as <-. exfalso. eapply Hno; [|exact H1|exact H2].
      apply list_elem_of_In, list_elem_of_lookup. eauto.
    + injection Hj as <-. exfalso. eapply Hno; [|exact H2|exact H1].
      apply list_elem_of_In, list_elem_of_lookup. eauto.
    + f_equal. eapply IH; eassumption.
Qed.

(** What the insertion of the added rows does to the table: each goes
    under a key of its own that was not in use. *)
Lemma insert_all (added : list EventRow) :
  forall rows, exists keys : list Z,
    length keys = length added /\
    NoDup keys /\
    (forall k row, rows !! k = Some row ->
                   fold_left insert_event added rows !! k = Some row) /\
    (forall (i : nat) k, keys !! i = Some k ->
                 rows !! k = None /\
                 fold_left insert_event added rows !! k = added !! i) /\
    (forall k row, fold_left insert_event added rows !! k = Some row ->
                   rows !! k = Some row \/
                   exists i : nat, keys !! i = Some k /\ added !! i = Some row) /\
    size (fold_left insert_event added rows) = (size rows + length added)%nat.
Proof.
  induction added as [|r rest IH]; intros rows; cbn [fold_left].
  - exists []. split; [reflexivity|]. split; [constructor|]. split; [auto|].
    split; [intros i k Hi; rewrite lookup_nil in Hi; discriminate|].
    split; [auto|]. cbn. lia.
  - destruct (IH (insert_event rows r)) as (keys & Hlen & Hnd & Hk & Hi & Hn & Hs).
    pose proof (next_event_pk_fresh rows) as Hf.
    change (insert_event rows r) with (<[next_event_pk rows := r]> rows) in *.
    assert (forall k, k ∈ keys -> k <> next_event_pk rows) as Hfresh.
    { intros k Hin ->. apply list_elem_of_lookup in Hin. destruct Hin as [i Hin].
      destruct (Hi i _ Hin) as [Hnone _].
      rewrite lookup_insert_eq in Hnone. discriminate. }
    exists (next_event_pk rows :: keys).
    split; [cbn; lia|]. split; [|split; [|split; [|split]]].
    + constructor; [|exact Hnd]. intros Hin. exact (Hfresh _ Hin eq_refl).
    + intros k row Hr. apply Hk. rewrite lookup_insert_ne; [exact Hr|].
      intros E. rewrite <- E, Hf in Hr. discriminate.
    + intros [|i] k Hl; cbn in Hl |- *.
      * injection Hl as <-. split; [exact Hf|]. apply Hk, lookup_insert_eq.
      * destruct (Hi i k Hl) as [Hnone Hsome]. split; [|exact Hsome].
        rewrite lookup_insert_ne in Hnone; [exact Hnone|].
        intros E. apply (Hfresh k); [|congruence].
        apply list_elem_of_lookup. eauto.
    + intros k row Hr. apply Hn in Hr. destruct Hr as [Hr|(i & Hl & Ha)].
      * destruct (decide (next_event_pk rows = k)) as [E|Hne].
        -- subst k. rewrite lookup_insert_eq in Hr. injection Hr as <-.
           right. exists 0%nat. split; reflexivity.
        -- rewrite lookup_insert_ne in Hr by exact Hne. left. exact Hr.
      * right. exists (S i). split; assumption.
    + rewrite Hs, map_size_insert_None by exact Hf. cbn [length]. lia.
Qed.

Section Facts.

Context `{Library} `{GoogleCalendar} `{Format}.

(** The events the loop builds rows for. *)
Lemma sync_loop_ok (user : User) (rows : gmap Z EventRow)
    (google_events : list ParsedEvent) :
  forall added result,
    sync_loop user rows google_events added = Ok result ->
    exists news,
      result = (added ++ news)%list /\
      Forall2 (fun g row => synced_row user g = Ok row)
        (List.filter (fun g => negb (known_event rows (p_google_event_id g)))
                     google_events)
        news.
Proof.
  induction google_events as [|g rest IH]; intros added result Hl.
  - cbn in Hl. injection Hl as <-. exists []. rewrite app_nil_r.
    split; [reflexivity | constructor].
  - cbn [sync_loop] in Hl. cbn [List.filter].
    destruct (known_event rows (p_google_event_id g)); cbn [negb].
    + apply IH, Hl.
    + destruct (synced_row user g) as [row|e] eqn:Er;
        cbn [mbind result_bind] in Hl; [|discriminate].
      destruct (IH _ _ Hl) as (news & -> & Hf).
      exists (row :: news). rewrite <- app_assoc. split; [reflexivity|].
      constructor; assumption.
Qed.

Lemma sync_loop_raise (user : User) (rows : gmap Z EventRow)
    (google_events : list ParsedEvent) (g : ParsedEvent) (e : exn) :
  In g google_events ->
  known_event rows (p_google_event_id g) = false ->
  synced_row user g = Raise e ->
  forall added, exists e', sync_loop user rows google_events added = Raise e'.
Proof.
  intros Hin Hk Hr. induction google_events as [|g' rest IH]; [destruct Hin|].
  intros added. cbn [sync_loop].
  destruct (known_event rows (p_google_event_id g')) eqn:Ek'.
  - destruct Hin as [->|Hin]; [congruence|]. apply IH, Hin.
  - destruct (synced_row user g') as [row|e0] eqn:Er'; cbn [mbind result_bind].
    + destruct Hin as [->|Hin]; [congruence|]. apply IH, Hin.
    + eauto.
Qed.

Lemma sync_loop_nothing (user : User) (rows : gmap Z EventRow)
    (google_events : list ParsedEvent) :
  Forall (fun g => known_event rows (p_google_event_id g) = true) google_events ->
  forall added, sync_loop user rows google_events added = Ok added.
Proof.
  induction 1 as [|g rest Hg _ IH]; intros added; [reflexivity|].
  cbn [sync_loop]. rewrite Hg. apply IH.
Qed.

Lemma synced_row_id (user : User) (g : ParsedEvent) (row : EventRow) :
  synced_row user g = Ok row ->
  google_event_id row = Some (p_google_event_id g) /\
  event_user_id (details row) = user_pk user /\
  event_title (details row) = JStr (p_title g) /\
  parse_time (p_start_time g) = Ok (start_time (details row)) /\
  parse_time (p_end_time g) = Ok (end_time (details row)) /\
  status row = Some (p_status g).
Proof.
  unfold synced_row.
  destruct (parse_time (p_start_time g)) as [s|]; cbn [mbind result_bind];
    [|discriminate].
  destruct (parse_time (p_end_time g)) as [f|]; cbn [mbind result_bind];
    [|discriminate].
  intros [= <-]. cbn. repeat split.
Qed.

Lemma forall2_in_r {A B} (R : A -> B -> Prop) l k (y : B) :
  Forall2 R l k -> In y k -> exists x, In x l /\ R x y.
Proof.
  induction 1 as [|x y' l k HR _ IH]; [intros []|].
  intros [<-|Hin]; [exists x; split; [left; reflexivity | exact HR]|].
  destruct (IH Hin) as (x' & Hx & HRx). exists x'. split; [right|]; assumption.
Qed.

Lemma forall2_in_l {A B} (R : A -> B -> Prop) l k (x : A) :
  Forall2 R l k -> In x l -> exists y, In y k /\ R x y.
Proof.
  induction 1 as [|x' y l k HR _ IH]; [intros []|].
  intros [<-|Hin]; [exists y; split; [left; reflexivity | exact HR]|].
  destruct (IH Hin) as (y' & Hy & HRy). exists y'. split; [right|]; assumption.
Qed.

Lemma sync_calendar_cases (utcnow : datetime) (st : Store) :
  match sync_calendar_events utcnow st with
  | (Http200 message, st1) =>
      exists user svc fetched added,
        (user_by_id (users st) 1 = Some user /\
         token_set (calendar_token user) = true /\
         build_service user = Ok svc /\
         get_upcoming_events svc 50 utcnow = Ok fetched) /\
        Forall2 (fun g row => synced_row user g = Ok row)
          (List.filter (fun g => negb (known_event (events st) (p_google_event_id g)))
                       fetched)
          added /\
        message = "Synced " +:+ pretty (Z.of_nat (length added))
                  +:+ " events from Google Calendar" /\
        users st1 = users st /\
        (forall k row, events st !! k = Some row -> events st1 !! k = Some row) /\
        (forall k row, events st1 !! k = Some row ->
                       events st !! k = Some row \/
                       (events st !! k = None /\ In row added)) /\
        size (events st1) = (size (events st) + length added)%nat /\
        (forall g, In g fetched -> has_id (events st1) (p_google_event_id g)) /\
        (ids_unique (events st) -> ids_unique (events st1))
  | (HTTPException status_code _, st1) =>
      st1 = st /\ (status_code = 401 \/ status_code = 500)
  end.
Proof.
  unfold sync_calendar_events.
  destruct (user_by_id (users st) 1) as [user|] eqn:Eu; [|cbn; auto].
  destruct (token_set (calendar_token user)) eqn:Et; cbn [negb]; [|cbn; auto].
  destruct (build_service user) as [svc|] eqn:Eb; cbn [mbind result_bind];
    [|cbn; auto].
  destruct (get_upcoming_events svc 50 utcnow) as [fetched|] eqn:Ef;
    cbn [mbind result_bind]; [|cbn; auto].
  destruct (sync_loop user (events st) fetched []) as [added|] eqn:El;
    [|cbn; auto].
  unfold commit. destruct (clash added) eqn:Ec; [cbn; auto|].
  apply sync_loop_ok in El. destruct El as (news & Hadded & Hf).
  cbn [app] in Hadded. subst news.
  destruct (insert_all added (events st)) as (keys & Hlen & Hnd & Hk & Hi & Hn & Hs).
  exists user, svc, fetched, added.
  split; [repeat split; assumption|]. split; [exact Hf|]. split; [reflexivity|].
  split; [reflexivity|]. cbn [events with_events].
  assert (forall row, In row added ->
            exists g, In g fetched /\ synced_row user g = Ok row /\
                      known_event (events st) (p_google_event_id g) = false) as Hrow.
  { intros row Hin. destruct (forall2_in_r _ _ _ _ Hf Hin) as (g & Hg & Hr).
    apply filter_In in Hg. destruct Hg as [Hg Hkn].
    exists g. split; [exact Hg|]. split; [exact Hr|].
    destruct (known_event _ _); [discriminate | reflexivity]. }
  split; [exact Hk|]. split; [|split; [exact Hs|split]].
  - intros k row Hr. apply Hn in Hr. destruct Hr as [Hr|(i & Hl & Ha)];
      [left; exact Hr|].
    right. split; [apply (Hi i k Hl)|].
    apply list_elem_of_In, list_elem_of_lookup. eauto.
  - intros g Hg.
    destruct (known_event (events st) (p_google_event_id g)) eqn:Ekn.
    + apply known_event_spec in Ekn. destruct Ekn as (k & row & Hr & Hid).
      exists k, row. split; [apply Hk, Hr | exact Hid].
    + assert (In g (List.filter
                (fun g => negb (known_event (events st) (p_google_event_id g)))
                fetched)) as Hgf by (apply filter_In; rewrite Ekn; auto).
      destruct (forall2_in_l _ _ _ _ Hf Hgf) as (row & Hin & Hr).
      apply list_elem_of_In, list_elem_of_lookup in Hin. destruct Hin as [i Hin].
      assert (is_Some (keys !! i)) as [k Hl].
      { apply lookup_lt_is_Some. rewrite Hlen. eapply lookup_lt_Some, Hin. }
      destruct (Hi i k Hl) as [_ Hsome]. rewrite Hin in Hsome.
      exists k, row. split; [exact Hsome|]. apply (synced_row_id _ _ _ Hr).
  - intros Hu k1 k2 r1 r2 id Hr1 Hr2 Hid1 Hid2.
    assert (forall i row, added !! i = Some row -> google_event_id row = Some id ->
                          ~ has_id (events st) id) as Hnew.
    { intros i row Hin Hid.
      apply list_elem_of_lookup_2, list_elem_of_In, Hrow in Hin.
      destruct Hin as (g & _ & Hr & Hkn).
      apply synced_row_id in Hr. destruct Hr as [Hg _].
      rewrite Hid in Hg. injection Hg as ->. apply known_event_false, Hkn. }
    apply Hn in Hr1, Hr2.
    destruct Hr1 as [Hr1|(i1 & Hl1 & Ha1)], Hr2 as [Hr2|(i2 & Hl2 & Ha2)].
    + eapply Hu; eassumption.
    + exfalso. apply (Hnew _ _ Ha2 Hid2). exists k1, r1. auto.
    + exfalso. apply (Hnew _ _ Ha1 Hid1). exists k2, r2. auto.
    + assert (i1 = i2) by (eapply (clash_spec added Ec); eassumption).
      subst i2. congruence.
Qed.

Lemma sync_loop_raised (user : User) (rows : gmap Z EventRow)
    (google_events : list ParsedEvent) :
  forall added e,
    sync_loop user rows google_events added = Raise e ->
    exists g e',
      In g (List.filter (fun g => negb (known_event rows (p_google_event_id g)))
                        google_events) /\
      synced_row user g = Raise e'.
Proof.
  induction google_events as [|g rest IH]; intros added e Hl; [discriminate|].
  cbn [sync_loop] in Hl. cbn [List.filter].
  destruct (known_event rows (p_google_event_id g)) eqn:Ek; cbn [negb].
  - apply (IH _ _ Hl).
  - destruct (synced_row user g) as [row|e0] eqn:Er; cbn [mbind result_bind] in Hl.
    + destruct (IH _ _ Hl) as (g' & e' & Hin & Hr). exists g', e'.
      split; [right; exact Hin | exact Hr].
    + exists g, e0. split; [left; reflexivity | exact Er].
Qed.

Lemma clash_nodup (added : list EventRow) :
  Forall (fun row => google_event_id row <> None) added ->
  clash added = false <-> List.NoDup (map google_event_id added).
Proof.
  induction 1 as [|row rest Hrow _ IH]; cbn [clash map].
  - split; [constructor | reflexivity].
  - rewrite orb_false_iff, IH, List.NoDup_cons_iff.
    assert (existsb (fun other =>
              match google_event_id row, google_event_id other with
              | Some a, Some b => String.eqb a b
              | _, _ => false
              end) rest = false
            <-> ~ In (google_event_id row) (map google_event_id rest)) as ->;
      [|tauto].
    rewrite <- not_true_iff_false, existsb_exists, in_map_iff.
    split; intros Hno (other & Ha & Hb); apply Hno; exists other.
    + split; [exact Hb|]. rewrite Ha.
      destruct (google_event_id row) as [a|]; [apply String.eqb_refl | congruence].
    + split; [|exact Ha].
      destruct (google_event_id row) as [a|], (google_event_id other) as [b|];
        try discriminate.
      apply String.eqb_eq in Hb. congruence.
Qed.

Lemma added_ids (user : User) (unknown : list ParsedEvent) (added : list EventRow) :
  Forall2 (fun g row => synced_row user g = Ok row) unknown added ->
  map google_event_id added = map Some (map p_google_event_id unknown)
  /\ Forall (fun row => google_event_id row <> None) added.
Proof.
  induction 1 as [|g row unknown added Hr _ [IH1 IH2]]; cbn [map].
  - split; [reflexivity | constructor].
  - apply synced_row_id in Hr. destruct Hr as [Hid _]. rewrite Hid, IH1.
    split; [reflexivity|]. constructor; [congruence | exact IH2].
Qed.

Lemma nodup_some {A} (l : list A) :
  List.NoDup (map Some l) <-> List.NoDup l.
Proof.
  split; [apply List.NoDup_map_inv|].
  induction 1 as [|x l Hx _ IH]; cbn [map]; constructor; [|exact IH].
  rewrite in_map_iff. intros (y & [= ->] & Hin). exact (Hx Hin).
Qed.

(** For a user with a token the synchronisation fails with 500 or
    answers 200, and it fails exactly in the cases of [sync_fails]. *)
Lemma connected_cases (utcnow : datetime) (st : Store) (user : User) :
  connected st user ->
  (sync_fails user utcnow (events st) /\
   sync_calendar_events utcnow st
   = (HTTPException 500 "Failed to sync calendar events", st))
  \/ (~ sync_fails user utcnow (events st) /\
      exists message st1,
        sync_calendar_events utcnow st = (Http200 message, st1)).
Proof.
  intros [Eu Et]. unfold sync_calendar_events, sync_fails.
  rewrite Eu, Et. cbn [negb].
  destruct (build_service user) as [svc|] eqn:Eb; cbn [mbind result_bind];
    [|left; split; [exact I | reflexivity]].
  destruct (get_upcoming_events svc 50 utcnow) as [fetched|] eqn:Ef;
    cbn [mbind result_bind]; [|left; split; [exact I | reflexivity]].
  cbv zeta.
  destruct (sync_loop user (events st) fetched []) as [added|e] eqn:El.
  - apply sync_loop_ok in El. destruct El as (news & Hadded & Hf).
    cbn [app] in Hadded. subst news.
    destruct (added_ids _ _ _ Hf) as [Hids Hsome].
    unfold commit. destruct (clash added) eqn:Ec.
    + left. split; [|reflexivity]. right. intros Hnd.
      apply nodup_some in Hnd. rewrite <- Hids in Hnd. apply clash_nodup in Hnd; [congruence | exact Hsome].
    + right. split; [|eauto]. intros [(g & e & Hin & Hr)|Hdup].
      * destruct (forall2_in_l _ _ _ _ Hf Hin) as (row & _ & Hrow). congruence.
      * apply Hdup. apply clash_nodup in Ec; [|exact Hsome].
        rewrite Hids in Ec. apply nodup_some, Ec.
  - left. split; [|reflexivity]. left.
    destruct (sync_loop_raised _ _ _ _ _ El) as (g & e' & Hin & Hr). eauto.
Qed.

(** X16. The answer of the calendar synchronisation. Without a user 1
    that has a calendar token it answers 401. For such a user it answers
    500 when the service is not built, when the listing raises, when the
    row of a fetched event that is not stored cannot be built, and when
    two fetched events that are not stored have one id. These are the
    only failures, each with its own detail, and in all of them the
    table is left as it was. When it answers 200, the rows it added are
    those of the fetched events whose external id no row had, one for
    each, in their order, with the user, the id, the title, the status
    and the parsed times of the event; the message counts them; every
    row that was stored is still there, unchanged; every fetched id is
    now stored; and the external ids are still unique if they were. *)
Theorem sync_calendar_events_answer (utcnow : datetime) (st : Store) :
  ((forall user, ~ connected st user) ->
   sync_calendar_events utcnow st
   = (HTTPException 401 "Google Calendar not connected", st)) /\
  (forall user, connected st user -> sync_fails user utcnow (events st) ->
   sync_calendar_events utcnow st
   = (HTTPException 500 "Failed to sync calendar events", st)) /\
  match sync_calendar_events utcnow st with
  | (Http200 message, st1) =>
      exists user svc fetched added,
        (user_by_id (users st) 1 = Some user /\
         token_set (calendar_token user) = true /\
         build_service user = Ok svc /\
         get_upcoming_events svc 50 utcnow = Ok fetched) /\
        Forall2 (fun g row => synced_row user g = Ok row)
          (List.filter (fun g => negb (known_event (events st) (p_google_event_id g)))
                       fetched)
          added /\
        message = "Synced " +:+ pretty (Z.of_nat (length added))
                  +:+ " events from Google Calendar" /\
        users st1 = users st /\
        (forall k row, events st !! k = Some row -> events st1 !! k = Some row) /\
        (forall k row, events st1 !! k = Some row ->
                       events st !! k = Some row \/
                       (events st !! k = None /\ In row added)) /\
        size (events st1) = (size (events st) + length added)%nat /\
        (forall g, In g fetched -> has_id (events st1) (p_google_event_id g)) /\
        (ids_unique (events st) -> ids_unique (events st1))
  | (HTTPException status_code detail, st1) =>
      st1 = st /\
      ((status_code = 401 /\ detail = "Google Calendar not connected" /\
        forall user, ~ connected st user) \/
       (status_code = 500 /\ detail = "Failed to sync calendar events" /\
        exists user, connected st user /\ sync_fails user utcnow (events st)))
  end.
Proof.
  assert ((exists user, connected st user) \/ forall user, ~ connected st user)
    as [[user Hc]|Hno].
  { unfold connected. destruct (user_by_id (users st) 1) as [user|];
      [|right; intros user [[=] _]].
    destruct (token_set (calendar_token user)) eqn:Et; [left; eauto|].
    right. intros user' [[= <-] Ht]. congruence. }
  - assert (forall user', connected st user' -> user' = user) as Hsame.
    { intros user' [Hu _]. destruct Hc as [Hu' _]. congruence. }
    split; [intros Hno; destruct (Hno user Hc)|].
    destruct (connected_cases utcnow st user Hc)
      as [[Hf E]|[Hok (message & st1 & E)]].
    + split; [intros; exact E|]. rewrite E.
      split; [reflexivity|]. right. eauto.
    + split; [intros user' Hc' Hf; rewrite (Hsame user' Hc') in Hf; tauto|].
      pose proof (sync_calendar_cases utcnow st) as Hcases.
      rewrite E in *. exact Hcases.
  - assert (sync_calendar_events utcnow st
            = (HTTPException 401 "Google Calendar not connected", st)) as E.
    { unfold sync_calendar_events.
      destruct (user_by_id (users st) 1) as [user|] eqn:Eu; [|reflexivity].
      destruct (token_set (calendar_token user)) eqn:Et; [|reflexivity].
      destruct (Hno user). split; assumption. }
    split; [intros _; exact E|].
    split; [intros user Hc; destruct (Hno user Hc)|].
    rewrite E. split; [reflexivity|]. left. auto.
Qed.

Lemma clash_found (a1 a2 : list EventRow) (r1 r2 : EventRow) (id : string) :
  google_event_id r1 = Some id -> google_event_id r2 = Some id ->
  In r2 a2 -> clash (a1 ++ r1 :: a2) = true.
Proof.
  intros Hid1 Hid2 Hin. induction a1 as [|x a1 IH]; cbn [app clash].
  - apply orb_true_iff. left. apply existsb_exists. exists r2.
    split; [exact Hin|]. rewrite Hid1, Hid2. apply String.eqb_refl.
  - rewrite IH. apply orb_true_r.
Qed.

Lemma filter_app_cons {A} (f : A -> bool) (l1 l2 : list A) (x : A) :
  f x = true ->
  List.filter f (l1 ++ x :: l2) = (List.filter f l1 ++ x :: List.filter f l2)%list.
Proof. intros Hx. rewrite List.filter_app. cbn [List.filter]. rewrite Hx. reflexivity. Qed.

(** X17. The calendar synchronisation is all or nothing. When the fetch
    succeeds but one fetched event that is not stored yet has a start or
    an end that is absent or does not parse, or two fetched events that
    are not stored yet have the same external id, the operation answers
    500 and adds no row at all, whatever the other events are. *)
Theorem sync_calendar_all_or_nothing (utcnow : datetime) (st : Store)
    (user : User) (svc : service) (fetched : list ParsedEvent) :
  user_by_id (users st) 1 = Some user ->
  token_set (calendar_token user) = true ->
  build_service user = Ok svc ->
  get_upcoming_events svc 50 utcnow = Ok fetched ->
  (exists g e, In g fetched /\
               known_event (events st) (p_google_event_id g) = false /\
               synced_row user g = Raise e) \/
  (exists l1 g1 l2 g2 l3,
      fetched = (l1 ++ g1 :: l2 ++ g2 :: l3)%list /\
      p_google_event_id g1 = p_google_event_id g2 /\
      known_event (events st) (p_google_event_id g1) = false) ->
  sync_calendar_events utcnow st
  = (HTTPException 500 "Failed to sync calendar events", st).
Proof.
  intros Eu Et Eb Ef Hbad. unfold sync_calendar_events.
  rewrite Eu, Et, Eb. cbn [negb mbind result_bind]. rewrite Ef.
  cbn [mbind result_bind].
  destruct Hbad as [(g & e & Hin & Hk & Hr) | (l1 & g1 & l2 & g2 & l3 & -> & Hid & Hk)].
  - destruct (sync_loop_raise user (events st) fetched g e Hin Hk Hr [])
      as (e' & ->). reflexivity.
  - destruct (sync_loop user (events st) _ []) as [added|] eqn:El; [|reflexivity].
    apply sync_loop_ok in El. destruct El as (news & Hadded & Hf).
    cbn [app] in Hadded. subst news.
    rewrite filter_app_cons in Hf by (rewrite Hk; reflexivity).
    rewrite filter_app_cons in Hf by (rewrite <- Hid, Hk; reflexivity).
    apply Forall2_app_inv_l in Hf.
    destruct Hf as (a1 & rest1 & _ & Hf & ->).
    apply Forall2_cons_inv_l in Hf. destruct Hf as (r1 & rest2 & Hr1 & Hf & ->).
    apply Forall2_app_inv_l in Hf.
    destruct Hf as (a2 & rest3 & _ & Hf & ->).
    apply Forall2_cons_inv_l in Hf. destruct Hf as (r2 & a3 & Hr2 & _ & ->).
    apply synced_row_id in Hr1, Hr2.
    destruct Hr1 as [Hid1 _], Hr2 as [Hid2 _]. rewrite <- Hid in Hid2.
    unfold commit.
    rewrite (clash_found a1 (a2 ++ r2 :: a3) r1 r2 _ Hid1 Hid2)
      by (apply in_app_iff; right; left; reflexivity).
    reflexivity.
Qed.

Lemma with_events_same (st : Store) : with_events st (events st) = st.
Proof. destruct st; reflexivity. Qed.

(** X18. The calendar synchronisation is idempotent. After a
    synchronisation that answered 200, a second one for which the
    provider lists the same events answers that it synchronised 0 events
    and leaves the table as it is. *)
Theorem sync_calendar_idempotent (utcnow utcnow' : datetime) (st st1 : Store)
    (message : string) :
  sync_calendar_events utcnow st = (Http200 message, st1) ->
  (forall svc, get_upcoming_events svc 50 utcnow'
               = get_upcoming_events svc 50 utcnow) ->
  sync_calendar_events utcnow' st1
  = (Http200 "Synced 0 events from Google Calendar", st1).
Proof.
  intros Hs Hsame. pose proof (sync_calendar_cases utcnow st) as Hc.
  rewrite Hs in Hc.
  destruct Hc as (user & svc & fetched & added & (Eu & Et & Eb & Ef) & _ & _
                  & Hu & _ & _ & _ & Hall & _).
  unfold sync_calendar_events. rewrite Hu, Eu, Et, Eb.
  cbn [negb mbind result_bind]. rewrite Hsame, Ef. cbn [mbind result_bind].
  rewrite sync_loop_nothing.
  - unfold commit. cbn [clash fold_left length]. rewrite with_events_same.
    reflexivity.
  - apply Forall_forall. intros g Hg. apply known_event_spec, Hall.
    apply list_elem_of_In, Hg.
Qed.

Lemma has_id_insert_unlinked (rows : gmap Z EventRow) (k : Z) (row : EventRow)
    (id : string) :
  rows !! k = None -> google_event_id row = None ->
  has_id (<[k := row]> rows) id -> has_id rows id.
Proof.
  intros Hk Hrow (k' & row' & Hl & Hid).
  destruct (decide (k = k')) as [<-|Hne].
  - rewrite lookup_insert_eq in Hl. injection Hl as <-. congruence.
  - rewrite lookup_insert_ne in Hl by exact Hne. exists k', row'. auto.
Qed.

Lemma remote_create_calls (request : CreateEventRequest) (st : Store) :
  (forall user, user_by_id (users st) 1 = Some user ->
                token_set (calendar_token user) = false) ->
  remote_create request st = (Ok None, []).
Proof.
  intros Hoff. unfold remote_create.
  destruct (user_by_id (users st) 1) as [user|]; [|reflexivity].
  rewrite (Hoff user eq_refl). reflexivity.
Qed.

Lemma remote_create_linked (request : CreateEventRequest) (st : Store) g calls :
  remote_create request st = (Ok (Some g), calls) ->
  exists user body,
    user_by_id (users st) 1 = Some user /\
    token_set (calendar_token user) = true /\
    calls = [Insert body].
Proof.
  unfold remote_create.
  destruct (user_by_id (users st) 1) as [user|]; [|discriminate].
  destruct (token_set (calendar_token user)) eqn:Et; [|discriminate].
  destruct (build_service user) as [svc|]; [|discriminate].
  unfold CalendarService.create_event. intros [= _ <-]. eauto.
Qed.

(** An event of the provider comes from an insertion that it answered,
    on the service of user 1. *)
Lemma remote_create_answered (request : CreateEventRequest) (st : Store) g calls :
  remote_create request st = (Ok (Some g), calls) ->
  exists user svc body created,
    user_by_id (users st) 1 = Some user /\
    token_set (calendar_token user) = true /\
    build_service user = Ok svc /\
    events_insert svc body = Ok created /\
    g = _parse_event created /\
    calls = [Insert body].
Proof.
  unfold remote_create.
  destruct (user_by_id (users st) 1) as [user|]; [|discriminate].
  destruct (token_set (calendar_token user)) eqn:Et; [|discriminate].
  destruct (build_service user) as [svc|] eqn:Eb; [|discriminate].
  unfold CalendarService.create_event.
  match goal with |- context [events_insert svc ?b] =>
    destruct (events_insert svc b) as [created|e] eqn:Ei
  end.
  - cbn. intros [= <- <-]. exists user, svc. eauto 10.
  - destruct e; cbn; discriminate.
Qed.

(** X19. Creating an event is local first. Whatever the provider does,
    the creation answers 200 with a row stored under a key that was not
    in use, for user 1, with the title, the description, the times, the
    location and the attendees of the request and the status confirmed;
    every other row and the users stay as they were; and deleting that
    key afterwards gives back the table as it was. The row carries an
    external id only if user 1 has a calendar token and an insertion was
    sent to the provider, and the id is then one that no row had; without
    such a user no write is sent. The one case left open, in which no
    answer is given, is that of a user 1 with a calendar token whose
    provider answers the insertion with an event whose id some row
    already has. *)
Theorem create_event_local_first (request : CreateEventRequest) (st : Store) :
  let pk := next_event_pk (events st) in
  match create_event request st with
  | Some (answer, st1, calls) =>
      exists row,
        answer = Http200 (pk, row) /\
        events st !! pk = None /\
        events st1 !! pk = Some row /\
        (forall k, k <> pk -> events st1 !! k = events st !! k) /\
        users st1 = users st /\
        (details row = {|
           event_user_id := 1;
           event_title := JStr (c_title request);
           event_description := JStr (c_description request);
           start_time := c_start_time request;
           end_time := c_end_time request;
           location := text_or_null (c_location request);
           attendees := texts (match c_attendees request with
                               | Some l => l | None => [] end);
           created_from_email := None |} /\
         status row = Some "confirmed" /\ organizer row = None) /\
        match google_event_id row with
        | Some id =>
            ~ has_id (events st) id /\
            exists user body,
              user_by_id (users st) 1 = Some user /\
              token_set (calendar_token user) = true /\
              calls = [Insert body]
        | None => True
        end /\
        ((forall user, user_by_id (users st) 1 = Some user ->
                       token_set (calendar_token user) = false) ->
         google_event_id row = None /\ calls = []) /\
        events (snd (fst (delete_event pk st1))) = events st
  | None =>
      exists user svc body created,
        user_by_id (users st) 1 = Some user /\
        token_set (calendar_token user) = true /\
        build_service user = Ok svc /\
        events_insert svc body = Ok created /\
        has_id (events st) (p_google_event_id (_parse_event created))
  end.
Proof.
  intros pk. unfold create_event. fold pk.
  pose proof (next_event_pk_fresh (events st)) as Hf. fold pk in Hf.
  set (event := {| google_event_id := None; organizer := None;
                   status := Some "confirmed"; details := _ |}).
  set (st1 := with_events st (<[pk := event]> (events st))).
  assert (details event = {|
           event_user_id := 1;
           event_title := JStr (c_title request);
           event_description := JStr (c_description request);
           start_time := c_start_time request;
           end_time := c_end_time request;
           location := text_or_null (c_location request);
           attendees := texts (match c_attendees request with
                               | Some l => l | None => [] end);
           created_from_email := None |}) as Hd.
  { unfold event. cbn [details]. destruct (c_attendees request) as [[|x l]|];
      reflexivity. }
  assert (forall row' st', events st' = <[pk := row']> (events st) ->
            events (snd (fst (delete_event pk st'))) = events st) as Hdel.
  { intros row' st' Hst. unfold delete_event. rewrite Hst, lookup_insert_eq.
    cbn [fst snd events with_events].
    apply delete_insert_id, Hf. }
  destruct (remote_create request st1) as [google_event calls] eqn:Er.
  assert ((forall user, user_by_id (users st) 1 = Some user ->
                        token_set (calendar_token user) = false) ->
          google_event = Ok None /\ calls = []) as Hoff.
  { intros Hoff. rewrite (remote_create_calls request st1) in Er by exact Hoff.
    injection Er as <- <-. auto. }
  destruct google_event as [[g|]|e].
  - destruct (known_event (events st1) (p_google_event_id g)) eqn:Ek.
    + apply known_event_spec in Ek.
      destruct (remote_create_answered _ _ _ _ Er)
        as (user & svc & body & created & Hu & Ht & Hb & Hi & -> & _).
      exists user, svc, body, created.
      split; [exact Hu|]. split; [exact Ht|]. split; [exact Hb|].
      split; [exact Hi|].
      eapply has_id_insert_unlinked; [exact Hf| |exact Ek]. reflexivity.
    + exists (set_google_event_id (p_google_event_id g) event).
      cbn [events with_events users st1].
      split; [reflexivity|]. split; [exact Hf|].
      split; [apply lookup_insert_eq|].
      split; [intros k Hne; rewrite !lookup_insert_ne by congruence; reflexivity|].
      split; [reflexivity|]. split; [auto|]. split; [|split].
      * cbn [google_event_id set_google_event_id]. split.
        -- intros (k & row & Hl & Hid). apply known_event_false in Ek.
           apply Ek. exists k, row. split; [|exact Hid].
           cbn [events with_events st1]. rewrite lookup_insert_ne; [exact Hl|].
           intros <-. congruence.
        -- apply (remote_create_linked _ _ _ _ Er).
      * intros Hno. destruct (Hoff Hno) as [Hg _]. discriminate.
      * apply (Hdel (set_google_event_id (p_google_event_id g) event)).
        cbn [events with_events st1]. apply insert_insert_eq.
  - exists event. cbn [events with_events users st1].
    split; [reflexivity|]. split; [exact Hf|]. split; [apply lookup_insert_eq|].
    split; [intros k Hne; apply lookup_insert_ne; congruence|].
    split; [reflexivity|]. split; [auto|]. split; [exact I|]. split.
    + intros Hno. destruct (Hoff Hno) as [_ ->]. auto.
    + apply (Hdel event). reflexivity.
  - exists event. cbn [events with_events users st1].
    split; [reflexivity|]. split; [exact Hf|]. split; [apply lookup_insert_eq|].
    split; [intros k Hne; apply lookup_insert_ne; congruence|].
    split; [reflexivity|]. split; [auto|]. split; [exact I|]. split.
    + intros Hno. destruct (Hoff Hno) as [Hg _]. discriminate.
    + apply (Hdel event). reflexivity.
Qed.

(** The writes the two endpoints can send for a row. *)
Lemma on_remote_cases {A} (row : EventRow) (st : Store)
    (call : service -> string -> result A * list Call) :
  on_remote row st call = [] \/
  exists id user svc,
    linked row = Some id /\
    user_by_id (users st) (event_user_id (details row)) = Some user /\
    token_set (calendar_token user) = true /\
    build_service user = Ok svc /\
    on_remote row st call = snd (call svc id).
Proof.
  unfold on_remote.
  destruct (linked row) as [id|]; [|left; reflexivity].
  destruct (user_by_id (users st) (event_user_id (details row))) as [user|];
    [|left; reflexivity].
  destruct (token_set (calendar_token user)) eqn:Et; [|left; reflexivity].
  destruct (build_service user) as [svc|] eqn:Eb; [|left; reflexivity].
  right. exists id, user, svc. auto.
Qed.

(** X20. Updating and deleting an event are local first. For a key that
    is not stored both answer 404, change nothing and send nothing. For a
    stored row the update answers 200 with the row after the assignments
    of the request, stored under the same key, and the deletion answers
    200 and removes the key; in both every other row stays as it was,
    whatever the provider does. A write is sent to the provider only for
    a row that has an external id and whose user is stored and has a
    calendar token, on the service built for that user, and there is at
    most one: a deletion of that id, or an update of that id whose body
    is the event the provider has, with the title, the description, the
    location and the times of the request put in; the attendees of the
    request are stored locally and are not sent. *)
Theorem update_and_delete_local_first (event_id : Z)
    (request : UpdateEventRequest) (st : Store) :
  match events st !! event_id with
  | None =>
      update_event event_id request st
      = (HTTPException 404 "Event not found", st, []) /\
      delete_event event_id st = (HTTPException 404 "Event not found", st, [])
  | Some row =>
      let row1 := apply_request request row in
      (exists calls,
          update_event event_id request st
          = (Http200 row1, with_events st (<[event_id := row1]> (events st)), calls) /\
          (calls = [] \/
           exists id user svc fetched,
             linked row = Some id /\
             user_by_id (users st) (event_user_id (details row)) = Some user /\
             token_set (calendar_token user) = true /\
             build_service user = Ok svc /\
             events_get svc id = Ok fetched /\
             calls = [Update id (apply_data (update_data request) fetched)] /\
             ge_attendees (apply_data (update_data request) fetched)
             = ge_attendees fetched)) /\
      (google_event_id row1 = google_event_id row /\
       event_user_id (details row1) = event_user_id (details row) /\
       created_from_email (details row1) = created_from_email (details row) /\
       attendees (details row1) = match u_attendees request with
                                  | Some l => texts l
                                  | None => attendees (details row) end) /\
      (exists calls,
          delete_event event_id st
          = (Http200 "Event deleted successfully",
             with_events st (delete event_id (events st)), calls) /\
          (calls = [] \/
           exists id user svc,
             linked row = Some id /\
             user_by_id (users st) (event_user_id (details row)) = Some user /\
             token_set (calendar_token user) = true /\
             build_service user = Ok svc /\
             calls = [Delete id]))
  end.
Proof.
  unfold update_event, delete_event.
  destruct (events st !! event_id) as [row|] eqn:E; [|split; reflexivity].
  cbv zeta. split; [|split].
  - eexists. split; [reflexivity|].
    match goal with |- on_remote ?r ?s ?c = [] \/ _ =>
      destruct (on_remote_cases r s c)
        as [Hn|(id & user & svc & Hl & Hu & Ht & Hb & Hc)]
    end; [left; exact Hn|].
    rewrite Hc. unfold CalendarService.update_event.
    destruct (events_get svc id) as [fetched|] eqn:Eg; [|left; reflexivity].
    right. exists id, user, svc, fetched. repeat split; assumption.
  - repeat split.
  - eexists. split; [reflexivity|].
    match goal with |- on_remote ?r ?s ?c = [] \/ _ =>
      destruct (on_remote_cases r s c)
        as [Hn|(id & user & svc & Hl & Hu & Ht & Hb & Hc)]
    end; [left; exact Hn|].
    right. exists id, user, svc. rewrite Hc. repeat split; assumption.
Qed.

Lemma insert_by_start_perm x l : Permutation (insert_by_start x l) (x :: l).
Proof.
  induction l as [|y l IH]; cbn [insert_by_start]; [reflexivity|].
  destruct (start_time (details (snd x)) <? start_time (details (snd y)));
    [reflexivity|].
  rewrite IH. apply perm_swap.
Qed.

Lemma order_by_start_time_perm l : Permutation (order_by_start_time l) l.
Proof.
  unfold order_by_start_time.
  induction l as [|x l IH]; cbn [fold_right]; [reflexivity|].
  rewrite insert_by_start_perm, IH. reflexivity.
Qed.

Lemma insert_by_start_sorted x l :
  StronglySorted by_start l -> StronglySorted by_start (insert_by_start x l).
Proof.
  induction l as [|y l IH]; cbn [insert_by_start]; intros Hs.
  - repeat constructor.
  - apply StronglySorted_inv in Hs. destruct Hs as [Hl Hy].
    destruct (start_time (details (snd x)) <? start_time (details (snd y))) eqn:E.
    + apply Z.ltb_lt in E. constructor; [constructor; assumption|].
      constructor; [unfold by_start; lia|].
      eapply List.Forall_impl; [|exact Hy]. cbv beta. unfold by_start. intros; lia.
    + apply Z.ltb_ge in E. constructor; [apply IH, Hl|].
      apply List.Forall_forall. intros z Hz.
      apply (Permutation_in _ (insert_by_start_perm x l)) in Hz.
      destruct Hz as [<-|Hz]; [exact E|].
      rewrite List.Forall_forall in Hy. apply Hy, Hz.
Qed.

Lemma order_by_start_time_sorted l : StronglySorted by_start (order_by_start_time l).
Proof.
  unfold order_by_start_time. induction l as [|x l IH]; cbn [fold_right].
  - constructor.
  - apply insert_by_start_sorted, IH.
Qed.

(** X21. The answer of the event listing. For a limit that is not
    negative the listing returns stored events only, each at most once,
    in the order of their start times, at most [limit] of them; with a
    start date every event returned starts at that date or later, with an
    end date every event returned ends at that date or earlier; and when
    the limit is not below the number of stored events it returns every
    stored event that lies within the two dates. *)
Theorem get_events_answer (start_date end_date : option datetime) (limit : Z)
    (st : Store) :
  let within := fun row : EventRow =>
    (forall d, start_date = Some d -> d <= start_time (details row)) /\
    (forall d, end_date = Some d -> end_time (details row) <= d) in
  match get_events start_date end_date limit st with
  | Some rows =>
      0 <= limit /\
      (forall k row, In (k, row) rows -> events st !! k = Some row /\ within row) /\
      StronglySorted by_start rows /\
      NoDup (map fst rows) /\
      Z.of_nat (length rows) <= limit /\
      (Z.of_nat (size (events st)) <= limit ->
       forall k row, events st !! k = Some row -> within row -> In (k, row) rows)
  | None => limit < 0
  end.
Proof.
  intros within. unfold get_events, limit_to. cbv zeta.
  destruct (limit <? 0) eqn:El; [apply Z.ltb_lt, El|]. apply Z.ltb_ge in El.
  set (q1 := match start_date with
             | Some d => List.filter
                 (fun kr : Z * EventRow => start_time (details (snd kr)) >=? d)
                 (map_to_list (events st))
             | None => map_to_list (events st) end).
  set (q2 := match end_date with
             | Some d => List.filter
                 (fun kr : Z * EventRow => end_time (details (snd kr)) <=? d) q1
             | None => q1 end).
  assert (forall k row, In (k, row) q2 <-> events st !! k = Some row /\ within row)
    as Hq.
  { intros k row. unfold within.
    assert (In (k, row) q2 <->
            In (k, row) q1 /\ forall d, end_date = Some d -> end_time (details row) <= d)
      as ->.
    { unfold q2. destruct end_date as [d|].
      - rewrite filter_In. cbn [snd]. rewrite Z.leb_le. split.
        + intros [Hin Hd]. split; [exact Hin|]. intros d' [= <-]. exact Hd.
        + intros [Hin Hd]. auto.
      - split; [intros Hin; split; [exact Hin | discriminate] | tauto]. }
    assert (In (k, row) q1 <->
            events st !! k = Some row /\
            forall d, start_date = Some d -> d <= start_time (details row)) as ->.
    { unfold q1. destruct start_date as [d|].
      - rewrite filter_In. cbn [snd]. rewrite Z.geb_leb, Z.leb_le.
        rewrite <- list_elem_of_In, elem_of_map_to_list. split.
        + intros [Hin Hd]. split; [exact Hin|]. intros d' [= <-]. exact Hd.
        + intros [Hin Hd]. auto.
      - rewrite <- list_elem_of_In, elem_of_map_to_list.
        split; [intros Hin; split; [exact Hin | discriminate] | tauto]. }
    tauto. }
  assert (q2 `sublist_of` map_to_list (events st)) as Hsub.
  { unfold q2, q1. destruct end_date, start_date;
      repeat (etransitivity; [apply ReminderFacts.list_filter_sublist|]);
      reflexivity. }
  split; [exact El|]. split; [|split; [|split; [|split]]].
  - intros k row Hin. apply Hq.
    eapply Permutation_in; [apply order_by_start_time_perm|].
    eapply CalendarFacts.in_firstn, Hin.
  - apply ReminderFacts.sorted_take, order_by_start_time_sorted.
  - apply (sublist_NoDup _ (map fst (order_by_start_time q2))).
    + rewrite (Permutation_map fst (order_by_start_time_perm _)).
      apply (sublist_NoDup _ (map fst (map_to_list (events st))));
        [apply (NoDup_fst_map_to_list (events st))|].
      apply fmap_sublist, Hsub.
    + apply fmap_sublist, sublist_take.
  - rewrite length_take. lia.
  - intros Hsize k row Hr Hw. rewrite take_ge.
    + eapply Permutation_in; [symmetry; apply order_by_start_time_perm|].
      apply Hq. tauto.
    + rewrite (Permutation_length (order_by_start_time_perm _)).
      apply sublist_length in Hsub. rewrite length_map_to_list in Hsub. lia.
Qed.

End Facts.

(** Two events are fetched; the second has a start that is no date:
    nothing is added, not even the first. *)
Lemma sync_calendar_all_or_nothing_example :
  let listed :=
    [Samples.google_event "e1" "2024-01-15T10:00:00Z" "2024-01-15T11:00:00Z";
     Samples.google_event "e2" "tomorrow" "2024-01-16T11:00:00Z"] in
  let st := {| users := [Samples.connected]; events := ∅ |} in
  @sync_calendar_events Examples.library (Samples.provider listed) Samples.format
    (Calendar.at_time Examples.monday 8 0) st
  = (HTTPException 500 "Failed to sync calendar events", st).
Proof.
  intros listed st.
  apply (@sync_calendar_all_or_nothing Examples.library (Samples.provider listed)
           Samples.format (Calendar.at_time Examples.monday 8 0) st
           Samples.connected tt (map _parse_event listed));
    try reflexivity.
  left. exists (_parse_event (Samples.google_event "e2" "tomorrow" "2024-01-16T11:00:00Z")).
  eexists. split; [right; left; reflexivity|].
  split; vm_compute; reflexivity.
Defined.

(** One event is fetched and stored; the second run adds nothing. *)
Lemma sync_calendar_idempotent_example :
  let listed :=
    [Samples.google_event "e1" "2024-01-15T10:00:00Z" "2024-01-15T11:00:00Z"] in
  let st := {| users := [Samples.connected]; events := ∅ |} in
  let first := @sync_calendar_events Examples.library (Samples.provider listed)
                 Samples.format (Calendar.at_time Examples.monday 8 0) st in
  fst first = Http200 "Synced 1 events from Google Calendar" /\
  @sync_calendar_events Examples.library (Samples.provider listed) Samples.format
    (Calendar.at_time Examples.monday 9 0) (snd first)
  = (Http200 "Synced 0 events from Google Calendar", snd first).
Proof.
  intros listed st first. split; [vm_compute; reflexivity|].
  apply (@sync_calendar_idempotent Examples.library (Samples.provider listed)
           Samples.format (Calendar.at_time Examples.monday 8 0)
           (Calendar.at_time Examples.monday 9 0) st (snd first)
           "Synced 1 events from Google Calendar").
  - vm_compute. reflexivity.
  - intros svc. reflexivity.
Defined.

End EventFacts.

(** ** The summariser and its fallback *)

Module ExtractorFacts.

Import Models LLM.

Section Facts.

Context `{Library} `{Provider}.
Variable settings : Settings.

Lemma try_except_cases {A} (body : result A) (handler : exn -> A) :
  (exists a, body = Ok a /\ try_except body handler = a) \/
  (exists e, body = Raise e /\ try_except body handler = handler e).
Proof. destruct body as [a|e]; [left | right]; eauto. Qed.

(** X22. The summariser degrades to its fallback and never to nothing.
    For every content and model name the result is either the JSON the
    named provider's reply parses to, or the fallback summary, which says
    so, previews the first 100 characters of the content and has the
    neutral values (urgency 5, no action item). It is the fallback when
    the name is neither openai nor anthropic, when the key of the named
    provider is empty (the other provider is not tried, whether it has a
    key or not), when the call raises and when the reply is no JSON. *)
Theorem summarize_email_degrades (email_content model : string) :
  let answer := summarize_email settings email_content model in
  let fallback := _fallback_summary email_content in
  (answer = fallback \/
   (model = "openai" /\ OPENAI_API_KEY settings <> "" /\
    exists text,
      openai_acreate (OPENAI_MODEL settings)
        "You are a helpful email analysis assistant. Always respond with valid JSON."
        (summary_prompt email_content) 1000 0.3 = Ok text /\
      json_loads text = Ok answer) \/
   (model = "anthropic" /\ ANTHROPIC_API_KEY settings <> "" /\
    exists text,
      anthropic_create (ANTHROPIC_MODEL settings) 1000
        (summary_prompt email_content) = Ok text /\
      json_loads text = Ok answer)) /\
  (model <> "openai" -> model <> "anthropic" -> answer = fallback) /\
  (model = "openai" -> OPENAI_API_KEY settings = "" -> answer = fallback) /\
  (model = "anthropic" -> ANTHROPIC_API_KEY settings = "" -> answer = fallback) /\
  (model = "openai" ->
   (forall text,
       openai_acreate (OPENAI_MODEL settings)
         "You are a helpful email analysis assistant. Always respond with valid JSON."
         (summary_prompt email_content) 1000 0.3 = Ok text ->
       exists e, json_loads text = Raise e) ->
   answer = fallback) /\
  (py_get fallback "summary" JNull
   = Ok (JStr ("Email summary unavailable. Content preview: "
               +:+ take_prefix 100 email_content +:+ "...")) /\
   py_get fallback "key_points" JNull = Ok (JList [JStr "LLM service unavailable"]) /\
   py_get fallback "action_items" JNull = Ok (JList []) /\
   py_get fallback "urgency_score" JNull = Ok (JNum 5)).
Proof.
  cbv zeta. unfold summarize_email.
  split; [|split; [|split; [|split; [|split]]]].
  - destruct (String.eqb_spec model "openai") as [->|N1].
    + destruct (OPENAI_API_KEY settings) as [|c k] eqn:Ek; cbn [truthy andb].
      * left. reflexivity.
      * unfold _openai_completion.
        destruct (openai_acreate _ _ _ _ _) as [text|] eqn:Ec;
          cbn [mbind result_bind]; [|left; reflexivity].
        destruct (json_loads text) as [v|] eqn:Ej; [|left; reflexivity].
        right. left. split; [reflexivity|]. split; [discriminate|].
        exists text. split; [reflexivity | exact Ej].
    + cbn [andb]. destruct (String.eqb_spec model "anthropic") as [->|N2].
      * destruct (ANTHROPIC_API_KEY settings) as [|c k] eqn:Ek; cbn [truthy andb].
        -- left. reflexivity.
        -- unfold _anthropic_completion.
           destruct (anthropic_create _ _ _) as [text|] eqn:Ec;
             cbn [mbind result_bind]; [|left; reflexivity].
           destruct (json_loads text) as [v|] eqn:Ej; [|left; reflexivity].
           right. right. split; [reflexivity|]. split; [discriminate|].
           exists text. split; [reflexivity | exact Ej].
      * left. reflexivity.
  - intros N1 N2. apply String.eqb_neq in N1, N2. rewrite N1, N2. reflexivity.
  - intros -> ->. reflexivity.
  - intros -> ->. reflexivity.
  - intros -> Hbad. cbn [String.eqb Ascii.eqb Bool.eqb andb].
    destruct (truthy (OPENAI_API_KEY settings)); [|reflexivity].
    unfold _openai_completion.
    destruct (openai_acreate _ _ _ _ _) as [text|] eqn:Ec;
      cbn [mbind result_bind]; [|reflexivity].
    destruct (Hbad text eq_refl) as [e ->]. reflexivity.
  - repeat split.
Qed.

End Facts.

End ExtractorFacts.

(** ** Keywords and action items *)

Module PhraseFacts.

Import Phrases StringFacts.

(** *** Occurrences of a string in another *)

Lemma occurs_in_refl (s : string) : occurs_in s s.
Proof. exists "", "". rewrite app_empty_l, app_empty_r. reflexivity. Qed.

Lemma occurs_in_trans (a b c : string) :
  occurs_in a b -> occurs_in b c -> occurs_in a c.
Proof.
  intros (p1 & q1 & ->) (p2 & q2 & ->).
  exists (p2 +:+ p1), (q1 +:+ q2). rewrite !app_assoc. reflexivity.
Qed.

Lemma occurs_in_prefix (a b : string) : occurs_in a (a +:+ b).
Proof. exists "", b. reflexivity. Qed.

Lemma occurs_in_suffix (a b : string) : occurs_in b (a +:+ b).
Proof. exists a, "". rewrite app_empty_r. reflexivity. Qed.

Lemma all_chars_app (p : ascii -> bool) (a b : string) :
  all_chars p (a +:+ b) = all_chars p a && all_chars p b.
Proof.
  induction a as [|c a IH]; [reflexivity|].
  rewrite app_cons. cbn [all_chars]. rewrite IH, andb_assoc. reflexivity.
Qed.

Lemma all_chars_occurs (p : ascii -> bool) (a b : string) :
  occurs_in a b -> all_chars p b = true -> all_chars p a = true.
Proof.
  intros (pre & post & ->). rewrite !all_chars_app, !andb_true_iff. tauto.
Qed.

Lemma length_app (a b : string) :
  String.length (a +:+ b) = (String.length a + String.length b)%nat.
Proof.
  induction a as [|c a IH]; [reflexivity|].
  rewrite app_cons. cbn [String.length]. rewrite IH. reflexivity.
Qed.

(** *** The words *)

Lemma word_runs_spec (p : ascii -> bool) (s : string) :
  forall run w,
    In w (word_runs s run) ->
    occurs_in w (run +:+ s) /\
    (all_chars p run = true -> all_chars p s = true -> all_chars p w = true).
Proof.
  induction s as [|c s IH]; intros run w Hin; cbn [word_runs] in Hin.
  - destruct (truthy run); [|destruct Hin].
    destruct Hin as [<-|[]]. rewrite app_empty_r.
    split; [apply occurs_in_refl | tauto].
  - destruct (is_word_char c).
    + apply IH in Hin. destruct Hin as [Ho Hp].
      rewrite app_assoc, app_cons, app_empty_l in Ho. split; [exact Ho|].
      intros Hrun Hs. cbn [all_chars] in Hs. apply andb_true_iff in Hs.
      apply Hp; [|tauto].
      rewrite all_chars_app. cbn [all_chars]. rewrite Hrun, andb_true_r. cbn. tauto.
    + apply in_app_iff in Hin. destruct Hin as [Hin|Hin].
      * destruct (truthy run); [|destruct Hin]. destruct Hin as [<-|[]].
        split; [apply occurs_in_prefix | tauto].
      * apply IH in Hin. destruct Hin as [Ho Hp]. rewrite app_empty_l in Ho.
        split.
        -- eapply occurs_in_trans; [exact Ho|].
           eapply occurs_in_trans; [|apply occurs_in_suffix].
           exists (String c ""), "". rewrite app_empty_r. reflexivity.
        -- intros _ Hs. cbn [all_chars] in Hs. apply andb_true_iff in Hs.
           apply Hp; [reflexivity | tauto].
Qed.

Lemma lower_fixed (s : string) :
  all_chars (fun c => Ascii.eqb (lower_char c) c) (lower s) = true.
Proof.
  induction s as [|c s IH]; [reflexivity|].
  cbn [lower all_chars]. rewrite lower_char_idempotent, Ascii.eqb_refl. exact IH.
Qed.

Lemma lower_letter (c : ascii) :
  is_letter c = true -> Ascii.eqb (lower_char c) c = true -> is_lower c = true.
Proof. destruct c as [[] [] [] [] [] [] [] []]; vm_compute; congruence. Qed.

Lemma all_chars_both (p q r : ascii -> bool) (s : string) :
  (forall c, p c = true -> q c = true -> r c = true) ->
  all_chars p s = true -> all_chars q s = true -> all_chars r s = true.
Proof.
  intros Hpq. induction s as [|c s IH]; [reflexivity|].
  cbn [all_chars]. rewrite !andb_true_iff. intros [Hp Hps] [Hq Hqs]. auto.
Qed.

(** A counted word is a run of four or more lower-case letters of the
    lowered text and is no stop word. *)
Lemma counted_word (text w : string) :
  In w (counted_words text) ->
  4 <= len w /\ all_chars is_lower w = true /\ occurs_in w (lower text) /\
  is_in stop_words w = false.
Proof.
  unfold counted_words, findall_words. cbv zeta. rewrite !filter_In.
  rewrite !andb_true_iff, negb_true_iff, Z.ltb_lt, Z.leb_le.
  intros ((Hin & Hl & _) & Hs & Hlen).
  apply (word_runs_spec (fun c => Ascii.eqb (lower_char c) c)) in Hin.
  destruct Hin as [Ho Hp]. rewrite app_empty_l in Ho.
  split; [lia|]. split; [|split; assumption].
  apply (all_chars_both is_letter (fun c => Ascii.eqb (lower_char c) c));
    [apply lower_letter | exact Hl|].
  apply Hp; [reflexivity | apply lower_fixed].
Qed.

(** *** The counts *)

Lemma bump_keys (word : string) (d : list (string * Z)) :
  map fst (bump word d) = map fst d /\ In word (map fst d) \/
  map fst (bump word d) = (map fst d ++ [word])%list /\ ~ In word (map fst d).
Proof.
  induction d as [|[k n] d IH]; cbn [bump map fst].
  - right. split; [reflexivity | intros []].
  - destruct (String.eqb_spec k word) as [->|Hne]; cbn [map fst].
    + left. split; [reflexivity | left; reflexivity].
    + destruct IH as [[-> Hin]|[-> Hnot]].
      * left. split; [reflexivity | right; exact Hin].
      * right. split; [reflexivity|]. intros [E|Hin]; [congruence | tauto].
Qed.

Lemma bump_count (word : string) (d : list (string * Z)) (k : string) (n : Z) :
  NoDup (map fst d) ->
  In (k, n) (bump word d) ->
  (k = word /\ (In (k, n - 1) d \/ (n = 1 /\ ~ In k (map fst d)))) \/
  (k <> word /\ In (k, n) d).
Proof.
  induction d as [|[k0 n0] d IH]; cbn [bump map fst]; intros Hnd Hin.
  - destruct Hin as [[= <- <-]|[]]. left. split; [reflexivity|].
    right. split; [reflexivity | intros []].
  - apply NoDup_cons in Hnd. destruct Hnd as [Hk0 Hnd].
    destruct (String.eqb_spec k0 word) as [->|Hne].
    + destruct Hin as [[= <- <-]|Hin].
      * left. split; [reflexivity|]. left. left. f_equal. lia.
      * right. split; [|right; exact Hin].
        intros ->. apply Hk0. apply list_elem_of_In, in_map_iff.
        exists (word, n). auto.
    + destruct Hin as [[= <- <-]|Hin].
      * right. split; [exact Hne | left; reflexivity].
      * destruct (IH Hnd Hin) as [(-> & [Hd|(-> & Hnot)])|(Hkw & Hd)].
        -- left. split; [reflexivity|]. left. right. exact Hd.
        -- left. split; [reflexivity|]. right. split; [reflexivity|].
           intros [E|Hd]; [congruence | tauto].
        -- right. split; [exact Hkw | right; exact Hd].
Qed.

Lemma times_snoc (word : string) (words : list string) (w : string) :
  times word (words ++ [w]) = times word words + (if String.eqb word w then 1 else 0).
Proof.
  unfold times. rewrite List.filter_app, List.length_app. cbn [List.filter].
  destruct (String.eqb word w); cbn [length]; lia.
Qed.

Lemma times_zero (word : string) (words : list string) :
  ~ In word words -> times word words = 0.
Proof.
  intros Hnot. unfold times. induction words as [|w ws IH]; [reflexivity|].
  cbn [List.filter]. destruct (String.eqb_spec word w) as [->|Hne].
  - exfalso. apply Hnot. left. reflexivity.
  - apply IH. intros Hin. apply Hnot. right. exact Hin.
Qed.

(** The dict after the counting loop: its keys are the words, each once,
    and each has the number of its occurrences. *)
Lemma word_freq_spec (words : list string) :
  let word_freq := fold_left (fun d w => bump w d) words [] in
  NoDup (map fst word_freq) /\
  (forall w, In w (map fst word_freq) <-> In w words) /\
  (forall w n, In (w, n) word_freq -> n = times w words).
Proof.
  cbv zeta. induction words as [|w ws IH] using rev_ind.
  - cbn. split; [constructor|]. split; [tauto | intros w n []].
  - rewrite fold_left_app. cbn [fold_left].
    destruct IH as (Hnd & Hkeys & Hcount).
    set (d := fold_left (fun d w => bump w d) ws []) in *.
    split; [|split].
    + destruct (bump_keys w d) as [[-> _]|[-> Hnot]]; [exact Hnd|].
      apply NoDup_app. split; [exact Hnd|]. split; [|apply NoDup_singleton].
      intros x Hx Hx'. apply list_elem_of_In in Hx.
      apply list_elem_of_In in Hx'. destruct Hx' as [<-|[]]. tauto.
    + intros x. rewrite in_app_iff. cbn [In].
      destruct (bump_keys w d) as [[-> Hin]|[-> Hnot]].
      * rewrite Hkeys. split; [tauto|]. intros [Hx|[<-|[]]]; [exact Hx|].
        apply Hkeys, Hin.
      * rewrite in_app_iff, Hkeys. cbn [In]. tauto.
    + intros x n Hin. rewrite times_snoc.
      destruct (bump_count w d x n Hnd Hin) as [(-> & [Hd|(-> & Hnot)])|(Hne & Hd)].
      * rewrite String.eqb_refl. apply Hcount in Hd. lia.
      * rewrite String.eqb_refl, times_zero; [reflexivity|].
        intros Hin'. apply Hnot, Hkeys, Hin'.
      * apply String.eqb_neq in Hne. rewrite Hne. apply Hcount in Hd. lia.
Qed.

(** *** The sort *)

Lemma insert_desc_perm x l : Permutation (insert_desc x l) (x :: l).
Proof.
  induction l as [|y l IH]; cbn [insert_desc]; [reflexivity|].
  destruct (snd y <? snd x); [reflexivity|]. rewrite IH. apply perm_swap.
Qed.

Lemma sorted_desc_perm l : Permutation (sorted_desc l) l.
Proof.
  unfold sorted_desc.
  assert (forall acc, Permutation (fold_left (fun acc x => insert_desc x acc) l acc)
                                  (acc ++ l)) as Hgen.
  { induction l as [|x l IH]; intros acc; cbn [fold_left].
    - rewrite app_nil_r. reflexivity.
    - rewrite IH, insert_desc_perm. cbn [app]. apply Permutation_middle. }
  apply (Hgen []).
Qed.

Lemma insert_desc_sorted x l :
  StronglySorted by_count l -> StronglySorted by_count (insert_desc x l).
Proof.
  induction l as [|y l IH]; cbn [insert_desc]; intros Hs.
  - repeat constructor.
  - apply StronglySorted_inv in Hs. destruct Hs as [Hl Hy].
    destruct (snd y <? snd x) eqn:E.
    + apply Z.ltb_lt in E. constructor; [constructor; assumption|].
      constructor; [unfold by_count; lia|].
      eapply List.Forall_impl; [|exact Hy]. cbv beta. unfold by_count. intros; lia.
    + apply Z.ltb_ge in E. constructor; [apply IH, Hl|].
      apply List.Forall_forall. intros z Hz.
      apply (Permutation_in _ (insert_desc_perm x l)) in Hz.
      destruct Hz as [<-|Hz]; [exact E|].
      rewrite List.Forall_forall in Hy. apply Hy, Hz.
Qed.

Lemma sorted_desc_sorted l : StronglySorted by_count (sorted_desc l).
Proof.
  unfold sorted_desc.
  assert (forall acc, StronglySorted by_count acc ->
            StronglySorted by_count (fold_left (fun acc x => insert_desc x acc) l acc))
    as Hgen.
  { induction l as [|x l IH]; intros acc Hacc; cbn [fold_left]; [exact Hacc|].
    apply IH, insert_desc_sorted, Hacc. }
  apply Hgen. constructor.
Qed.

Lemma slice_to_take {A} (n : Z) (l : list A) :
  exists m : nat, slice_to n l = take m l /\ (0 <= n -> m = Z.to_nat n).
Proof.
  unfold slice_to. destruct (n <? 0) eqn:E.
  - apply Z.ltb_lt in E. eexists. split; [reflexivity | lia].
  - eexists. split; [reflexivity | reflexivity].
Qed.

Lemma sorted_map {A B} (f : A -> B) (R : A -> A -> Prop) (Q : B -> B -> Prop)
    (l : list A) :
  (forall a b, In a l -> In b l -> R a b -> Q (f a) (f b)) ->
  StronglySorted R l -> StronglySorted Q (map f l).
Proof.
  intros HRQ Hs. induction Hs as [|a l Hs IH Ha]; cbn [map]; [constructor|].
  constructor.
  - apply IH. intros x y Hx Hy. apply HRQ; right; assumption.
  - apply List.Forall_forall. intros y Hy. apply in_map_iff in Hy.
    destruct Hy as (b & <- & Hb). rewrite List.Forall_forall in Ha.
    apply HRQ; [left; reflexivity | right; exact Hb | apply Ha, Hb].
Qed.

(** X23. The keywords of a text. For every text and every bound, the
    keywords are distinct words of the text: each is a run of four or
    more letters of the lowered text, in lower case, and no stop word;
    they come in the order of their numbers of occurrences, the most
    frequent first; with a bound that is not negative there are at most
    that many, and when the bound is not below the number of counted
    words every counted word is among them. *)
Theorem extract_keywords_spec (text : string) (max_keywords : Z) :
  let keywords := extract_keywords text max_keywords in
  NoDup keywords /\
  (forall w, In w keywords ->
             In w (counted_words text) /\
             4 <= len w /\ all_chars is_lower w = true /\
             occurs_in w (lower text) /\ is_in stop_words w = false) /\
  StronglySorted (more_frequent text) keywords /\
  (0 <= max_keywords -> Z.of_nat (length keywords) <= max_keywords) /\
  (Z.of_nat (length (counted_words text)) <= max_keywords ->
   forall w, In w (counted_words text) -> In w keywords).
Proof.
  cbv zeta. unfold extract_keywords. cbv zeta.
  destruct (word_freq_spec (counted_words text)) as (Hnd & Hkeys & Hcount).
  set (word_freq := fold_left (fun d w => bump w d) (counted_words text) []) in *.
  destruct (slice_to_take max_keywords (sorted_desc word_freq)) as (m & -> & Hm).
  assert (forall x, In x (take m (sorted_desc word_freq)) -> In x word_freq) as Hin.
  { intros x Hx. apply CalendarFacts.in_firstn in Hx.
    eapply Permutation_in; [apply sorted_desc_perm | exact Hx]. }
  split; [|split; [|split; [|split]]].
  - apply (sublist_NoDup _ (map fst (sorted_desc word_freq))).
    + rewrite (Permutation_map fst (sorted_desc_perm _)). exact Hnd.
    + apply fmap_sublist, sublist_take.
  - intros w Hw. apply in_map_iff in Hw. destruct Hw as ([w' n] & <- & Hx).
    apply Hin in Hx. cbn [fst].
    assert (In w' (counted_words text)) as Hc
      by (apply Hkeys, in_map_iff; exists (w', n); auto).
    split; [exact Hc | apply counted_word, Hc].
  - apply (sorted_map fst by_count).
    + intros [a na] [b nb] Ha Hb Hab. unfold by_count in Hab. cbn [fst snd] in *.
      apply Hin, Hcount in Ha. apply Hin, Hcount in Hb.
      unfold more_frequent, occurrences. lia.
    + apply ReminderFacts.sorted_take, sorted_desc_sorted.
  - intros Hn. rewrite length_map, length_take. rewrite (Hm Hn). lia.
  - intros Hall w Hw.
    assert (0 <= max_keywords) as Hn by lia. rewrite (Hm Hn).
    rewrite take_ge.
    + apply Hkeys in Hw. apply in_map_iff in Hw. destruct Hw as (x & <- & Hx).
      apply in_map. eapply Permutation_in; [symmetry; apply sorted_desc_perm | exact Hx].
    + rewrite (Permutation_length (sorted_desc_perm _)).
      assert (length word_freq <= length (counted_words text))%nat as Hle.
      { rewrite <- (length_map fst word_freq).
        apply NoDup_incl_length.
        - apply NoDup_ListNoDup, Hnd.
        - intros x Hx. apply Hkeys, Hx. }
      lia.
Qed.

(** *** The action items *)

Lemma clause_prefix (s : string) : exists rest, s = clause s +:+ rest.
Proof.
  induction s as [|c s (rest & IH)]; [exists ""; reflexivity|].
  cbn [clause]. destruct (is_terminator c).
  - exists (String c s). reflexivity.
  - exists rest. rewrite app_cons, <- IH. reflexivity.
Qed.

Lemma clause_plain (s : string) :
  all_chars (fun c => negb (is_terminator c)) (clause s) = true.
Proof.
  induction s as [|c s IH]; [reflexivity|].
  cbn [clause]. destruct (is_terminator c) eqn:E; [reflexivity|].
  cbn [all_chars]. rewrite E, IH. reflexivity.
Qed.

Lemma drop_chars_suffix (n : nat) (s : string) :
  exists pre, s = pre +:+ drop_chars n s.
Proof.
  revert s. induction n as [|n IH]; intros s; [exists ""; destruct s; reflexivity|].
  destruct s as [|c s]; [exists ""; reflexivity|].
  cbn [drop_chars]. destruct (IH s) as (pre & Hpre).
  exists (String c pre). rewrite app_cons, <- Hpre. reflexivity.
Qed.

Lemma capture_spec (m : nat) (s g : string) (n : nat) :
  capture m s = Some (g, n) ->
  all_chars (fun c => negb (is_terminator c)) g = true /\ occurs_in g s.
Proof.
  unfold capture. cbv zeta.
  destruct (_ || _); [discriminate|]. intros [= <- _].
  match goal with |- context [drop_chars ?w _] => set (k := w) end.
  assert (occurs_in (drop_chars k (clause s)) (clause s)) as Ho.
  { destruct (drop_chars_suffix k (clause s)) as (pre & Hpre).
    rewrite Hpre at 2. apply occurs_in_suffix. }
  split.
  - eapply all_chars_occurs; [exact Ho | apply clause_plain].
  - eapply occurs_in_trans; [exact Ho|].
    destruct (clause_prefix s) as (rest & Hrest). rewrite Hrest at 2.
    apply occurs_in_prefix.
Qed.

Lemma skip_keyword_suffix (k s s' : string) :
  skip_keyword k s = Some s' -> occurs_in s' s.
Proof.
  revert s. induction k as [|a k IH]; intros s; cbn [skip_keyword].
  - intros [= <-]. apply occurs_in_refl.
  - destruct s as [|b s]; [discriminate|].
    destruct (Ascii.eqb a (lower_char b)); [|discriminate].
    intros Hs. apply IH in Hs. eapply occurs_in_trans; [exact Hs|].
    exists (String b ""), "". rewrite app_empty_r. reflexivity.
Qed.

Lemma match_here_spec (alts : list string) (c : bool) (m : nat) (s g : string)
    (n : nat) :
  match_here alts c m s = Some (g, n) ->
  all_chars (fun c => negb (is_terminator c)) g = true /\ occurs_in g s.
Proof.
  induction alts as [|k rest IH]; cbn [match_here]; [discriminate|].
  destruct (skip_keyword k s) as [s'|] eqn:Ek; [|exact IH].
  apply skip_keyword_suffix in Ek.
  assert (forall t, occurs_in t s ->
            match capture m t with
            | Some (group, n0) => Some (group, (String.length k + 0 + n0)%nat)
            | None => match_here rest c m s
            end = Some (g, n) \/
            match capture m t with
            | Some (group, n0) => Some (group, (String.length k + 1 + n0)%nat)
            | None => match_here rest c m s
            end = Some (g, n) ->
            all_chars (fun c => negb (is_terminator c)) g = true /\ occurs_in g s)
    as Hcap.
  { intros t Ht Hm.
    destruct (capture m t) as [[group n0]|] eqn:Ec.
    - assert (group = g) as <- by (destruct Hm as [Hm|Hm]; congruence).
      apply capture_spec in Ec. destruct Ec as [Hp Ho].
      split; [exact Hp|]. eapply occurs_in_trans; eassumption.
    - destruct Hm as [Hm|Hm]; apply IH, Hm. }
  destruct c.
  - destruct s' as [|c0 s'']; [exact IH|].
    destruct (Ascii.eqb c0 ":"); [|exact IH].
    intros Hm. apply (Hcap s''); [|right; exact Hm].
    eapply occurs_in_trans; [|exact Ek].
    exists (String c0 ""), "". rewrite app_empty_r. reflexivity.
  - intros Hm. apply (Hcap s'); [exact Ek | left; exact Hm].
Qed.

Lemma finditer_spec (p : pattern) (s : string) :
  forall skip g,
    In g (finditer p s skip) ->
    all_chars (fun c => negb (is_terminator c)) g = true /\ occurs_in g s.
Proof.
  induction s as [|c s IH]; intros skip g Hin; [destruct Hin|].
  assert (forall k, In g (finditer p s k) ->
            all_chars (fun c => negb (is_terminator c)) g = true /\
            occurs_in g (String c s)) as Hrest.
  { intros k Hk. apply IH in Hk. destruct Hk as [Hp Ho]. split; [exact Hp|].
    eapply occurs_in_trans; [exact Ho|].
    exists (String c ""), "". rewrite app_empty_r. reflexivity. }
  cbn [finditer] in Hin. destruct skip as [|k]; [|apply (Hrest k), Hin].
  destruct (match_here (alternatives p) (colon p) (min_spaces p) (String c s))
    as [[group n]|] eqn:Em; [|apply (Hrest O), Hin].
  destruct Hin as [<-|Hin]; [|eapply Hrest, Hin].
  eapply match_here_spec, Em.
Qed.

Lemma lstrip_suffix (s : string) : exists pre, s = pre +:+ lstrip s.
Proof.
  induction s as [|c s (pre & IH)]; [exists ""; reflexivity|].
  cbn [lstrip]. destruct (is_space c).
  - exists (String c pre). rewrite app_cons, <- IH. reflexivity.
  - exists "". reflexivity.
Qed.

Lemma rstrip_prefix (s : string) : exists post, s = rstrip s +:+ post.
Proof.
  induction s as [|c s (post & IH)]; [exists ""; reflexivity|].
  cbn [rstrip]. destruct (rstrip s) as [|d r] eqn:Er.
  - destruct (is_space c).
    + exists (String c s). reflexivity.
    + exists s. reflexivity.
  - exists post. rewrite app_cons, <- IH. reflexivity.
Qed.

Lemma strip_occurs (s : string) : occurs_in (strip s) s.
Proof.
  unfold strip. destruct (lstrip_suffix s) as (pre & Hpre).
  destruct (rstrip_prefix (lstrip s)) as (post & Hpost).
  exists pre, post. rewrite <- Hpost. exact Hpre.
Qed.

Lemma lstrip_head (s : string) :
  lstrip s = "" \/ exists c r, lstrip s = String c r /\ is_space c = false.
Proof.
  induction s as [|c s IH]; [left; reflexivity|].
  cbn [lstrip]. destruct (is_space c) eqn:E; [exact IH|].
  right. exists c, s. auto.
Qed.

Lemma rstrip_head (c : ascii) (s : string) :
  rstrip (String c s) = "" \/ exists r, rstrip (String c s) = String c r.
Proof.
  cbn [rstrip]. destruct (rstrip s) as [|d r].
  - destruct (is_space c); [left; reflexivity | right; exists ""; reflexivity].
  - right. eexists. reflexivity.
Qed.

Lemma rstrip_idempotent (s : string) : rstrip (rstrip s) = rstrip s.
Proof.
  induction s as [|c s IH]; [reflexivity|].
  cbn [rstrip]. destruct (rstrip s) as [|d r] eqn:Er.
  - destruct (is_space c) eqn:Ec; [reflexivity|].
    cbn [rstrip]. rewrite Ec. reflexivity.
  - cbn [rstrip]. cbn [rstrip] in IH. rewrite IH. reflexivity.
Qed.

Lemma strip_idempotent (s : string) : strip (strip s) = strip s.
Proof.
  unfold strip. destruct (lstrip_head s) as [->|(c & r & -> & Hc)]; [reflexivity|].
  destruct (rstrip_head c r) as [E|(r' & E)]; rewrite E; [reflexivity|].
  cbn [lstrip]. rewrite Hc, <- E. apply rstrip_idempotent.
Qed.

Lemma length_take_le {A} (n : nat) (l : list A) : (length (take n l) <= n)%nat.
Proof. rewrite length_take. lia. Qed.

(** X24. The action items of a text. For every text there are at most
    five items; each has more than ten characters, so a capture of ten
    characters or fewer is dropped; each is a piece of the text, without
    a full stop, an exclamation mark or a question mark in it, and with
    no whitespace at its start or at its end. *)
Theorem extract_action_items_spec (text : string) :
  let action_items := extract_action_items text in
  (length action_items <= 5)%nat /\
  forall item, In item action_items ->
    10 < len item /\
    all_chars (fun c => negb (is_terminator c)) item = true /\
    strip item = item /\
    occurs_in item text.
Proof.
  cbv zeta. unfold extract_action_items. cbv zeta.
  split; [apply length_take_le|].
  intros item Hin. apply CalendarFacts.in_firstn in Hin.
  apply in_flat_map in Hin. destruct Hin as (p & _ & Hin).
  unfold pattern_items in Hin. apply filter_In in Hin.
  destruct Hin as [Hin Hlen]. apply Z.ltb_lt in Hlen.
  apply in_map_iff in Hin. destruct Hin as (g & <- & Hg).
  apply finditer_spec in Hg. destruct Hg as [Hp Ho].
  split; [exact Hlen|]. split; [|split].
  - eapply all_chars_occurs; [apply strip_occurs | exact Hp].
  - apply strip_idempotent.
  - eapply occurs_in_trans; [apply strip_occurs | exact Ho].
Qed.

End PhraseFacts.

(** ** The scan against the calendar provider *)

Module RemoteScanFacts.

Import Models Calendar CalendarService PyFacts.

Lemma on_the_hour_mod (t : datetime) : on_the_hour t mod us_per_hour = 0.
Proof.
  unfold on_the_hour. pose proof CalendarFacts.us_per_hour_pos as Hpos.
  rewrite Zminus_mod, Z.mod_mod, Z.sub_diag by lia. reflexivity.
Qed.

Lemma on_the_hour_date (t : datetime) : date_of (on_the_hour t) = date_of t.
Proof.
  unfold on_the_hour, date_of.
  pose proof CalendarFacts.us_per_hour_pos as Hpos.
  replace (t - t mod us_per_hour) with (us_per_hour * (t / us_per_hour))
    by (pose proof (Z.div_mod t us_per_hour ltac:(lia)); lia).
  change us_per_day with (us_per_hour * 24).
  rewrite Z.div_mul_cancel_l by lia.
  rewrite Z.div_div by lia. reflexivity.
Qed.

Lemma replace_hour_whole (t : datetime) (h : Z) :
  t mod us_per_hour = 0 -> replace_hour t h = combine (date_of t) h.
Proof. unfold replace_hour. intros ->. lia. Qed.

Lemma next_day_mod (t : datetime) :
  t mod us_per_hour = 0 -> (t + days 1) mod us_per_hour = 0.
Proof.
  intros Ht. unfold days. change us_per_day with (24 * us_per_hour).
  rewrite Z.mul_assoc, Z.mod_add; [exact Ht | discriminate].
Qed.

Lemma next_day_date (t : datetime) : date_of (t + days 1) = date_of t + 1.
Proof.
  unfold date_of, days. rewrite Z.div_add; [reflexivity | discriminate].
Qed.

Lemma every_day_succ (duration : timedelta) (first : Z) (n : nat) :
  every_day duration first (S n)
  = (day_candidates duration first ++ every_day duration (first + 1) n)%list.
Proof.
  unfold every_day. cbn [seq flat_map].
  replace (first + Z.of_nat 0) with first by lia. f_equal.
  rewrite <- seq_shift, flat_map_concat_map, map_map, <- flat_map_concat_map.
  apply flat_map_ext. intros i.
  replace (first + Z.of_nat (S i)) with (first + 1 + Z.of_nat i) by lia.
  reflexivity.
Qed.

(** A text that is not read raises [ValueError]. *)
Lemma iso_fragment_error (s : string) (e : exn) :
  iso_fragment s = Raise e -> e = ValueError.
Proof.
  unfold iso_fragment. destruct (read_date s) as [[d [|c rest]]|];
    [discriminate | | congruence].
  destruct (read_time rest) as [[t tail]|]; [|congruence].
  destruct (String.eqb tail "" || String.eqb tail "+00:00"); congruence.
Qed.

Lemma filter_free_of_nothing (l : list slot) : List.filter (freeb []) l = l.
Proof. induction l as [|s l IH]; [reflexivity|]. cbn. rewrite IH. reflexivity. Qed.

Section Scan.

Context `{GoogleCalendar} `{Format} `{Zoned}.

(** Without busy intervals the loop of a day is the loop of the local
    scan without busy events. *)
Lemma scan_day_of_nothing (fuel : nat) (duration : timedelta)
    (day_end slot_start : datetime) (acc : list slot) :
  CalendarService.scan_day fuel [] duration day_end slot_start acc
  = Calendar.scan_day fuel [] duration day_end slot_start acc.
Proof.
  revert slot_start acc. induction fuel as [|fuel IH]; intros slot_start acc;
    [reflexivity|].
  cbn [CalendarService.scan_day Calendar.scan_day is_free conflict existsb].
  destruct (dt_add slot_start duration) as [slot_end|]; [|reflexivity].
  destruct (slot_end <=? day_end); [|reflexivity].
  destruct (dt_add slot_start (hours 1)) as [next|]; [|reflexivity].
  apply IH.
Qed.

(** The loop of one day without busy intervals lists every slot of the
    day. *)
Lemma scan_day_free (duration : timedelta) (d : Z) (acc : list slot) :
  0 <= d -> d + 1 <= max_ordinal -> 0 <= duration <= hours 8 ->
  CalendarService.scan_day (day_fuel duration) [] duration (combine d 17)
    (combine d 9) acc
  = Some (Ok (acc ++ day_candidates duration d)%list).
Proof.
  intros Hd Hm Hdur. rewrite scan_day_of_nothing.
  pose proof CalendarFacts.us_per_hour_pos as Hpos.
  assert (0 <= (hours 8 - duration) / us_per_hour) by (apply Z.div_pos; lia).
  replace (combine d 9) with (combine d 9 + hours (Z.of_nat 0))
    by (unfold hours; lia).
  destruct (Calendar.scan_day (day_fuel duration) [] duration (combine d 17)
              (combine d 9 + hours (Z.of_nat 0)) acc) as [[res|e]|] eqn:Eday.
  - apply CalendarFacts.scan_day_from in Eday.
    rewrite Nat.sub_0_r, filter_free_of_nothing in Eday. rewrite Eday.
    reflexivity.
  - exfalso. revert Eday.
    apply CalendarFacts.scan_day_no_raise; try assumption. lia.
  - exfalso. revert Eday.
    apply CalendarFacts.scan_day_fuel. unfold day_fuel, slots_per_day. lia.
Qed.

(** The loop over the days without busy intervals. *)
Lemma scan_days_free (duration : timedelta) (n : nat) :
  0 <= duration <= hours 8 ->
  forall (current_time : datetime) (acc : list slot),
    current_time mod us_per_hour = 0 -> 0 <= current_time ->
    in_range (current_time + days (Z.of_nat n)) = true ->
    CalendarService.scan_days n [] duration current_time acc
    = Some (Ok (acc ++ every_day duration (date_of current_time) n)%list).
Proof.
  intros Hdur. assert (0 < us_per_day) as Hpos by reflexivity.
  induction n as [|n IH]; intros current_time acc Hmod Hnow Hend.
  - cbn. rewrite app_nil_r. reflexivity.
  - cbn [CalendarService.scan_days]. rewrite !replace_hour_whole by exact Hmod.
    apply in_range_inv in Hend.
    pose proof (date_of_bounds current_time) as Hd.
    assert (0 <= date_of current_time) by (unfold date_of; apply Z.div_pos; lia).
    rewrite scan_day_free; try assumption.
    2:{ unfold days in Hend. nia. }
    rewrite dt_add_ok.
    2:{ unfold in_range. apply andb_true_iff.
        split; [apply Z.leb_le | apply Z.ltb_lt]; unfold days in *; nia. }
    rewrite IH.
    + rewrite next_day_date, every_day_succ, <- app_assoc. reflexivity.
    + apply next_day_mod, Hmod.
    + unfold days. lia.
    + unfold in_range. apply andb_true_iff.
      split; [apply Z.leb_le | apply Z.ltb_lt]; unfold days in *; nia.
Qed.

(** A busy interval whose end is read as an aware datetime, or is not
    read at all, makes the test of a slot raise. *)
Lemma is_free_raises (busy : string * string) (rest : list (string * string))
    (slot_start slot_end : datetime) :
  (forall s, fromisoformat_zoned s <> Raise ProviderError) ->
  (forall t, fromisoformat_zoned (replace "Z" "+00:00" (snd busy))
             <> Ok (t, false)) ->
  exists e, e <> ProviderError /\
    is_free (busy :: rest) slot_start slot_end = Raise e.
Proof.
  intros Hparse Haware. cbn [is_free].
  destruct (fromisoformat_zoned (replace "Z" "+00:00" (fst busy)))
    as [busy_start|e] eqn:Es.
  2:{ exists e. split; [|reflexivity]. intros ->. exact (Hparse _ Es). }
  destruct (fromisoformat_zoned (replace "Z" "+00:00" (snd busy)))
    as [[t aware]|e] eqn:Ee.
  2:{ exists e. split; [|reflexivity]. intros ->. exact (Hparse _ Ee). }
  destruct aware; [|exfalso; exact (Haware t eq_refl)].
  exists TypeError. split; [discriminate | reflexivity].
Qed.

(** X25. For a user with a calendar token whose provider reports no busy
    interval, the endpoint answers with the first ten slots of the days of
    the window, Saturdays and Sundays included: the scan against the
    provider has no weekday test. The time is valid, the window stays in
    range and the duration is between nothing and eight hours. *)
Theorem remote_scan_lists_every_day (now : datetime)
    (duration_minutes days_ahead : Z) (user : User) (svc : service)
    (events : list CalendarEvent) :
  token_set (calendar_token user) = true ->
  build_service user = Ok svc ->
  in_range now = true ->
  in_range (now + days days_ahead) = true ->
  0 <= duration_minutes <= 480 ->
  freebusy_query svc (isoformat now +:+ "Z")
    (isoformat (now + days days_ahead) +:+ "Z") = Ok [] ->
  @Calendar.find_free_time remote now duration_minutes days_ahead (Some user)
    events
  = Some (Http200 (take 10 (every_day (minutes duration_minutes) (date_of now)
                              (Z.to_nat days_ahead)))).
Proof.
  intros Htoken Hsvc Hnow Hend Hdur Hbusy.
  unfold Calendar.find_free_time. rewrite Htoken.
  cbn [remote_free_time remote]. rewrite Hsvc. cbn [mbind result_bind].
  unfold CalendarService.find_free_time.
  rewrite (dt_add_ok _ _ Hend), Hbusy.
  pose proof CalendarFacts.us_per_hour_pos as Hpos.
  apply in_range_inv in Hnow, Hend.
  pose proof (Z.mod_pos_bound now us_per_hour Hpos) as Hm.
  assert (0 <= on_the_hour now <= now) as Hhour.
  { unfold on_the_hour. split; [|lia].
    apply Z.le_0_sub, Z.mod_le; lia. }
  rewrite scan_days_free.
  - rewrite on_the_hour_date. reflexivity.
  - unfold minutes, hours. change us_per_hour with (60 * us_per_minute).
    assert (0 < us_per_minute) by reflexivity. nia.
  - apply on_the_hour_mod.
  - lia.
  - assert (0 < us_per_day) by reflexivity.
    unfold in_range. apply andb_true_iff.
    destruct (Z.le_gt_cases days_ahead 0) as [Hle|Hgt].
    + rewrite Z2Nat.nonpos by exact Hle.
      split; [apply Z.leb_le | apply Z.ltb_lt]; unfold days in *; nia.
    + rewrite Z2Nat.id by lia.
      split; [apply Z.leb_le | apply Z.ltb_lt]; unfold days in *; nia.
Qed.

(** X26. For a user with a calendar token whose provider reports a busy
    interval, the endpoint answers 500 as soon as one slot is tested: the
    end of the interval is read as an aware datetime (or not read), and
    the slot is compared with it as a naive one. A slot is tested when the
    window has a day and the duration is at most eight hours. *)
Theorem remote_scan_fails_when_busy (now : datetime)
    (duration_minutes days_ahead : Z) (user : User) (svc : service)
    (events : list CalendarEvent) (busy : string * string)
    (rest : list (string * string)) :
  token_set (calendar_token user) = true ->
  build_service user = Ok svc ->
  in_range (now + days days_ahead) = true ->
  1 <= days_ahead ->
  duration_minutes <= 480 ->
  freebusy_query svc (isoformat now +:+ "Z")
    (isoformat (now + days days_ahead) +:+ "Z") = Ok (busy :: rest) ->
  (forall s, fromisoformat_zoned s <> Raise ProviderError) ->
  (forall t, fromisoformat_zoned (replace "Z" "+00:00" (snd busy))
             <> Ok (t, false)) ->
  @Calendar.find_free_time remote now duration_minutes days_ahead (Some user)
    events
  = Some (HTTPException 500 "Failed to find free time").
Proof.
  intros Htoken Hsvc Hend Hdays Hdur Hbusy Hparse Haware.
  unfold Calendar.find_free_time. rewrite Htoken.
  cbn [remote_free_time remote]. rewrite Hsvc. cbn [mbind result_bind].
  unfold CalendarService.find_free_time.
  rewrite (dt_add_ok _ _ Hend), Hbusy.
  destruct (Z.to_nat days_ahead) as [|n] eqn:En; [lia|].
  cbn [CalendarService.scan_days].
  rewrite !replace_hour_whole by apply on_the_hour_mod.
  unfold day_fuel. cbn [CalendarService.scan_day].
  set (d := date_of (on_the_hour now)).
  unfold dt_add at 1.
  destruct (in_range (combine d 9 + minutes duration_minutes)); [|reflexivity].
  assert ((combine d 9 + minutes duration_minutes <=? combine d 17) = true) as ->.
  { apply Z.leb_le. unfold combine, minutes, hours.
    change us_per_hour with (60 * us_per_minute).
    assert (0 < us_per_minute) by reflexivity. nia. }
  destruct (is_free_raises busy rest (combine d 9)
              (combine d 9 + minutes duration_minutes) Hparse Haware)
    as (e & Hne & ->).
  destruct e; try reflexivity. congruence.
Qed.

End Scan.

(** The provider of the examples, with one busy hour on the Monday, from
    08:00 of that day: the endpoint answers 500. *)
Lemma remote_scan_fails_when_busy_example :
  @Calendar.find_free_time
    (@remote Samples.busy_provider Samples.format Samples.zoned)
    (Examples.clock 0) 60 1 (Some Samples.connected) []
  = Some (HTTPException 500 "Failed to find free time").
Proof.
  apply (@remote_scan_fails_when_busy Samples.busy_provider Samples.format
           Samples.zoned (Examples.clock 0) 60 1 Samples.connected tt []
           ("2024-01-15T10:00:00Z", "2024-01-15T11:00:00Z") []);
    try reflexivity; try lia.
  - intros s. cbn. destruct (iso_fragment s) as [t|e] eqn:E; cbn; [discriminate|].
    intros [= ->]. apply iso_fragment_error in E. discriminate.
  - intros t. vm_compute. discriminate.
Defined.

(** The provider of the examples without busy intervals, from 08:00 of
    the Saturday of that week and for two days: eight slots on the
    Saturday and the first two of the Sunday. *)
Lemma remote_scan_lists_every_day_example :
  @Calendar.find_free_time
    (@remote (Samples.provider []) Samples.format Samples.zoned)
    (Calendar.at_time (Examples.monday + 5) 8 0) 60 2
    (Some Samples.connected) []
  = Some (Http200
      (map (hour_slot (Examples.monday + 5)) [9; 10; 11; 12; 13; 14; 15; 16]
       ++ map (hour_slot (Examples.monday + 6)) [9; 10])%list).
Proof.
  rewrite (@remote_scan_lists_every_day (Samples.provider []) Samples.format
             Samples.zoned (Calendar.at_time (Examples.monday + 5) 8 0) 60 2
             Samples.connected tt []);
    try reflexivity; try lia.
Defined.

End RemoteScanFacts.

(** ** Fetched messages *)

Module GmailFacts.

Import Models GmailService.

Lemma headers_dict_snoc (hs : list Header) (h : Header) :
  headers_dict (hs ++ [h]) = <[h_name h := h_value h]> (headers_dict hs).
Proof. unfold headers_dict. rewrite fold_left_app. reflexivity. Qed.

(** The dictionary of the headers answers with the last header of the
    name. *)
Lemma get_last_header (name : string) (hs : list Header) :
  get (headers_dict hs) name = last_header name hs.
Proof.
  induction hs as [|h hs IH] using rev_ind; [reflexivity|].
  rewrite headers_dict_snoc. unfold get, last_header in *.
  rewrite rev_app_distr. cbn [rev app List.filter].
  destruct (String.eqb_spec (h_name h) name) as [->|Hne].
  - rewrite lookup_insert_eq. reflexivity.
  - rewrite lookup_insert_ne by exact Hne. exact IH.
Qed.

Lemma carries_data (mime : string) (part : Payload) :
  carries mime part = true ->
  data part = Some (default "" (data part)) /\ mimeType part = mime.
Proof.
  unfold carries. intros Hc. apply andb_true_iff in Hc. destruct Hc as [Hm Hd].
  apply String.eqb_eq in Hm. split; [|exact Hm].
  destruct (data part) as [d|]; [reflexivity | discriminate].
Qed.

Lemma last_data_snoc (mime : string) (ps : list Payload) (p : Payload) :
  last_data mime (ps ++ [p])
  = if carries mime p then data p else last_data mime ps.
Proof.
  unfold last_data. rewrite rev_app_distr. cbn [rev app List.filter].
  destruct (carries mime p); reflexivity.
Qed.

Section Parsing.

Context `{Codec}.

Lemma read_part_cases (part : Payload) (body : Body) :
  (carries "text/plain" part = true /\ carries "text/html" part = false /\
   read_part part body
   = (decoded ← urlsafe_b64decode_utf8 (default "" (data part));
      mret {| text := decoded; html := html body |}))
  \/ (carries "text/plain" part = false /\ carries "text/html" part = true /\
      read_part part body
      = (decoded ← urlsafe_b64decode_utf8 (default "" (data part));
         mret {| text := text body; html := decoded |}))
  \/ (carries "text/plain" part = false /\ carries "text/html" part = false /\
      read_part part body = Ok body).
Proof.
  unfold read_part, carries.
  destruct (String.eqb_spec (mimeType part) "text/plain") as [E|E].
  - rewrite E. change ("text/plain" =? "text/html")%string with false.
    cbn [andb]. destruct (truthy (default "" (data part))); auto.
  - destruct (String.eqb (mimeType part) "text/html"); cbn [andb]; auto.
    destruct (truthy (default "" (data part))); auto.
Qed.

Lemma read_parts_snoc (ps : list Payload) (p : Payload) (body : Body) :
  read_parts (ps ++ [p]) body
  = match read_parts ps body with
    | Ok body => read_part p body
    | Raise e => Raise e
    end.
Proof.
  revert body. induction ps as [|q ps IH]; intros body; cbn [read_parts app].
  - destruct (read_part p body); reflexivity.
  - destruct (read_part q body) as [body'|e]; [apply IH | reflexivity].
Qed.

(** After the loop, the text is that of the last plain part with data,
    and the HTML that of the last HTML part with data. *)
Lemma read_parts_last (ps : list Payload) (body after : Body) :
  read_parts ps body = Ok after ->
  read_as "text/plain" ps (text body) (text after)
  /\ read_as "text/html" ps (html body) (html after).
Proof.
  revert after. induction ps as [|p ps IH] using rev_ind; intros after Hread.
  - injection Hread as <-. split; reflexivity.
  - rewrite read_parts_snoc in Hread.
    destruct (read_parts ps body) as [mid|e]; [|discriminate].
    destruct (IH mid eq_refl) as [Ht Hh].
    unfold read_as in *. rewrite !last_data_snoc.
    destruct (read_part_cases p mid) as [(Hp & Hq & E)|[(Hp & Hq & E)|(Hp & Hq & E)]];
      rewrite E in Hread; rewrite Hp, Hq.
    + destruct (carries_data _ _ Hp) as [-> _].
      destruct (urlsafe_b64decode_utf8 (default "" (data p))) as [decoded|];
        [|discriminate].
      injection Hread as <-. split; [reflexivity | exact Hh].
    + destruct (carries_data _ _ Hq) as [-> _].
      destruct (urlsafe_b64decode_utf8 (default "" (data p))) as [decoded|];
        [|discriminate].
      injection Hread as <-. split; [exact Ht | reflexivity].
    + injection Hread as <-. split; assumption.
Qed.

(** The loop raises exactly when it meets a part that it cannot decode. *)
Lemma read_parts_raises (ps : list Payload) (body : Body) :
  (exists e, read_parts ps body = Raise e)
  <-> exists p, In p ps /\ unreadable p.
Proof.
  revert body. induction ps as [|p ps IH]; intros body; cbn [read_parts].
  - split; [intros [e He]; discriminate | intros (p & [] & _)].
  - destruct (read_part_cases p body)
      as [(Hp & Hq & E)|[(Hp & Hq & E)|(Hp & Hq & E)]]; rewrite E.
    1,2: destruct (urlsafe_b64decode_utf8 (default "" (data p)))
           as [decoded|e] eqn:Ed; cbn [mbind result_bind mret result_ret].
    1,3,5: rewrite IH; split;
           [ intros (q & Hin & Hq'); exists q; split; [right; exact Hin | exact Hq']
           | intros (q & [<-|Hin] & Hq');
             [ destruct Hq' as [Hc [e He]]; exfalso;
               try congruence; destruct Hc; congruence
             | exists q; split; assumption ] ].
    all: split; [intros _ | intros _; exists e; reflexivity];
         exists p; (split; [left; reflexivity|]); split; eauto.
Qed.

Lemma extract_body_top_level (payload : Payload) :
  _extract_body payload
  = read_parts (top_level payload) {| text := ""; html := "" |}.
Proof.
  unfold _extract_body, top_level. destruct (parts payload); [reflexivity|].
  cbn [read_parts]. destruct (read_part payload _); reflexivity.
Qed.

(** X27. A message that parses has, as sender, recipient, subject and
    timestamp, the value of the last header named exactly [From], [To],
    [Subject] and [Date] (or the empty text); as body and HTML body the
    decoded data of the last top-level part of type text/plain and
    text/html that has data (or the empty text); and it is marked as
    having an attachment exactly when the payload has two parts or more,
    whatever their types are. *)
Theorem parse_email_answer (message : Message) (email : Sync.GmailEmail) :
  _parse_email message = Ok email ->
  let payload := m_payload message in
  let hs := default [] (headers payload) in
  Sync.g_gmail_id email = m_id message
  /\ Sync.g_sender email = last_header "From" hs
  /\ Sync.g_recipient email = last_header "To" hs
  /\ Sync.g_subject email = last_header "Subject" hs
  /\ Sync.g_timestamp email = last_header "Date" hs
  /\ read_as "text/plain" (top_level payload) "" (Sync.g_body email)
  /\ read_as "text/html" (top_level payload) "" (Sync.g_html_body email)
  /\ (Sync.g_has_attachment email = true
      <-> (2 <= length (default [] (parts payload)))%nat).
Proof.
  unfold _parse_email. rewrite extract_body_top_level.
  destruct (read_parts (top_level (m_payload message)) _) as [body|e] eqn:Eb;
    [|discriminate].
  intros [= <-]. cbn [Sync.g_gmail_id Sync.g_sender Sync.g_recipient
    Sync.g_subject Sync.g_timestamp Sync.g_body Sync.g_html_body
    Sync.g_has_attachment].
  rewrite !get_last_header.
  destruct (read_parts_last _ _ _ Eb) as [Ht Hh].
  repeat split; try assumption.
  - intros Hlt. apply Nat.ltb_lt in Hlt. lia.
  - intros Hle. apply Nat.ltb_lt. lia.
Qed.

(** X28. A message does not parse exactly when one of its top-level
    parts of type text/plain or text/html has data that cannot be
    decoded: one such part loses the message, also when a later part of
    the type would have replaced it. *)
Theorem parse_email_fails (message : Message) :
  (exists e, _parse_email message = Raise e)
  <-> exists part, In part (top_level (m_payload message)) /\ unreadable part.
Proof.
  rewrite <- read_parts_raises with (body := {| text := ""; html := "" |}).
  unfold _parse_email. rewrite extract_body_top_level.
  destruct (read_parts (top_level (m_payload message)) _) as [body|e];
    split; intros [e' He]; try discriminate; eauto.
Qed.

Section Fetching.

Context `{GmailApi}.

Lemma fetch_each_ok (svc : service) (ids : list string) :
  forall acc emails,
    fetch_each svc ids acc = Ok emails
    <-> exists new, emails = (acc ++ new)%list /\ Forall2 (fetched svc) ids new.
Proof.
  induction ids as [|id ids IH]; intros acc emails; cbn [fetch_each].
  - split.
    + intros [= <-]. exists []. rewrite app_nil_r. split; constructor.
    + intros (new & -> & Hall). inversion Hall. rewrite app_nil_r. reflexivity.
  - split.
    + destruct (messages_get svc id) as [msg|] eqn:Eg; [|discriminate].
      destruct (_parse_email msg) as [email|] eqn:Ep; [|discriminate].
      intros Hrest. apply IH in Hrest. destruct Hrest as (new & -> & Hall).
      exists (email :: new). rewrite <- app_assoc. split; [reflexivity|].
      constructor; [exists msg; split; assumption | exact Hall].
    + intros (new & -> & Hall). inversion Hall as [|? email ? rest Hf Hrest]; subst.
      destruct Hf as (msg & -> & ->). apply IH. exists rest.
      rewrite <- app_assoc. split; [reflexivity | exact Hrest].
Qed.

(** X29. [fetch_emails] answers with messages exactly when the listing
    succeeds and every listed message is downloaded and parsed: the answer
    then has one parsed message for each listed id, in the order of the
    listing. One message that fails loses the batch. *)
Theorem fetch_emails_all_or_nothing (svc : service) (query : string)
    (max_results : Z) (emails : list Sync.GmailEmail) :
  fetch_emails svc query max_results = Ok emails
  <-> exists results,
        messages_list svc query max_results = Ok results
        /\ Forall2 (fetched svc) (default [] results) emails.
Proof.
  unfold fetch_emails.
  destruct (messages_list svc query max_results) as [results|e].
  - rewrite fetch_each_ok. split.
    + intros (new & -> & Hall). exists results. split; [reflexivity | exact Hall].
    + intros (results' & [= <-] & Hall). exists emails. split; [reflexivity | exact Hall].
  - split; [discriminate | intros (results & [=] & _)].
Qed.

End Fetching.

End Parsing.

(** A message of two alternatives, one plain and one HTML, and no file:
    it is marked as having an attachment. *)
Lemma parse_email_answer_example :
  @_parse_email Samples.codec Samples.two_alternatives
  = Ok Samples.two_alternatives_parsed
  /\ Sync.g_has_attachment Samples.two_alternatives_parsed = true
  /\ Sync.g_sender Samples.two_alternatives_parsed = "".
Proof.
  split; [reflexivity|].
  destruct (@parse_email_answer Samples.codec Samples.two_alternatives
              Samples.two_alternatives_parsed eq_refl)
    as (_ & Hfrom & _ & _ & _ & _ & _ & Hatt).
  split; [apply Hatt; cbn; lia | exact Hfrom].
Defined.

End GmailFacts.
